(** * Order-execution core of polymarket_tools: model and properties

    A shallow embedding of the order-execution core of the repository
    ([backend/utilities.py], [backend/order_orchestrator.py],
    [backend/websocket_handlers.py]) and the properties proved of it.

    The file has three parts: the model, one module per class, each
    method under its own name; the vocabulary in which the properties are
    stated, with concrete data to try them on; and the properties.

    Conventions of the model.
    - Python [float] quantities, prices and clock readings are exact
      rationals ([Q]): rounding error, infinities and NaN of IEEE doubles
      are outside this model, and what is proved over it is about the
      bookkeeping of the program, not about the last bit of a number.
      The one infinity the code writes down ([float('inf')], the default
      of an empty [min]) is an [option].
    - Where the outcome hangs on a number meeting a threshold exactly
      (the own-quote test of [_calculate_target_price], the token test of
      [RateLimiter.acquire], the average of [get_average_fill_price]),
      the functions are modelled a second time in [Binary64], over IEEE
      binary64 numbers with their rounding, infinities and NaN, and the
      properties about those outcomes are stated and proved there.
    - [time.time()] and [datetime.now()] read an explicit clock, in
      seconds.
    - Console output ([print]) is not modelled.  What leaves the process
      is recorded as events: rate-limiter decisions, sleeps, requests to
      the trading client; tasks handed to the event loop are returned by
      the call that creates them.
    - The trading client is outside the repository: it is a parameter of
      the model, free to answer each request as it likes.
    - A coroutine is run to completion before the next one starts. *)

From Stdlib Require Import Floats.
From Stdlib Require Import QArith Qabs Qround Qpower Lqa Lia ZArith.
From Stdlib Require Import List String Ascii Bool DecimalString Sorted.
From stdpp Require Import gmap strings.
Import ListNotations.

Local Open Scope Q_scope.
Set Warnings "-inexact-float".

(** ** Python numerics over exact rationals *)

Module Py.

Definition Qltb (x y : Q) : bool := negb (Qle_bool y x).

(** [min(a, b)] and [max(a, b)] of the Python builtins: the first argument
    wins unless the second is strictly smaller (resp. larger). *)
Definition min (a b : Q) : Q := if Qltb b a then b else a.
Definition max (a b : Q) : Q := if Qltb a b then b else a.

Definition abs (x : Q) : Q := Qabs x.

(** Nearest integer, ties to the even one, as [round] does. *)
Definition round_half_even (x : Q) : Z :=
  let f := Qfloor x in
  match Qcompare (x - inject_Z f) (1 # 2) with
  | Lt => f
  | Gt => (f + 1)%Z
  | Eq => if Z.even f then f else (f + 1)%Z
  end.

(** [round(x, ndigits)] for a non-negative number of digits. *)
Definition round (x : Q) (ndigits : nat) : Q :=
  let scale := inject_Z (10 ^ Z.of_nat ndigits) in
  inject_Z (round_half_even (x * scale)) / scale.

(** [int(x)]: truncation towards zero. *)
Definition int (x : Q) : Z := if Qle_bool 0 x then Qfloor x else Qceiling x.

(** [str(n)] of an integer. *)
Definition str_of_Z (n : Z) : string := NilZero.string_of_int (Z.to_int n).

(** [s.lower()] on ASCII text. *)
Definition lower_ascii (c : ascii) : ascii :=
  let n := nat_of_ascii c in
  if ((65 <=? n) && (n <=? 90))%nat then ascii_of_nat (n + 32) else c.

Fixpoint lower (s : string) : string :=
  match s with
  | EmptyString => EmptyString
  | String c s' => String (lower_ascii c) (lower s')
  end.

(** [sub in s] on strings. *)
Fixpoint contains (sub s : string) : bool :=
  String.prefix sub s ||
  match s with
  | EmptyString => false
  | String _ s' => contains sub s'
  end.

End Py.

(** ** Python dictionaries with string keys

    A [dict] has unique keys and iterates in insertion order: it is kept
    as an association list that the operations keep free of duplicate
    keys. *)

Module Dict.

Definition mem {V} (k : string) (d : list (string * V)) : bool :=
  existsb (fun kv => String.eqb (fst kv) k) d.

Fixpoint get {V} (k : string) (d : list (string * V)) : option V :=
  match d with
  | [] => None
  | (k', v) :: d' => if String.eqb k' k then Some v else get k d'
  end.

(** [d[k] = v]: an existing key keeps its place. *)
Fixpoint set {V} (k : string) (v : V) (d : list (string * V)) : list (string * V) :=
  match d with
  | [] => [(k, v)]
  | (k', v') :: d' =>
      if String.eqb k' k then (k, v) :: d' else (k', v') :: set k v d'
  end.

(** [del d[k]]. *)
Definition del {V} (k : string) (d : list (string * V)) : list (string * V) :=
  List.filter (fun kv => negb (String.eqb (fst kv) k)) d.

Definition keys {V} (d : list (string * V)) : list string := map fst d.
Definition values {V} (d : list (string * V)) : list V := map snd d.

End Dict.

(** ** utilities.py *)

Definition MIN_ORDER_SIZE : Q := 5.

Module StrategyConfig.

Record t := {
  token_id : string;
  limit_price : Q;
  total_quantity : Q;
  child_order_size : Q;
  order_price_min_tick_size : Q;
  side : string;
  timeout_seconds : Z;
  rate_limit_per_second : Q;
  max_pending_orders : Z;
  price_improvement_ticks : Z;
  match_top_of_book : bool;
  inside_liquidity_mode : bool
}.

(** [config.limit_price = x] *)
Definition set_limit_price (x : Q) (config : t) : t :=
  {| token_id := token_id config;
     limit_price := x;
     total_quantity := total_quantity config;
     child_order_size := child_order_size config;
     order_price_min_tick_size := order_price_min_tick_size config;
     side := side config;
     timeout_seconds := timeout_seconds config;
     rate_limit_per_second := rate_limit_per_second config;
     max_pending_orders := max_pending_orders config;
     price_improvement_ticks := price_improvement_ticks config;
     match_top_of_book := match_top_of_book config;
     inside_liquidity_mode := inside_liquidity_mode config |}.


End StrategyConfig.

Record OrderState := {
  order_id : string;
  price : Q;
  size : Q;
  status : string;
  created_at : Q;
  updated_at : Q;
  filled_size : Q
}.

Record MarketData := {
  asset_id : string;
  top_bid : Q;
  top_ask : Q;
  bid_size : Q;
  ask_size : Q;
  timestamp : Q
}.

Module PositionState.

Record t := {
  target_quantity : Q;
  filled_quantity : Q;
  pending_quantity : Q;
  average_fill_price : Q;
  unrealized_pnl : Q
}.

End PositionState.

(** *** RateLimiter *)

Module RateLimiter.

Record t := {
  max_requests_per_second : Q;
  tokens : Q;
  last_update : Q
}.

Definition __init__ (now max_requests_per_second : Q) : t :=
  {| max_requests_per_second := max_requests_per_second;
     tokens := max_requests_per_second;
     last_update := now |}.

(** [acquire] at clock reading [now]: refill, then take a token if one
    whole token is there. *)
Definition acquire (now : Q) (self : t) : bool * t :=
  let elapsed := now - last_update self in
  let tokens' :=
    Py.min (max_requests_per_second self)
           (tokens self + elapsed * max_requests_per_second self) in
  if Qle_bool 1 tokens'
  then (true,
        {| max_requests_per_second := max_requests_per_second self;
           tokens := tokens' - 1;
           last_update := now |})
  else (false,
        {| max_requests_per_second := max_requests_per_second self;
           tokens := tokens';
           last_update := now |}).

Definition get_current_rate (self : t) : Q := tokens self.

Definition reset (now : Q) (self : t) : t :=
  {| max_requests_per_second := max_requests_per_second self;
     tokens := max_requests_per_second self;
     last_update := now |}.

(** Consecutive [acquire] calls at the given clock readings; the answers
    in call order and the limiter afterwards. *)
Fixpoint acquire_all (times : list Q) (self : t) : list bool * t :=
  match times with
  | [] => ([], self)
  | now :: rest =>
      let '(ok, self') := acquire now self in
      let '(oks, self'') := acquire_all rest self' in
      (ok :: oks, self'')
  end.

End RateLimiter.

(** *** PositionTracker *)

Module PositionTracker.

Record fill := {
  fill_size : Q;
  fill_price : Q;
  fill_timestamp : Q
}.

Record t := {
  token_id : string;
  target_quantity : Q;
  filled_quantity : Q;
  pending_orders : list (string * OrderState);
  fill_history : list fill;
  total_fill_value : Q
}.

Definition __init__ (token_id : string) (target_quantity : Q) : t :=
  {| token_id := token_id;
     target_quantity := target_quantity;
     filled_quantity := 0;
     pending_orders := [];
     fill_history := [];
     total_fill_value := 0 |}.

Definition get_remaining_quantity (self : t) : Q :=
  Py.max 0 (target_quantity self - filled_quantity self).

Definition update_filled_quantity (now fill_size fill_price : Q) (self : t) : t :=
  let remaining_quantity := get_remaining_quantity self in
  let actual_fill_size := Py.min fill_size remaining_quantity in
  if Qle_bool actual_fill_size 0 then self
  else
    {| token_id := token_id self;
       target_quantity := target_quantity self;
       filled_quantity := filled_quantity self + actual_fill_size;
       pending_orders := pending_orders self;
       fill_history :=
         fill_history self ++
         [ {| fill_size := actual_fill_size;
              fill_price := fill_price;
              fill_timestamp := now |} ];
       total_fill_value := total_fill_value self + actual_fill_size * fill_price |}.

Definition set_pending_orders (d : list (string * OrderState)) (self : t) : t :=
  {| token_id := token_id self;
     target_quantity := target_quantity self;
     filled_quantity := filled_quantity self;
     pending_orders := d;
     fill_history := fill_history self;
     total_fill_value := total_fill_value self |}.

(** [tracker.target_quantity = x], as [OrderManager.update_parameters]
    writes it. *)
Definition set_target_quantity (x : Q) (self : t) : t :=
  {| token_id := token_id self;
     target_quantity := x;
     filled_quantity := filled_quantity self;
     pending_orders := pending_orders self;
     fill_history := fill_history self;
     total_fill_value := total_fill_value self |}.

Definition add_pending_order (now : Q) (order_id : string) (price size : Q) (self : t) : t :=
  set_pending_orders
    (Dict.set order_id
       {| order_id := order_id; price := price; size := size;
          status := "LIVE"; created_at := now; updated_at := now;
          filled_size := 0 |}
       (pending_orders self))
    self.

Definition remove_pending_order (order_id : string) (self : t) : t :=
  if Dict.mem order_id (pending_orders self)
  then set_pending_orders (Dict.del order_id (pending_orders self)) self
  else self.

Definition get_pending_quantity (self : t) : Q :=
  fold_left (fun acc kv => acc + size (snd kv)) (pending_orders self) 0.

Definition get_pending_orders (self : t) : list OrderState :=
  Dict.values (pending_orders self).

Definition get_average_fill_price (self : t) : Q :=
  if Qeq_bool (filled_quantity self) 0 then 0
  else total_fill_value self / filled_quantity self.

Definition is_target_reached (self : t) : bool :=
  Qle_bool (target_quantity self) (filled_quantity self).


(** [new_status in ["MATCHED", "CANCELED"]] *)
Definition is_final_status (new_status : string) : bool :=
  String.eqb new_status "MATCHED" || String.eqb new_status "CANCELED".

(** The three attribute writes of [update_order_status] on a tracked
    order. *)
Definition restated (now : Q) (new_status : string) (filled : Q) (order : OrderState)
    : OrderState :=
  {| order_id := order_id order;
     price := price order;
     size := size order;
     status := new_status;
     created_at := created_at order;
     updated_at := now;
     filled_size := filled_size order + filled |}.

Definition update_order_status (now : Q) (order_id new_status : string) (filled_size : Q)
    (self : t) : t :=
  match Dict.get order_id (pending_orders self) with
  | Some order =>
      let self :=
        set_pending_orders
          (Dict.set order_id (restated now new_status filled_size order) (pending_orders self))
          self in
      if is_final_status new_status then remove_pending_order order_id self else self
  | None => self
  end.


Definition apply_fills (calls : list (Q * Q * Q)) (self : t) : t :=
  fold_left (fun s c => let '(now, fs, fp) := c in update_filled_quantity now fs fp s)
            calls self.

End PositionTracker.

(** *** StopConditionManager *)

Module StopConditionManager.

(** A coroutine handed to the event loop by
    [asyncio.create_task(self.stop_callback(reason))]. *)
Record task := {
  task_callback : string;
  task_reason : string
}.

(** [stop_callback] holds the registered coroutine function, named by a
    handle, or [None]. *)
Record t := {
  timeout_seconds : Z;
  start_time : Q;
  stop_requested : bool;
  large_order_threshold : Q;
  stop_callback : option string
}.

Definition __init__ (now : Q) (timeout_seconds : Z) : t :=
  {| timeout_seconds := timeout_seconds;
     start_time := now;
     stop_requested := false;
     large_order_threshold := 1000;
     stop_callback := None |}.

Definition set_stop_callback (callback : string) (self : t) : t :=
  {| timeout_seconds := timeout_seconds self;
     start_time := start_time self;
     stop_requested := stop_requested self;
     large_order_threshold := large_order_threshold self;
     stop_callback := Some callback |}.

Definition create_task (self : t) (reason : string) : list task :=
  match stop_callback self with
  | Some cb => [ {| task_callback := cb; task_reason := reason |} ]
  | None => []
  end.

Definition request_stop (self : t) : t * list task :=
  ({| timeout_seconds := timeout_seconds self;
      start_time := start_time self;
      stop_requested := true;
      large_order_threshold := large_order_threshold self;
      stop_callback := stop_callback self |},
   create_task self "manual_stop").

Definition check_timeout (now : Q) (self : t) : bool * list task :=
  let elapsed := now - start_time self in
  if Py.Qltb (inject_Z (timeout_seconds self)) elapsed
  then (true, create_task self "timeout")
  else (false, []).

Definition check_large_order_impact (market_data previous_market_data : MarketData)
    (self : t) : bool := false.

Definition should_stop (now : Q) (self : t) : bool * list task :=
  if stop_requested self then (true, [])
  else
    let '(timed_out, tasks) := check_timeout now self in
    if timed_out then (true, tasks) else (false, tasks).

Definition reset_timer (now : Q) (self : t) : t :=
  {| timeout_seconds := timeout_seconds self;
     start_time := now;
     stop_requested := stop_requested self;
     large_order_threshold := large_order_threshold self;
     stop_callback := stop_callback self |}.

Definition extend_timeout (additional_seconds : Z) (self : t) : t :=
  {| timeout_seconds := (timeout_seconds self + additional_seconds)%Z;
     start_time := start_time self;
     stop_requested := stop_requested self;
     large_order_threshold := large_order_threshold self;
     stop_callback := stop_callback self |}.

Definition get_remaining_time (now : Q) (self : t) : Z :=
  let elapsed := now - start_time self in
  let remaining := inject_Z (timeout_seconds self) - elapsed in
  Z.max 0 (Py.int remaining).

(** The calls a client of the manager makes, each at a clock reading. *)
Inductive call :=
| RequestStop
| ShouldStop (now : Q)
| CheckTimeout (now : Q).

Definition step (c : call) (self : t) : t * list task :=
  match c with
  | RequestStop => request_stop self
  | ShouldStop now => (self, snd (should_stop now self))
  | CheckTimeout now => (self, snd (check_timeout now self))
  end.

(** Every task created along a run of calls, in creation order. *)
Fixpoint run (calls : list call) (self : t) : t * list task :=
  match calls with
  | [] => (self, [])
  | c :: rest =>
      let '(self', tasks) := step c self in
      let '(self'', tasks') := run rest self' in
      (self'', tasks ++ tasks')
  end.

Definition reasons (tasks : list task) : list string := map task_reason tasks.

End StopConditionManager.

(** ** The trading client and the effects of a coroutine *)

(** [OrderArgs] of the client library. *)
Module OrderArgs.

Record t := {
  price : Q;
  size : Q;
  side : string;
  token_id : string
}.

End OrderArgs.

(** What a client call does: it returns a response or raises with a
    message. *)
Inductive reply (A : Type) :=
| Responds (resp : A)
| Throws (message : string).
Arguments Responds {A} resp.
Arguments Throws {A} message.

(** The shapes of a [post_order] response the executor tells apart. *)
Inductive post_response :=
| PostFalsy
| PostDict (success : bool) (orderID : option string)
| PostStr (s : string)
| PostOther.

(** The shapes of a [cancel_orders] response the executor tells apart.  A
    [CancelList] is a non-empty list; an empty list, an empty dict and
    [None] are [CancelFalsy]. *)
Inductive cancel_response :=
| CancelFalsy
| CancelDict (canceled : list string) (not_canceled : list (string * string))
| CancelList
| CancelOther.

(** The signing client is outside the repository: it is a parameter of the
    model.  The [n]-th request it serves takes some wall-clock time and
    then replies.  [create_order] followed by [post_order] is one
    request. *)
Record ClobClient := {
  served : nat;
  post_order_reply : nat -> OrderArgs.t -> Q * reply post_response;
  cancel_orders_reply : nat -> list string -> Q * reply cancel_response
}.

Inductive event :=
| EvAcquire (granted : bool)
| EvSleep (seconds : Q)
| EvPostOrder (args : OrderArgs.t) (r : reply post_response)
| EvCancelOrders (ids : list string) (r : reply cancel_response).

(** The outcome of a call: a value, or a raised exception with its
    message. *)
Inductive result (A : Type) :=
| Ok (a : A)
| Err (message : string).
Arguments Ok {A} a.
Arguments Err {A} message.

(** A coroutine over a state [S]: its outcome, the state it leaves and the
    events it caused, in order. *)
Definition M (S A : Type) : Type := S -> result A * S * list event.

Definition ret {S A} (a : A) : M S A := fun s => (Ok a, s, []).

Definition raise {S A} (message : string) : M S A := fun s => (Err message, s, []).

Definition bind {S A B} (m : M S A) (f : A -> M S B) : M S B :=
  fun s =>
    match m s with
    | (Ok a, s1, ev1) =>
        let '(r, s2, ev2) := f a s1 in (r, s2, ev1 ++ ev2)
    | (Err e, s1, ev1) => (Err e, s1, ev1)
    end.

(** [try: m except Exception as e: handler(e)]. *)
Definition try_except {S A} (m : M S A) (handler : string -> M S A) : M S A :=
  fun s =>
    match m s with
    | (Ok a, s1, ev1) => (Ok a, s1, ev1)
    | (Err e, s1, ev1) =>
        let '(r, s2, ev2) := handler e s1 in (r, s2, ev1 ++ ev2)
    end.

Definition get {S} : M S S := fun s => (Ok s, s, []).
Definition modify {S} (f : S -> S) : M S unit := fun s => (Ok tt, f s, []).

(** Run a coroutine of a component [T] held inside the state [S]. *)
Definition zoom {S T A} (proj : S -> T) (inj : T -> S -> S) (m : M T A) : M S A :=
  fun s => let '(r, t', ev) := m (proj s) in (r, inj t' s, ev).

Declare Scope coroutine_scope.
Delimit Scope coroutine_scope with co.
Notation "x <- m ;; k" := (bind m (fun x => k))
  (at level 100, m at next level, right associativity) : coroutine_scope.
Notation "m ;;; k" := (bind m (fun _ => k))
  (at level 100, right associativity) : coroutine_scope.
Local Open Scope coroutine_scope.

(** ** order_orchestrator.py *)

Definition BUY : string := "BUY".
Definition SELL : string := "SELL".

(** Truth value of an optional string ([None] and the empty string are
    false). *)
Definition truthy (o : option string) : bool :=
  match o with
  | Some s => negb (String.eqb s "")
  | None => false
  end.

(** *** OrderExecutor *)

Module OrderExecutor.

(** Besides its attributes the executor carries what its calls read from
    outside the process: the wall clock. *)
Record t := {
  clock : Q;
  client : ClobClient;
  rate_limiter : RateLimiter.t;
  pending_orders : list (string * OrderState)
}.

Definition __init__ (now : Q) (client : ClobClient) (rate_limiter : RateLimiter.t) : t :=
  {| clock := now; client := client; rate_limiter := rate_limiter; pending_orders := [] |}.

(** [await self.rate_limiter.acquire()] *)
Definition acquire : M t bool :=
  fun self =>
    let '(granted, rl) := RateLimiter.acquire (clock self) (rate_limiter self) in
    (Ok granted,
     {| clock := clock self; client := client self; rate_limiter := rl;
        pending_orders := pending_orders self |},
     [EvAcquire granted]).

(** [await asyncio.sleep(seconds)] *)
Definition sleep (seconds : Q) : M t unit :=
  fun self =>
    (Ok tt,
     {| clock := clock self + seconds; client := client self;
        rate_limiter := rate_limiter self; pending_orders := pending_orders self |},
     [EvSleep seconds]).

Definition served_one (elapsed : Q) (self : t) : t :=
  {| clock := clock self + elapsed;
     client :=
       {| served := S (served (client self));
          post_order_reply := post_order_reply (client self);
          cancel_orders_reply := cancel_orders_reply (client self) |};
     rate_limiter := rate_limiter self;
     pending_orders := pending_orders self |}.

(** [self.client.post_order(self.client.create_order(order_args), "GTC")] *)
Definition client_post_order (args : OrderArgs.t) : M t post_response :=
  fun self =>
    let '(elapsed, r) := post_order_reply (client self) (served (client self)) args in
    match r with
    | Responds resp => (Ok resp, served_one elapsed self, [EvPostOrder args r])
    | Throws e => (Err e, served_one elapsed self, [EvPostOrder args r])
    end.

(** [self.client.cancel_orders(ids)] *)
Definition client_cancel_orders (ids : list string) : M t cancel_response :=
  fun self =>
    let '(elapsed, r) := cancel_orders_reply (client self) (served (client self)) ids in
    match r with
    | Responds resp => (Ok resp, served_one elapsed self, [EvCancelOrders ids r])
    | Throws e => (Err e, served_one elapsed self, [EvCancelOrders ids r])
    end.

Definition _validate_order_params (price size : Q) : bool :=
  if Qle_bool price 0 || Qle_bool size 0 then false
  else if Py.Qltb 1 price then false
  else if Py.Qltb size MIN_ORDER_SIZE then false
  else true.

Definition is_balance_error (error_msg : string) : bool :=
  Py.contains "not enough balance" (Py.lower error_msg)
  || Py.contains "allowance" (Py.lower error_msg).

(** The [timeout_seconds] parameters of [place_order] and [cancel_order]
    are never read by their bodies and are left out. *)
Definition place_order (token_id : string) (price size : Q) (side : string)
    : M t (option string) :=
  (if negb (_validate_order_params price size) then ret None
   else
     granted <- acquire ;;
     if negb granted then ret None
     else
       try_except
         (resp <- client_post_order
                    {| OrderArgs.price := price; OrderArgs.size := size; OrderArgs.side := side;
                       OrderArgs.token_id := token_id |} ;;
          match resp with
          | PostFalsy => ret None
          | PostDict success orderID =>
              if success
              then (if truthy orderID then ret orderID else ret None)
              else ret None
          | PostStr s => if String.eqb s "" then ret None else ret (Some s)
          | PostOther => ret None
          end)
         (fun error_msg =>
            if is_balance_error error_msg
            then raise (String.append "Fatal error - insufficient balance/allowance: " error_msg)
            else ret None))%co.

Definition msg_cancel_failed (order_id : string) (max_retries : Z) : string :=
  String.append "Failed to cancel order "
    (String.append order_id
       (String.append " after " (String.append (Py.str_of_Z max_retries) " attempts"))).

(** Does the response say that [order_id] is canceled?  The branches of
    [cancel_order] that execute [return True]. *)
Definition cancel_confirmed (order_id : string) (resp : cancel_response) : bool :=
  match resp with
  | CancelFalsy => false
  | CancelDict canceled not_canceled =>
      if existsb (String.eqb order_id) canceled then true
      else
        match Dict.get order_id not_canceled with
        | Some error_reason => String.eqb error_reason "order already canceled"
        | None => false
        end
  | CancelList => true
  | CancelOther => false
  end.

(** One turn of the loop of [cancel_order]: [Some b] when the turn
    executes [return b], [None] when the loop goes on to the next
    attempt. *)
Definition cancel_attempt (order_id : string) (max_retries attempt : Z)
    : M t (option bool) :=
  (granted <- acquire ;;
   if negb granted then
     if (attempt =? max_retries - 1)%Z
     then raise (String.append (msg_cancel_failed order_id max_retries)
                               " due to rate limiting")
     else sleep 1 ;;; ret None
   else
     try_except
       (resp <- client_cancel_orders [order_id] ;;
        if cancel_confirmed order_id resp then ret (Some true)
        else if (attempt =? max_retries - 1)%Z
        then raise (msg_cancel_failed order_id max_retries)
        else ret None)
       (fun e =>
          if (attempt =? max_retries - 1)%Z
          then raise (String.append (msg_cancel_failed order_id max_retries)
                                    (String.append ": " e))
          else sleep 1 ;;; ret None))%co.

(** [for attempt in range(max_retries)], with [todo] turns left, followed
    by the final [return False]. *)
Fixpoint cancel_loop (order_id : string) (max_retries : Z) (todo : nat) (attempt : Z)
    : M t bool :=
  match todo with
  | O => ret false
  | S todo' =>
      (r <- cancel_attempt order_id max_retries attempt ;;
       match r with
       | Some b => ret b
       | None => cancel_loop order_id max_retries todo' (attempt + 1)%Z
       end)%co
  end.

Definition cancel_order (order_id : string) (max_retries : Z) : M t bool :=
  cancel_loop order_id max_retries (Z.to_nat max_retries) 0%Z.

(** An entry of the list [client.get_orders] returns: the two keys
    [cancel_all_orders] reads, [None] for a key that is absent. *)
Record open_order := {
  oo_asset_id : option string;
  oo_id : option string
}.

Section OpenOrders.

(** [self.client.get_orders(OpenOrderParams())], which the record
    [ClobClient] does not hold: what the [n]-th request served answers,
    and after how long.  [None] is a response that is not a list.  The
    request reads the venue and changes nothing there: it leaves no
    event. *)
Variable get_orders_reply : nat -> Q * reply (option (list open_order)).

Definition client_get_orders : M t (option (list open_order)) :=
  fun self =>
    let '(elapsed, r) := get_orders_reply (served (client self)) in
    match r with
    | Responds resp => (Ok resp, served_one elapsed self, [])
    | Throws e => (Err e, served_one elapsed self, [])
    end.

(** A coroutine of the executor, run beside a local variable. *)
Definition on_self {L A} (m : M t A) : M (t * L) A :=
  zoom fst (fun self' s => (self', snd s)) m.

(** The loop of [cancel_all_orders] over the listed orders, beside the
    local list [cancelled_orders]. *)
Fixpoint cancel_listed (token_id : string) (orders : list open_order)
    : M (t * list string) unit :=
  match orders with
  | [] => ret tt
  | order :: rest =>
      ((match oo_asset_id order, oo_id order with
        | Some asset_id, Some order_id =>
            if String.eqb asset_id token_id && truthy (Some order_id) then
              ok <- on_self (cancel_order order_id 5) ;;
              if ok then modify (fun s => (fst s, snd s ++ [order_id])) else ret tt
            else ret tt
        | _, _ => ret tt
        end) ;;;
       cancel_listed token_id rest)%co
  end.

Definition cancel_all_orders (token_id : string) : M t (list string) :=
  fun self =>
    let '(_, (self', cancelled_orders), evs) :=
      try_except
        (resp <- on_self client_get_orders ;;
         match resp with
         | Some orders => cancel_listed token_id orders
         | None => ret tt
         end)
        (fun _ => ret tt)
        (self, []) in
    (Ok cancelled_orders, self', evs).

End OpenOrders.

End OrderExecutor.

(** *** TopOfBookStrategy *)

(** The user-feed message handed to [process_order_update]: the fields the
    strategy reads.  [od_size] and [od_price] are the results of
    [float(trade_data.get('size', 0))] and [float(trade_data.get('price', 0))]:
    [Some 0] for an absent key, [None] for a value [float] rejects. *)
Record order_data := {
  od_id : option string;
  od_taker_order_id : option string;
  od_maker_orders : list (option string);
  od_size : option Q;
  od_price : option Q
}.

Module TopOfBookStrategy.

Record t := {
  order_executor : OrderExecutor.t;
  position_tracker : PositionTracker.t;
  child_order_size : Q;
  limit_price : Q;
  side : string;
  order_price_min_tick_size : Q;
  price_improvement_ticks : Z;
  match_top_of_book : bool;
  critical_error : bool;
  critical_error_message : string;
  consecutive_order_failures : Z;
  max_consecutive_failures : Z;
  critical_error_occurred : bool;
  current_market_data : option MarketData
}.

Definition __init__ (order_executor : OrderExecutor.t) (position_tracker : PositionTracker.t)
    (child_order_size limit_price order_price_min_tick_size : Q) (side : string)
    (price_improvement_ticks : Z) (match_top_of_book : bool) : t :=
  {| order_executor := order_executor;
     position_tracker := position_tracker;
     child_order_size := child_order_size;
     limit_price := limit_price;
     side := side;
     order_price_min_tick_size := order_price_min_tick_size;
     price_improvement_ticks := price_improvement_ticks;
     match_top_of_book := match_top_of_book;
     critical_error := false;
     critical_error_message := "";
     consecutive_order_failures := 0;
     max_consecutive_failures := 3;
     critical_error_occurred := false;
     current_market_data := None |}.

Definition set_order_executor (x : OrderExecutor.t) (self : t) : t :=
  {| order_executor := x;
     position_tracker := position_tracker self;
     child_order_size := child_order_size self;
     limit_price := limit_price self;
     side := side self;
     order_price_min_tick_size := order_price_min_tick_size self;
     price_improvement_ticks := price_improvement_ticks self;
     match_top_of_book := match_top_of_book self;
     critical_error := critical_error self;
     critical_error_message := critical_error_message self;
     consecutive_order_failures := consecutive_order_failures self;
     max_consecutive_failures := max_consecutive_failures self;
     critical_error_occurred := critical_error_occurred self;
     current_market_data := current_market_data self |}.

Definition set_position_tracker (x : PositionTracker.t) (self : t) : t :=
  {| order_executor := order_executor self;
     position_tracker := x;
     child_order_size := child_order_size self;
     limit_price := limit_price self;
     side := side self;
     order_price_min_tick_size := order_price_min_tick_size self;
     price_improvement_ticks := price_improvement_ticks self;
     match_top_of_book := match_top_of_book self;
     critical_error := critical_error self;
     critical_error_message := critical_error_message self;
     consecutive_order_failures := consecutive_order_failures self;
     max_consecutive_failures := max_consecutive_failures self;
     critical_error_occurred := critical_error_occurred self;
     current_market_data := current_market_data self |}.

Definition set_consecutive_order_failures (x : Z) (self : t) : t :=
  {| order_executor := order_executor self;
     position_tracker := position_tracker self;
     child_order_size := child_order_size self;
     limit_price := limit_price self;
     side := side self;
     order_price_min_tick_size := order_price_min_tick_size self;
     price_improvement_ticks := price_improvement_ticks self;
     match_top_of_book := match_top_of_book self;
     critical_error := critical_error self;
     critical_error_message := critical_error_message self;
     consecutive_order_failures := x;
     max_consecutive_failures := max_consecutive_failures self;
     critical_error_occurred := critical_error_occurred self;
     current_market_data := current_market_data self |}.

(** [self.critical_error_occurred = True] with its message. *)
Definition set_critical_error_occurred (message : string) (self : t) : t :=
  {| order_executor := order_executor self;
     position_tracker := position_tracker self;
     child_order_size := child_order_size self;
     limit_price := limit_price self;
     side := side self;
     order_price_min_tick_size := order_price_min_tick_size self;
     price_improvement_ticks := price_improvement_ticks self;
     match_top_of_book := match_top_of_book self;
     critical_error := critical_error self;
     critical_error_message := message;
     consecutive_order_failures := consecutive_order_failures self;
     max_consecutive_failures := max_consecutive_failures self;
     critical_error_occurred := true;
     current_market_data := current_market_data self |}.

Definition set_current_market_data (x : option MarketData) (self : t) : t :=
  {| order_executor := order_executor self;
     position_tracker := position_tracker self;
     child_order_size := child_order_size self;
     limit_price := limit_price self;
     side := side self;
     order_price_min_tick_size := order_price_min_tick_size self;
     price_improvement_ticks := price_improvement_ticks self;
     match_top_of_book := match_top_of_book self;
     critical_error := critical_error self;
     critical_error_message := critical_error_message self;
     consecutive_order_failures := consecutive_order_failures self;
     max_consecutive_failures := max_consecutive_failures self;
     critical_error_occurred := critical_error_occurred self;
     current_market_data := x |}.

(** [OrderManager.update_parameters] writes this attribute from outside. *)
Definition set_limit_price (x : Q) (self : t) : t :=
  {| order_executor := order_executor self;
     position_tracker := position_tracker self;
     child_order_size := child_order_size self;
     limit_price := x;
     side := side self;
     order_price_min_tick_size := order_price_min_tick_size self;
     price_improvement_ticks := price_improvement_ticks self;
     match_top_of_book := match_top_of_book self;
     critical_error := critical_error self;
     critical_error_message := critical_error_message self;
     consecutive_order_failures := consecutive_order_failures self;
     max_consecutive_failures := max_consecutive_failures self;
     critical_error_occurred := critical_error_occurred self;
     current_market_data := current_market_data self |}.

(** Coroutines of the executor and updates of the tracker, run on the
    objects the strategy holds. *)
Definition on_executor {A} (m : M OrderExecutor.t A) : M t A :=
  zoom order_executor set_order_executor m.

Definition on_tracker (f : PositionTracker.t -> PositionTracker.t) : M t unit :=
  modify (fun self => set_position_tracker (f (position_tracker self)) self).

(** [datetime.now()] *)
Definition now (self : t) : Q := OrderExecutor.clock (order_executor self).

(** [max(prices, default=0.0)] *)
Definition max_price (prices : list Q) : Q :=
  match prices with
  | [] => 0
  | p :: rest => fold_left Py.max rest p
  end.

(** [min(prices, default=float('inf'))]; [None] is the infinite default. *)
Definition min_price (prices : list Q) : option Q :=
  match prices with
  | [] => None
  | p :: rest => Some (fold_left Py.min rest p)
  end.

Definition decimal_places (self : t) : nat :=
  if Qeq_bool (order_price_min_tick_size self) (1 # 1000) then 3%nat else 2%nat.

Definition improvement (self : t) : Q :=
  inject_Z (price_improvement_ticks self) * order_price_min_tick_size self.

Definition _calculate_target_price (current_top_price : Q) (self : t) : Q :=
  let pending_orders := PositionTracker.get_pending_orders (position_tracker self) in
  if String.eqb (side self) BUY then
    let our_best_price := max_price (map price pending_orders) in
    if Qle_bool (Py.abs (current_top_price - our_best_price)) (order_price_min_tick_size self)
    then our_best_price
    else
      let target_price :=
        if match_top_of_book self then current_top_price
        else current_top_price + improvement self in
      let target_price := Py.min target_price (limit_price self) in
      Py.round target_price (decimal_places self)
  else
    let keep :=
      match min_price (map price pending_orders) with
      | Some our_best_price =>
          if Qle_bool (Py.abs (current_top_price - our_best_price))
                      (order_price_min_tick_size self)
          then Some our_best_price else None
      | None => None
      end in
    match keep with
    | Some our_best_price => our_best_price
    | None =>
        let target_price :=
          if match_top_of_book self then current_top_price
          else current_top_price - improvement self in
        let target_price := Py.max target_price (limit_price self) in
        Py.round target_price (decimal_places self)
    end.

Definition _should_place_order (price : Q) (self : t) : bool :=
  if String.eqb (side self) BUY && Py.Qltb (limit_price self) price then false
  else if String.eqb (side self) SELL && Py.Qltb price (limit_price self) then false
  else if (3 <=? length (PositionTracker.get_pending_orders (position_tracker self)))%nat
  then false
  else true.

Definition _get_optimal_order_size (remaining_quantity : Q) (self : t) : Q :=
  if Py.Qltb remaining_quantity MIN_ORDER_SIZE then 0
  else if Qle_bool remaining_quantity (child_order_size self) then remaining_quantity
  else
    let remainder_after_child_order := remaining_quantity - child_order_size self in
    if Py.Qltb 0 remainder_after_child_order
       && Py.Qltb remainder_after_child_order MIN_ORDER_SIZE
    then remaining_quantity
    else child_order_size self.

(** The test both [_should_adjust_orders] and [_adjust_orders] apply to a
    pending order: its price is more than one tick away from the target. *)
Definition off_target (target_price : Q) (self : t) (order : OrderState) : bool :=
  Py.Qltb (order_price_min_tick_size self) (Py.abs (price order - target_price)).

Definition top_of_own_side (market_data : MarketData) (self : t) : Q :=
  if String.eqb (side self) BUY then top_bid market_data else top_ask market_data.

Definition _should_adjust_orders (market_data : MarketData) (self : t) : bool :=
  if PositionTracker.is_target_reached (position_tracker self) then false
  else
    let pending_orders := PositionTracker.get_pending_orders (position_tracker self) in
    match pending_orders with
    | [] => true
    | _ =>
        let current_top_price := top_of_own_side market_data self in
        let target_price := _calculate_target_price current_top_price self in
        existsb (off_target target_price self) pending_orders
    end.

Definition bump_failures : M t Z :=
  (modify (fun self =>
     set_consecutive_order_failures (consecutive_order_failures self + 1)%Z self) ;;;
   self <- get ;;
   ret (consecutive_order_failures self))%co.

Definition is_funding_error (e : string) : bool :=
  Py.contains "not enough balance" (Py.lower e)
  || Py.contains "allowance" (Py.lower e)
  || Py.contains "insufficient balance" (Py.lower e).

Definition _place_new_order (price size : Q) : M t unit :=
  try_except
    (self <- get ;;
     if negb (_should_place_order price self) then ret tt
     else
       order_id <- on_executor
                     (OrderExecutor.place_order
                        (PositionTracker.token_id (position_tracker self))
                        price size (side self)) ;;
       match (if truthy order_id then order_id else None) with
       | Some id =>
           self <- get ;;
           on_tracker (PositionTracker.add_pending_order (now self) id price size) ;;;
           modify (set_consecutive_order_failures 0)
       | None =>
           failures <- bump_failures ;;
           self <- get ;;
           if (max_consecutive_failures self <=? failures)%Z
           then modify (set_critical_error_occurred
                          (String.append "Failed to place orders "
                             (String.append (Py.str_of_Z failures) " consecutive times")))
           else ret tt
       end)
    (fun e =>
       let error_msg := String.append "Error placing order: " e in
       failures <- bump_failures ;;
       if is_funding_error e then
         modify (set_critical_error_occurred
                   (String.append "Fatal error - insufficient balance/allowance: " e)) ;;;
         raise e
       else
         self <- get ;;
         if (max_consecutive_failures self <=? failures)%Z
         then modify (set_critical_error_occurred
                        (String.append "Order placement errors: " error_msg))
         else ret tt)%co.

(** The loop of [_adjust_orders] over the snapshot of pending orders:
    cancel and forget each one that is off target.  [cancel_order] runs
    with its default of five retries; an exception it raises ends the
    loop. *)
Fixpoint cancel_off_target (target_price : Q) (pending_orders : list OrderState)
    : M t unit :=
  match pending_orders with
  | [] => ret tt
  | order :: rest =>
      (self <- get ;;
       (if off_target target_price self order then
          on_executor (OrderExecutor.cancel_order (order_id order) 5) ;;;
          on_tracker (PositionTracker.remove_pending_order (order_id order))
        else ret tt) ;;;
       cancel_off_target target_price rest)%co
  end.

Definition _adjust_orders (market_data : MarketData) : M t unit :=
  (self <- get ;;
   let pending_orders := PositionTracker.get_pending_orders (position_tracker self) in
   let current_top_price := top_of_own_side market_data self in
   let target_price := _calculate_target_price current_top_price self in
   cancel_off_target target_price pending_orders ;;;
   self <- get ;;
   let remaining_qty := PositionTracker.get_remaining_quantity (position_tracker self) in
   if Py.Qltb 0 remaining_qty && _should_place_order target_price self then
     let order_size := _get_optimal_order_size remaining_qty self in
     if Py.Qltb 0 order_size then _place_new_order target_price order_size
     else ret tt
   else ret tt)%co.

Definition process_market_update (market_data : MarketData) : M t unit :=
  (modify (set_current_market_data (Some market_data)) ;;;
   self <- get ;;
   if _should_adjust_orders market_data self then _adjust_orders market_data
   else ret tt)%co.

Definition _handle_order_placement (data : order_data) : M t unit := ret tt.

Definition _handle_order_cancellation (data : order_data) : M t unit :=
  match od_id data with
  | Some id =>
      if truthy (od_id data) then on_tracker (PositionTracker.remove_pending_order id)
      else ret tt
  | None => ret tt
  end.

(** Is [id] a non-empty string naming a tracked order? *)
Definition is_pending (self : t) (id : option string) : bool :=
  match id with
  | Some s =>
      truthy id && Dict.mem s (PositionTracker.pending_orders (position_tracker self))
  | None => false
  end.

(** The order of ours a trade names: the taker order if it is tracked,
    else the first tracked maker order. *)
Definition our_order_id (self : t) (trade_data : order_data) : option string :=
  if is_pending self (od_taker_order_id trade_data) then od_taker_order_id trade_data
  else
    match find (is_pending self) (od_maker_orders trade_data) with
    | Some id => id
    | None => None
    end.

Definition _handle_trade_execution (trade_data : order_data) : M t unit :=
  try_except
    (self <- get ;;
     match our_order_id self trade_data with
     | None => ret tt
     | Some our =>
         match od_size trade_data, od_price trade_data with
         | None, _ => raise "could not convert string to float"
         | Some _, None => raise "could not convert string to float"
         | Some reported, Some fill_price =>
             if Py.Qltb 0 reported then
               let fill_size :=
                 match Dict.get our (PositionTracker.pending_orders (position_tracker self)) with
                 | Some original_order =>
                     if Py.Qltb (size original_order) reported
                     then size original_order else reported
                 | None => reported
                 end in
               on_tracker
                 (PositionTracker.update_filled_quantity (now self) fill_size fill_price) ;;;
               on_tracker (PositionTracker.remove_pending_order our) ;;;
               self <- get ;;
               match current_market_data self with
               | Some market_data =>
                   if negb (PositionTracker.is_target_reached (position_tracker self))
                   then _adjust_orders market_data
                   else ret tt
               | None => ret tt
               end
             else ret tt
         end
     end)
    (fun _ => ret tt)%co.

Definition process_order_update (update_type : string) (data : order_data) : M t unit :=
  if String.eqb update_type "placement" then _handle_order_placement data
  else if String.eqb update_type "cancellation" then _handle_order_cancellation data
  else if String.eqb update_type "trade" then _handle_trade_execution data
  else ret tt.

Definition has_critical_error (self : t) : bool := critical_error_occurred self.

Definition get_critical_error_message (self : t) : string := critical_error_message self.

End TopOfBookStrategy.

(** *** MarketOrderExecutor

    The class sits at the end of the source file; it comes first here
    because [InsideLiquidityStrategy] calls it. *)

Module MarketOrderExecutor.

(** A level of the book the order-book endpoint returns: the results of
    [float(level['price'])] and [float(level['size'])], [None] where the
    lookup or the conversion raises. *)
Record book_level := {
  bl_price : option Q;
  bl_size : option Q
}.

(** The decoded answer of the endpoint: [book_data.get('bids', [])] and
    [book_data.get('asks', [])]. *)
Record book_data := {
  bd_bids : list book_level;
  bd_asks : list book_level
}.

(** The attributes of the base class and the cache. *)
Record t := {
  executor : OrderExecutor.t;
  market_data_cache : list (string * MarketData)
}.

Definition __init__ (now : Q) (client : ClobClient) (rate_limiter : RateLimiter.t) : t :=
  {| executor := OrderExecutor.__init__ now client rate_limiter;
     market_data_cache := [] |}.

(** Methods inherited from [OrderExecutor], run on the base attributes. *)
Definition on_base {A} (m : M OrderExecutor.t A) : M t A :=
  zoom executor
       (fun ex self => {| executor := ex; market_data_cache := market_data_cache self |})
       m.

(** Wall-clock time goes by. *)
Definition elapse (elapsed : Q) (self : t) : t :=
  {| executor :=
       {| OrderExecutor.clock := OrderExecutor.clock (executor self) + elapsed;
          OrderExecutor.client := OrderExecutor.client (executor self);
          OrderExecutor.rate_limiter := OrderExecutor.rate_limiter (executor self);
          OrderExecutor.pending_orders := OrderExecutor.pending_orders (executor self) |};
     market_data_cache := market_data_cache self |}.

Definition _calculate_market_price (market_data : MarketData) (side : string)
    (max_slippage : Q) : option Q :=
  if String.eqb side BUY then
    let base_price := top_ask market_data in
    let market_price := base_price * (1 + max_slippage) in
    Some (Py.min market_price 1)
  else if String.eqb side SELL then
    let base_price := top_bid market_data in
    let market_price := base_price * (1 - max_slippage) in
    Some (Py.max market_price (1 # 1000))
  else None.

Definition get_cached_market_data (token_id : string) (self : t) : option MarketData :=
  Dict.get token_id (market_data_cache self).

Definition get_spread (token_id : string) (self : t) : option Q :=
  match Dict.get token_id (market_data_cache self) with
  | Some market_data => Some (top_ask market_data - top_bid market_data)
  | None => None
  end.

Section Endpoint.

(** The order-book endpoint is outside the repository: what
    [requests.get(orderbook_url, ...)], [raise_for_status()] and [json()]
    make of a request sent at a clock reading for a token, and after how
    long, is a parameter.  The request reads the venue: it leaves no
    event. *)
Variable fetch_book : Q -> string -> Q * reply book_data.

Definition _get_market_data (token_id : string) : M t (option MarketData) :=
  fun self =>
    let '(elapsed, r) := fetch_book (OrderExecutor.clock (executor self)) token_id in
    let self := elapse elapsed self in
    match r with
    | Responds book =>
        match bd_bids book, bd_asks book with
        | bid :: _, ask :: _ =>
            match bl_price bid, bl_price ask, bl_size bid, bl_size ask with
            | Some top_bid, Some top_ask, Some bid_size, Some ask_size =>
                let market_data :=
                  {| asset_id := token_id; top_bid := top_bid; top_ask := top_ask;
                     bid_size := bid_size; ask_size := ask_size;
                     timestamp := OrderExecutor.clock (executor self) |} in
                (Ok (Some market_data),
                 {| executor := executor self;
                    market_data_cache :=
                      Dict.set token_id market_data (market_data_cache self) |},
                 [])
            | _, _, _, _ => (Ok None, self, [])
            end
        | _, _ => (Ok None, self, [])
        end
    | Throws _ => (Ok None, self, [])
    end.

(** [if not market_price]: [None] and [0.0] are false. *)
Definition place_market_order (token_id : string) (size : Q) (side : string)
    (max_slippage : Q) : M t (option string) :=
  try_except
    (market_data <- _get_market_data token_id ;;
     match market_data with
     | None => ret None
     | Some market_data =>
         match _calculate_market_price market_data side max_slippage with
         | None => ret None
         | Some market_price =>
             if Qeq_bool market_price 0 then ret None
             else on_base (OrderExecutor.place_order token_id market_price size side)
         end
     end)
    (fun _ => ret None)%co.

Definition place_aggressive_order (token_id : string) (size : Q) (side : string)
    (price_improvement_pct : Q) : M t (option string) :=
  try_except
    (market_data <- _get_market_data token_id ;;
     match market_data with
     | None => ret None
     | Some market_data =>
         let aggressive_price :=
           if String.eqb side BUY
           then Py.min (top_bid market_data * (1 + price_improvement_pct)) 1
           else Py.max (top_ask market_data * (1 - price_improvement_pct)) (1 # 1000) in
         on_base (OrderExecutor.place_order token_id aggressive_price size side)
     end)
    (fun _ => ret None)%co.

End Endpoint.

End MarketOrderExecutor.

(** *** InsideLiquidityStrategy *)

Module InsideLiquidityStrategy.

(** [market_executor] is a second executor on the client of
    [order_executor], with a rate limiter of its own. *)
Record t := {
  order_executor : OrderExecutor.t;
  position_tracker : PositionTracker.t;
  child_order_size : Q;
  limit_price : Q;
  side : string;
  order_price_min_tick_size : Q;
  max_slippage : Q;
  critical_error : bool;
  critical_error_message : string;
  last_market_data : option MarketData;
  market_rate_limiter : RateLimiter.t;
  market_data_cache : list (string * MarketData)
}.

Definition __init__ (order_executor : OrderExecutor.t) (position_tracker : PositionTracker.t)
    (child_order_size limit_price order_price_min_tick_size : Q) (side : string) : t :=
  {| order_executor := order_executor;
     position_tracker := position_tracker;
     child_order_size := child_order_size;
     limit_price := limit_price;
     side := side;
     order_price_min_tick_size := order_price_min_tick_size;
     max_slippage := 1 # 100;
     critical_error := false;
     critical_error_message := "";
     last_market_data := None;
     market_rate_limiter := RateLimiter.__init__ (OrderExecutor.clock order_executor) 5;
     market_data_cache := [] |}.

Definition set_limit_price (x : Q) (self : t) : t :=
  {| order_executor := order_executor self;
     position_tracker := position_tracker self;
     child_order_size := child_order_size self;
     limit_price := x;
     side := side self;
     order_price_min_tick_size := order_price_min_tick_size self;
     max_slippage := max_slippage self;
     critical_error := critical_error self;
     critical_error_message := critical_error_message self;
     last_market_data := last_market_data self;
     market_rate_limiter := market_rate_limiter self;
     market_data_cache := market_data_cache self |}.

Definition set_position_tracker (x : PositionTracker.t) (self : t) : t :=
  {| order_executor := order_executor self;
     position_tracker := x;
     child_order_size := child_order_size self;
     limit_price := limit_price self;
     side := side self;
     order_price_min_tick_size := order_price_min_tick_size self;
     max_slippage := max_slippage self;
     critical_error := critical_error self;
     critical_error_message := critical_error_message self;
     last_market_data := last_market_data self;
     market_rate_limiter := market_rate_limiter self;
     market_data_cache := market_data_cache self |}.

Definition set_order_executor (x : OrderExecutor.t) (self : t) : t :=
  {| order_executor := x;
     position_tracker := position_tracker self;
     child_order_size := child_order_size self;
     limit_price := limit_price self;
     side := side self;
     order_price_min_tick_size := order_price_min_tick_size self;
     max_slippage := max_slippage self;
     critical_error := critical_error self;
     critical_error_message := critical_error_message self;
     last_market_data := last_market_data self;
     market_rate_limiter := market_rate_limiter self;
     market_data_cache := market_data_cache self |}.

Definition set_critical_error (message : string) (self : t) : t :=
  {| order_executor := order_executor self;
     position_tracker := position_tracker self;
     child_order_size := child_order_size self;
     limit_price := limit_price self;
     side := side self;
     order_price_min_tick_size := order_price_min_tick_size self;
     max_slippage := max_slippage self;
     critical_error := true;
     critical_error_message := message;
     last_market_data := last_market_data self;
     market_rate_limiter := market_rate_limiter self;
     market_data_cache := market_data_cache self |}.

Definition set_last_market_data (x : option MarketData) (self : t) : t :=
  {| order_executor := order_executor self;
     position_tracker := position_tracker self;
     child_order_size := child_order_size self;
     limit_price := limit_price self;
     side := side self;
     order_price_min_tick_size := order_price_min_tick_size self;
     max_slippage := max_slippage self;
     critical_error := critical_error self;
     critical_error_message := critical_error_message self;
     last_market_data := x;
     market_rate_limiter := market_rate_limiter self;
     market_data_cache := market_data_cache self |}.

(** [self.market_executor]: the executor built by [__init__] on the
    client of [order_executor], which also lends it the clock, with the
    rate limiter and the cache of its own; its dictionary of pending
    orders is never written. *)
Definition market_executor (self : t) : MarketOrderExecutor.t :=
  {| MarketOrderExecutor.executor :=
       {| OrderExecutor.clock := OrderExecutor.clock (order_executor self);
          OrderExecutor.client := OrderExecutor.client (order_executor self);
          OrderExecutor.rate_limiter := market_rate_limiter self;
          OrderExecutor.pending_orders := [] |};
     MarketOrderExecutor.market_data_cache := market_data_cache self |}.

Definition set_market_executor (x : MarketOrderExecutor.t) (self : t) : t :=
  {| order_executor :=
       {| OrderExecutor.clock := OrderExecutor.clock (MarketOrderExecutor.executor x);
          OrderExecutor.client := OrderExecutor.client (MarketOrderExecutor.executor x);
          OrderExecutor.rate_limiter := OrderExecutor.rate_limiter (order_executor self);
          OrderExecutor.pending_orders := OrderExecutor.pending_orders (order_executor self) |};
     position_tracker := position_tracker self;
     child_order_size := child_order_size self;
     limit_price := limit_price self;
     side := side self;
     order_price_min_tick_size := order_price_min_tick_size self;
     max_slippage := max_slippage self;
     critical_error := critical_error self;
     critical_error_message := critical_error_message self;
     last_market_data := last_market_data self;
     market_rate_limiter := OrderExecutor.rate_limiter (MarketOrderExecutor.executor x);
     market_data_cache := MarketOrderExecutor.market_data_cache x |}.

Definition on_market_executor {A} (m : M MarketOrderExecutor.t A) : M t A :=
  zoom market_executor set_market_executor m.

Definition on_tracker (f : PositionTracker.t -> PositionTracker.t) : M t unit :=
  modify (fun self => set_position_tracker (f (position_tracker self)) self).

(** [datetime.now()] *)
Definition now (self : t) : Q := OrderExecutor.clock (order_executor self).

(** The tail of [_should_take_liquidity]: the size test, then the notice
    it prints, whose format [{target_price:.4f}] raises a [TypeError] on
    the [None] that a side other than BUY and SELL leaves in
    [target_price]. *)
Definition enough_size (target_price : option Q) (available_size : Q) : M t bool :=
  (self <- get ;;
   if Py.Qltb available_size (child_order_size self) then ret false
   else
     match target_price with
     | Some _ => ret true
     | None => raise "unsupported format string passed to NoneType.__format__"
     end)%co.

Definition _should_take_liquidity (market_data : MarketData) : M t bool :=
  (self <- get ;;
   if PositionTracker.is_target_reached (position_tracker self) then ret false
   else if String.eqb (side self) BUY then
     let target_price := top_ask market_data in
     let available_size := ask_size market_data in
     if Py.Qltb (limit_price self) target_price then ret false
     else enough_size (Some target_price) available_size
   else if String.eqb (side self) SELL then
     let target_price := top_bid market_data in
     let available_size := bid_size market_data in
     if Py.Qltb target_price (limit_price self) then ret false
     else enough_size (Some target_price) available_size
   else enough_size None 0)%co.

Section Endpoint.

Variable fetch_book : Q -> string -> Q * reply MarketOrderExecutor.book_data.

Definition _take_liquidity (market_data : MarketData) : M t unit :=
  try_except
    (self <- get ;;
     let remaining_qty := PositionTracker.get_remaining_quantity (position_tracker self) in
     let order_size := Py.min (child_order_size self) remaining_qty in
     if Py.Qltb order_size 5 then ret tt
     else
       on_market_executor
         (MarketOrderExecutor.place_market_order fetch_book
            (PositionTracker.token_id (position_tracker self))
            order_size (side self) (max_slippage self)) ;;;
       ret tt)
    (fun e => modify (set_critical_error e))%co.

Definition process_market_update (market_data : MarketData) : M t unit :=
  try_except
    (modify (set_last_market_data (Some market_data)) ;;;
     take <- _should_take_liquidity market_data ;;
     if take then _take_liquidity market_data else ret tt)
    (fun e => modify (set_critical_error e))%co.

End Endpoint.

Definition _handle_trade_execution (trade_data : order_data) : M t unit :=
  try_except
    (if truthy (od_taker_order_id trade_data) then
       match od_size trade_data, od_price trade_data with
       | None, _ => raise "could not convert string to float"
       | Some _, None => raise "could not convert string to float"
       | Some size, Some price =>
           if Py.Qltb 0 size then
             self <- get ;;
             on_tracker (PositionTracker.update_filled_quantity (now self) size price)
           else ret tt
       end
     else ret tt)
    (fun _ => ret tt)%co.

(** [if update_type == "trade" and order_data]: the second test only
    turns away the empty dictionary, which has no [taker_order_id], so
    that the handler would do nothing with it either. *)
Definition process_order_update (update_type : string) (data : order_data) : M t unit :=
  if String.eqb update_type "trade" then _handle_trade_execution data
  else ret tt.

Definition has_critical_error (self : t) : bool := critical_error self.

Definition get_critical_error_message (self : t) : string := critical_error_message self.

End InsideLiquidityStrategy.

(** *** OrderManager *)

Module OrderManager.

Inductive any_strategy :=
| TopOfBook (s : TopOfBookStrategy.t)
| InsideLiquidity (s : InsideLiquidityStrategy.t).

(** The manager's [rate_limiter], [order_executor] and [position_tracker]
    are the very objects its strategy holds, so they are stored once,
    inside [strategy].  The credentials ([auth]), the random
    [orchestrator_id] and the two feed handles play no part here. *)
Record t := {
  config : StrategyConfig.t;
  running : bool;
  strategy : any_strategy;
  stop_manager : StopConditionManager.t
}.

Definition __init__ (now : Q) (client : ClobClient) (config : StrategyConfig.t) : t :=
  let rate_limiter := RateLimiter.__init__ now (StrategyConfig.rate_limit_per_second config) in
  let order_executor := OrderExecutor.__init__ now client rate_limiter in
  let position_tracker :=
    PositionTracker.__init__ (StrategyConfig.token_id config) (StrategyConfig.total_quantity config) in
  {| config := config;
     running := false;
     strategy :=
       if StrategyConfig.inside_liquidity_mode config then
         InsideLiquidity
           (InsideLiquidityStrategy.__init__ order_executor position_tracker
              (StrategyConfig.child_order_size config) (StrategyConfig.limit_price config)
              (StrategyConfig.order_price_min_tick_size config) (StrategyConfig.side config))
       else
         TopOfBook
           (TopOfBookStrategy.__init__ order_executor position_tracker
              (StrategyConfig.child_order_size config) (StrategyConfig.limit_price config)
              (StrategyConfig.order_price_min_tick_size config) (StrategyConfig.side config)
              (StrategyConfig.price_improvement_ticks config) (StrategyConfig.match_top_of_book config));
     stop_manager :=
       StopConditionManager.set_stop_callback "_handle_stop_condition"
         (StopConditionManager.__init__ now (StrategyConfig.timeout_seconds config)) |}.

(** [self.position_tracker] *)
Definition position_tracker (self : t) : PositionTracker.t :=
  match strategy self with
  | TopOfBook s => TopOfBookStrategy.position_tracker s
  | InsideLiquidity s => InsideLiquidityStrategy.position_tracker s
  end.


(** [self.position_tracker.target_quantity = x] *)
Definition set_target_quantity (x : Q) (s : any_strategy) : any_strategy :=
  match s with
  | TopOfBook s =>
      TopOfBook
        (TopOfBookStrategy.set_position_tracker
           (PositionTracker.set_target_quantity x (TopOfBookStrategy.position_tracker s)) s)
  | InsideLiquidity s =>
      InsideLiquidity
        (InsideLiquidityStrategy.set_position_tracker
           (PositionTracker.set_target_quantity x
              (InsideLiquidityStrategy.position_tracker s)) s)
  end.


Definition set_running (x : bool) (self : t) : t :=
  {| config := config self;
     running := x;
     strategy := strategy self;
     stop_manager := stop_manager self |}.

Definition set_strategy (x : any_strategy) (self : t) : t :=
  {| config := config self;
     running := running self;
     strategy := x;
     stop_manager := stop_manager self |}.

Definition set_stop_manager (x : StopConditionManager.t) (self : t) : t :=
  {| config := config self;
     running := running self;
     strategy := strategy self;
     stop_manager := x |}.

(** [self.order_executor], which also carries the clock. *)
Definition order_executor (self : t) : OrderExecutor.t :=
  match strategy self with
  | TopOfBook s => TopOfBookStrategy.order_executor s
  | InsideLiquidity s => InsideLiquidityStrategy.order_executor s
  end.

(** [datetime.now()] *)
Definition now (self : t) : Q := OrderExecutor.clock (order_executor self).

(** [self.strategy.has_critical_error()] and
    [self.strategy.get_critical_error_message()] *)
Definition has_critical_error (s : any_strategy) : bool :=
  match s with
  | TopOfBook s => TopOfBookStrategy.has_critical_error s
  | InsideLiquidity s => InsideLiquidityStrategy.has_critical_error s
  end.

Definition get_critical_error_message (s : any_strategy) : string :=
  match s with
  | TopOfBook s => TopOfBookStrategy.get_critical_error_message s
  | InsideLiquidity s => InsideLiquidityStrategy.get_critical_error_message s
  end.

(** A method of the strategy, whichever it is, run on [self.strategy]. *)
Definition on_strategy {A} (top : M TopOfBookStrategy.t A)
    (inside : M InsideLiquidityStrategy.t A) : M t A :=
  fun self =>
    match strategy self with
    | TopOfBook s =>
        let '(r, s', evs) := top s in (r, set_strategy (TopOfBook s') self, evs)
    | InsideLiquidity s =>
        let '(r, s', evs) := inside s in (r, set_strategy (InsideLiquidity s') self, evs)
    end.

(** A coroutine of [self.order_executor]. *)
Definition on_executor {A} (m : M OrderExecutor.t A) : M t A :=
  on_strategy (TopOfBookStrategy.on_executor m)
              (zoom InsideLiquidityStrategy.order_executor
                    InsideLiquidityStrategy.set_order_executor m).

Definition extend_timeout (additional_seconds : Z) (self : t) : t :=
  if running self
  then set_stop_manager
         (StopConditionManager.extend_timeout additional_seconds (stop_manager self)) self
  else self.



(** The answer, and the tasks its look at the stop conditions hands to
    the event loop. *)
Definition should_exit_strategy (self : t) : bool * list StopConditionManager.task :=
  if has_critical_error (strategy self) then (true, [])
  else if PositionTracker.is_target_reached (position_tracker self) then (true, [])
  else
    let '(stop, tasks) := StopConditionManager.should_stop (now self) (stop_manager self) in
    if stop then (true, tasks)
    else
      let remaining_qty := PositionTracker.get_remaining_quantity (position_tracker self) in
      let pending_orders := PositionTracker.get_pending_orders (position_tracker self) in
      if Qle_bool remaining_qty 0 && match pending_orders with [] => true | _ => false end
      then (true, tasks)
      else (false, tasks).

Section Venue.

Variable fetch_book : Q -> string -> Q * reply MarketOrderExecutor.book_data.
Variable get_orders_reply : nat -> Q * reply (option (list OrderExecutor.open_order)).

Definition _handle_market_update (market_data : MarketData) : M t unit :=
  (self <- get ;;
   if negb (running self) then ret tt
   else
     on_strategy (TopOfBookStrategy.process_market_update market_data)
                 (InsideLiquidityStrategy.process_market_update fetch_book market_data))%co.

Definition _handle_order_update (update_type : string) (data : order_data) : M t unit :=
  (self <- get ;;
   if negb (running self) then ret tt
   else
     on_strategy (TopOfBookStrategy.process_order_update update_type data)
                 (InsideLiquidityStrategy.process_order_update update_type data))%co.

(** Closing the two feeds is not modelled. *)
Definition stop_strategy : M t unit :=
  (self <- get ;;
   if negb (running self) then ret tt
   else
     modify (set_running false) ;;;
     self <- get ;;
     on_executor
       (OrderExecutor.cancel_all_orders get_orders_reply
          (StrategyConfig.token_id (config self))) ;;;
     ret tt)%co.

Definition _handle_stop_condition (reason : string) : M t unit := stop_strategy.

End Venue.

End OrderManager.

(** *** OrderHandlerCLI (the no-orders timer) *)

Module OrderHandlerCLI.

(** The attributes the timer works with; the account credentials play no
    part in it. *)
Record t := {
  order_manager : option OrderManager.t;
  no_orders_start_time : option Q;
  no_orders_timeout : Q
}.

Definition __init__ : t :=
  {| order_manager := None;
     no_orders_start_time := None;
     no_orders_timeout := 5 |}.

Definition set_order_manager (x : option OrderManager.t) (self : t) : t :=
  {| order_manager := x;
     no_orders_start_time := no_orders_start_time self;
     no_orders_timeout := no_orders_timeout self |}.

Definition set_no_orders_start_time (x : option Q) (self : t) : t :=
  {| order_manager := order_manager self;
     no_orders_start_time := x;
     no_orders_timeout := no_orders_timeout self |}.

(** [current_time] is the reading of [time.time()]. *)
Definition _should_exit_no_orders (current_time : Q) (self : t) : bool * t :=
  match order_manager self with
  | None => (false, self)
  | Some order_manager =>
      let pending_orders :=
        PositionTracker.get_pending_orders (OrderManager.position_tracker order_manager) in
      match pending_orders with
      | [] =>
          match no_orders_start_time self with
          | None => (false, set_no_orders_start_time (Some current_time) self)
          | Some start =>
              if Qle_bool (no_orders_timeout self) (current_time - start)
              then (true, self)
              else (false, self)
          end
      | _ :: _ => (false, set_no_orders_start_time None self)
      end
  end.

End OrderHandlerCLI.

(** ** websocket_handlers.py *)

(** The scalar values of a decoded feed message. *)
Inductive json :=
| JNull
| JStr (s : string)
| JNum (q : Q).

Definition json_truthy (v : json) : bool :=
  match v with
  | JNull => false
  | JStr s => negb (String.eqb s "")
  | JNum q => negb (Qeq_bool q 0)
  end.

(** [a == b] on scalars. *)
Definition json_eqb (a b : json) : bool :=
  match a, b with
  | JNull, JNull => true
  | JStr x, JStr y => String.eqb x y
  | JNum x, JNum y => Qeq_bool x y
  | _, _ => false
  end.

Record level := {
  lv_price : json;
  lv_size : json
}.

Record change := {
  ch_price : json;
  ch_side : json;
  ch_size : json
}.

(** A decoded message of the market feed: the keys the handlers read.  An
    absent key is [None] (for [changes], the empty list). *)
Record message := {
  event_type : string;
  msg_asset_id : option string;
  msg_bids : option (list level);
  msg_asks : option (list level);
  msg_changes : list change
}.

Module MarketDataStream.

(** A stored book is the stored message; its two sides are all that is
    read back. *)
Record book := {
  bids : option (list level);
  asks : option (list level)
}.

Record t := {
  order_books : gmap string book
}.

(** What a handler does with its callback: it awaits it on a snapshot, it
    returns without calling it, or it dies on an exception first. *)
Inductive outcome :=
| Emitted (market_data : MarketData)
| Silent
| Raised.

Section Handlers.

(** [float] applied to a string, [None] when it raises. *)
Variable float_of_str : string -> option Q.

Definition float (v : json) : option Q :=
  match v with
  | JNull => None
  | JStr s => float_of_str s
  | JNum q => Some q
  end.

(** [book.get(side, [])] *)
Definition side_or_empty (side : option (list level)) : list level :=
  match side with
  | Some levels => levels
  | None => []
  end.

Definition last_level (levels : list level) : option level :=
  match rev levels with
  | [] => None
  | l :: _ => Some l
  end.

(** The snapshot both handlers build once both sides are non-empty. *)
Definition snapshot (now : Q) (asset_id : string) (bids asks : list level) : outcome :=
  match last_level bids, last_level asks with
  | Some b, Some a =>
      match float (lv_price b), float (lv_price a), float (lv_size b), float (lv_size a) with
      | Some top_bid, Some top_ask, Some bid_size, Some ask_size =>
          Emitted {| asset_id := asset_id; top_bid := top_bid; top_ask := top_ask;
                     bid_size := bid_size; ask_size := ask_size; timestamp := now |}
      | _, _, _, _ => Raised
      end
  | _, _ => Silent
  end.

Definition publish (now : Q) (asset_id : string) (b : book) : outcome :=
  let bids := side_or_empty (bids b) in
  let asks := side_or_empty (asks b) in
  match bids, asks with
  | _ :: _, _ :: _ => snapshot now asset_id bids asks
  | _, _ => Silent
  end.

Definition _handle_book_update (now : Q) (msg : message) (self : t) : t * outcome :=
  match msg_asset_id msg with
  | Some asset_id =>
      if truthy (msg_asset_id msg) then
        let b := {| bids := msg_bids msg; asks := msg_asks msg |} in
        ({| order_books := <[asset_id := b]> (order_books self) |},
         publish now asset_id b)
      else (self, Silent)
  | None => (self, Silent)
  end.

(** [list.sort(key=..., reverse=...)]: stable insertion by key. *)
Fixpoint insert_by (before : Q -> Q -> bool) (x : Q * level) (sorted : list (Q * level))
    : list (Q * level) :=
  match sorted with
  | [] => [x]
  | y :: rest =>
      if before (fst x) (fst y) then x :: y :: rest
      else y :: insert_by before x rest
  end.

Definition sort_by (before : Q -> Q -> bool) (keyed : list (Q * level)) : list (Q * level) :=
  fold_right (insert_by before) [] keyed.

(** The sort keys [float(x['price'])] of all levels, [None] if one of the
    conversions raises. *)
Fixpoint keyed (levels : list level) : option (list (Q * level)) :=
  match levels with
  | [] => Some []
  | l :: rest =>
      match float (lv_price l), keyed rest with
      | Some k, Some ks => Some ((k, l) :: ks)
      | _, _ => None
      end
  end.

(** Bids ascending, asks descending: the best level is last. *)
Definition sort_side (is_bids : bool) (levels : list level) : option (list level) :=
  match keyed levels with
  | Some ks =>
      Some (map snd (sort_by (if is_bids then Qle_bool else fun a b => Qle_bool b a) ks))
  | None => None
  end.

(** The [for ... else] over one side for one change: the levels after
    it, and whether the change raised. *)
Fixpoint update_found (price size : json) (levels : list level) : option (option (list level)) :=
  match levels with
  | [] => None
  | l :: rest =>
      if json_eqb (lv_price l) price then
        Some (match float size with
              | Some q =>
                  if Qeq_bool q 0 then Some rest
                  else Some ({| lv_price := lv_price l; lv_size := size |} :: rest)
              | None => None
              end)
      else
        match update_found price size rest with
        | Some (Some rest') => Some (Some (l :: rest'))
        | Some None => Some None
        | None => None
        end
  end.

(** One change applied to one side: [inl] the new levels, [inr] the
    levels left behind by a change that raised. *)
Definition apply_to_side (is_bids : bool) (price size : json) (levels : list level)
    : list level + list level :=
  match update_found price size levels with
  | Some (Some levels') => inl levels'
  | Some None => inr levels
  | None =>
      match float size with
      | Some q =>
          if Py.Qltb 0 q then
            let appended := levels ++ [ {| lv_price := price; lv_size := size |} ] in
            match sort_side is_bids appended with
            | Some sorted => inl sorted
            | None => inr appended
            end
          else inl levels
      | None => inr levels
      end
  end.

Definition apply_change (c : change) (b : book) : book + book :=
  if negb (json_truthy (ch_price c) && json_truthy (ch_side c) && json_truthy (ch_size c))
  then inl b
  else if json_eqb (ch_side c) (JStr "BUY") then
    match bids b with
    | Some levels =>
        match apply_to_side true (ch_price c) (ch_size c) levels with
        | inl levels' => inl {| bids := Some levels'; asks := asks b |}
        | inr levels' => inr {| bids := Some levels'; asks := asks b |}
        end
    | None => inl b
    end
  else
    match asks b with
    | Some levels =>
        match apply_to_side false (ch_price c) (ch_size c) levels with
        | inl levels' => inl {| bids := bids b; asks := Some levels' |}
        | inr levels' => inr {| bids := bids b; asks := Some levels' |}
        end
    | None => inl b
    end.

Fixpoint apply_changes (changes : list change) (b : book) : book + book :=
  match changes with
  | [] => inl b
  | c :: rest =>
      match apply_change c b with
      | inl b' => apply_changes rest b'
      | inr b' => inr b'
      end
  end.

Definition _handle_price_change (now : Q) (msg : message) (self : t) : t * outcome :=
  match msg_asset_id msg with
  | Some asset_id =>
      if truthy (msg_asset_id msg) then
        match order_books self !! asset_id with
        | Some b =>
            match apply_changes (msg_changes msg) b with
            | inl b' =>
                ({| order_books := <[asset_id := b']> (order_books self) |},
                 publish now asset_id b')
            | inr b' =>
                ({| order_books := <[asset_id := b']> (order_books self) |}, Raised)
            end
        | None => (self, Silent)
        end
      else (self, Silent)
  | None => (self, Silent)
  end.

(** The dispatch of [_on_message] on one decoded message. *)
Definition handle (now : Q) (msg : message) (self : t) : t * outcome :=
  if String.eqb (event_type msg) "book" then _handle_book_update now msg self
  else if String.eqb (event_type msg) "price_change" then _handle_price_change now msg self
  else (self, Silent).

(** A feed: messages with the clock reading at which each is handled.  The
    run keeps, for every message, the outcome and the stream right after
    it. *)
Fixpoint feed (msgs : list (Q * message)) (self : t) : list (message * outcome * t) :=
  match msgs with
  | [] => []
  | (now, msg) :: rest =>
      let '(self', out) := handle now msg self in
      (msg, out, self') :: feed rest self'
  end.

(** [float(levels[-1]['price']) if levels else None]; the outer [None]
    is a conversion that raises. *)
Definition best_price (levels : list level) : option (option Q) :=
  match last_level levels with
  | None => Some None
  | Some l =>
      match float (lv_price l) with
      | Some q => Some (Some q)
      | None => None
      end
  end.

(** The pair [(best_bid, best_ask)], or [None] when the call raises. *)
Definition get_top_of_book (asset_id : string) (self : t)
    : option (option Q * option Q) :=
  match order_books self !! asset_id with
  | None => Some (None, None)
  | Some b =>
      match best_price (side_or_empty (bids b)) with
      | Some best_bid =>
          match best_price (side_or_empty (asks b)) with
          | Some best_ask => Some (best_bid, best_ask)
          | None => None
          end
      | None => None
      end
  end.

(** [xs[:n]] for an integer [n] of either sign. *)
Definition slice_to {A} (n : Z) (xs : list A) : list A :=
  if (0 <=? n)%Z then firstn (Z.to_nat n) xs
  else firstn (length xs - Z.to_nat (- n)) xs.

(** [[(float(l['price']), float(l['size'])) for l in levels]], [None] when
    a conversion raises. *)
Fixpoint price_size_pairs (levels : list level) : option (list (Q * Q)) :=
  match levels with
  | [] => Some []
  | l :: rest =>
      match float (lv_price l), float (lv_size l), price_size_pairs rest with
      | Some p, Some sz, Some pairs => Some ((p, sz) :: pairs)
      | _, _, _ => None
      end
  end.

(** The two lists of the dictionary returned, bids first; [None] when
    the call raises. *)
Definition get_order_book_depth (asset_id : string) (levels : Z) (self : t)
    : option (list (Q * Q) * list (Q * Q)) :=
  match order_books self !! asset_id with
  | None => Some ([], [])
  | Some b =>
      let best_bids := slice_to levels (rev (side_or_empty (bids b))) in
      let best_asks := slice_to levels (rev (side_or_empty (asks b))) in
      match price_size_pairs best_bids, price_size_pairs best_asks with
      | Some bid_pairs, Some ask_pairs => Some (bid_pairs, ask_pairs)
      | _, _ => None
      end
  end.

End Handlers.

(** Both sides of the stored book of [asset_id] hold a level. *)
Definition two_sided (asset_id : string) (self : t) : Prop :=
  exists b bl bs al als,
    order_books self !! asset_id = Some b /\
    bids b = Some (bl :: bs) /\ asks b = Some (al :: als).

End MarketDataStream.


(** ** The threshold tests over IEEE doubles *)

(** The tests that decide whether a quote is re-priced and whether a
    request is granted compare a computed [float] with a threshold, and
    the cases of interest sit on the threshold.  There the rounding of
    the arithmetic decides, so these functions are modelled a second time
    in [Binary64], over binary64 numbers ([PrimFloat.float]) with the
    rounding, the infinities and the NaN of the machine.  A decimal
    literal denotes the double nearest to it, as in Python. *)

(** The value of a double as a rational number. *)
Module IEEE.

Definition pow2 (e : Z) : Q := 2 ^ e.

(** The real number a double stands for; 0 for infinities and NaN. *)
Definition SF2Q (x : spec_float) : Q :=
  match x with
  | S754_finite s m e => inject_Z (cond_Zopp s (Zpos m)) * pow2 e
  | _ => 0
  end.

(** Zeros and finite numbers. *)
Definition SFfinite (x : spec_float) : bool :=
  match x with
  | S754_zero _ | S754_finite _ _ _ => true
  | _ => false
  end.

Definition F2Q (x : float) : Q := SF2Q (Prim2SF x).
Definition finite (x : float) : bool := SFfinite (Prim2SF x).

End IEEE.

Module Binary64.

(** The Python builtins on [float]. *)
Module Py.

Local Open Scope float_scope.

(** [min(a, b)] and [max(a, b)]: the first argument wins unless the
    second is strictly smaller (resp. larger); a NaN compares false. *)
Definition min (a b : float) : float := if b <? a then b else a.
Definition max (a b : float) : float := if a <? b then b else a.

Definition abs (x : float) : float := PrimFloat.abs x.

(** [float(n)] for a Python [int], as [n * x] computes it: the nearest
    double, [None] for the [OverflowError] of an integer too large. *)
Definition of_int (n : Z) : option float :=
  match binary_normalize prec emax n 0 false with
  | S754_infinity _ => None
  | r => Some (SF2Prim r)
  end.

(** The integer nearest to [num / den], ties to the even one. *)
Definition nearest_even (num den : Z) : Z :=
  let q := (num / den)%Z in
  match (2 * (num mod den) ?= den)%Z with
  | Lt => q
  | Gt => (q + 1)%Z
  | Eq => if Z.even q then q else (q + 1)%Z
  end.

(** [round(x, ndigits)] for [ndigits >= 0]: the exact value of [x] is
    rounded to a multiple of [10 ** -ndigits], ties to even, and the
    double nearest to that decimal is returned; zeros, infinities and
    NaN are returned as they are. *)
Definition round (x : float) (ndigits : nat) : float :=
  match Prim2SF x with
  | S754_finite s m e =>
      let scale := (10 ^ Z.of_nat ndigits)%Z in
      let k := if (0 <=? e)%Z then (Zpos m * 2 ^ e * scale)%Z
               else nearest_even (Zpos m * scale) (2 ^ (- e)) in
      match k with
      | Zpos _ =>
          let '(q, e', l) := SFdiv_core_binary prec emax k 0 scale 0 in
          SF2Prim (binary_round_aux prec emax s q e' l)
      | _ => if s then PrimFloat.neg_zero else PrimFloat.zero
      end
  | _ => x
  end.

End Py.

(** *** RateLimiter *)

Module RateLimiter.

Local Open Scope float_scope.

Record t := {
  max_requests_per_second : float;
  tokens : float;
  last_update : float
}.

Definition __init__ (now max_requests_per_second : float) : t :=
  {| max_requests_per_second := max_requests_per_second;
     tokens := max_requests_per_second;
     last_update := now |}.

Definition acquire (now : float) (self : t) : bool * t :=
  let elapsed := now - last_update self in
  let tokens' :=
    Py.min (max_requests_per_second self)
           (tokens self + elapsed * max_requests_per_second self) in
  if 1 <=? tokens'
  then (true,
        {| max_requests_per_second := max_requests_per_second self;
           tokens := tokens' - 1;
           last_update := now |})
  else (false,
        {| max_requests_per_second := max_requests_per_second self;
           tokens := tokens';
           last_update := now |}).

(** Consecutive [acquire] calls at the given clock readings; the answers
    in call order and the limiter afterwards. *)
Fixpoint acquire_all (times : list float) (self : t) : list bool * t :=
  match times with
  | [] => ([], self)
  | now :: rest =>
      let '(ok, self') := acquire now self in
      let '(oks, self'') := acquire_all rest self' in
      (ok :: oks, self'')
  end.

End RateLimiter.

(** *** PositionTracker: what is filled and what it cost *)

Record OrderState := {
  order_id : string;
  price : float;
  size : float
}.

Record MarketData := {
  top_bid : float;
  top_ask : float
}.

Module PositionTracker.

Local Open Scope float_scope.

Record fill := {
  fill_size : float;
  fill_price : float;
  fill_timestamp : float
}.

Record t := {
  token_id : string;
  target_quantity : float;
  filled_quantity : float;
  pending_orders : list (string * OrderState);
  fill_history : list fill;
  total_fill_value : float
}.

Definition __init__ (token_id : string) (target_quantity : float) : t :=
  {| token_id := token_id;
     target_quantity := target_quantity;
     filled_quantity := 0;
     pending_orders := [];
     fill_history := [];
     total_fill_value := 0 |}.

Definition get_remaining_quantity (self : t) : float :=
  Py.max 0 (target_quantity self - filled_quantity self).

Definition update_filled_quantity (now fill_size fill_price : float) (self : t) : t :=
  let remaining_quantity := get_remaining_quantity self in
  let actual_fill_size := Py.min fill_size remaining_quantity in
  if actual_fill_size <=? 0 then self
  else
    {| token_id := token_id self;
       target_quantity := target_quantity self;
       filled_quantity := filled_quantity self + actual_fill_size;
       pending_orders := pending_orders self;
       fill_history :=
         fill_history self ++
         [ {| fill_size := actual_fill_size;
              fill_price := fill_price;
              fill_timestamp := now |} ];
       total_fill_value := total_fill_value self + actual_fill_size * fill_price |}.

(** Consecutive calls [(now, fill_size, fill_price)]. *)
Definition apply_fills (calls : list (float * float * float)) (self : t) : t :=
  fold_left (fun pt c => update_filled_quantity (fst (fst c)) (snd (fst c)) (snd c) pt)
            calls self.

Definition get_pending_orders (self : t) : list OrderState :=
  Dict.values (pending_orders self).

Definition get_average_fill_price (self : t) : float :=
  if filled_quantity self =? 0 then 0
  else total_fill_value self / filled_quantity self.

Definition is_target_reached (self : t) : bool :=
  target_quantity self <=? filled_quantity self.

End PositionTracker.

(** *** TopOfBookStrategy: the target price and the test for adjusting *)

Module TopOfBookStrategy.

Local Open Scope float_scope.

Record t := {
  position_tracker : PositionTracker.t;
  limit_price : float;
  side : string;
  order_price_min_tick_size : float;
  price_improvement_ticks : Z;
  match_top_of_book : bool
}.

(** [max(prices, default=0.0)] and [min(prices, default=float('inf'))]. *)
Definition max_price (prices : list float) : float :=
  match prices with
  | [] => 0
  | p :: rest => fold_left Py.max rest p
  end.

Definition min_price (prices : list float) : float :=
  match prices with
  | [] => infinity
  | p :: rest => fold_left Py.min rest p
  end.

Definition decimal_places (self : t) : nat :=
  if order_price_min_tick_size self =? 0.001 then 3%nat else 2%nat.

(** [self.price_improvement_ticks * self.order_price_min_tick_size]. *)
Definition improvement (self : t) : option float :=
  match Py.of_int (price_improvement_ticks self) with
  | Some ticks => Some (ticks * order_price_min_tick_size self)
  | None => None
  end.

(** The best price among the strategy's own resting orders. *)
Definition our_best_price (self : t) : float :=
  let prices := map price (PositionTracker.get_pending_orders (position_tracker self)) in
  if String.eqb (side self) BUY then max_price prices else min_price prices.

(** [None] stands for the [OverflowError] of [improvement]. *)
Definition _calculate_target_price (current_top_price : float) (self : t) : option float :=
  let pending_orders := PositionTracker.get_pending_orders (position_tracker self) in
  if String.eqb (side self) BUY then
    let our_best_price := max_price (map price pending_orders) in
    if Py.abs (current_top_price - our_best_price) <=? order_price_min_tick_size self
    then Some our_best_price
    else
      let target_price :=
        if match_top_of_book self then Some current_top_price
        else match improvement self with
             | Some d => Some (current_top_price + d)
             | None => None
             end in
      match target_price with
      | Some target_price =>
          let target_price := Py.min target_price (limit_price self) in
          Some (Py.round target_price (decimal_places self))
      | None => None
      end
  else
    let our_best_price := min_price (map price pending_orders) in
    if Py.abs (current_top_price - our_best_price) <=? order_price_min_tick_size self
    then Some our_best_price
    else
      let target_price :=
        if match_top_of_book self then Some current_top_price
        else match improvement self with
             | Some d => Some (current_top_price - d)
             | None => None
             end in
      match target_price with
      | Some target_price =>
          let target_price := Py.max target_price (limit_price self) in
          Some (Py.round target_price (decimal_places self))
      | None => None
      end.

(** The test of lines 278 and 292:
    [abs(order.price - target_price) > self.order_price_min_tick_size]. *)
Definition off_target (target_price : float) (self : t) (order : OrderState) : bool :=
  order_price_min_tick_size self <? Py.abs (price order - target_price).

Definition top_of_own_side (market_data : MarketData) (self : t) : float :=
  if String.eqb (side self) BUY then top_bid market_data else top_ask market_data.

Definition _should_adjust_orders (market_data : MarketData) (self : t) : option bool :=
  if PositionTracker.is_target_reached (position_tracker self) then Some false
  else
    let pending_orders := PositionTracker.get_pending_orders (position_tracker self) in
    match pending_orders with
    | [] => Some true
    | _ =>
        let current_top_price := top_of_own_side market_data self in
        match _calculate_target_price current_top_price self with
        | Some target_price => Some (existsb (off_target target_price self) pending_orders)
        | None => None
        end
    end.

(** The orders the first loop of [_adjust_orders] cancels (lines 286 to
    294): those of the snapshot that are off target. *)
Definition to_cancel (market_data : MarketData) (self : t) : option (list string) :=
  match _calculate_target_price (top_of_own_side market_data self) self with
  | Some target_price =>
      Some (map order_id
              (List.filter (off_target target_price self)
                 (PositionTracker.get_pending_orders (position_tracker self))))
  | None => None
  end.

End TopOfBookStrategy.

End Binary64.
(** * Vocabulary of the properties *)

(** ** Postconditions of coroutines *)

(** [post m s Q]: run from [s], the coroutine [m] ends with an outcome, a
    state and a list of events that satisfy [Q]. *)
Definition post {S A} (m : M S A) (s : S) (Q : result A -> S -> list event -> Prop) : Prop :=
  let '(r, s', ev) := m s in Q r s' ev.

Definition is_err {A} (r : result A) : bool :=
  match r with
  | Err _ => true
  | Ok _ => false
  end.

(** ** StopConditionManager *)

Section StopVocabulary.
Import StopConditionManager.

(** A poll made once the timeout has elapsed. *)
Definition late_poll (self : t) (c : call) : Prop :=
  match c with
  | RequestStop => False
  | ShouldStop now | CheckTimeout now =>
      start_time self + inject_Z (timeout_seconds self) < now
  end.

End StopVocabulary.

(** ** OrderExecutor.cancel_order *)

Section CancelVocabulary.
Import OrderExecutor.

(** Attempts are counted by the rate-limiter tokens asked for. *)
Definition is_acquire (ev : event) : bool :=
  match ev with
  | EvAcquire _ => true
  | _ => false
  end.

Definition attempts (evs : list event) : nat := length (List.filter is_acquire evs).

(** A response of the venue that confirms the cancellation of
    [order_id]: one that makes [cancel_order] return [True]. *)
Definition confirms (order_id : string) (ev : event) : Prop :=
  match ev with
  | EvCancelOrders ids (Responds resp) => cancel_confirmed order_id resp = true
  | _ => False
  end.

(** The venue's answer names [order_id] among the orders not canceled,
    for the reason that it was canceled already. *)
Definition already_canceled (order_id : string) (ev : event) : Prop :=
  exists ids canceled not_canceled,
    ev = EvCancelOrders ids (Responds (CancelDict canceled not_canceled)) /\
    Dict.get order_id not_canceled = Some "order already canceled"%string.

(** A request to cancel [order_id] and nothing else. *)
Definition is_cancel_of (order_id : string) (ev : event) : Prop :=
  exists r, ev = EvCancelOrders [order_id] r.

(** The events [cancel_order] can cause. *)
Definition cancel_event (order_id : string) (ev : event) : Prop :=
  match ev with
  | EvAcquire _ | EvSleep _ => True
  | EvCancelOrders ids _ => ids = [order_id]
  | EvPostOrder _ _ => False
  end.

(** Every denial in [evs] is followed at once by a one-second sleep; a
    denial may end [evs] only when the call raised. *)
Fixpoint backs_off_until (raised : bool) (evs : list event) : Prop :=
  match evs with
  | [] => True
  | EvAcquire false :: rest =>
      match rest with
      | [] => raised = true
      | next :: _ => next = EvSleep 1
      end /\ backs_off_until raised rest
  | _ :: rest => backs_off_until raised rest
  end.

(** What one turn of the loop does, by its outcome; [last] tells the
    final turn. *)
Definition attempt_spec (order_id : string) (last : bool)
    (r : result (option bool)) (evs : list event) : Prop :=
  match r with
  | Ok (Some b) =>
      b = true /\
      exists c, evs = [EvAcquire true; c] /\ confirms order_id c /\ is_cancel_of order_id c
  | Ok None =>
      last = false /\
      (evs = [EvAcquire false; EvSleep 1] \/
       exists c, (evs = [EvAcquire true; c] \/ evs = [EvAcquire true; c; EvSleep 1]) /\
                 ~ confirms order_id c /\ is_cancel_of order_id c)
  | Err _ =>
      last = true /\
      (evs = [EvAcquire false] \/
       exists c, evs = [EvAcquire true; c] /\
                 ~ confirms order_id c /\ is_cancel_of order_id c)
  end.

(** What the loop does with [todo] turns left. *)
Definition cancel_spec (order_id : string) (todo : nat) (r : result bool) (evs : list event)
    : Prop :=
  (attempts evs <= todo)%nat /\
  backs_off_until (is_err r) evs /\
  (r = Ok true <-> Exists (confirms order_id) evs) /\
  (r = Ok false -> todo = O /\ evs = []) /\
  Forall (cancel_event order_id) evs.

End CancelVocabulary.

(** ** TopOfBookStrategy *)

Section StrategyVocabulary.
Import TopOfBookStrategy.

(** [p] does not cross the limit of the strategy. *)
Definition within_limit (self : t) (p : Q) : Prop :=
  (side self = BUY -> p <= limit_price self) /\
  (side self = SELL -> limit_price self <= p).

(** An order sent to the venue is on the strategy's side and within its
    limit. *)
Definition respects_limit (self : t) (ev : event) : Prop :=
  match ev with
  | EvPostOrder args _ =>
      OrderArgs.side args = side self /\ within_limit self (OrderArgs.price args)
  | _ => True
  end.

Definition pending (self : t) : list (string * OrderState) :=
  PositionTracker.pending_orders (position_tracker self).

Definition resting_prices (self : t) : list Q :=
  map price (PositionTracker.get_pending_orders (position_tracker self)).

(** The dictionary of pending orders as [add_pending_order] builds it:
    distinct keys, each the id of its order. *)
Definition well_formed (d : list (string * OrderState)) : Prop :=
  List.NoDup (Dict.keys d) /\ Forall (fun kv => order_id (snd kv) = fst kv) d.

(** Every order tracked by [self'] was tracked by [self] already or is
    priced within the limit. *)
Definition tracks_within_limit (self self' : t) : Prop :=
  forall kv, In kv (pending self') ->
    In kv (pending self) \/ within_limit self (price (snd kv)).

(** The parameters of [self'] are those of [self]. *)
Definition params_of (self self' : t) : Prop :=
  side self' = side self /\
  limit_price self' = limit_price self /\
  order_price_min_tick_size self' = order_price_min_tick_size self /\
  child_order_size self' = child_order_size self.

(** [l] is a multiple of [10 ^ -ndigits]. *)
Definition on_grid (ndigits : nat) (l : Q) : Prop :=
  exists k : Z, l == inject_Z k / inject_Z (10 ^ Z.of_nat ndigits).

(** The events [place_order] can cause for the given order. *)
Definition place_event (p : Q) (sd : string) (ev : event) : Prop :=
  match ev with
  | EvAcquire _ => True
  | EvSleep _ => False
  | EvPostOrder args _ => OrderArgs.price args = p /\ OrderArgs.side args = sd
  | EvCancelOrders _ _ => False
  end.

(** What [_place_new_order p sz] leaves behind. *)
Definition placed_spec (p sz : Q) (self self' : t) (evs : list event) : Prop :=
  params_of self self' /\
  ((evs = [] /\ pending self' = pending self) \/
   (_should_place_order p self = true /\
    Forall (place_event p (side self)) evs /\
    (pending self' = pending self \/
     exists now id,
       pending self' =
       Dict.set id {| order_id := id; price := p; size := sz; status := "LIVE";
                      created_at := now; updated_at := now; filled_size := 0 |}
                (pending self)))).

(** The ids of the orders of a snapshot that are off target. *)
Definition doomed (target : Q) (self : t) (orders : list OrderState) : list string :=
  map order_id (List.filter (off_target target self) orders).

(** [d'] is [d] without some of the keys in [gone]. *)
Definition pruned (gone : list string) (d d' : list (string * OrderState)) : Prop :=
  (forall kv, In kv d' -> In kv d) /\
  (length d' <= length d)%nat /\
  (forall kv, In kv d -> ~ In (fst kv) gone -> In kv d').

(** The events of the cancel loop: requests to cancel doomed orders and
    the rate-limiter traffic around them. *)
Definition prune_event (gone : list string) (ev : event) : Prop :=
  match ev with
  | EvAcquire _ | EvSleep _ => True
  | EvPostOrder _ _ => False
  | EvCancelOrders ids _ => exists id, ids = [id] /\ In id gone
  end.

(** The target price [_adjust_orders] works with. *)
Definition own_target (market_data : MarketData) (self : t) : Q :=
  _calculate_target_price (top_of_own_side market_data self) self.

(** The ids [_adjust_orders] asks the venue to cancel. *)
Definition to_cancel (market_data : MarketData) (self : t) : list string :=
  doomed (own_target market_data self) self
         (PositionTracker.get_pending_orders (position_tracker self)).

Definition adjust_event (market_data : MarketData) (self : t) (ev : event) : Prop :=
  match ev with
  | EvAcquire _ | EvSleep _ => True
  | EvPostOrder args _ =>
      OrderArgs.side args = side self /\ OrderArgs.price args = own_target market_data self /\
      within_limit self (OrderArgs.price args)
  | EvCancelOrders ids _ => exists id, ids = [id] /\ In id (to_cancel market_data self)
  end.

(** What [_adjust_orders] leaves behind. *)
Definition adjusted_spec (market_data : MarketData) (self self' : t) (evs : list event) : Prop :=
  params_of self self' /\
  Forall (adjust_event market_data self) evs /\
  (length (pending self') <= Nat.max 3 (length (pending self)))%nat /\
  tracks_within_limit self self' /\
  (forall kv, In kv (pending self) -> ~ In (fst kv) (to_cancel market_data self) ->
     Dict.mem (fst kv) (pending self') = true).

(** What handling an order update leaves behind. *)
Definition updated_spec (self self' : t) (evs : list event) : Prop :=
  params_of self self' /\
  Forall (respects_limit self) evs /\
  (length (pending self') <= Nat.max 3 (length (pending self)))%nat /\
  tracks_within_limit self self'.

End StrategyVocabulary.

(** The configuration with another [max_pending_orders]. *)
Definition with_max_pending_orders (n : Z) (config : StrategyConfig.t) : StrategyConfig.t :=
  {| StrategyConfig.token_id := StrategyConfig.token_id config;
     StrategyConfig.limit_price := StrategyConfig.limit_price config;
     StrategyConfig.total_quantity := StrategyConfig.total_quantity config;
     StrategyConfig.child_order_size := StrategyConfig.child_order_size config;
     StrategyConfig.order_price_min_tick_size := StrategyConfig.order_price_min_tick_size config;
     StrategyConfig.side := StrategyConfig.side config;
     StrategyConfig.timeout_seconds := StrategyConfig.timeout_seconds config;
     StrategyConfig.rate_limit_per_second := StrategyConfig.rate_limit_per_second config;
     StrategyConfig.max_pending_orders := n;
     StrategyConfig.price_improvement_ticks := StrategyConfig.price_improvement_ticks config;
     StrategyConfig.match_top_of_book := StrategyConfig.match_top_of_book config;
     StrategyConfig.inside_liquidity_mode := StrategyConfig.inside_liquidity_mode config |}.

(** ** Counting grants and accounting for fills *)

(** The number of requests granted among the answers of a limiter. *)
Definition granted (answers : list bool) : nat :=
  length (List.filter (fun ok => ok) answers).

Section TrackerVocabulary.
Import PositionTracker.

(** The quantity and the value of the fills on record. *)
Definition filled_by (history : list fill) : Q :=
  fold_right (fun f acc => fill_size f + acc) 0 history.

Definition paid_for (history : list fill) : Q :=
  fold_right (fun f acc => fill_size f * fill_price f + acc) 0 history.

(** The books balance: the position is the sum of the fills on record,
    and so is their value. *)
Definition balanced (pt : PositionTracker.t) : Prop :=
  PositionTracker.filled_quantity pt == filled_by (PositionTracker.fill_history pt) /\
  PositionTracker.total_fill_value pt == paid_for (PositionTracker.fill_history pt) /\
  List.Forall (fun f => 0 < PositionTracker.fill_size f) (PositionTracker.fill_history pt).

(** The fill [f] on record answers the call [c]: same instant, same
    price, no more than the size reported. *)
Definition answers_call (c : Q * Q * Q) (f : fill) : Prop :=
  let '(now, fs, fp) := c in
  fill_timestamp f = now /\ fill_price f = fp /\ fill_size f <= fs.

End TrackerVocabulary.

(** ** OrderExecutor.place_order and cancel_all_orders *)

Section ExecutorVocabulary.
Import OrderExecutor.

(** An order the venue can accept: a price in (0, 1] and at least the
    minimum size. *)
Definition valid_order (args : OrderArgs.t) : Prop :=
  0 < OrderArgs.price args /\ OrderArgs.price args <= 1 /\
  MIN_ORDER_SIZE <= OrderArgs.size args.

(** The venue's answer to a [post_order] request gives the order the
    non-empty id [id]. *)
Definition accepted_as (id : string) (ev : event) : Prop :=
  id <> ""%string /\
  match ev with
  | EvPostOrder _ (Responds (PostDict true (Some id'))) => id' = id
  | EvPostOrder _ (Responds (PostStr id')) => id' = id
  | _ => False
  end.

(** The venue's answer to a [post_order] request is an error that speaks
    of balance or allowance. *)
Definition refused_for_funds (message : string) (ev : event) : Prop :=
  match ev with
  | EvPostOrder _ (Throws m) => m = message /\ is_balance_error m = true
  | _ => False
  end.

(** What [place_order] makes of the venue's answer to the one order it
    sent. *)
Definition verdict (r : reply post_response) : result (option string) :=
  match r with
  | Responds (PostDict true (Some id)) => Ok (if String.eqb id "" then None else Some id)
  | Responds (PostStr id) => Ok (if String.eqb id "" then None else Some id)
  | Responds _ => Ok None
  | Throws m =>
      if is_balance_error m
      then Err (String.append "Fatal error - insufficient balance/allowance: " m)
      else Ok None
  end.

(** The ids of the listed orders that are on [token_id], in list order. *)
Fixpoint token_orders (token_id : string) (orders : list open_order) : list string :=
  match orders with
  | [] => []
  | order :: rest =>
      match oo_asset_id order, oo_id order with
      | Some asset_id, Some order_id =>
          if String.eqb asset_id token_id && truthy (Some order_id)
          then order_id :: token_orders token_id rest
          else token_orders token_id rest
      | _, _ => token_orders token_id rest
      end
  end.

(** What the venue lists when asked for the open orders. *)
Definition listed (r : Q * reply (option (list open_order))) : list open_order :=
  match snd r with
  | Responds (Some orders) => orders
  | _ => []
  end.

(** An event of [cancel_all_orders]: rate-limiter traffic, or a request
    to cancel one of the orders [ids]. *)
Definition cancels_among (ids : list string) (ev : event) : Prop :=
  match ev with
  | EvAcquire _ | EvSleep _ => True
  | EvPostOrder _ _ => False
  | EvCancelOrders requested _ => exists id, requested = [id] /\ In id ids
  end.

End ExecutorVocabulary.

(** ** TopOfBookStrategy: a run of market updates *)

(** Market updates handled one after the other, each to its end, whether
    it returned or raised; the strategy afterwards and everything sent on
    the way. *)
Fixpoint market_feed (updates : list MarketData) (self : TopOfBookStrategy.t)
    : TopOfBookStrategy.t * list event :=
  match updates with
  | [] => (self, [])
  | market_data :: rest =>
      let '(_, self', evs) := TopOfBookStrategy.process_market_update market_data self in
      let '(self'', evs') := market_feed rest self' in
      (self'', evs ++ evs')
  end.

(** ** InsideLiquidityStrategy *)

Section InsideVocabulary.
Import InsideLiquidityStrategy.

(** What a market update may change: the executors and the snapshot, and
    nothing of the position, the parameters or the error flag. *)
Definition same_position (s s' : t) : Prop :=
  position_tracker s' = position_tracker s /\
  critical_error s' = critical_error s /\
  critical_error_message s' = critical_error_message s /\
  side s' = side s /\ limit_price s' = limit_price s /\
  child_order_size s' = child_order_size s.

(** The order an update may send: on the strategy's side and token, for
    the child size cut down to the remaining quantity, which is at least
    the minimum order size. *)
Definition takes (self : t) (ev : event) : Prop :=
  match ev with
  | EvPostOrder args _ =>
      OrderArgs.side args = side self /\
      OrderArgs.token_id args = PositionTracker.token_id (position_tracker self) /\
      OrderArgs.size args
      = Py.min (child_order_size self)
               (PositionTracker.get_remaining_quantity (position_tracker self)) /\
      5 <= OrderArgs.size args /\
      OrderArgs.size args <= child_order_size self /\
      OrderArgs.size args <= PositionTracker.get_remaining_quantity (position_tracker self)
  | _ => False
  end.

(** The book shows a price within the limit and the child size on
    offer. *)
Definition on_offer (market_data : MarketData) (self : t) : Prop :=
  PositionTracker.is_target_reached (position_tracker self) = false /\
  ((side self = BUY /\ top_ask market_data <= limit_price self /\
    child_order_size self <= ask_size market_data) \/
   (side self = SELL /\ limit_price self <= top_bid market_data /\
    child_order_size self <= bid_size market_data)).

End InsideVocabulary.

(** ** OrderHandlerCLI: a run of polls *)

Section TimerVocabulary.
Import OrderHandlerCLI.

(** The manager has no pending order. *)
Definition idle_manager (m : OrderManager.t) : Prop :=
  PositionTracker.get_pending_orders (OrderManager.position_tracker m) = [].

(** One turn of the CLI loop: the manager is as the strategy left it, and
    the timer is asked at the given clock reading. *)
Definition poll (p : Q * OrderManager.t) (self : t) : bool * t :=
  _should_exit_no_orders (fst p) (set_order_manager (Some (snd p)) self).

(** The turns of a run, first to last: the CLI after them. *)
Definition polled (history : list (Q * OrderManager.t)) (self : t) : t :=
  fold_left (fun cli p => snd (poll p cli)) history self.

End TimerVocabulary.

(** ** MarketDataStream: books kept best level last *)

Section BookVocabulary.
Import MarketDataStream.

Variable float_of_str : string -> option Q.

(** [q] is at least as good a price as [p]: higher for a bid, lower for
    an ask. *)
Definition at_least_as_good (is_bids : bool) (p q : Q) : Prop :=
  if is_bids then p <= q else q <= p.

(** Every price of the side can be read, and the levels go from the
    worst price to the best. *)
Definition best_last (is_bids : bool) (levels : list level) : Prop :=
  exists ks,
    keyed float_of_str levels = Some ks /\
    StronglySorted (at_least_as_good is_bids) (map fst ks).

Definition book_best_last (b : book) : Prop :=
  best_last true (side_or_empty (bids b)) /\ best_last false (side_or_empty (asks b)).

(** The order [sort_side] sorts a side by. *)
Definition before (is_bids : bool) : Q -> Q -> bool :=
  if is_bids then Qle_bool else fun a b => Qle_bool b a.

(** Each key is the price of its level. *)
Definition keys_read (ks : list (Q * level)) : Prop :=
  Forall (fun kl => float float_of_str (lv_price (snd kl)) = Some (fst kl)) ks.

(** No level of the side is at the price [price], as the handler
    compares prices: as they are written. *)
Definition unlisted (price : json) (levels : list level) : Prop :=
  Forall (fun l => json_eqb (lv_price l) price = false) levels.

(** No readable price of the side is better than [top]. *)
Definition tops (is_bids : bool) (top : Q) (levels : list level) : Prop :=
  Forall (fun l => forall q, float float_of_str (lv_price l) = Some q ->
                             at_least_as_good is_bids q top) levels.

End BookVocabulary.

(** ** Concrete data *)

Module Sample.

(** [float] on plain decimal literals such as ["0.52"] and ["-3"]. *)
Definition digit (c : ascii) : option Z :=
  let n := nat_of_ascii c in
  if ((48 <=? n) && (n <=? 57))%nat then Some (Z.of_nat (n - 48)) else None.

Fixpoint digits (s : string) (num : Z) (den : positive) (dot seen : bool) : option Q :=
  match s with
  | EmptyString => if seen then Some (num # den) else None
  | String c rest =>
      if Ascii.eqb c "."
      then (if dot then None else digits rest num den true seen)
      else
        match digit c with
        | Some d =>
            digits rest (10 * num + d)%Z (if dot then (10 * den)%positive else den) dot true
        | None => None
        end
  end.

Definition decimal (s : string) : option Q :=
  match s with
  | String "-" rest =>
      match digits rest 0 1 false false with
      | Some q => Some (- q)
      | None => None
      end
  | _ => digits s 0 1 false false
  end.

(** A venue that accepts every order and cancels whatever it is asked
    to, at once. *)
Definition obliging : ClobClient :=
  {| served := 0;
     post_order_reply := fun n _ =>
       (0, Responds (PostDict true
                       (Some (String.append "order-" (Py.str_of_Z (Z.of_nat n))))));
     cancel_orders_reply := fun _ ids => (0, Responds (CancelDict ids [])) |}.

(** A venue that has canceled the order before it is asked to. *)
Definition stale : ClobClient :=
  {| served := 0;
     post_order_reply := fun _ _ => (0, Responds PostFalsy);
     cancel_orders_reply := fun _ ids =>
       (0, Responds (CancelDict [] (map (fun id => (id, "order already canceled"%string)) ids))) |}.

Definition executor : OrderExecutor.t :=
  OrderExecutor.__init__ 0 obliging (RateLimiter.__init__ 0 5).

Definition stale_executor : OrderExecutor.t :=
  OrderExecutor.__init__ 0 stale (RateLimiter.__init__ 0 5).

(** An executor whose limiter never has a token to give. *)
Definition starved_executor : OrderExecutor.t :=
  OrderExecutor.__init__ 0 obliging (RateLimiter.__init__ 0 0).

Definition config : StrategyConfig.t :=
  {| StrategyConfig.token_id := "token";
     StrategyConfig.limit_price := 55 # 100;
     StrategyConfig.total_quantity := 20;
     StrategyConfig.child_order_size := 10;
     StrategyConfig.order_price_min_tick_size := 1 # 100;
     StrategyConfig.side := "BUY";
     StrategyConfig.timeout_seconds := 3600;
     StrategyConfig.rate_limit_per_second := 5;
     StrategyConfig.max_pending_orders := 3;
     StrategyConfig.price_improvement_ticks := 1;
     StrategyConfig.match_top_of_book := false;
     StrategyConfig.inside_liquidity_mode := false |}.

(** The maker strategy of [config], before its first quote. *)
Definition idle : TopOfBookStrategy.t :=
  TopOfBookStrategy.__init__ executor
    (PositionTracker.__init__ "token" 20) 10 (55 # 100) (1 # 100) "BUY" 1 false.

Definition tick (bid ask : Q) : MarketData :=
  {| asset_id := "token"; top_bid := bid; top_ask := ask;
     bid_size := 100; ask_size := 100; timestamp := 0 |}.

(** The strategy after its first market update: one order rests at 0.51. *)
Definition quoting : TopOfBookStrategy.t :=
  snd (fst (TopOfBookStrategy.process_market_update (tick (50 # 100) (60 # 100)) idle)).



(** A venue that refuses every order for lack of funds. *)
Definition penniless : ClobClient :=
  {| served := 0;
     post_order_reply := fun _ _ => (0, Throws "not enough balance / allowance");
     cancel_orders_reply := fun _ ids => (0, Responds (CancelDict ids [])) |}.

(** An order-book endpoint that shows 0.50 bid, 0.52 offered, 100 each
    way, whatever it is asked and whenever. *)
Definition book_endpoint (now : Q) (token_id : string)
    : Q * reply MarketOrderExecutor.book_data :=
  (0, Responds
        {| MarketOrderExecutor.bd_bids :=
             [ {| MarketOrderExecutor.bl_price := Some (50 # 100);
                  MarketOrderExecutor.bl_size := Some 100 |} ];
           MarketOrderExecutor.bd_asks :=
             [ {| MarketOrderExecutor.bl_price := Some (52 # 100);
                  MarketOrderExecutor.bl_size := Some 100 |} ] |}).

(** An order-book endpoint that lists each side from the worst level to
    the best: bids at 0.40 and 0.50, asks at 0.60 and 0.52. *)
Definition worst_first_endpoint (now : Q) (token_id : string)
    : Q * reply MarketOrderExecutor.book_data :=
  (0, Responds
        {| MarketOrderExecutor.bd_bids :=
             [ {| MarketOrderExecutor.bl_price := Some (40 # 100);
                  MarketOrderExecutor.bl_size := Some 100 |};
               {| MarketOrderExecutor.bl_price := Some (50 # 100);
                  MarketOrderExecutor.bl_size := Some 100 |} ];
           MarketOrderExecutor.bd_asks :=
             [ {| MarketOrderExecutor.bl_price := Some (60 # 100);
                  MarketOrderExecutor.bl_size := Some 100 |};
               {| MarketOrderExecutor.bl_price := Some (52 # 100);
                  MarketOrderExecutor.bl_size := Some 100 |} ] |}).

(** A market-order executor on the obliging venue. *)
Definition market_executor : MarketOrderExecutor.t :=
  MarketOrderExecutor.__init__ 0 obliging (RateLimiter.__init__ 0 5).

(** The taker strategy of [config] on the venue without funds. *)
Definition taker : InsideLiquidityStrategy.t :=
  InsideLiquidityStrategy.__init__
    (OrderExecutor.__init__ 0 penniless (RateLimiter.__init__ 0 5))
    (PositionTracker.__init__ "token" 20) 10 (55 # 100) (1 # 100) "BUY".

(** A stop manager with a callback and a ten-second budget, started at
    time 0. *)
Definition armed : StopConditionManager.t :=
  StopConditionManager.set_stop_callback "_handle_stop_condition"
    (StopConditionManager.__init__ 0 10).

Definition lv (p s : string) : level := {| lv_price := JStr p; lv_size := JStr s |}.

Definition book_message : message :=
  {| event_type := "book"; msg_asset_id := Some "token"%string;
     msg_bids := Some [lv "0.50" "100"]; msg_asks := Some [lv "0.52" "80"];
     msg_changes := [] |}.

(** A book with a second, worse bid. *)
Definition deep_book : message :=
  {| event_type := "book"; msg_asset_id := Some "token"%string;
     msg_bids := Some [lv "0.49" "70"; lv "0.50" "100"]; msg_asks := Some [lv "0.52" "80"];
     msg_changes := [] |}.

Definition price_change (side p s : string) : message :=
  {| event_type := "price_change"; msg_asset_id := Some "token"%string;
     msg_bids := None; msg_asks := None;
     msg_changes := [ {| ch_price := JStr p; ch_side := JStr side; ch_size := JStr s |} ] |}.

Definition empty_stream : MarketDataStream.t :=
  {| MarketDataStream.order_books := ∅ |}.

(** The outcomes of a feed on the empty stream, in order. *)
Definition outcomes (msgs : list message) : list MarketDataStream.outcome :=
  map (fun step => snd (fst step))
      (MarketDataStream.feed decimal (map (fun m => (0, m)) msgs) empty_stream).

End Sample.


(** ** Doubles *)

Section DoubleVocabulary.
Import IEEE.

(** The number of binary digits of a mantissa. *)
Definition dig (p : positive) : Z := Zpos (digits2_pos p).

(** Shifting right keeps the quotient, and no bit is lost where the
    division is exact. *)
Definition shifted (M : Z) (k : Z) (r : shr_record) : Prop :=
  shr_m r = (M / 2 ^ k)%Z /\
  ((M mod 2 ^ k = 0)%Z -> shr_r r = false /\ shr_s r = false).

Definition signed (s : bool) (q : Q) : Q := if s then - q else q.

(** What an operation on two finite doubles gives: never NaN, a valid
    double or an infinity, on the right side of every double [c]. *)
Definition rounds_to (v : Q) (r : spec_float) : Prop :=
  r <> S754_nan /\ valid_binary r = true /\
  forall c, valid_binary c = true -> SFfinite c = true ->
    (SF2Q c <= v -> SFleb c r = true) /\ (v <= SF2Q c -> SFleb r c = true).

(** The result [r] of an operation whose exact value is [v]. *)
Definition rounds (v : Q) (r : float) : Prop := rounds_to v (Prim2SF r).

Import Binary64 Binary64.RateLimiter.
Local Open Scope float_scope.

(** The double [x] is the integer [n]. *)
Definition integral (x : float) (n : Z) : Prop :=
  finite x = true /\ (F2Q x == inject_Z n)%Q.

(** The balance after the refill of [acquire], before a token is taken. *)
Definition refilled (now : float) (self : t) : float :=
  Py.min (max_requests_per_second self)
         (tokens self + (now - last_update self) * max_requests_per_second self).

End DoubleVocabulary.

(** The strategy of [Sample.quoting] over doubles. *)
Module Sample64.
Import Binary64.
Local Open Scope float_scope.

(** One order of the strategy rests at 0.51; the tick is 0.01. *)
Definition quoting : TopOfBookStrategy.t :=
  {| TopOfBookStrategy.position_tracker :=
       {| PositionTracker.token_id := "token";
          PositionTracker.target_quantity := 20;
          PositionTracker.filled_quantity := 0;
          PositionTracker.pending_orders :=
            [("order-0"%string,
              {| order_id := "order-0"; price := 0.51; size := 10 |})];
          PositionTracker.fill_history := [];
          PositionTracker.total_fill_value := 0 |};
     TopOfBookStrategy.limit_price := 0.6;
     TopOfBookStrategy.side := BUY;
     TopOfBookStrategy.order_price_min_tick_size := 0.01;
     TopOfBookStrategy.price_improvement_ticks := 1;
     TopOfBookStrategy.match_top_of_book := false |}.

Definition book (bid ask : float) : MarketData := {| top_bid := bid; top_ask := ask |}.

End Sample64.
(** * Properties *)

(** ** Comparisons of rationals *)

Lemma Qltb_true x y : Py.Qltb x y = true <-> x < y.
Proof.
  unfold Py.Qltb. rewrite negb_true_iff.
  split; intros H.
  - apply Qnot_le_lt. intros Hle. apply Qle_bool_iff in Hle. congruence.
  - destruct (Qle_bool y x) eqn:E; [|reflexivity].
    apply Qle_bool_iff in E. lra.
Qed.

Lemma Qltb_false x y : Py.Qltb x y = false <-> y <= x.
Proof.
  unfold Py.Qltb. rewrite negb_false_iff. apply Qle_bool_iff.
Qed.

Lemma Qle_bool_false x y : Qle_bool x y = false <-> y < x.
Proof.
  split; intros H.
  - apply Qnot_le_lt. intros Hle. apply Qle_bool_iff in Hle. congruence.
  - destruct (Qle_bool x y) eqn:E; [|reflexivity].
    apply Qle_bool_iff in E. lra.
Qed.

(** Turn the boolean tests in the context into the orders they decide. *)
Ltac qcases :=
  repeat match goal with
  | H : Py.Qltb _ _ = true |- _ => apply Qltb_true in H
  | H : Py.Qltb _ _ = false |- _ => apply Qltb_false in H
  | H : Qle_bool _ _ = true |- _ => apply Qle_bool_iff in H
  | H : Qle_bool _ _ = false |- _ => apply Qle_bool_false in H
  | H : Qeq_bool _ _ = true |- _ => apply Qeq_bool_iff in H
  | H : Qeq_bool _ _ = false |- _ => apply Qeq_bool_neq in H
  end.

Lemma py_min_spec a b : (b < a /\ Py.min a b = b) \/ (a <= b /\ Py.min a b = a).
Proof.
  unfold Py.min. destruct (Py.Qltb b a) eqn:E; qcases; [left|right]; split; auto.
Qed.

Lemma py_max_spec a b : (a < b /\ Py.max a b = b) \/ (b <= a /\ Py.max a b = a).
Proof.
  unfold Py.max. destruct (Py.Qltb a b) eqn:E; qcases; [left|right]; split; auto.
Qed.

(** ** The model at work *)

Example py_min_keeps_first_on_ties : Py.min 10 (20 # 2) = 10.
Proof. reflexivity. Qed.

Example py_round_ties_to_even :
  Py.round (5 # 1000) 2 == 0 /\ Py.round (15 # 1000) 2 == 2 # 100 /\
  Py.round (555 # 1000) 2 == 56 # 100.
Proof. repeat split. Qed.

Example py_lower_contains :
  Py.contains "allowance" (Py.lower "Insufficient ALLOWANCE for order") = true.
Proof. reflexivity. Qed.

(** The scenario of the specification: the first quote improves the bid
    of 0.50 by one tick and asks for one child order. *)
Example first_quote :
  snd (TopOfBookStrategy.process_market_update
         (Sample.tick (50 # 100) (60 # 100)) Sample.idle)
  = [ EvAcquire true;
      EvPostOrder {| OrderArgs.price := 51 # 100; OrderArgs.size := 10; OrderArgs.side := "BUY";
                     OrderArgs.token_id := "token" |}
                  (Responds (PostDict true (Some "order-0"%string))) ].
Proof. vm_compute. reflexivity. Qed.

(** ** Dictionaries *)

Lemma dict_mem_del {V} k (d : list (string * V)) : Dict.mem k (Dict.del k d) = false.
Proof.
  unfold Dict.mem, Dict.del. induction d as [|[k' v] d IH]; simpl; [reflexivity|].
  destruct (String.eqb k' k) eqn:E; simpl; [exact IH|]. rewrite E. exact IH.
Qed.

Lemma dict_del_length {V} k (d : list (string * V)) :
  (length (Dict.del k d) <= length d)%nat.
Proof. unfold Dict.del. apply List.filter_length_le. Qed.

Lemma dict_set_length {V} k v (d : list (string * V)) :
  (length (Dict.set k v d) <= S (length d))%nat.
Proof.
  induction d as [|[k' v'] d IH]; simpl; [lia|].
  destruct (String.eqb k' k); simpl; lia.
Qed.

Lemma in_dict_del {V} k (d : list (string * V)) kv :
  In kv (Dict.del k d) <-> In kv d /\ fst kv <> k.
Proof.
  unfold Dict.del. rewrite filter_In, negb_true_iff, String.eqb_neq. reflexivity.
Qed.

Lemma in_dict_set {V} k (v : V) d kv :
  In kv (Dict.set k v d) -> kv = (k, v) \/ In kv d.
Proof.
  induction d as [|[k' v'] d IH]; simpl.
  - intros [H|[]]; auto.
  - destruct (String.eqb k' k); simpl; intros [H|H]; auto.
    destruct (IH H); auto.
Qed.

Lemma dict_mem_in {V} (d : list (string * V)) kv : In kv d -> Dict.mem (fst kv) d = true.
Proof.
  intros H. unfold Dict.mem. apply existsb_exists. exists kv. split; [exact H|].
  apply String.eqb_refl.
Qed.

Lemma dict_mem_set {V} k (v : V) d k' :
  Dict.mem k' d = true -> Dict.mem k' (Dict.set k v d) = true.
Proof.
  unfold Dict.mem. induction d as [|[k1 v1] d IH]; simpl; [discriminate|].
  destruct (String.eqb k1 k') eqn:E1; simpl.
  - intros _. destruct (String.eqb k1 k) eqn:E2; simpl.
    + apply String.eqb_eq in E1, E2. subst. rewrite String.eqb_refl. reflexivity.
    + rewrite E1. reflexivity.
  - intros H. destruct (String.eqb k1 k) eqn:E2; simpl.
    + rewrite H. apply orb_true_r.
    + rewrite E1. simpl. auto.
Qed.

Lemma nodup_keys_inj {V} (d : list (string * V)) kv kv' :
  List.NoDup (Dict.keys d) -> In kv d -> In kv' d -> fst kv = fst kv' -> kv = kv'.
Proof.
  unfold Dict.keys. induction d as [|x d IH]; simpl; [contradiction|].
  intros Hnd. inversion Hnd as [|? ? Hnotin Hnd']; subst.
  intros [->|Hin] [->|Hin'] Heq; auto.
  - exfalso. apply Hnotin. rewrite Heq. now apply in_map.
  - exfalso. apply Hnotin. rewrite <- Heq. now apply in_map.
Qed.

(** ** PositionTracker *)

Section PositionTrackerFacts.
Import PositionTracker.





Lemma pending_update_filled now fs fp pt :
  pending_orders (update_filled_quantity now fs fp pt) = pending_orders pt.
Proof.
  unfold update_filled_quantity. destruct (Qle_bool _ 0); reflexivity.
Qed.






Lemma remove_pending_order_twice order_id pt :
  remove_pending_order order_id (remove_pending_order order_id pt)
  = remove_pending_order order_id pt.
Proof.
  unfold remove_pending_order.
  destruct (Dict.mem order_id (pending_orders pt)) eqn:E.
  - simpl. rewrite dict_mem_del. reflexivity.
  - rewrite E. reflexivity.
Qed.

End PositionTrackerFacts.

(** ** RateLimiter *)

Section RateLimiterFacts.
Import RateLimiter.

Lemma acquire_tokens_le now rl :
  tokens (snd (acquire now rl)) <= max_requests_per_second rl /\
  max_requests_per_second (snd (acquire now rl)) = max_requests_per_second rl.
Proof.
  unfold acquire.
  set (e := tokens rl + (now - last_update rl) * max_requests_per_second rl).
  destruct (py_min_spec (max_requests_per_second rl) e) as [[H E]|[H E]]; rewrite E;
    destruct (Qle_bool 1 _) eqn:E1; simpl; qcases; split; try reflexivity; lra.
Qed.

End RateLimiterFacts.

(** ** StopConditionManager *)

Section StopConditionManagerFacts.
Import StopConditionManager.

Lemma check_timeout_late now self :
  start_time self + inject_Z (timeout_seconds self) < now ->
  check_timeout now self = (true, create_task self "timeout").
Proof.
  intros H. unfold check_timeout.
  destruct (Py.Qltb _ _) eqn:E; qcases; [reflexivity|lra].
Qed.

Lemma run_polls_after_stop times : forall self,
  stop_requested self = true ->
  snd (run (map ShouldStop times) self) = [].
Proof.
  induction times as [|now rest IH]; intros self Hreq; simpl; [reflexivity|].
  unfold should_stop. rewrite Hreq. simpl.
  specialize (IH self Hreq). destruct (run (map ShouldStop rest) self). simpl in *.
  exact IH.
Qed.

Lemma run_late_polls calls : forall self cb,
  stop_callback self = Some cb ->
  stop_requested self = false ->
  Forall (late_poll self) calls ->
  snd (run calls self)
    = repeat {| task_callback := cb; task_reason := "timeout" |} (length calls).
Proof.
  induction calls as [|c rest IH]; intros self cb Hcb Hreq Hlate; simpl; [reflexivity|].
  inversion Hlate as [|c' rest' Hc Hrest]; subst.
  specialize (IH self cb Hcb Hreq Hrest).
  destruct c as [|now|now]; simpl in Hc; [contradiction| |].
  - simpl. unfold should_stop. rewrite Hreq, (check_timeout_late now self Hc). simpl.
    destruct (run rest self). simpl in *. rewrite IH.
    unfold create_task. rewrite Hcb. reflexivity.
  - simpl. rewrite (check_timeout_late now self Hc). simpl.
    destruct (run rest self). simpl in *. rewrite IH.
    unfold create_task. rewrite Hcb. reflexivity.
Qed.

(** C9, as the code has it.  With a callback registered, [request_stop]
    hands the callback to the event loop once, with reason
    ["manual_stop"], and the [should_stop] polls that follow hand over
    nothing more; while no manual stop is requested, every poll
    ([should_stop] or [check_timeout]) made after the timeout has elapsed
    hands the callback over once more, with reason ["timeout"]: as many
    invocations as polls. *)
Theorem stop_callback_per_call (self : t) (cb : string) :
  stop_callback self = Some cb ->
  (snd (request_stop self) = [ {| task_callback := cb; task_reason := "manual_stop" |} ] /\
   forall times, snd (run (map ShouldStop times) (fst (request_stop self))) = []) /\
  (stop_requested self = false ->
   forall calls,
     Forall (late_poll self) calls ->
     snd (run calls self)
       = repeat {| task_callback := cb; task_reason := "timeout" |} (length calls)).
Proof.
  intros Hcb. split; [split|].
  - unfold request_stop, create_task. rewrite Hcb. reflexivity.
  - intros times. apply run_polls_after_stop. reflexivity.
  - intros Hreq calls Hlate. now apply run_late_polls.
Qed.

Lemma stop_callback_per_call_witness :
  stop_callback Sample.armed = Some "_handle_stop_condition"%string /\
  snd (run [ShouldStop 11; CheckTimeout 12; ShouldStop 13] Sample.armed)
    = repeat {| task_callback := "_handle_stop_condition"; task_reason := "timeout" |} 3.
Proof.
  split; [reflexivity|].
  apply (proj2 (stop_callback_per_call Sample.armed "_handle_stop_condition" eq_refl) eq_refl
           [ShouldStop 11; CheckTimeout 12; ShouldStop 13]).
  repeat constructor.
Defined.

(** C9 as stated fails: ten seconds of budget, polled at 11 and at 12, and
    the callback is invoked twice for the one timeout. *)
Lemma timeout_callback_repeats :
  fst (check_timeout 11 Sample.armed) = true /\
  reasons (snd (run [ShouldStop 11; ShouldStop 12] Sample.armed))
    = ["timeout"; "timeout"]%string.
Proof. split; reflexivity. Qed.

End StopConditionManagerFacts.

(** ** Postconditions of coroutines *)

Section Post.
Context {S : Type}.

Lemma post_ret {A} (a : A) (s : S) Q : Q (Ok a) s [] -> post (ret a) s Q.
Proof. exact (fun H => H). Qed.

Lemma post_raise {A} e (s : S) (Q : result A -> S -> list event -> Prop) :
  Q (Err e) s [] -> post (raise e) s Q.
Proof. exact (fun H => H). Qed.

Lemma post_get (s : S) Q : Q (Ok s) s [] -> post get s Q.
Proof. exact (fun H => H). Qed.

Lemma post_modify (f : S -> S) (s : S) Q : Q (Ok tt) (f s) [] -> post (modify f) s Q.
Proof. exact (fun H => H). Qed.

Lemma post_bind {A B} (m : M S A) (f : A -> M S B) s Q :
  post m s (fun r s1 ev1 =>
    match r with
    | Ok a => post (f a) s1 (fun r' s2 ev2 => Q r' s2 (ev1 ++ ev2))
    | Err e => Q (Err e) s1 ev1
    end) ->
  post (bind m f) s Q.
Proof.
  unfold post, bind. destruct (m s) as [[[a|e] s1] ev1]; [|auto].
  destruct (f a s1) as [[r' s2] ev2]. auto.
Qed.

Lemma post_try {A} (m : M S A) (h : string -> M S A) s Q :
  post m s (fun r s1 ev1 =>
    match r with
    | Ok a => Q (Ok a) s1 ev1
    | Err e => post (h e) s1 (fun r' s2 ev2 => Q r' s2 (ev1 ++ ev2))
    end) ->
  post (try_except m h) s Q.
Proof.
  unfold post, try_except. destruct (m s) as [[[a|e] s1] ev1]; [auto|].
  destruct (h e s1) as [[r' s2] ev2]. auto.
Qed.

Lemma post_mono {A} (m : M S A) s (Q Q' : result A -> S -> list event -> Prop) :
  post m s Q -> (forall r s' ev, Q r s' ev -> Q' r s' ev) -> post m s Q'.
Proof.
  unfold post. destruct (m s) as [[r s'] ev]. auto.
Qed.

Lemma post_zoom {T A} (proj : S -> T) (inj : T -> S -> S) (m : M T A) s Q :
  post m (proj s) (fun r t' ev => Q r (inj t' s) ev) ->
  post (zoom proj inj m) s Q.
Proof.
  unfold post, zoom. destruct (m (proj s)) as [[r t'] ev]. auto.
Qed.

End Post.

(** ** OrderExecutor *)

Section OrderExecutorFacts.
Import OrderExecutor.

(** Settles the cases of [attempt_spec] once the events are known. *)
Ltac attempt_cases :=
  repeat match goal with
         | |- _ /\ _ => split
         | |- ~ confirms _ _ => unfold confirms; first [ congruence | tauto ]
         | |- confirms _ _ => unfold confirms; assumption
         | |- is_cancel_of _ _ => unfold is_cancel_of
         | |- True => exact I
         | |- _ = _ => reflexivity
         | |- exists _, _ => eexists
         | |- _ \/ _ => first [ left; solve [attempt_cases] | right; solve [attempt_cases] ]
         end.

Lemma cancel_attempt_spec order_id max_retries attempt self :
  post (cancel_attempt order_id max_retries attempt) self
    (fun r _ evs => attempt_spec order_id (attempt =? max_retries - 1)%Z r evs).
Proof.
  unfold cancel_attempt, post, bind, try_except, acquire, sleep, client_cancel_orders, ret, raise.
  destruct (RateLimiter.acquire (clock self) (rate_limiter self)) as [granted rl].
  destruct granted; simpl.
  - destruct (cancel_orders_reply _ _ _) as [elapsed [resp|e]]; simpl.
    + destruct (cancel_confirmed order_id resp) eqn:Ec; simpl.
      * attempt_cases.
      * destruct (attempt =? max_retries - 1)%Z eqn:El; simpl; attempt_cases.
    + destruct (attempt =? max_retries - 1)%Z eqn:El; simpl; attempt_cases.
  - destruct (attempt =? max_retries - 1)%Z eqn:El; simpl; attempt_cases.
Qed.

Lemma attempts_cons ev evs :
  attempts (ev :: evs) = ((if is_acquire ev then 1 else 0) + attempts evs)%nat.
Proof. unfold attempts. cbn [List.filter]. destruct (is_acquire ev); reflexivity. Qed.

Lemma attempts_nil : attempts [] = 0%nat.
Proof. reflexivity. Qed.

Lemma backs_off_granted raised evs :
  backs_off_until raised evs -> backs_off_until raised (EvAcquire true :: evs).
Proof. exact (fun H => H). Qed.

Lemma backs_off_other raised c evs :
  is_acquire c = false ->
  backs_off_until raised evs -> backs_off_until raised (c :: evs).
Proof. destruct c; simpl; try discriminate; tauto. Qed.

Lemma backs_off_denied raised evs :
  backs_off_until raised evs ->
  backs_off_until raised (EvAcquire false :: EvSleep 1 :: evs).
Proof. simpl. auto. Qed.

Lemma exists_confirms_skip order_id ev evs :
  ~ confirms order_id ev ->
  Exists (confirms order_id) (ev :: evs) <-> Exists (confirms order_id) evs.
Proof.
  intros Hn. split; intros H.
  - inversion H; subst; [contradiction|assumption].
  - now right.
Qed.

Lemma cancel_loop_spec order_id max_retries todo : forall attempt self,
  (attempt + Z.of_nat todo = max_retries)%Z ->
  post (cancel_loop order_id max_retries todo attempt) self
    (fun r _ evs => cancel_spec order_id todo r evs).
Proof.
  induction todo as [|todo IH]; intros attempt self Hsum.
  - simpl. apply post_ret. unfold cancel_spec. rewrite attempts_nil.
    split; [lia|]. split; [exact I|]. split; [|split; [auto|constructor]].
    split; [discriminate|]. intros H. inversion H.
  - simpl. apply post_bind.
    eapply post_mono; [apply cancel_attempt_spec|].
    intros r s1 ev1 Hr. destruct r as [[b|]|e]; unfold attempt_spec in Hr.
    + destruct Hr as (-> & c & -> & Hc & reply & ->). apply post_ret.
      unfold cancel_spec. rewrite app_nil_r, !attempts_cons, attempts_nil.
      split; [simpl; lia|]. split; [exact I|]. split; [|split; [discriminate|]].
      * split; [intros _; right; left; exact Hc|reflexivity].
      * repeat constructor.
    + destruct Hr as (Hlast & Hev).
      assert (Hnext : (attempt + 1 + Z.of_nat todo = max_retries)%Z) by lia.
      eapply post_mono; [apply (IH (attempt + 1)%Z s1 Hnext)|].
      intros r s2 ev2 (Hatt & Hback & Hconf & Hfalse & Hshape).
      assert (Htodo : r <> Ok false).
      { intros Hr. destruct (Hfalse Hr) as [-> _]. simpl in Hnext.
        apply Z.eqb_neq in Hlast. lia. }
      unfold cancel_spec.
      destruct Hev as [-> | (c & [-> | ->] & Hnc & reply & ->)];
        simpl app; rewrite !attempts_cons; simpl is_acquire.
      * split; [lia|]. split; [apply backs_off_denied; exact Hback|].
        split; [|split; [intros; contradiction|repeat constructor; exact Hshape]].
        rewrite !exists_confirms_skip by (simpl; tauto). exact Hconf.
      * split; [lia|]. split; [exact Hback|].
        split; [|split; [intros; contradiction|repeat constructor; exact Hshape]].
        rewrite !exists_confirms_skip by (simpl; tauto). exact Hconf.
      * split; [lia|]. split; [exact Hback|].
        split; [|split; [intros; contradiction|repeat constructor; exact Hshape]].
        rewrite !exists_confirms_skip by (simpl; tauto). exact Hconf.
    + destruct Hr as (Hlast & Hev).
      unfold cancel_spec.
      destruct Hev as [-> | (c & -> & Hnc & reply & ->)];
        rewrite !attempts_cons, attempts_nil; simpl is_acquire.
      * split; [lia|]. split; [simpl; auto|].
        split; [|split; [discriminate|repeat constructor]].
        split; [discriminate|].
        intros Hx. inversion Hx as [? ? H|? ? H]; subst; [contradiction|inversion H].
      * split; [lia|]. split; [exact I|].
        split; [|split; [discriminate|repeat constructor]].
        split; [discriminate|].
        rewrite !exists_confirms_skip by (simpl; tauto). intros Hx. inversion Hx.
Qed.

(** C7, as the code has it.  [cancel_order order_id max_retries] asks the
    rate limiter at most [max_retries] times (never, when [max_retries] is
    not positive), once per attempt; a denial is followed at once by a
    one-second sleep, unless it is the denial of the last attempt, after
    which the call raises.  With at least one retry the call either
    returns [True], a response of the venue having confirmed the
    cancellation, or raises, no response having confirmed it; with
    [max_retries <= 0] it makes no attempt and returns [False]. *)
Theorem cancel_order_bounded_retries (order_id : string) (max_retries : Z) (self : t) :
  post (cancel_order order_id max_retries) self (fun r _ evs =>
    (attempts evs <= Z.to_nat max_retries)%nat /\
    backs_off_until (is_err r) evs /\
    ((1 <= max_retries)%Z ->
       (r = Ok true /\ Exists (confirms order_id) evs) \/
       (exists e, r = Err e) /\ ~ Exists (confirms order_id) evs) /\
    ((max_retries <= 0)%Z -> r = Ok false /\ evs = [])).
Proof.
  unfold cancel_order.
  destruct (Z.le_gt_cases max_retries 0) as [Hneg|Hpos].
  - replace (Z.to_nat max_retries) with O by lia. simpl. apply post_ret.
    split; [unfold attempts; simpl; lia|]. split; [exact I|]. split; [lia|auto].
  - eapply post_mono; [apply cancel_loop_spec; lia|].
    intros r s' evs (Hatt & Hback & Hconf & Hfalse & _).
    split; [exact Hatt|]. split; [exact Hback|]. split; [|lia].
    intros _. destruct r as [[|]|e].
    + left. split; [reflexivity|]. now apply Hconf.
    + destruct (Hfalse eq_refl) as [H _]. lia.
    + right. split; [eauto|]. intros Hx. apply Hconf in Hx. discriminate.
Qed.

Lemma already_canceled_confirms order_id ev :
  already_canceled order_id ev -> confirms order_id ev.
Proof.
  intros (ids & canceled & not_canceled & -> & Hget). simpl.
  destruct (existsb _ canceled); [reflexivity|]. rewrite Hget. reflexivity.
Qed.

Lemma cancel_order_events order_id max_retries ex :
  post (cancel_order order_id max_retries) ex
    (fun _ _ evs => Forall (cancel_event order_id) evs).
Proof.
  unfold cancel_order.
  destruct (Z.le_gt_cases max_retries 0) as [Hneg|Hpos].
  - replace (Z.to_nat max_retries) with O by lia. simpl. apply post_ret. constructor.
  - eapply post_mono; [apply (cancel_loop_spec order_id max_retries); lia|].
    intros r s' evs (_ & _ & _ & _ & H). exact H.
Qed.

(** C8.  Whenever a response of the venue to [cancel_order] lists the
    order as not canceled for the reason ["order already canceled"], the
    call returns [True]; and removing an order id from the tracker a
    second time leaves the tracker as the first removal left it. *)
Theorem cancel_already_canceled_is_success :
  (forall order_id max_retries self,
     post (OrderExecutor.cancel_order order_id max_retries) self (fun r _ evs =>
       Exists (already_canceled order_id) evs -> r = Ok true)) /\
  (forall order_id pt,
     PositionTracker.remove_pending_order order_id
       (PositionTracker.remove_pending_order order_id pt)
     = PositionTracker.remove_pending_order order_id pt).
Proof.
  split.
  - intros order_id max_retries self.
    unfold OrderExecutor.cancel_order.
    destruct (Z.le_gt_cases max_retries 0) as [Hneg|Hpos].
    { replace (Z.to_nat max_retries) with O by lia. simpl. apply post_ret.
      intros Hx. inversion Hx. }
    eapply post_mono; [apply (cancel_loop_spec order_id max_retries); lia|].
    intros r s' evs (_ & _ & Hconf & _ & _) Hx. apply Hconf.
    apply Exists_exists in Hx. destruct Hx as (ev & Hin & Hev).
    apply Exists_exists. exists ev. split; [exact Hin|].
    now apply already_canceled_confirms.
  - apply remove_pending_order_twice.
Qed.

(** C7 as stated fails without retries: no attempt is made, none reports
    success, and the call returns [False] instead of raising. *)
Lemma cancel_without_retries_returns_false :
  fst (fst (cancel_order "order-1" 0 Sample.executor)) = Ok false /\
  snd (cancel_order "order-1" 0 Sample.executor) = [].
Proof. split; reflexivity. Qed.

(** Three attempts against a limiter without tokens: two backoffs, then
    the failure. *)
Example cancel_when_starved :
  fst (fst (cancel_order "order-1" 3 Sample.starved_executor))
    = Err "Failed to cancel order order-1 after 3 attempts due to rate limiting" /\
  snd (cancel_order "order-1" 3 Sample.starved_executor)
    = [EvAcquire false; EvSleep 1; EvAcquire false; EvSleep 1; EvAcquire false].
Proof. split; vm_compute; reflexivity. Qed.

(** The venue answers that the order was canceled already. *)
Lemma cancel_already_canceled_is_success_witness :
  fst (fst (cancel_order "order-1" 5 Sample.stale_executor)) = Ok true.
Proof.
  pose proof (proj1 cancel_already_canceled_is_success "order-1"%string 5%Z
                Sample.stale_executor) as H.
  unfold post in H.
  destruct (cancel_order "order-1" 5 Sample.stale_executor) as [[r s'] evs] eqn:E.
  simpl. apply H. vm_compute in E. injection E as _ _ <-.
  right. left. exists ["order-1"%string], [], [("order-1"%string, "order already canceled"%string)].
  split; reflexivity.
Defined.

Lemma place_order_events token p sz sd ex :
  post (place_order token p sz sd) ex (fun _ _ evs => Forall (place_event p sd) evs).
Proof.
  unfold place_order.
  destruct (negb _); [apply post_ret; constructor|].
  unfold post, bind, try_except, acquire, client_post_order, ret, raise.
  destruct (RateLimiter.acquire _ _) as [granted rl]. destruct granted; simpl.
  - destruct (post_order_reply _ _ _) as [elapsed [resp|e]]; simpl.
    + destruct resp as [|[|] o|str|]; simpl; try (destruct (truthy o));
        try (destruct (String.eqb str "")); repeat constructor.
    + destruct (is_balance_error e); simpl; repeat constructor.
  - repeat constructor.
Qed.

End OrderExecutorFacts.

(** ** TopOfBookStrategy *)

Section TopOfBookStrategyFacts.
Import TopOfBookStrategy.


Lemma should_place_within_limit p self :
  _should_place_order p self = true -> within_limit self p.
Proof.
  unfold _should_place_order, within_limit. intros H.
  destruct (String.eqb (side self) BUY) eqn:EB; simpl in H.
  - destruct (Py.Qltb (limit_price self) p) eqn:E1; [discriminate|]. qcases.
    split; [auto|]. intros HS. apply String.eqb_eq in EB. rewrite HS in EB. discriminate.
  - destruct (String.eqb (side self) SELL) eqn:ES; simpl in H.
    + destruct (Py.Qltb p (limit_price self)) eqn:E1; [discriminate|]. qcases.
      split; [|auto]. intros HB. rewrite HB in EB. discriminate.
    + split; intros Hs; rewrite Hs in *; discriminate.
Qed.

Lemma should_place_room p self :
  _should_place_order p self = true -> (length (pending self) < 3)%nat.
Proof.
  unfold _should_place_order, pending, PositionTracker.get_pending_orders, Dict.values.
  rewrite length_map.
  destruct (_ && _); [discriminate|]. destruct (_ && _); [discriminate|].
  destruct (3 <=? _)%nat eqn:E; [discriminate|]. intros _.
  apply Nat.leb_gt in E. exact E.
Qed.

Lemma place_new_order_spec p sz self :
  post (_place_new_order p sz) self (fun _ self' evs => placed_spec p sz self self' evs).
Proof.
  unfold _place_new_order. apply post_try. apply post_bind, post_get.
  destruct (_should_place_order p self) eqn:Hplace; cbn [negb].
  2: { apply post_ret. split; [repeat split|]. left. auto. }
  apply post_bind. unfold on_executor. apply post_zoom.
  eapply post_mono; [apply place_order_events|].
  intros r ex' evs1 Hev. destruct r as [oid|e].
  - destruct (if truthy oid then oid else None) as [id|].
    + unfold post, bind, get, on_tracker, modify. simpl.
      split; [repeat split|]. right. split; [exact Hplace|].
      rewrite !app_nil_r. split; [exact Hev|].
      right. eexists _, id. reflexivity.
    + unfold post, bind, get, modify, bump_failures, ret. simpl.
      destruct (_ <=? _)%Z; simpl; (split; [repeat split|]); right;
        (split; [exact Hplace|]); rewrite !app_nil_r; (split; [exact Hev|]); left; reflexivity.
  - unfold post, bind, get, modify, bump_failures, ret, raise. simpl.
    destruct (is_funding_error e); simpl.
    + split; [repeat split|]. right.
      split; [exact Hplace|]. rewrite !app_nil_r. split; [exact Hev|]. left; reflexivity.
    + destruct (_ <=? _)%Z; simpl; (split; [repeat split|]); right;
        (split; [exact Hplace|]); rewrite !app_nil_r; (split; [exact Hev|]); left; reflexivity.
Qed.

(** *** The cancel loop of [_adjust_orders] *)

Lemma pruned_refl gone d : pruned gone d d.
Proof. repeat split; auto. Qed.

Lemma pruned_trans gone d1 d2 d3 : pruned gone d1 d2 -> pruned gone d2 d3 -> pruned gone d1 d3.
Proof.
  intros (A1 & B1 & C1) (A2 & B2 & C2). repeat split; auto; lia.
Qed.

Lemma pruned_weaken gone gone' d d' :
  (forall k, In k gone -> In k gone') -> pruned gone d d' -> pruned gone' d d'.
Proof.
  intros Hsub (A & B & C). repeat split; auto.
Qed.

Lemma pruned_remove id pt :
  pruned [id] (PositionTracker.pending_orders pt)
         (PositionTracker.pending_orders (PositionTracker.remove_pending_order id pt)).
Proof.
  unfold PositionTracker.remove_pending_order.
  destruct (Dict.mem _ _); [|apply pruned_refl]. simpl.
  split; [|split].
  - intros kv H. apply in_dict_del in H. tauto.
  - apply dict_del_length.
  - intros kv Hin Hne. apply in_dict_del. split; [exact Hin|].
    intros Heq. apply Hne. left. auto.
Qed.

Lemma off_target_params target self s o :
  params_of self s -> off_target target s o = off_target target self o.
Proof. intros (_ & _ & Ht & _). unfold off_target. rewrite Ht. reflexivity. Qed.

Lemma params_of_trans a b c : params_of a b -> params_of b c -> params_of a c.
Proof.
  unfold params_of. intros (A1 & A2 & A3 & A4) (B1 & B2 & B3 & B4).
  repeat split; congruence.
Qed.

Lemma params_of_refl a : params_of a a.
Proof. repeat split. Qed.

Lemma cancel_off_target_spec self target orders : forall s,
  params_of self s ->
  post (cancel_off_target target orders) s (fun _ s' evs =>
    params_of self s' /\
    Forall (prune_event (doomed target self orders)) evs /\
    pruned (doomed target self orders) (pending s) (pending s')).
Proof.
  induction orders as [|order rest IH]; intros s Hs.
  - simpl. apply post_ret. split; [exact Hs|]. split; [constructor|apply pruned_refl].
  - simpl. apply post_bind, post_get. apply post_bind.
    rewrite (off_target_params target self s order Hs).
    assert (Hsub : forall k, In k (doomed target self rest) ->
                             In k (doomed target self (order :: rest))).
    { intros k. unfold doomed. simpl. destruct (off_target target self order); simpl; auto. }
    destruct (off_target target self order) eqn:Hoff.
    + apply post_bind. unfold on_executor. apply post_zoom.
      eapply post_mono; [apply cancel_order_events|].
      intros r ex' evs1 Hev. destruct r as [b|e].
      * unfold on_tracker. apply post_modify. simpl.
        set (s1 := set_position_tracker _ _).
        assert (Hs1 : params_of self s1) by (destruct Hs as (?&?&?&?); repeat split; assumption).
        eapply post_mono; [apply (IH s1 Hs1)|].
        intros r2 s2 evs2 (Hp & Hev2 & Hpr). split; [exact Hp|]. split.
        -- rewrite app_nil_r. apply Forall_app. split.
           ++ eapply List.Forall_impl; [|exact Hev]. intros [| | |ids rr]; simpl; auto.
              intros ->. exists (order_id order). split; [reflexivity|].
              unfold doomed. simpl. rewrite Hoff. left. reflexivity.
           ++ eapply List.Forall_impl; [|exact Hev2]. intros [| | |ids rr]; simpl; auto.
              intros (id & -> & Hin). exists id. split; [reflexivity|]. apply Hsub, Hin.
        -- eapply pruned_trans; [|eapply pruned_weaken; [exact Hsub|exact Hpr]].
           eapply pruned_weaken; [|apply pruned_remove].
           intros k [<-|[]]. unfold doomed. simpl. rewrite Hoff. left. reflexivity.
      * split; [destruct Hs as (?&?&?&?); repeat split; assumption|]. split.
        -- eapply List.Forall_impl; [|exact Hev]. intros [| | |ids rr]; simpl; auto.
           intros ->. exists (order_id order). split; [reflexivity|].
           unfold doomed. simpl. rewrite Hoff. left. reflexivity.
        -- apply pruned_refl.
    + apply post_ret. simpl.
      eapply post_mono; [apply (IH s Hs)|].
      intros r2 s2 evs2 (Hp & Hev2 & Hpr). split; [exact Hp|]. split.
      * eapply List.Forall_impl; [|exact Hev2]. intros [| | |ids rr]; simpl; auto.
        intros (id & -> & Hin). exists id. split; [reflexivity|]. apply Hsub, Hin.
      * eapply pruned_weaken; [exact Hsub|exact Hpr].
Qed.

(** *** [_adjust_orders] and its callers *)

Lemma within_limit_params self s p : params_of self s -> within_limit s p -> within_limit self p.
Proof.
  intros (Hs & Hl & _) [HB HS]. unfold within_limit. rewrite <- Hs, <- Hl. auto.
Qed.

Lemma adjust_orders_spec market_data self :
  post (_adjust_orders market_data) self
    (fun _ self' evs => adjusted_spec market_data self self' evs).
Proof.
  unfold _adjust_orders. apply post_bind, post_get. cbv zeta.
  fold (own_target market_data self).
  apply post_bind.
  eapply post_mono; [apply (cancel_off_target_spec self _ _ self (params_of_refl self))|].
  fold (to_cancel market_data self).
  intros r s1 evs1 (Hp & Hev & Hgone & Hlen & Hkeep).
  assert (Hev' : Forall (adjust_event market_data self) evs1).
  { eapply List.Forall_impl; [|exact Hev]. intros [| | |ids rr]; simpl; auto. contradiction. }
  assert (Hbase : adjusted_spec market_data self s1 evs1).
  { split; [exact Hp|]. split; [exact Hev'|]. split; [fold (pending self) in *; lia|].
    split; [intros ? ?; auto|]. intros kv Hin Hn. apply dict_mem_in. auto. }
  destruct r as [[]|e]; [|exact Hbase].
  apply post_bind, post_get.
  destruct (Py.Qltb 0 _ && _should_place_order (own_target market_data self) s1) eqn:Hgo;
    [|apply post_ret; rewrite app_nil_r; exact Hbase].
  apply andb_true_iff in Hgo. destruct Hgo as [_ Hplace].
  destruct (Py.Qltb 0 (_get_optimal_order_size _ _));
    [|apply post_ret; rewrite app_nil_r; exact Hbase].
  eapply post_mono; [apply place_new_order_spec|].
  intros r2 s2 evs2 (Hp2 & Hcase). cbn [app].
  unfold adjusted_spec, tracks_within_limit.
  pose proof (should_place_within_limit _ _ Hplace) as Hlim.
  apply (within_limit_params self s1 _ Hp) in Hlim.
  pose proof (should_place_room _ _ Hplace) as Hroom.
  split; [eapply params_of_trans; eassumption|].
  destruct Hcase as [[-> Hsame] | (_ & Hev2 & Hpend)].
  - rewrite app_nil_r. split; [exact Hev'|]. rewrite Hsame.
    split; [lia|]. split; [intros ? ?; auto|]. intros kv Hin Hn. apply dict_mem_in. auto.
  - split.
    { apply Forall_app. split; [exact Hev'|].
      eapply List.Forall_impl; [|exact Hev2].
      intros [g|sec|args rr|ids rr]; simpl; auto; [|intros []].
      intros [-> Hsd]. destruct Hp as (Hside & _).
      split; [congruence|]. split; [reflexivity|exact Hlim]. }
    destruct Hpend as [Hsame | (nw & id & Hset)].
    + rewrite Hsame. split; [lia|]. split; [intros ? ?; auto|].
      intros kv Hin Hn. apply dict_mem_in. auto.
    + rewrite Hset. split.
      { pose proof (dict_set_length id
          {| order_id := id; price := own_target market_data self;
             size := _get_optimal_order_size
                       (PositionTracker.get_remaining_quantity (position_tracker s1)) s1;
             status := "LIVE"; created_at := nw; updated_at := nw; filled_size := 0 |}
          (pending s1)). lia. }
      split.
      * intros kv Hin. apply in_dict_set in Hin. destruct Hin as [-> | Hin]; [|auto].
        right. exact Hlim.
      * intros kv Hin Hn. apply dict_mem_set, dict_mem_in. auto.
Qed.

Lemma process_market_update_spec market_data self :
  post (process_market_update market_data) self
    (fun _ self' evs => adjusted_spec market_data self self' evs).
Proof.
  unfold process_market_update. apply post_bind, post_modify, post_bind, post_get.
  set (s0 := set_current_market_data (Some market_data) self).
  destruct (_should_adjust_orders market_data s0).
  - eapply post_mono; [apply adjust_orders_spec|].
    intros r s' evs H. exact H.
  - apply post_ret. split; [repeat split|]. split; [constructor|].
    split; [unfold pending, s0; simpl; lia|]. split; [intros ? ?; auto|].
    intros kv Hin _. apply dict_mem_in. exact Hin.
Qed.

Lemma updated_refl self : updated_spec self self [].
Proof.
  split; [apply params_of_refl|]. split; [constructor|]. split; [lia|intros ? ?; auto].
Qed.

Lemma adjusted_updated market_data self s s' evs :
  params_of self s ->
  (forall kv, In kv (pending s) -> In kv (pending self)) ->
  (length (pending s) <= length (pending self))%nat ->
  adjusted_spec market_data s s' evs ->
  updated_spec self s' evs.
Proof.
  intros Hp Hsub Hlen (Hp' & Hev & Hl & Hnew & _).
  split; [eapply params_of_trans; eassumption|]. split; [|split].
  - eapply List.Forall_impl; [|exact Hev].
    intros [g|sec|args rr|ids rr]; simpl; auto.
    intros (Hsd & _ & Hlim). destruct Hp as (Hside & Hp).
    split; [congruence|].
    apply (within_limit_params self s); [repeat split; tauto|exact Hlim].
  - lia.
  - intros kv Hin. destruct (Hnew kv Hin) as [H|H]; [left; auto|].
    right. apply (within_limit_params self s); assumption.
Qed.

Lemma handle_trade_execution_spec trade_data self :
  post (_handle_trade_execution trade_data) self
    (fun _ self' evs => updated_spec self self' evs).
Proof.
  unfold _handle_trade_execution. apply post_try. apply post_bind, post_get.
  destruct (our_order_id self trade_data) as [our|]; [|apply post_ret, updated_refl].
  destruct (od_size trade_data) as [reported|];
    [|apply post_raise, post_ret; apply updated_refl].
  destruct (od_price trade_data) as [fill_price|];
    [|apply post_raise, post_ret; apply updated_refl].
  destruct (Py.Qltb 0 reported); [|apply post_ret, updated_refl].
  unfold on_tracker.
  apply post_bind, post_modify, post_bind, post_modify, post_bind, post_get.
  match goal with |- post _ ?s _ => set (s2 := s) end.
  assert (Hp : params_of self s2) by (repeat split).
  pose proof (pruned_remove our
    (PositionTracker.update_filled_quantity (now self)
       match Dict.get our (PositionTracker.pending_orders (position_tracker self)) with
       | Some original_order =>
           if Py.Qltb (size original_order) reported then size original_order else reported
       | None => reported
       end fill_price (position_tracker self))) as (Hsub & Hlen & _).
  rewrite pending_update_filled in Hsub, Hlen.
  assert (Hstay : updated_spec self s2 []).
  { split; [exact Hp|]. split; [constructor|]. split; [|intros ? ?; auto].
    unfold pending, s2. simpl. unfold pending in *. lia. }
  destruct (current_market_data s2) as [market_data|]; [|apply post_ret; exact Hstay].
  destruct (negb _); [|apply post_ret; exact Hstay].
  eapply post_mono; [apply adjust_orders_spec|].
  intros r s' evs Hadj. cbn [app].
  assert (Hres : updated_spec self s' evs).
  { eapply adjusted_updated; [exact Hp| | |exact Hadj].
    - exact Hsub.
    - exact Hlen. }
  destruct r as [[]|e]; [exact Hres|].
  apply post_ret. rewrite app_nil_r. exact Hres.
Qed.

Lemma process_order_update_spec update_type data self :
  post (process_order_update update_type data) self
    (fun _ self' evs => updated_spec self self' evs).
Proof.
  unfold process_order_update.
  destruct (String.eqb update_type "placement"); [apply post_ret, updated_refl|].
  destruct (String.eqb update_type "cancellation").
  - unfold _handle_order_cancellation.
    destruct (od_id data) as [id|]; [|apply post_ret, updated_refl].
    destruct (truthy (Some id)); [|apply post_ret, updated_refl].
    unfold on_tracker. apply post_modify.
    pose proof (pruned_remove id (position_tracker self)) as (Hsub & Hlen & _).
    split; [repeat split|]. split; [constructor|]. split; [|intros ? ?; auto].
    unfold pending in *. simpl. lia.
  - destruct (String.eqb update_type "trade"); [|apply post_ret, updated_refl].
    apply handle_trade_execution_spec.
Qed.

(** *** Rounding to the tick grid *)

Lemma round_half_even_le x k : x <= inject_Z k -> (Py.round_half_even x <= k)%Z.
Proof.
  intros H. unfold Py.round_half_even.
  pose proof (Qfloor_le x) as Hf. pose proof (Qlt_floor x) as Hl.
  assert (Hfk : (Qfloor x <= k)%Z).
  { rewrite Zle_Qle. apply Qle_trans with x; assumption. }
  destruct (Qcompare_spec (x - inject_Z (Qfloor x)) (1 # 2)) as [E|E|E].
  - destruct (Z.even _); [exact Hfk|].
    destruct (Z.eq_dec (Qfloor x) k) as [Heq|Hne]; [|lia].
    exfalso. rewrite Heq in E. lra.
  - exact Hfk.
  - destruct (Z.eq_dec (Qfloor x) k) as [Heq|Hne]; [|lia].
    exfalso. rewrite Heq in E. lra.
Qed.

Lemma round_half_even_ge x k : inject_Z k <= x -> (k <= Py.round_half_even x)%Z.
Proof.
  intros H. unfold Py.round_half_even.
  assert (Hfk : (k <= Qfloor x)%Z).
  { rewrite <- (Qfloor_Z k). apply Qfloor_resp_le. exact H. }
  destruct (Qcompare (x - inject_Z (Qfloor x)) (1 # 2)); try destruct (Z.even _); lia.
Qed.

Lemma scale_pos ndigits : 0 < inject_Z (10 ^ Z.of_nat ndigits).
Proof.
  change 0 with (inject_Z 0). rewrite <- Zlt_Qlt. apply Z.pow_pos_nonneg; lia.
Qed.

Lemma div_mul_cancel a s : 0 < s -> a / s * s == a.
Proof. intros H. field. lra. Qed.

Lemma div_le_compat a b s : 0 < s -> a <= b -> a / s <= b / s.
Proof.
  intros Hs H. unfold Qdiv. apply Qmult_le_compat_r; [exact H|].
  apply Qinv_le_0_compat. lra.
Qed.

Lemma round_le_grid x l ndigits : on_grid ndigits l -> x <= l -> Py.round x ndigits <= l.
Proof.
  intros [k Hk] Hx. unfold Py.round. cbv zeta.
  pose proof (scale_pos ndigits) as Hs. set (s := inject_Z (10 ^ Z.of_nat ndigits)) in *.
  assert (Hxs : x * s <= inject_Z k).
  { rewrite <- (div_mul_cancel (inject_Z k) s Hs), <- Hk.
    apply Qmult_le_compat_r; lra. }
  apply round_half_even_le in Hxs. rewrite Zle_Qle in Hxs.
  rewrite Hk. apply div_le_compat; assumption.
Qed.

Lemma round_ge_grid x l ndigits : on_grid ndigits l -> l <= x -> l <= Py.round x ndigits.
Proof.
  intros [k Hk] Hx. unfold Py.round. cbv zeta.
  pose proof (scale_pos ndigits) as Hs. set (s := inject_Z (10 ^ Z.of_nat ndigits)) in *.
  assert (Hxs : inject_Z k <= x * s).
  { rewrite <- (div_mul_cancel (inject_Z k) s Hs), <- Hk.
    apply Qmult_le_compat_r; lra. }
  apply round_half_even_ge in Hxs. rewrite Zle_Qle in Hxs.
  rewrite Hk. apply div_le_compat; assumption.
Qed.

(** *** Limit price *)

Lemma adjust_event_respects market_data self ev :
  adjust_event market_data self ev -> respects_limit self ev.
Proof. destruct ev; simpl; tauto. Qed.

Lemma target_price_clamped top self :
  on_grid (decimal_places self) (limit_price self) ->
  (side self = BUY ->
     _calculate_target_price top self = max_price (resting_prices self) \/
     _calculate_target_price top self <= limit_price self) /\
  (side self = SELL ->
     Some (_calculate_target_price top self) = min_price (resting_prices self) \/
     limit_price self <= _calculate_target_price top self).
Proof.
  intros Hgrid. unfold _calculate_target_price. fold (resting_prices self). split; intros Hside.
  - rewrite Hside. simpl.
    destruct (Qle_bool _ _); [left; reflexivity|right].
    apply round_le_grid; [exact Hgrid|].
    destruct (py_min_spec (if match_top_of_book self then top else top + improvement self)
                          (limit_price self)) as [[H ->]|[H ->]]; lra.
  - rewrite Hside. simpl.
    destruct (min_price (resting_prices self)) as [best|].
    + destruct (Qle_bool _ _); [left; reflexivity|right].
      apply round_ge_grid; [exact Hgrid|].
      destruct (py_max_spec (if match_top_of_book self then top else top - improvement self)
                            (limit_price self)) as [[H ->]|[H ->]]; lra.
    + right. apply round_ge_grid; [exact Hgrid|].
      destruct (py_max_spec (if match_top_of_book self then top else top - improvement self)
                            (limit_price self)) as [[H ->]|[H ->]]; lra.
Qed.

(** C2.  Whatever the market update or order update the strategy handles,
    and whatever its pending orders, every order it sends to the venue is
    on its own side and priced within the limit (at most the limit for
    BUY, at least the limit for SELL), and so is every order it starts
    tracking.  The guard is [_should_place_order], which refuses every
    price across the limit; the target price itself is clamped before it
    is rounded: when the limit lies on the tick grid, a freshly computed
    target does not cross it (a kept own quote is returned as it is). *)
Theorem placed_orders_respect_limit :
  (forall market_data self,
     post (process_market_update market_data) self
       (fun _ self' evs => Forall (respects_limit self) evs /\ tracks_within_limit self self')) /\
  (forall update_type data self,
     post (process_order_update update_type data) self
       (fun _ self' evs => Forall (respects_limit self) evs /\ tracks_within_limit self self')) /\
  (forall p self, _should_place_order p self = true -> within_limit self p) /\
  (forall top self,
     on_grid (decimal_places self) (limit_price self) ->
     (side self = BUY ->
        _calculate_target_price top self = max_price (resting_prices self) \/
        _calculate_target_price top self <= limit_price self) /\
     (side self = SELL ->
        Some (_calculate_target_price top self) = min_price (resting_prices self) \/
        limit_price self <= _calculate_target_price top self)).
Proof.
  split; [|split; [|split]].
  - intros market_data self.
    eapply post_mono; [apply process_market_update_spec|].
    intros r s' evs (_ & Hev & _ & Hnew & _). split; [|exact Hnew].
    eapply List.Forall_impl; [|exact Hev]. apply adjust_event_respects.
  - intros update_type data self.
    eapply post_mono; [apply process_order_update_spec|].
    intros r s' evs (_ & Hev & _ & Hnew). split; assumption.
  - intros p self. apply should_place_within_limit.
  - apply target_price_clamped.
Qed.

(** *** Pending-order cap *)

(** C10.  [_should_place_order] refuses every price once three or more
    orders are pending, so handling a market update or an order update
    never takes the number of pending orders above three (nor above what
    it was, if that was more); and the strategy an [OrderManager] builds
    is the same whatever [max_pending_orders] the configuration holds. *)
Theorem pending_orders_capped_at_three :
  (forall p self,
     (3 <= length (PositionTracker.get_pending_orders (position_tracker self)))%nat ->
     _should_place_order p self = false) /\
  (forall market_data self,
     post (process_market_update market_data) self
       (fun _ self' _ => (length (pending self') <= Nat.max 3 (length (pending self)))%nat)) /\
  (forall update_type data self,
     post (process_order_update update_type data) self
       (fun _ self' _ => (length (pending self') <= Nat.max 3 (length (pending self)))%nat)) /\
  (forall now client config n,
     OrderManager.strategy (OrderManager.__init__ now client (with_max_pending_orders n config))
     = OrderManager.strategy (OrderManager.__init__ now client config)).
Proof.
  split; [|split; [|split]].
  - intros p self H. unfold _should_place_order.
    destruct (_ && _); [reflexivity|]. destruct (_ && _); [reflexivity|].
    apply Nat.leb_le in H. rewrite H. reflexivity.
  - intros market_data self.
    eapply post_mono; [apply process_market_update_spec|].
    intros r s' evs (_ & _ & Hlen & _). exact Hlen.
  - intros update_type data self.
    eapply post_mono; [apply process_order_update_spec|].
    intros r s' evs (_ & _ & Hlen & _). exact Hlen.
  - intros. reflexivity.
Qed.

Lemma well_formed_del k d : well_formed d -> well_formed (Dict.del k d).
Proof.
  intros [Hnd Hids]. split.
  - clear Hids. unfold Dict.keys, Dict.del in *.
    induction d as [|[k' v] d IH]; simpl; [constructor|].
    inversion Hnd as [|? ? Hnotin Hnd']; subst.
    destruct (negb (String.eqb k' k)); simpl; [|apply IH; assumption].
    constructor; [|apply IH; assumption].
    intros Hin. apply Hnotin. apply in_map_iff in Hin. destruct Hin as (kv & Hk & Hin).
    apply filter_In in Hin. apply in_map_iff. exists kv. tauto.
  - apply List.Forall_forall. intros kv Hin. apply in_dict_del in Hin.
    rewrite List.Forall_forall in Hids. apply Hids. tauto.
Qed.

Lemma well_formed_add nw id p sz d :
  well_formed d ->
  well_formed (Dict.set id {| order_id := id; price := p; size := sz; status := "LIVE";
                              created_at := nw; updated_at := nw; filled_size := 0 |} d).
Proof.
  intros [Hnd Hids]. split.
  - clear Hids. unfold Dict.keys in *. induction d as [|[k' v] d IH]; simpl.
    + constructor; [intros []|constructor].
    + inversion Hnd as [|? ? Hnotin Hnd']; subst.
      destruct (String.eqb k' id) eqn:E; simpl.
      * apply String.eqb_eq in E. subst. constructor; assumption.
      * constructor; [|apply IH; assumption].
        intros Hin. apply in_map_iff in Hin. destruct Hin as (kv & Hk & Hin).
        apply in_dict_set in Hin. destruct Hin as [-> | Hin].
        -- simpl in Hk. subst. rewrite String.eqb_refl in E. discriminate.
        -- apply Hnotin. apply in_map_iff. exists kv. tauto.
  - apply List.Forall_forall. intros kv Hin. apply in_dict_set in Hin.
    destruct Hin as [-> | Hin]; [reflexivity|].
    rewrite List.Forall_forall in Hids. now apply Hids.
Qed.

Lemma well_formed_remove id pt :
  well_formed (PositionTracker.pending_orders pt) ->
  well_formed (PositionTracker.pending_orders (PositionTracker.remove_pending_order id pt)).
Proof.
  intros H. unfold PositionTracker.remove_pending_order.
  destruct (Dict.mem _ _); [|exact H]. simpl. now apply well_formed_del.
Qed.

Lemma place_new_order_well_formed p sz self :
  well_formed (pending self) ->
  post (_place_new_order p sz) self (fun _ self' _ => well_formed (pending self')).
Proof.
  intros Hwf. eapply post_mono; [apply place_new_order_spec|].
  intros r s' evs (_ & [[_ ->] | (_ & _ & [-> | (nw & id & ->)])]); auto.
  now apply well_formed_add.
Qed.

Lemma cancel_off_target_well_formed target orders : forall s,
  well_formed (pending s) ->
  post (cancel_off_target target orders) s (fun _ s' _ => well_formed (pending s')).
Proof.
  induction orders as [|order rest IH]; intros s Hwf.
  - simpl. apply post_ret. exact Hwf.
  - simpl. apply post_bind, post_get. apply post_bind.
    destruct (off_target target s order).
    + apply post_bind. unfold on_executor. apply post_zoom.
      unfold post. destruct (OrderExecutor.cancel_order _ _ _) as [[[b|e] ex'] evs1].
      * unfold on_tracker. apply post_modify. apply IH.
        unfold pending. simpl. now apply well_formed_remove.
      * exact Hwf.
    + apply post_ret. now apply IH.
Qed.

Lemma adjust_orders_well_formed market_data self :
  well_formed (pending self) ->
  post (_adjust_orders market_data) self (fun _ self' _ => well_formed (pending self')).
Proof.
  intros Hwf. unfold _adjust_orders. apply post_bind, post_get. cbv zeta.
  apply post_bind.
  eapply post_mono; [apply cancel_off_target_well_formed; exact Hwf|].
  intros r s1 evs1 Hwf1. destruct r as [[]|e]; [|exact Hwf1].
  apply post_bind, post_get.
  destruct (_ && _); [|apply post_ret; exact Hwf1].
  destruct (Py.Qltb 0 _); [|apply post_ret; exact Hwf1].
  eapply post_mono; [apply place_new_order_well_formed; exact Hwf1|].
  intros r2 s2 evs2 H. exact H.
Qed.

(** The strategy keeps its dictionary of pending orders well formed. *)
Lemma strategy_keeps_well_formed :
  (forall token target, well_formed (PositionTracker.pending_orders
                                       (PositionTracker.__init__ token target))) /\
  (forall market_data self,
     well_formed (pending self) ->
     post (process_market_update market_data) self
       (fun _ self' _ => well_formed (pending self'))) /\
  (forall update_type data self,
     well_formed (pending self) ->
     post (process_order_update update_type data) self
       (fun _ self' _ => well_formed (pending self'))).
Proof.
  split; [|split].
  - intros. split; constructor.
  - intros market_data self Hwf. unfold process_market_update.
    apply post_bind, post_modify, post_bind, post_get.
    destruct (_should_adjust_orders _ _); [|apply post_ret; exact Hwf].
    apply adjust_orders_well_formed. exact Hwf.
  - intros update_type data self Hwf. unfold process_order_update.
    destruct (String.eqb update_type "placement"); [apply post_ret; exact Hwf|].
    destruct (String.eqb update_type "cancellation").
    { unfold _handle_order_cancellation.
      destruct (od_id data) as [id|]; [|apply post_ret; exact Hwf].
      destruct (truthy _); [|apply post_ret; exact Hwf].
      unfold on_tracker. apply post_modify. unfold pending. simpl.
      now apply well_formed_remove. }
    destruct (String.eqb update_type "trade"); [|apply post_ret; exact Hwf].
    unfold _handle_trade_execution. apply post_try. apply post_bind, post_get.
    destruct (our_order_id self data) as [our|]; [|apply post_ret; exact Hwf].
    destruct (od_size data) as [reported|]; [|apply post_raise, post_ret; exact Hwf].
    destruct (od_price data) as [fill_price|]; [|apply post_raise, post_ret; exact Hwf].
    destruct (Py.Qltb 0 reported); [|apply post_ret; exact Hwf].
    unfold on_tracker.
    apply post_bind, post_modify, post_bind, post_modify, post_bind, post_get.
    match goal with |- post _ ?s _ => set (s2 := s) end.
    assert (Hwf2 : well_formed (pending s2)).
    { unfold pending, s2. simpl. apply well_formed_remove.
      rewrite pending_update_filled. exact Hwf. }
    destruct (current_market_data s2) as [market_data|]; [|apply post_ret; exact Hwf2].
    destruct (negb _); [|apply post_ret; exact Hwf2].
    eapply post_mono; [apply adjust_orders_well_formed; exact Hwf2|].
    intros r s' evs H. destruct r as [[]|e]; [exact H|].
    apply post_ret. exact H.
Qed.

(** The remainder is combined once the child order would leave dust. *)
Example remainder_combined :
  _get_optimal_order_size 12 Sample.idle = 12 /\
  _get_optimal_order_size 15 Sample.idle = 10 /\
  _get_optimal_order_size 4 Sample.idle = 0.
Proof. repeat split. Qed.

End TopOfBookStrategyFacts.

(** ** MarketDataStream *)

Section MarketDataStreamFacts.
Import MarketDataStream.
Variable float_of_str : string -> option Q.

Lemma snapshot_asset now asset bs als md :
  snapshot float_of_str now asset bs als = Emitted md -> asset_id md = asset.
Proof.
  unfold snapshot.
  destruct (last_level bs) as [b|]; [|discriminate].
  destruct (last_level als) as [a|]; [|discriminate].
  destruct (float _ (lv_price b)); [|discriminate].
  destruct (float _ (lv_price a)); [|discriminate].
  destruct (float _ (lv_size b)); [|discriminate].
  destruct (float _ (lv_size a)); [|discriminate].
  intros H. injection H as <-. reflexivity.
Qed.

Lemma publish_emitted now asset b md :
  publish float_of_str now asset b = Emitted md ->
  asset_id md = asset /\
  exists bl bs al als, bids b = Some (bl :: bs) /\ asks b = Some (al :: als).
Proof.
  unfold publish, side_or_empty.
  destruct (bids b) as [[|bl bs]|]; try discriminate.
  destruct (asks b) as [[|al als]|]; try discriminate.
  intros H. split; [eapply snapshot_asset; exact H|]. eauto 6.
Qed.

Lemma publish_one_sided now asset b :
  side_or_empty (bids b) = [] \/ side_or_empty (asks b) = [] ->
  publish float_of_str now asset b = Silent.
Proof.
  unfold publish. intros [->| ->]; [reflexivity|].
  destruct (side_or_empty (bids b)); reflexivity.
Qed.

Lemma two_sided_insert asset b bl bs al als m :
  bids b = Some (bl :: bs) -> asks b = Some (al :: als) ->
  two_sided asset {| order_books := <[asset := b]> m |}.
Proof.
  intros Hb Ha. exists b, bl, bs, al, als. simpl.
  split; [apply lookup_insert_eq|]. split; assumption.
Qed.

Lemma handle_emitted now msg self md :
  snd (handle float_of_str now msg self) = Emitted md ->
  two_sided (asset_id md) (fst (handle float_of_str now msg self)).
Proof.
  unfold handle.
  destruct (String.eqb (event_type msg) "book").
  - unfold _handle_book_update.
    destruct (msg_asset_id msg) as [asset|]; [|discriminate].
    destruct (truthy (Some asset)); [|discriminate]. simpl.
    intros H. apply publish_emitted in H. destruct H as (-> & bl & bs & al & als & Hb & Ha).
    eapply two_sided_insert; eassumption.
  - destruct (String.eqb (event_type msg) "price_change"); [|discriminate].
    unfold _handle_price_change.
    destruct (msg_asset_id msg) as [asset|]; [|discriminate].
    destruct (truthy (Some asset)); [|discriminate].
    destruct (order_books self !! asset) as [b|]; [|discriminate].
    destruct (apply_changes _ _ b) as [b'|b']; [|discriminate]. simpl.
    intros H. apply publish_emitted in H. destruct H as (-> & bl & bs & al & als & Hb & Ha).
    eapply two_sided_insert; eassumption.
Qed.

Lemma feed_emitted msgs : forall self,
  Forall (fun step =>
            forall md, snd (fst step) = Emitted md -> two_sided (asset_id md) (snd step))
         (feed float_of_str msgs self).
Proof.
  induction msgs as [|[now msg] rest IH]; intros self; simpl; [constructor|].
  pose proof (handle_emitted now msg self) as H.
  destruct (handle float_of_str now msg self) as [self' out]. simpl in H.
  constructor; [exact H|apply IH].
Qed.

Lemma price_change_unknown now msg self :
  (forall asset, msg_asset_id msg = Some asset -> order_books self !! asset = None) ->
  _handle_price_change float_of_str now msg self = (self, Silent).
Proof.
  intros H. unfold _handle_price_change.
  destruct (msg_asset_id msg) as [asset|]; [|reflexivity].
  rewrite (H asset eq_refl). destruct (truthy _); reflexivity.
Qed.

Lemma handle_one_sided now msg self asset b :
  msg_asset_id msg = Some asset ->
  order_books (fst (handle float_of_str now msg self)) !! asset = Some b ->
  side_or_empty (bids b) = [] \/ side_or_empty (asks b) = [] ->
  forall md, snd (handle float_of_str now msg self) <> Emitted md.
Proof.
  intros Hasset Hbook Hside md Hout.
  pose proof (handle_emitted now msg self md Hout) as (b' & bl & bs & al & als & Hb' & Hbl & Hal).
  assert (asset_id md = asset) as Hmd.
  { revert Hout. unfold handle.
    destruct (String.eqb (event_type msg) "book").
    - unfold _handle_book_update. rewrite Hasset.
      destruct (truthy _); [|discriminate]. simpl. intros H.
      apply publish_emitted in H. tauto.
    - destruct (String.eqb (event_type msg) "price_change"); [|discriminate].
      unfold _handle_price_change. rewrite Hasset.
      destruct (truthy _); [|discriminate].
      destruct (order_books self !! asset); [|discriminate].
      destruct (apply_changes _ _ _); [|discriminate]. simpl. intros H.
      apply publish_emitted in H. tauto. }
  rewrite Hmd in Hb'. rewrite Hb' in Hbook. injection Hbook as <-.
  rewrite Hbl, Hal in Hside. destruct Hside; discriminate.
Qed.

(** C3.  Along every feed of book and price-change messages, whenever a
    handler emits a MarketData event, the stored book of that instrument
    has a level on both sides; a price change for an instrument without a
    stored book emits nothing and changes nothing; and a message after
    which the stored book of its instrument has an empty side emits no
    event. *)
Theorem no_one_sided_snapshot :
  (forall msgs self,
     Forall (fun step =>
               forall md, snd (fst step) = Emitted md -> two_sided (asset_id md) (snd step))
            (feed float_of_str msgs self)) /\
  (forall now msg self,
     (forall asset, msg_asset_id msg = Some asset -> order_books self !! asset = None) ->
     _handle_price_change float_of_str now msg self = (self, Silent)) /\
  (forall now msg self asset b,
     msg_asset_id msg = Some asset ->
     order_books (fst (handle float_of_str now msg self)) !! asset = Some b ->
     side_or_empty (bids b) = [] \/ side_or_empty (asks b) = [] ->
     forall md, snd (handle float_of_str now msg self) <> Emitted md).
Proof.
  split; [|split].
  - apply feed_emitted.
  - apply price_change_unknown.
  - apply handle_one_sided.
Qed.

End MarketDataStreamFacts.

(** A book, then the only bid level zeroed out, then a new ask level, then
    a new bid level: nothing is published while the bid side is empty. *)
Example zeroed_bid_side :
  Sample.outcomes
    [ Sample.book_message;
      Sample.price_change "BUY" "0.50" "0";
      Sample.price_change "SELL" "0.53" "10";
      Sample.price_change "BUY" "0.49" "5" ]
  = [ MarketDataStream.Emitted {| asset_id := "token"; top_bid := 50 # 100; top_ask := 52 # 100;
                 bid_size := 100; ask_size := 80; timestamp := 0 |};
      MarketDataStream.Silent;
      MarketDataStream.Silent;
      MarketDataStream.Emitted {| asset_id := "token"; top_bid := 49 # 100; top_ask := 52 # 100;
                 bid_size := 5; ask_size := 80; timestamp := 0 |} ].
Proof. vm_compute. reflexivity. Qed.

(** A price change for an instrument the stream holds no book of. *)
Example unknown_instrument :
  Sample.outcomes [ Sample.price_change "BUY" "0.50" "10" ] = [ MarketDataStream.Silent ].
Proof. vm_compute. reflexivity. Qed.

(** ** IEEE doubles: how the operations round *)

(** The primitive operations are specified by the executable
    [SpecFloat] model of the standard library.  What is proved of it here
    is what the thresholds need: the result of an addition, a subtraction
    or a multiplication of finite doubles is never on the wrong side of a
    double that the exact result is not on the wrong side of, and it is
    the exact result where that is a double. *)

Section IEEEFacts.
Import IEEE.



(** *** Powers of two *)

Lemma pow2_pos e : 0 < pow2 e.
Proof. unfold pow2. apply Qpower_0_lt. reflexivity. Qed.

Lemma pow2_add a b : pow2 (a + b) == pow2 a * pow2 b.
Proof. unfold pow2. apply Qpower_plus. discriminate. Qed.

Lemma pow2_le a b : (a <= b)%Z -> pow2 a <= pow2 b.
Proof. intros H. unfold pow2. apply Qpower_le_compat_l; [exact H|discriminate]. Qed.

Lemma pow2_lt a b : (a < b)%Z -> pow2 a < pow2 b.
Proof. intros H. unfold pow2. apply Qpower_lt_compat_l; [exact H|reflexivity]. Qed.

Lemma pow2_Z n : (0 <= n)%Z -> pow2 n == inject_Z (2 ^ n).
Proof. intros H. unfold pow2. rewrite Zpower_Qpower by exact H. reflexivity. Qed.

Lemma pow2_0 : pow2 0 == 1.
Proof. reflexivity. Qed.

Lemma pow2_le_inv a b : pow2 a <= pow2 b -> (a <= b)%Z.
Proof. intros H. unfold pow2 in H. apply Qpower_le_compat_l_inv in H; [exact H|reflexivity]. Qed.

Lemma pow2_lt_inv a b : pow2 a < pow2 b -> (a < b)%Z.
Proof. intros H. unfold pow2 in H. apply Qpower_lt_compat_l_inv in H; [exact H|reflexivity]. Qed.

Global Opaque pow2.

(** *** Binary digits *)


Lemma digits2_size p : digits2_pos p = Pos.size p.
Proof. induction p; simpl; congruence. Qed.

Lemma dig_pos p : (1 <= dig p)%Z.
Proof. unfold dig. lia. Qed.

Lemma dig_bounds p : (2 ^ (dig p - 1) <= Zpos p < 2 ^ dig p)%Z.
Proof.
  unfold dig. rewrite digits2_size. split.
  - pose proof (Pos.size_le p) as H.
    assert (H' : (Zpos (2 ^ Pos.size p) <= Zpos p~0)%Z) by exact H.
    rewrite Pos2Z.inj_pow in H'.
    replace (Zpos (Pos.size p)) with (Z.succ (Zpos (Pos.size p) - 1)) in H' by lia.
    rewrite Z.pow_succ_r in H' by lia. lia.
  - pose proof (Pos.size_gt p) as H.
    assert (H' : (Zpos p < Zpos (2 ^ Pos.size p))%Z) by exact H.
    rewrite Pos2Z.inj_pow in H'. exact H'.
Qed.

Lemma dig_unique p k : (2 ^ (k - 1) <= Zpos p < 2 ^ k)%Z -> dig p = k.
Proof.
  intros [Hlo Hhi]. pose proof (dig_bounds p) as [Dlo Dhi]. pose proof (dig_pos p).
  assert (0 < k)%Z.
  { destruct (Z.lt_trichotomy k 0) as [Hk|[Hk|Hk]]; [|subst k; simpl in Hhi; lia|lia].
    rewrite Z.pow_neg_r in Hhi by lia. lia. }
  destruct (Z.lt_trichotomy (dig p) k) as [Hk|[Hk|Hk]]; [|exact Hk|].
  - assert (2 ^ dig p <= 2 ^ (k - 1))%Z by (apply Z.pow_le_mono_r; lia). lia.
  - assert (2 ^ k <= 2 ^ (dig p - 1))%Z by (apply Z.pow_le_mono_r; lia). lia.
Qed.

Lemma dig_boundsQ p : pow2 (dig p - 1) <= inject_Z (Zpos p) /\ inject_Z (Zpos p) < pow2 (dig p).
Proof.
  pose proof (dig_bounds p) as [Hlo Hhi]. pose proof (dig_pos p).
  rewrite !pow2_Z by lia. split; [rewrite <- Zle_Qle|rewrite <- Zlt_Qlt]; assumption.
Qed.

(** *** The format *)

Lemma fexp_spec d : fexp prec emax d = Z.max (d - 53) (-1074).
Proof. reflexivity. Qed.

Lemma bounded_spec m e :
  bounded prec emax m e = true <->
  (e = Z.max (dig m + e - 53) (-1074) /\ e <= 971)%Z.
Proof.
  unfold bounded, canonical_mantissa. rewrite andb_true_iff, Z.eqb_eq, Z.leb_le, fexp_spec.
  unfold dig. change (emax - prec)%Z with 971%Z. intuition lia.
Qed.

Lemma iter_xO m d : Zpos (Pos.iter xO m d) = (Zpos m * 2 ^ Zpos d)%Z.
Proof.
  induction d as [|d IH] using Pos.peano_ind.
  - simpl. lia.
  - rewrite Pos.iter_succ, Pos2Z.inj_succ, Z.pow_succ_r by lia.
    rewrite Pos2Z.inj_xO, IH. ring.
Qed.

Lemma dig_shift m k : (0 <= k)%Z -> forall p, Zpos p = (Zpos m * 2 ^ k)%Z -> dig p = (dig m + k)%Z.
Proof.
  intros Hk p Hp. apply dig_unique. rewrite Hp.
  pose proof (dig_bounds m) as [Hlo Hhi]. pose proof (dig_pos m).
  replace (dig m + k - 1)%Z with ((dig m - 1) + k)%Z by lia.
  rewrite !Z.pow_add_r by lia.
  assert (0 < 2 ^ k)%Z by (apply Z.pow_pos_nonneg; lia).
  split; nia.
Qed.

Lemma iter_pos_nat {A} (f : A -> A) p x :
  SpecFloat.iter_pos f p x = Nat.iter (Pos.to_nat p) f x.
Proof.
  revert x. induction p as [p IH|p IH|]; intros x; simpl SpecFloat.iter_pos.
  - rewrite !IH, Pos2Nat.inj_xI, Nat.iter_succ_r.
    replace (2 * Pos.to_nat p)%nat with (Pos.to_nat p + Pos.to_nat p)%nat by lia.
    rewrite Nat.iter_add. reflexivity.
  - rewrite !IH, Pos2Nat.inj_xO.
    replace (2 * Pos.to_nat p)%nat with (Pos.to_nat p + Pos.to_nat p)%nat by lia.
    rewrite Nat.iter_add. reflexivity.
  - reflexivity.
Qed.


Lemma shr_1_shifted M k r :
  (0 <= M)%Z -> (0 <= k)%Z -> shifted M k r -> shifted M (k + 1) (shr_1 r).
Proof.
  intros HM Hk [Hm Hex].
  assert (Hp : (0 < 2 ^ k)%Z) by (apply Z.pow_pos_nonneg; lia).
  assert (Hq : (0 <= M / 2 ^ k)%Z) by (apply Z.div_pos; lia).
  assert (Hdiv : (M / 2 ^ (k + 1) = M / 2 ^ k / 2)%Z).
  { rewrite Z.pow_add_r, Z.pow_1_r by lia. rewrite Z.div_div by lia. reflexivity. }
  assert (Hmod : (M mod 2 ^ (k + 1) = 0 -> M mod 2 ^ k = 0 /\ (M / 2 ^ k) mod 2 = 0)%Z).
  { rewrite Z.pow_add_r, Z.pow_1_r by lia. intros H0.
    rewrite Z.rem_mul_r in H0 by lia.
    pose proof (Z.mod_pos_bound M (2 ^ k) Hp).
    pose proof (Z.mod_pos_bound (M / 2 ^ k) 2 ltac:(lia)). nia. }
  destruct r as [m r s]. simpl in Hm, Hex. subst m.
  unfold shifted. rewrite Hdiv.
  destruct (M / 2 ^ k)%Z as [|p|p] eqn:E; [| |lia].
  - simpl. split; [reflexivity|]. intros H0. destruct (Hmod H0) as [H1 _].
    destruct (Hex H1) as [-> ->]. auto.
  - destruct p as [p|p|]; simpl shr_1; simpl shr_m; simpl shr_r; simpl shr_s.
    + split; [rewrite Pos2Z.inj_xI; apply Z.div_unique with 1%Z; lia|].
      intros H0. destruct (Hmod H0) as [_ H2]. rewrite Pos2Z.inj_xI in H2.
      rewrite Z.add_comm, Z.mul_comm, Z.mod_add in H2 by lia. discriminate.
    + split; [rewrite Pos2Z.inj_xO; apply Z.div_unique with 0%Z; lia|].
      intros H0. destruct (Hmod H0) as [H1 _]. destruct (Hex H1) as [-> ->]. auto.
    + split; [reflexivity|]. intros H0. destruct (Hmod H0) as [_ H2]. discriminate.
Qed.

Lemma iter_shr_1_shifted M n r :
  (0 <= M)%Z -> shifted M 0 r -> shifted M (Z.of_nat n) (Nat.iter n shr_1 r).
Proof.
  intros HM H0. induction n as [|n IH]; [exact H0|].
  rewrite Nat2Z.inj_succ. change (Nat.iter (S n) shr_1 r) with (shr_1 (Nat.iter n shr_1 r)).
  replace (Z.succ (Z.of_nat n)) with (Z.of_nat n + 1)%Z by lia.
  apply shr_1_shifted; [exact HM|lia|exact IH].
Qed.

Lemma shr_shifted M e n :
  (0 <= M)%Z -> (0 <= n)%Z ->
  shifted M n (fst (shr (shr_record_of_loc M loc_Exact) e n)) /\
  snd (shr (shr_record_of_loc M loc_Exact) e n) = (e + n)%Z.
Proof.
  intros HM Hn.
  assert (H0 : shifted M 0 (shr_record_of_loc M loc_Exact)).
  { split; simpl; [rewrite Z.div_1_r; reflexivity|auto]. }
  destruct n as [|p|p]; [| |lia].
  - simpl. split; [exact H0|lia].
  - simpl. split; [|reflexivity].
    rewrite iter_pos_nat. rewrite <- (positive_nat_Z p).
    apply iter_shr_1_shifted; assumption.
Qed.

Lemma shr_none r e n : (n <= 0)%Z -> shr r e n = (r, e).
Proof. destruct n; [reflexivity|lia|reflexivity]. Qed.

Lemma round_shifted M n r :
  shifted M n r ->
  let m1 := round_nearest_even (shr_m r) (loc_of_shr_record r) in
  (M / 2 ^ n <= m1 <= M / 2 ^ n + 1)%Z /\ ((M mod 2 ^ n = 0)%Z -> m1 = (M / 2 ^ n)%Z).
Proof.
  intros [Hm Hex]. destruct r as [m r s]. simpl in *. subst m. split.
  - destruct r, s; simpl; try lia. destruct (Z.even _); lia.
  - intros H0. destruct (Hex H0) as [-> ->]. reflexivity.
Qed.

(** *** Rounding to nearest *)

Lemma quotient_lt M n :
  (0 <= n)%Z -> (dig M - 53 <= n)%Z -> (Zpos M / 2 ^ n < 2 ^ 53)%Z.
Proof.
  intros Hn Hd. pose proof (dig_bounds M) as [_ Hhi]. pose proof (dig_pos M).
  assert (Hp : (0 < 2 ^ n)%Z) by (apply Z.pow_pos_nonneg; lia).
  apply Z.div_lt_upper_bound; [exact Hp|].
  rewrite <- Z.pow_add_r by lia.
  assert (2 ^ dig M <= 2 ^ (n + 53))%Z by (apply Z.pow_le_mono_r; lia). lia.
Qed.

Lemma quotient_ge M : (53 <= dig M)%Z -> (2 ^ 52 <= Zpos M / 2 ^ (dig M - 53))%Z.
Proof.
  intros Hd. pose proof (dig_bounds M) as [Hlo _].
  assert (Hp : (0 < 2 ^ (dig M - 53))%Z) by (apply Z.pow_pos_nonneg; lia).
  apply Z.div_le_lower_bound; [exact Hp|].
  rewrite <- Z.pow_add_r by lia.
  replace (dig M - 53 + 52)%Z with (dig M - 1)%Z by lia. exact Hlo.
Qed.

Lemma round_aux_spec s M E :
  let t := Z.max (dig M + E - 53) (-1074) in
  let n := (t - E)%Z in
  (0 <= n)%Z ->
  exists m1 : Z,
    (Zpos M / 2 ^ n <= m1 <= Zpos M / 2 ^ n + 1)%Z /\
    ((Zpos M mod 2 ^ n = 0)%Z -> m1 = (Zpos M / 2 ^ n)%Z) /\
    match binary_round_aux prec emax s (Zpos M) E loc_Exact with
    | S754_zero s' => s' = s /\ m1 = 0%Z
    | S754_infinity s' => s' = s /\ pow2 1024 <= inject_Z m1 * pow2 t
    | S754_finite s' m e =>
        s' = s /\ bounded prec emax m e = true /\
        inject_Z (Zpos m) * pow2 e == inject_Z m1 * pow2 t
    | S754_nan => False
    end.
Proof.
  intros t n Hn.
  unfold binary_round_aux, shr_fexp.
  change (Zdigits2 (Zpos M)) with (dig M). rewrite fexp_spec. fold t. fold n.
  destruct (shr_shifted (Zpos M) E n ltac:(lia) Hn) as [Hsh He].
  destruct (shr (shr_record_of_loc (Zpos M) loc_Exact) E n) as [mrs' e'].
  simpl in Hsh, He. subst e'. replace (E + n)%Z with t by (unfold n; lia).
  destruct (round_shifted _ _ _ Hsh) as [Hb Hex].
  set (m1 := round_nearest_even (shr_m mrs') (loc_of_shr_record mrs')) in *.
  exists m1. split; [exact Hb|]. split; [exact Hex|].
  assert (Ht : (-1074 <= t)%Z) by (unfold t; lia).
  assert (Hq0 : (0 <= Zpos M / 2 ^ n)%Z).
  { apply Z.div_pos; [lia|apply Z.pow_pos_nonneg; lia]. }
  assert (Hq : (Zpos M / 2 ^ n < 2 ^ 53)%Z) by (apply quotient_lt; unfold n, t; lia).
  assert (Hnorm : (-1074 < t -> 2 ^ 52 <= m1)%Z).
  { intros Hn'. assert (n = dig M - 53)%Z by (unfold n, t in *; lia).
    assert (53 <= dig M)%Z by lia.
    pose proof (quotient_ge M ltac:(lia)). replace (dig M - 53)%Z with n in * by lia. lia. }
  rewrite fexp_spec.
  destruct m1 as [|p1|p1] eqn:Em1; [| |lia].
  - simpl Zdigits2. rewrite shr_none by lia. simpl. auto.
  - change (Zdigits2 (Zpos p1)) with (dig p1).
    destruct (BinInt.Z.eq_dec (Zpos p1) (2 ^ 53)%Z) as [Htop|Hlow].
    + assert (Hd : dig p1 = 54%Z) by (apply dig_unique; rewrite Htop; simpl; lia).
      rewrite Hd. replace (Z.max (54 + t - 53) (-1074) - t)%Z with 1%Z by lia.
      change (2 ^ 53)%Z with (Zpos 9007199254740992) in Htop. injection Htop as ->.
      simpl shr. cbn [shr_m].
      destruct (_ <=? _)%Z eqn:Eb.
      * apply Z.leb_le in Eb. change (emax - prec)%Z with 971%Z in Eb.
        split; [reflexivity|]. split.
        { apply bounded_spec.
          replace (dig 4503599627370496) with 53%Z by reflexivity. lia. }
        rewrite pow2_add.
        change (inject_Z (Zpos 9007199254740992)) with (inject_Z (Zpos 4503599627370496) * 2).
        change (pow2 1) with 2. ring.
      * apply Z.leb_gt in Eb. change (emax - prec)%Z with 971%Z in Eb.
        split; [reflexivity|].
        assert (H1 : pow2 971 <= pow2 t) by (apply pow2_le; lia).
        assert (H2 : pow2 1024 == inject_Z (Zpos 9007199254740992) * pow2 971).
        { rewrite (pow2_Z 53) by lia. change 1024%Z with (53 + 971)%Z.
          rewrite pow2_add, (pow2_Z 53) by lia. reflexivity. }
        rewrite H2. pose proof (pow2_pos 971).
        apply Qmult_le_l; [reflexivity|exact H1].
    + assert (Hd : (dig p1 <= 53)%Z).
      { pose proof (dig_bounds p1) as [Hlo _]. pose proof (dig_pos p1).
        destruct (Z_le_gt_dec (dig p1) 53) as [Hle|Hgt]; [exact Hle|].
        assert (2 ^ 53 <= 2 ^ (dig p1 - 1))%Z by (apply Z.pow_le_mono_r; lia). lia. }
      rewrite shr_none by lia. cbn [shr_m shr_record_of_loc].
      destruct (_ <=? _)%Z eqn:Eb.
      * apply Z.leb_le in Eb. change (emax - prec)%Z with 971%Z in Eb.
        split; [reflexivity|]. split; [|reflexivity].
        apply bounded_spec. split; [|exact Eb].
        destruct (BinInt.Z.eq_dec t (-1074)) as [->|Hne]; [lia|].
        assert (dig p1 = 53%Z); [|lia].
        apply dig_unique. specialize (Hnorm ltac:(lia)). simpl in *. lia.
      * apply Z.leb_gt in Eb. change (emax - prec)%Z with 971%Z in Eb.
        split; [reflexivity|].
        specialize (Hnorm ltac:(lia)).
        assert (H1 : pow2 972 <= pow2 t) by (apply pow2_le; lia).
        assert (H2 : pow2 1024 == inject_Z (2 ^ 52) * pow2 972).
        { change 1024%Z with (52 + 972)%Z. rewrite pow2_add, (pow2_Z 52) by lia. reflexivity. }
        rewrite H2.
        assert (H3 : inject_Z (2 ^ 52) <= inject_Z (Zpos p1)) by (rewrite <- Zle_Qle; exact Hnorm).
        pose proof (pow2_pos 972). pose proof (pow2_pos t).
        assert (0 <= inject_Z (2 ^ 52)) by (rewrite <- (Zle_Qle 0); lia).
        nra.
Qed.

(** *** Order *)

Lemma Qcompare_lt a b : a < b -> (a ?= b) = Lt.
Proof. exact (proj1 (Qlt_alt a b)). Qed.

Lemma Qcompare_gt a b : b < a -> (a ?= b) = Gt.
Proof. exact (proj1 (Qgt_alt a b)). Qed.

Lemma Qcompare_eq a b : a == b -> (a ?= b) = Eq.
Proof. exact (proj1 (Qeq_alt a b)). Qed.

Lemma finite_value s m e :
  SF2Q (S754_finite s m e) == (if s then - (inject_Z (Zpos m) * pow2 e) else inject_Z (Zpos m) * pow2 e).
Proof.
  unfold SF2Q. destruct s; simpl cond_Zopp; [|reflexivity].
  change (Z.neg m) with (- Zpos m)%Z. rewrite inject_Z_opp. ring.
Qed.

Lemma mantissa_pos m e : 0 < inject_Z (Zpos m) * pow2 e.
Proof.
  apply Qmult_lt_0_compat; [|apply pow2_pos]. rewrite <- (Zlt_Qlt 0). lia.
Qed.

Lemma canonical_lt m1 e1 m2 e2 :
  bounded prec emax m1 e1 = true -> bounded prec emax m2 e2 = true -> (e1 < e2)%Z ->
  inject_Z (Zpos m1) * pow2 e1 < inject_Z (Zpos m2) * pow2 e2.
Proof.
  intros H1 H2 He. apply bounded_spec in H1, H2. destruct H1 as [H1 _], H2 as [H2 _].
  pose proof (dig_boundsQ m1) as [_ Hhi]. pose proof (dig_boundsQ m2) as [Hlo _].
  assert (Hd1 : pow2 (dig m1) <= pow2 53) by (apply pow2_le; lia).
  assert (Hd2 : pow2 52 <= pow2 (dig m2 - 1)) by (apply pow2_le; lia).
  assert (He' : pow2 (53 + e1) <= pow2 (52 + e2)) by (apply pow2_le; lia).
  rewrite !pow2_add in He'.
  pose proof (pow2_pos e1). pose proof (pow2_pos e2). pose proof (pow2_pos 52).
  pose proof (pow2_pos 53).
  apply Qlt_le_trans with (pow2 53 * pow2 e1).
  - apply Qmult_lt_compat_r; [assumption|]. eapply Qlt_le_trans; eassumption.
  - eapply Qle_trans; [exact He'|].
    apply Qmult_le_compat_r; [|apply Qlt_le_weak; assumption].
    eapply Qle_trans; eassumption.
Qed.

Lemma compare_same_exponent m1 m2 e :
  (inject_Z (Zpos m1) * pow2 e ?= inject_Z (Zpos m2) * pow2 e) = Pos.compare_cont Eq m1 m2.
Proof.
  change (Pos.compare_cont Eq m1 m2) with (Pos.compare m1 m2).
  pose proof (pow2_pos e).
  destruct (Pos.compare_spec m1 m2) as [->|Hlt|Hgt].
  - apply Qcompare_eq. reflexivity.
  - apply Qcompare_lt. apply Qmult_lt_compat_r; [assumption|]. rewrite <- Zlt_Qlt. lia.
  - apply Qcompare_gt. apply Qmult_lt_compat_r; [assumption|]. rewrite <- Zlt_Qlt. lia.
Qed.

Lemma compare_positive m1 e1 m2 e2 :
  bounded prec emax m1 e1 = true -> bounded prec emax m2 e2 = true ->
  (inject_Z (Zpos m1) * pow2 e1 ?= inject_Z (Zpos m2) * pow2 e2)
  = match (e1 ?= e2)%Z with
    | Lt => Lt
    | Gt => Gt
    | Eq => Pos.compare_cont Eq m1 m2
    end.
Proof.
  intros H1 H2. destruct (Z.compare_spec e1 e2) as [->|Hlt|Hgt].
  - apply compare_same_exponent.
  - apply Qcompare_lt. now apply canonical_lt.
  - apply Qcompare_gt. now apply canonical_lt.
Qed.

Lemma Qcompare_opp a b : (- a ?= - b) = CompOpp (a ?= b).
Proof.
  destruct (a ?= b) eqn:E; simpl.
  - apply Qeq_alt in E. apply Qcompare_eq. rewrite E. reflexivity.
  - apply Qlt_alt in E. apply Qcompare_gt. lra.
  - apply Qgt_alt in E. apply Qcompare_lt. lra.
Qed.

Lemma CompOpp_match (c : comparison) (x : comparison) :
  CompOpp (match c with Lt => Lt | Gt => Gt | Eq => x end)
  = match c with Lt => Gt | Gt => Lt | Eq => CompOpp x end.
Proof. destruct c; reflexivity. Qed.

Lemma SFcompare_spec x y :
  valid_binary x = true -> valid_binary y = true ->
  SFfinite x = true -> SFfinite y = true ->
  SFcompare x y = Some (SF2Q x ?= SF2Q y).
Proof.
  intros Vx Vy Fx Fy.
  destruct x as [sx| | |sx mx ex], y as [sy| | |sy my ey]; try discriminate; simpl in Vx, Vy.
  - reflexivity.
  - unfold SFcompare. f_equal. symmetry.
    change (SF2Q (S754_zero sx)) with 0. rewrite finite_value.
    pose proof (mantissa_pos my ey).
    destruct sy; cbv iota; [apply Qcompare_gt|apply Qcompare_lt]; lra.
  - unfold SFcompare. f_equal. symmetry.
    change (SF2Q (S754_zero sy)) with 0. rewrite finite_value.
    pose proof (mantissa_pos mx ex).
    destruct sx; cbv iota; [apply Qcompare_lt|apply Qcompare_gt]; lra.
  - unfold SFcompare. f_equal. symmetry. rewrite !finite_value.
    pose proof (mantissa_pos mx ex). pose proof (mantissa_pos my ey).
    destruct sx, sy; cbv iota.
    + rewrite Qcompare_opp, compare_positive by assumption. apply CompOpp_match.
    + apply Qcompare_lt. lra.
    + apply Qcompare_gt. lra.
    + apply compare_positive; assumption.
Qed.

Lemma SFleb_spec x y :
  valid_binary x = true -> valid_binary y = true ->
  SFfinite x = true -> SFfinite y = true ->
  (SFleb x y = true <-> SF2Q x <= SF2Q y).
Proof.
  intros Vx Vy Fx Fy. unfold SFleb. rewrite SFcompare_spec by assumption.
  rewrite Qle_alt. destruct (SF2Q x ?= SF2Q y); split; congruence.
Qed.

Lemma SFltb_spec x y :
  valid_binary x = true -> valid_binary y = true ->
  SFfinite x = true -> SFfinite y = true ->
  (SFltb x y = true <-> SF2Q x < SF2Q y).
Proof.
  intros Vx Vy Fx Fy. unfold SFltb. rewrite SFcompare_spec by assumption.
  rewrite Qlt_alt. destruct (SF2Q x ?= SF2Q y); split; congruence.
Qed.

Lemma SFeqb_spec x y :
  valid_binary x = true -> valid_binary y = true ->
  SFfinite x = true -> SFfinite y = true ->
  (SFeqb x y = true <-> SF2Q x == SF2Q y).
Proof.
  intros Vx Vy Fx Fy. unfold SFeqb. rewrite SFcompare_spec by assumption.
  rewrite Qeq_alt. destruct (SF2Q x ?= SF2Q y); split; congruence.
Qed.

(** *** Rounding keeps to the right side of every double *)

Lemma scale_le a b e : (a <= b)%Z -> inject_Z a * pow2 e <= inject_Z b * pow2 e.
Proof.
  intros H. apply Qmult_le_compat_r; [rewrite <- Zle_Qle; exact H|].
  apply Qlt_le_weak, pow2_pos.
Qed.

Lemma scale_le_inv a b e : inject_Z a * pow2 e <= inject_Z b * pow2 e -> (a <= b)%Z.
Proof.
  intros H. apply Qmult_le_r in H; [|apply pow2_pos]. rewrite Zle_Qle. exact H.
Qed.

Lemma magnitude p e :
  pow2 (dig p + e - 1) <= inject_Z (Zpos p) * pow2 e /\
  inject_Z (Zpos p) * pow2 e < pow2 (dig p + e).
Proof.
  pose proof (dig_boundsQ p) as [Hlo Hhi]. pose proof (pow2_pos e).
  replace (dig p + e - 1)%Z with (dig p - 1 + e)%Z by lia.
  rewrite !pow2_add. split.
  - apply Qmult_le_compat_r; [exact Hlo|apply Qlt_le_weak; assumption].
  - apply Qmult_lt_compat_r; assumption.
Qed.

Lemma round_value_bounds M E m1 mc ec :
  let t := Z.max (dig M + E - 53) (-1074) in
  let n := (t - E)%Z in
  (0 <= n)%Z ->
  (Zpos M / 2 ^ n <= m1 <= Zpos M / 2 ^ n + 1)%Z ->
  ((Zpos M mod 2 ^ n = 0)%Z -> m1 = (Zpos M / 2 ^ n)%Z) ->
  bounded prec emax mc ec = true ->
  (inject_Z (Zpos mc) * pow2 ec <= inject_Z (Zpos M) * pow2 E ->
   inject_Z (Zpos mc) * pow2 ec <= inject_Z m1 * pow2 t) /\
  (inject_Z (Zpos M) * pow2 E <= inject_Z (Zpos mc) * pow2 ec ->
   inject_Z m1 * pow2 t <= inject_Z (Zpos mc) * pow2 ec).
Proof.
  intros t n Hn Hb Hex Hc.
  apply bounded_spec in Hc. destruct Hc as [Hec _].
  pose proof (magnitude M E) as [Hvlo Hvhi].
  pose proof (magnitude mc ec) as [Hclo Hchi].
  pose proof (dig_pos M) as HdM. pose proof (dig_pos mc) as Hdc.
  pose proof (dig_bounds M) as [HMlo HMhi].
  assert (Hp : (0 < 2 ^ n)%Z) by (apply Z.pow_pos_nonneg; lia).
  set (q := (Zpos M / 2 ^ n)%Z) in *.
  assert (Hq0 : (0 <= q)%Z) by (apply Z.div_pos; lia).
  assert (Hqlo : (q * 2 ^ n <= Zpos M)%Z).
  { unfold q. rewrite Z.mul_comm. apply Z.mul_div_le. exact Hp. }
  assert (Hqhi : (Zpos M < (q + 1) * 2 ^ n)%Z).
  { unfold q. pose proof (Z.mod_pos_bound (Zpos M) (2 ^ n) Hp).
    pose proof (Z.div_mod (Zpos M) (2 ^ n) ltac:(lia)). nia. }
  assert (Ht : pow2 t == inject_Z (2 ^ n) * pow2 E).
  { replace t with (n + E)%Z by (unfold n; lia). rewrite pow2_add, pow2_Z by lia. reflexivity. }
  assert (Hr : forall a, inject_Z a * pow2 t == inject_Z (a * 2 ^ n) * pow2 E).
  { intros a. rewrite Ht, inject_Z_mult. ring. }
  split; intros Hcv.
  - (* from below *)
    assert (HD : (dig mc + ec <= dig M + E)%Z).
    { assert (pow2 (dig mc + ec - 1) < pow2 (dig M + E)).
      { eapply Qle_lt_trans; [exact Hclo|]. eapply Qle_lt_trans; eassumption. }
      apply pow2_lt_inv in H. lia. }
    destruct (BinInt.Z.eq_dec (dig mc + ec) (dig M + E)) as [Heq|Hne].
    + assert (ec = t) by (unfold t; lia). subst ec.
      apply scale_le.
      rewrite (Hr (Zpos mc)) in Hcv. apply scale_le_inv in Hcv. nia.
    + destruct (Z_lt_le_dec n (dig M)) as [Hnd|Hnd]; [|unfold n, t in *; lia].
      assert (Hqge : (2 ^ (dig M - 1 - n) <= q)%Z).
      { unfold q. apply Z.div_le_lower_bound; [exact Hp|].
        rewrite <- Z.pow_add_r by lia.
        replace (n + (dig M - 1 - n))%Z with (dig M - 1)%Z by lia. exact HMlo. }
      apply Qlt_le_weak. eapply Qlt_le_trans; [exact Hchi|].
      apply Qle_trans with (pow2 (dig M + E - 1)); [apply pow2_le; lia|].
      replace (dig M + E - 1)%Z with ((dig M - 1 - n) + t)%Z by (unfold n; lia).
      rewrite pow2_add, (pow2_Z (dig M - 1 - n)) by lia. apply scale_le. lia.
  - (* from above *)
    assert (HD : (dig M + E <= dig mc + ec)%Z).
    { assert (pow2 (dig M + E - 1) < pow2 (dig mc + ec)).
      { eapply Qle_lt_trans; [exact Hvlo|]. eapply Qle_lt_trans; eassumption. }
      apply pow2_lt_inv in H. lia. }
    destruct (BinInt.Z.eq_dec (dig mc + ec) (dig M + E)) as [Heq|Hne].
    + assert (ec = t) by (unfold t; lia). subst ec.
      apply scale_le.
      rewrite (Hr (Zpos mc)) in Hcv. apply scale_le_inv in Hcv.
      destruct (BinInt.Z.eq_dec q (Zpos mc)) as [Hqc|Hqc].
      * assert (Hexact : (Zpos M mod 2 ^ n = 0)%Z).
        { assert (HM : Zpos M = (Zpos mc * 2 ^ n)%Z) by nia.
          rewrite HM. apply Z.mod_mul. lia. }
        rewrite (Hex Hexact). nia.
      * assert (q < Zpos mc)%Z by nia. nia.
    + destruct (Z_le_gt_dec n (dig M)) as [Hnd|Hnd].
      * assert (Hqlt : (q + 1 <= 2 ^ (dig M - n))%Z).
        { assert (q < 2 ^ (dig M - n))%Z; [|lia].
          unfold q. apply Z.div_lt_upper_bound; [exact Hp|].
          rewrite <- Z.pow_add_r by lia.
          replace (n + (dig M - n))%Z with (dig M) by lia. exact HMhi. }
        apply Qle_trans with (pow2 (dig mc + ec - 1)); [|exact Hclo].
        apply Qle_trans with (pow2 (dig M + E)); [|apply pow2_le; lia].
        replace (dig M + E)%Z with ((dig M - n) + t)%Z by (unfold n; lia).
        rewrite pow2_add, (pow2_Z (dig M - n)) by lia. apply scale_le. lia.
      * assert (Ht' : t = (-1074)%Z) by (unfold n, t in *; lia).
        assert (Hq1 : q = 0%Z).
        { unfold q. apply Z.div_small. split; [lia|].
          assert (2 ^ dig M <= 2 ^ n)%Z by (apply Z.pow_le_mono_r; lia). lia. }
        apply Qle_trans with (inject_Z 1 * pow2 t); [apply scale_le; lia|].
        apply Qle_trans with (inject_Z 1 * pow2 ec).
        { apply Qmult_le_l; [reflexivity|]. apply pow2_le. lia. }
        apply scale_le. lia.
Qed.


Lemma signed_ext s a b : a == b -> signed s a == signed s b.
Proof. intros H. destruct s; unfold signed; rewrite H; reflexivity. Qed.

Lemma finite_signed s m e : SF2Q (S754_finite s m e) == signed s (inject_Z (Zpos m) * pow2 e).
Proof. apply finite_value. Qed.

Lemma finite_below_top c :
  valid_binary c = true -> - pow2 1024 < SF2Q c /\ SF2Q c < pow2 1024.
Proof.
  intros V. pose proof (pow2_pos 1024).
  destruct c as [s| | |s m e]; simpl SF2Q; try (split; lra).
  fold (SF2Q (S754_finite s m e)). rewrite finite_value.
  simpl in V. apply bounded_spec in V.
  pose proof (magnitude m e) as [_ Hhi]. pose proof (mantissa_pos m e).
  assert (pow2 (dig m + e) <= pow2 1024) by (apply pow2_le; lia).
  destruct s; split; lra.
Qed.

Lemma round_value_signed s M E m1 c :
  let t := Z.max (dig M + E - 53) (-1074) in
  let n := (t - E)%Z in
  (0 <= n)%Z ->
  (Zpos M / 2 ^ n <= m1 <= Zpos M / 2 ^ n + 1)%Z ->
  ((Zpos M mod 2 ^ n = 0)%Z -> m1 = (Zpos M / 2 ^ n)%Z) ->
  valid_binary c = true -> SFfinite c = true ->
  (SF2Q c <= signed s (inject_Z (Zpos M) * pow2 E) ->
   SF2Q c <= signed s (inject_Z m1 * pow2 t)) /\
  (signed s (inject_Z (Zpos M) * pow2 E) <= SF2Q c ->
   signed s (inject_Z m1 * pow2 t) <= SF2Q c).
Proof.
  intros t n Hn Hb Hex Vc Fc.
  assert (Hm1 : 0 <= inject_Z m1 * pow2 t).
  { apply Qmult_le_0_compat; [|apply Qlt_le_weak, pow2_pos].
    rewrite <- (Zle_Qle 0).
    assert (0 <= Zpos M / 2 ^ n)%Z by (apply Z.div_pos; [lia|apply Z.pow_pos_nonneg; lia]).
    lia. }
  pose proof (mantissa_pos M E) as Hv.
  destruct c as [sc| | |sc mc ec]; try discriminate.
  - change (SF2Q (S754_zero sc)) with 0. destruct s; unfold signed; split; lra.
  - simpl in Vc.
    destruct (round_value_bounds M E m1 mc ec Hn Hb Hex Vc) as [Hlo Hhi].
    fold t in Hlo, Hhi.
    rewrite finite_value. pose proof (mantissa_pos mc ec) as Hc.
    destruct s, sc; unfold signed; split; intros H;
      first [lra
            |assert (Hx : inject_Z (Zpos M) * pow2 E <= inject_Z (Zpos mc) * pow2 ec) by lra;
             specialize (Hhi Hx); lra
            |assert (Hx : inject_Z (Zpos mc) * pow2 ec <= inject_Z (Zpos M) * pow2 E) by lra;
             specialize (Hlo Hx); lra].
Qed.

Lemma SFleb_infinity c :
  SFfinite c = true ->
  SFleb c (S754_infinity false) = true /\ SFleb (S754_infinity true) c = true /\
  SFleb (S754_infinity false) c = false /\ SFleb c (S754_infinity true) = false.
Proof. destruct c as [[]| | |[] ? ?]; try discriminate; intros _; repeat split. Qed.

Lemma round_aux_bounds s M E c :
  (E <= Z.max (dig M + E - 53) (-1074))%Z ->
  valid_binary c = true -> SFfinite c = true ->
  let r := binary_round_aux prec emax s (Zpos M) E loc_Exact in
  let v := signed s (inject_Z (Zpos M) * pow2 E) in
  r <> S754_nan /\ valid_binary r = true /\
  (SF2Q c <= v -> SFleb c r = true) /\
  (v <= SF2Q c -> SFleb r c = true).
Proof.
  intros Hpre Vc Fc r v.
  destruct (round_aux_spec s M E ltac:(lia)) as (m1 & Hb & Hex & Hr).
  destruct (round_value_signed s M E m1 c ltac:(lia) Hb Hex Vc Fc) as [Hlo Hhi].
  fold r in Hr. fold v in Hlo, Hhi.
  destruct (finite_below_top c Vc) as [Hbot Htop].
  destruct (SFleb_infinity c Fc) as (I1 & I2 & I3 & I4).
  destruct r as [s'|s'| |s' m e] eqn:Er.
  - destruct Hr as [-> ->].
    assert (Hz : signed s (inject_Z 0 * pow2 (Z.max (dig M + E - 53) (-1074))) == 0).
    { destruct s; unfold signed; change (inject_Z 0) with 0; ring. }
    rewrite Hz in Hlo, Hhi.
    split; [discriminate|]. split; [reflexivity|].
    split; intros H; apply SFleb_spec; auto.
  - destruct Hr as [-> Hinf]. split; [discriminate|]. split; [reflexivity|].
    destruct s; unfold signed in *; split; intros H; auto.
    + specialize (Hlo H). lra.
    + specialize (Hhi H). lra.
  - contradiction.
  - destruct Hr as (-> & Hbd & Hval).
    assert (Hz : SF2Q (S754_finite s m e)
                 == signed s (inject_Z m1 * pow2 (Z.max (dig M + E - 53) (-1074)))).
    { rewrite finite_signed. destruct s; unfold signed; rewrite Hval; reflexivity. }
    rewrite <- Hz in Hlo, Hhi.
    split; [discriminate|]. split; [exact Hbd|].
    split; intros H; apply SFleb_spec; auto.
Qed.

(** *** The operations *)


Lemma rounds_to_ext v v' r : v == v' -> rounds_to v r -> rounds_to v' r.
Proof.
  intros Hv (H1 & H2 & H3). split; [exact H1|]. split; [exact H2|].
  intros c Vc Fc. destruct (H3 c Vc Fc) as [Ha Hb].
  split; intros H; [apply Ha|apply Hb]; rewrite Hv; exact H.
Qed.

Lemma rounds_to_exact r :
  valid_binary r = true -> SFfinite r = true -> rounds_to (SF2Q r) r.
Proof.
  intros V F. split; [destruct r; discriminate|]. split; [exact V|].
  intros c Vc Fc. split; intros H; apply SFleb_spec; auto.
Qed.

Lemma rounds_to_zero s v : v == 0 -> rounds_to v (S754_zero s).
Proof.
  intros Hv. apply rounds_to_ext with (SF2Q (S754_zero s)); [symmetry; exact Hv|].
  apply rounds_to_exact; reflexivity.
Qed.

Lemma round_aux_rounds s M E :
  (E <= Z.max (dig M + E - 53) (-1074))%Z ->
  rounds_to (signed s (inject_Z (Zpos M) * pow2 E))
            (binary_round_aux prec emax s (Zpos M) E loc_Exact).
Proof.
  intros Hpre.
  assert (V0 : valid_binary (S754_zero false) = true) by reflexivity.
  destruct (round_aux_bounds s M E (S754_zero false) Hpre V0 eq_refl) as (H1 & H2 & _).
  split; [exact H1|]. split; [exact H2|].
  intros c Vc Fc. destruct (round_aux_bounds s M E c Hpre Vc Fc) as (_ & _ & H3 & H4).
  split; assumption.
Qed.

Lemma shl_align_spec m e e' :
  (e' <= e)%Z ->
  Zpos (fst (shl_align m e e')) = (Zpos m * 2 ^ (e - e'))%Z /\
  snd (shl_align m e e') = e'.
Proof.
  intros H. unfold shl_align.
  destruct (e' - e)%Z as [|d|d] eqn:Ed; [|lia|].
  - simpl. replace (e - e')%Z with 0%Z by lia. simpl. lia.
  - simpl. rewrite iter_xO. replace (e - e')%Z with (Zpos d) by lia. auto.
Qed.

Lemma shl_align_none m e e' : (e <= e')%Z -> shl_align m e e' = (m, e).
Proof.
  intros H. unfold shl_align. destruct (e' - e)%Z as [|d|d] eqn:Ed; [reflexivity|reflexivity|lia].
Qed.

Lemma binary_round_rounds s M E :
  rounds_to (signed s (inject_Z (Zpos M) * pow2 E)) (binary_round prec emax s M E).
Proof.
  unfold binary_round. change (Zpos (digits2_pos M)) with (dig M). rewrite fexp_spec.
  set (T := Z.max (dig M + E - 53) (-1074)).
  destruct (Z_lt_le_dec T E) as [Hlt|Hle].
  - destruct (shl_align_spec M E T ltac:(lia)) as [Hm He].
    destruct (shl_align M E T) as [mz ez]. cbn [fst snd] in Hm, He. subst ez.
    assert (Hd : dig mz = (dig M + (E - T))%Z) by (apply (dig_shift M); [lia|exact Hm]).
    apply rounds_to_ext with (signed s (inject_Z (Zpos mz) * pow2 T)).
    + apply signed_ext.
      rewrite Hm, inject_Z_mult, <- (pow2_Z (E - T)) by lia.
      rewrite <- Qmult_assoc, <- pow2_add.
      replace (E - T + T)%Z with E by lia. reflexivity.
    + apply round_aux_rounds. rewrite Hd. unfold T. lia.
  - rewrite shl_align_none by lia. apply round_aux_rounds. fold T. exact Hle.
Qed.

Lemma binary_normalize_rounds S E (z : bool) :
  rounds_to (inject_Z S * pow2 E) (binary_normalize prec emax S E z).
Proof.
  destruct S as [|p|p]; simpl binary_normalize.
  - apply rounds_to_zero. change (inject_Z 0) with 0. ring.
  - apply (binary_round_rounds false).
  - eapply rounds_to_ext; [|apply (binary_round_rounds true)].
    unfold signed. change (Z.neg p) with (- Zpos p)%Z. rewrite inject_Z_opp. ring.
Qed.

Lemma valid_exponent m e : bounded prec emax m e = true -> (-1074 <= e)%Z /\ (dig m <= 53)%Z.
Proof. intros H. apply bounded_spec in H. lia. Qed.

Lemma aligned_value s m e ez :
  (ez <= e)%Z ->
  inject_Z (cond_Zopp s (Zpos (fst (shl_align m e ez)))) * pow2 ez
  == SF2Q (S754_finite s m e).
Proof.
  intros H. destruct (shl_align_spec m e ez H) as [Hm _].
  unfold SF2Q.
  assert (Hz : cond_Zopp s (Zpos (fst (shl_align m e ez)))
               = (cond_Zopp s (Zpos m) * 2 ^ (e - ez))%Z).
  { destruct s; simpl cond_Zopp.
    - change (Z.neg (fst (shl_align m e ez))) with (- Zpos (fst (shl_align m e ez)))%Z.
      rewrite Hm. change (Z.neg m) with (- Zpos m)%Z. ring.
    - exact Hm. }
  rewrite Hz, inject_Z_mult, <- (pow2_Z (e - ez)) by lia.
  rewrite <- Qmult_assoc, <- pow2_add.
  replace (e - ez + ez)%Z with e by lia. reflexivity.
Qed.

Lemma SFadd_rounds x y :
  valid_binary x = true -> valid_binary y = true ->
  SFfinite x = true -> SFfinite y = true ->
  rounds_to (SF2Q x + SF2Q y) (SFadd prec emax x y).
Proof.
  intros Vx Vy Fx Fy.
  destruct x as [sx| | |sx mx ex], y as [sy| | |sy my ey]; try discriminate.
  - destruct sx, sy; simpl SFadd; apply rounds_to_zero; simpl; ring.
  - simpl SFadd. eapply rounds_to_ext; [|apply rounds_to_exact; assumption].
    change (SF2Q (S754_zero sx)) with 0. ring.
  - simpl SFadd. eapply rounds_to_ext; [|apply rounds_to_exact; assumption].
    change (SF2Q (S754_zero sy)) with 0. ring.
  - unfold SFadd. eapply rounds_to_ext; [|apply binary_normalize_rounds].
    rewrite inject_Z_plus, Qmult_plus_distr_l.
    rewrite !aligned_value by lia. reflexivity.
Qed.

Lemma SFsub_rounds x y :
  valid_binary x = true -> valid_binary y = true ->
  SFfinite x = true -> SFfinite y = true ->
  rounds_to (SF2Q x - SF2Q y) (SFsub prec emax x y).
Proof.
  intros Vx Vy Fx Fy.
  destruct x as [sx| | |sx mx ex], y as [sy| | |sy my ey]; try discriminate.
  - destruct sx, sy; simpl SFsub; apply rounds_to_zero; simpl; ring.
  - simpl SFsub. eapply rounds_to_ext; [|apply rounds_to_exact; [exact Vy|reflexivity]].
    change (SF2Q (S754_zero sx)) with 0. rewrite !finite_value.
    destruct sy; simpl negb; cbv iota; ring.
  - simpl SFsub. eapply rounds_to_ext; [|apply rounds_to_exact; assumption].
    change (SF2Q (S754_zero sy)) with 0. ring.
  - unfold SFsub. eapply rounds_to_ext; [|apply binary_normalize_rounds].
    unfold Z.sub. rewrite inject_Z_plus, inject_Z_opp.
    setoid_replace ((inject_Z (cond_Zopp sx (Zpos (fst (shl_align mx ex (Z.min ex ey)))))
                     + - inject_Z (cond_Zopp sy (Zpos (fst (shl_align my ey (Z.min ex ey))))))
                    * pow2 (Z.min ex ey))
      with (inject_Z (cond_Zopp sx (Zpos (fst (shl_align mx ex (Z.min ex ey)))))
            * pow2 (Z.min ex ey)
            - inject_Z (cond_Zopp sy (Zpos (fst (shl_align my ey (Z.min ex ey)))))
              * pow2 (Z.min ex ey)) using relation Qeq by ring.
    rewrite !aligned_value by lia. reflexivity.
Qed.

Lemma dig_ge p k : (2 ^ k <= Zpos p)%Z -> (k + 1 <= dig p)%Z.
Proof.
  intros H. pose proof (dig_bounds p) as [_ Hhi]. pose proof (dig_pos p).
  destruct (Z_le_gt_dec (k + 1) (dig p)) as [Hle|Hgt]; [exact Hle|].
  assert (2 ^ dig p <= 2 ^ k)%Z by (apply Z.pow_le_mono_r; lia). lia.
Qed.

Lemma SFmul_rounds x y :
  valid_binary x = true -> valid_binary y = true ->
  SFfinite x = true -> SFfinite y = true ->
  rounds_to (SF2Q x * SF2Q y) (SFmul prec emax x y).
Proof.
  intros Vx Vy Fx Fy.
  destruct x as [sx| | |sx mx ex], y as [sy| | |sy my ey]; try discriminate;
    try (simpl SFmul; apply rounds_to_zero; simpl SF2Q; ring).
  unfold SFmul.
  eapply rounds_to_ext; [|apply round_aux_rounds].
  - rewrite !finite_value.
    destruct sx, sy; unfold signed; simpl xorb; cbv iota;
      rewrite Pos2Z.inj_mul, inject_Z_mult, pow2_add; ring.
  - simpl in Vx, Vy. apply bounded_spec in Vx, Vy.
    pose proof (dig_bounds mx) as [Hx _]. pose proof (dig_bounds my) as [Hy _].
    pose proof (dig_pos mx). pose proof (dig_pos my).
    assert (Hd : (dig mx + dig my - 2 + 1 <= dig (mx * my))%Z).
    { apply dig_ge. rewrite Pos2Z.inj_mul.
      replace (dig mx + dig my - 2)%Z with ((dig mx - 1) + (dig my - 1))%Z by lia.
      rewrite Z.pow_add_r by lia.
      assert (0 < 2 ^ (dig mx - 1))%Z by (apply Z.pow_pos_nonneg; lia).
      assert (0 < 2 ^ (dig my - 1))%Z by (apply Z.pow_pos_nonneg; lia).
      nia. }
    lia.
Qed.

End IEEEFacts.

Section PrimFloatFacts.
Import IEEE.
(** *** Primitive doubles *)

Local Open Scope float_scope.

Lemma finite_valid x : valid_binary (Prim2SF x) = true.
Proof. apply Prim2SF_valid. Qed.

Lemma leb_F2Q x y :
  finite x = true -> finite y = true -> ((x <=? y) = true <-> (F2Q x <= F2Q y)%Q).
Proof. intros Fx Fy. rewrite FloatAxioms.leb_spec. apply SFleb_spec; auto using finite_valid. Qed.

Lemma ltb_F2Q x y :
  finite x = true -> finite y = true -> ((x <? y) = true <-> (F2Q x < F2Q y)%Q).
Proof. intros Fx Fy. rewrite FloatAxioms.ltb_spec. apply SFltb_spec; auto using finite_valid. Qed.

Lemma eqb_F2Q x y :
  finite x = true -> finite y = true -> ((x =? y) = true <-> (F2Q x == F2Q y)%Q).
Proof. intros Fx Fy. rewrite FloatAxioms.eqb_spec. apply SFeqb_spec; auto using finite_valid. Qed.

Lemma ltb_false_F2Q x y :
  finite x = true -> finite y = true -> ((x <? y) = false <-> (F2Q y <= F2Q x)%Q).
Proof.
  intros Fx Fy. pose proof (ltb_F2Q x y Fx Fy) as H.
  destruct (x <? y); split; intros H'; try reflexivity; try discriminate.
  - assert (F2Q x < F2Q y)%Q by (apply H; reflexivity). lra.
  - destruct (Qlt_le_dec (F2Q x) (F2Q y)) as [Hlt|Hle]; [|exact Hle].
    apply H in Hlt. discriminate.
Qed.

Lemma leb_false_F2Q x y :
  finite x = true -> finite y = true -> ((x <=? y) = false <-> (F2Q y < F2Q x)%Q).
Proof.
  intros Fx Fy. pose proof (leb_F2Q x y Fx Fy) as H.
  destruct (x <=? y); split; intros H'; try reflexivity; try discriminate.
  - assert (F2Q x <= F2Q y)%Q by (apply H; reflexivity). lra.
  - destruct (Qlt_le_dec (F2Q y) (F2Q x)) as [Hlt|Hle]; [exact Hlt|].
    apply H in Hle. discriminate.
Qed.


Lemma add_rounds x y :
  finite x = true -> finite y = true -> rounds (F2Q x + F2Q y) (x + y).
Proof.
  intros Fx Fy. unfold rounds. rewrite FloatAxioms.add_spec.
  apply SFadd_rounds; auto using finite_valid.
Qed.

Lemma sub_rounds x y :
  finite x = true -> finite y = true -> rounds (F2Q x - F2Q y) (x - y).
Proof.
  intros Fx Fy. unfold rounds. rewrite FloatAxioms.sub_spec.
  apply SFsub_rounds; auto using finite_valid.
Qed.

Lemma mul_rounds x y :
  finite x = true -> finite y = true -> rounds (F2Q x * F2Q y) (x * y).
Proof.
  intros Fx Fy. unfold rounds. rewrite FloatAxioms.mul_spec.
  apply SFmul_rounds; auto using finite_valid.
Qed.

Lemma rounds_lower v r c :
  rounds v r -> finite c = true -> (F2Q c <= v)%Q -> (c <=? r) = true.
Proof.
  intros (_ & _ & H) Fc Hc. rewrite FloatAxioms.leb_spec. apply (H _ (finite_valid c) Fc). exact Hc.
Qed.

Lemma rounds_upper v r c :
  rounds v r -> finite c = true -> (v <= F2Q c)%Q -> (r <=? c) = true.
Proof.
  intros (_ & _ & H) Fc Hc. rewrite FloatAxioms.leb_spec. apply (H _ (finite_valid c) Fc). exact Hc.
Qed.

Lemma between_finite c1 r c2 :
  finite c1 = true -> finite c2 = true ->
  (c1 <=? r) = true -> (r <=? c2) = true -> finite r = true.
Proof.
  unfold finite. rewrite !FloatAxioms.leb_spec.
  destruct (Prim2SF c1) as [[]| | |[] ? ?], (Prim2SF c2) as [[]| | |[] ? ?],
    (Prim2SF r) as [[]|[]| |[] ? ?]; simpl; intros; try discriminate; try reflexivity.
Qed.

Lemma rounds_between v r c1 c2 :
  rounds v r -> finite c1 = true -> finite c2 = true ->
  (F2Q c1 <= v)%Q -> (v <= F2Q c2)%Q ->
  finite r = true /\ (F2Q c1 <= F2Q r)%Q /\ (F2Q r <= F2Q c2)%Q.
Proof.
  intros Hr F1 F2 H1 H2.
  pose proof (rounds_lower _ _ _ Hr F1 H1) as L.
  pose proof (rounds_upper _ _ _ Hr F2 H2) as U.
  assert (Fr : finite r = true) by (apply (between_finite c1 r c2); assumption).
  split; [exact Fr|]. split; apply leb_F2Q; assumption.
Qed.

Lemma rounds_exact v r c :
  rounds v r -> finite c = true -> (v == F2Q c)%Q ->
  finite r = true /\ (F2Q r == F2Q c)%Q.
Proof.
  intros Hr Fc Hv.
  destruct (rounds_between v r c c Hr Fc Fc) as (Fr & H1 & H2); try lra.
  split; [exact Fr|]. lra.
Qed.

Lemma rounds_not_nan v r : rounds v r -> Prim2SF r <> S754_nan.
Proof. intros (H & _). exact H. Qed.

(** Special values. *)

Lemma SFcompare_antisym a b : SFcompare b a = option_map CompOpp (SFcompare a b).
Proof.
  destruct a as [[]|[]| |[] ma ea], b as [[]|[]| |[] mb eb]; try reflexivity;
    unfold SFcompare; simpl option_map; f_equal;
    rewrite (Z.compare_antisym ea eb);
    destruct (ea ?= eb)%Z; simpl; try reflexivity;
    rewrite <- (Pos.compare_cont_antisym _ _ Eq); simpl;
    try reflexivity; destruct (Pos.compare_cont Eq ma mb); reflexivity.
Qed.

Lemma SFleb_ltb a b : SFleb a b = true -> SFltb b a = false.
Proof.
  unfold SFleb, SFltb. rewrite (SFcompare_antisym a b).
  destruct (SFcompare a b) as [[]|]; simpl; congruence.
Qed.

Lemma SFltb_leb a b : SFltb a b = true -> SFleb a b = true.
Proof. unfold SFleb, SFltb. destruct (SFcompare a b) as [[]|]; congruence. Qed.

Lemma leb_not_ltb x y : (x <=? y) = true -> (y <? x) = false.
Proof. rewrite FloatAxioms.leb_spec, FloatAxioms.ltb_spec. apply SFleb_ltb. Qed.

Lemma ltb_leb x y : (x <? y) = true -> (x <=? y) = true.
Proof. rewrite FloatAxioms.leb_spec, FloatAxioms.ltb_spec. apply SFltb_leb. Qed.

Lemma leb_refl x : finite x = true -> (x <=? x) = true.
Proof. intros F. apply leb_F2Q; auto. lra. Qed.

Lemma Prim2SF_zero : Prim2SF 0 = S754_zero false.
Proof. reflexivity. Qed.

Lemma finite_zero : finite 0 = true.
Proof. reflexivity. Qed.

Lemma F2Q_zero : (F2Q 0 == 0)%Q.
Proof. reflexivity. Qed.

Lemma finite_one : finite 1 = true.
Proof. reflexivity. Qed.

Lemma F2Q_one : (F2Q 1 == 1)%Q.
Proof. vm_compute. reflexivity. Qed.

Lemma finite_two : finite 2 = true.
Proof. reflexivity. Qed.

Lemma F2Q_two : (F2Q 2 == 2)%Q.
Proof. vm_compute. reflexivity. Qed.

(** A double that is not below zero is finite or plus infinity. *)
Lemma nonneg_cases x :
  (0 <=? x) = true ->
  (finite x = true /\ (0 <= F2Q x)%Q) \/ Prim2SF x = S754_infinity false.
Proof.
  rewrite FloatAxioms.leb_spec, Prim2SF_zero. unfold finite, F2Q.
  destruct (Prim2SF x) as [s|[]| |[] m e]; simpl SFleb; try discriminate; intros _.
  - left. split; [reflexivity|]. simpl. lra.
  - right. reflexivity.
  - left. split; [reflexivity|]. rewrite finite_value. cbv iota.
    apply Qlt_le_weak, mantissa_pos.
Qed.

Lemma positive_finite x :
  finite x = true -> (0 < F2Q x)%Q -> exists m e, Prim2SF x = S754_finite false m e.
Proof.
  unfold finite, F2Q. destruct (Prim2SF x) as [s|s| |s m e]; try discriminate; intros _ H.
  rewrite finite_value in H. pose proof (mantissa_pos m e).
  destruct s; [lra|]. eauto.
Qed.

Lemma nonzero_finite x : ~ (F2Q x == 0)%Q -> finite x = true.
Proof.
  unfold finite, F2Q. destruct (Prim2SF x); simpl; intros H; try reflexivity;
    exfalso; apply H; reflexivity.
Qed.

(** Infinity times a positive double, and a double plus infinity. *)
Lemma mul_infinity x y :
  Prim2SF x = S754_infinity false -> finite y = true -> (0 < F2Q y)%Q ->
  Prim2SF (x * y) = S754_infinity false.
Proof.
  intros Hx Fy Hy. destruct (positive_finite y Fy Hy) as (m & e & Ey).
  rewrite FloatAxioms.mul_spec, Hx, Ey. reflexivity.
Qed.

Lemma add_infinity x y :
  finite x = true -> Prim2SF y = S754_infinity false ->
  Prim2SF (x + y) = S754_infinity false.
Proof.
  unfold finite. intros Fx Hy. rewrite FloatAxioms.add_spec, Hy.
  destruct (Prim2SF x) as [[]|[]| |[] m e]; try discriminate; reflexivity.
Qed.

Lemma leb_infinity x y :
  finite x = true -> Prim2SF y = S754_infinity false -> (x <=? y) = true.
Proof.
  unfold finite. intros Fx Hy. rewrite FloatAxioms.leb_spec, Hy.
  destruct (Prim2SF x) as [[]|[]| |[] m e]; try discriminate; reflexivity.
Qed.

(** *** Doubles that exist *)

Lemma representable p e0 :
  (dig p <= 53)%Z -> (-1074 <= e0)%Z -> (dig p + e0 <= 1024)%Z ->
  exists c : float, finite c = true /\ (F2Q c == inject_Z (Zpos p) * pow2 e0)%Q.
Proof.
  intros Hd He Htop. pose proof (dig_pos p).
  set (ec := Z.max (dig p + e0 - 53) (-1074)).
  assert (Hec : (ec <= e0)%Z) by (unfold ec; lia).
  destruct (shl_align_spec p e0 ec Hec) as [Hm _].
  set (mc := fst (shl_align p e0 ec)) in *.
  assert (Hdm : dig mc = (dig p + (e0 - ec))%Z) by (apply (dig_shift p); [lia|exact Hm]).
  assert (V : valid_binary (S754_finite false mc ec) = true).
  { simpl. apply bounded_spec. rewrite Hdm. unfold ec. lia. }
  exists (SF2Prim (S754_finite false mc ec)).
  unfold finite, F2Q. rewrite (Prim2SF_SF2Prim _ V). split; [reflexivity|].
  unfold mc. rewrite <- (aligned_value false p e0 ec Hec). reflexivity.
Qed.

Lemma integer_representable j :
  (0 <= j <= 2 ^ 53)%Z -> exists c : float, finite c = true /\ (F2Q c == inject_Z j)%Q.
Proof.
  intros Hj. destruct j as [|p|p]; [| |lia].
  - exists 0. split; reflexivity.
  - destruct (BinInt.Z.eq_dec (Zpos p) (2 ^ 53)) as [Heq|Hne].
    + destruct (representable 1 53) as (c & Fc & Hc); [unfold dig; simpl; lia|lia|unfold dig; simpl; lia|].
      exists c. split; [exact Fc|]. rewrite Hc, Heq, (pow2_Z 53) by lia.
      change (inject_Z 1) with 1%Q. ring.
    + assert (Hd : (dig p <= 53)%Z).
      { pose proof (dig_bounds p) as [Hlo _]. pose proof (dig_pos p).
        destruct (Z_le_gt_dec (dig p) 53) as [Hle|Hgt]; [exact Hle|].
        assert (2 ^ 53 <= 2 ^ (dig p - 1))%Z by (apply Z.pow_le_mono_r; lia). lia. }
      destruct (representable p 0 Hd) as (c & Fc & Hc); [lia|lia|].
      exists c. split; [exact Fc|]. rewrite Hc, pow2_0. ring.
Qed.

(** Subtracting one from a double in [[1, 2)] is exact. *)
Lemma below_two_representable x :
  finite x = true -> (1 <= F2Q x)%Q -> (F2Q x < 2)%Q ->
  exists c : float, finite c = true /\ (F2Q c == F2Q x - 1)%Q.
Proof.
  intros Fx H1 H2.
  destruct (positive_finite x Fx ltac:(lra)) as (m & e & Ex).
  pose proof (finite_valid x) as V. rewrite Ex in V. simpl in V. apply bounded_spec in V.
  assert (Hx : (F2Q x == inject_Z (Zpos m) * pow2 e)%Q).
  { unfold F2Q. rewrite Ex. apply (finite_value false). }
  rewrite Hx in H1, H2.
  pose proof (magnitude m e) as [Hlo Hhi]. pose proof (dig_pos m).
  assert (Hmag : (dig m + e = 1)%Z).
  { assert (Ha : (pow2 0 < pow2 (dig m + e))%Q) by (rewrite pow2_0; lra).
    assert (Hb : (pow2 (dig m + e - 1) < pow2 1)%Q) by (change (pow2 1) with 2%Q; lra).
    apply pow2_lt_inv in Ha, Hb. lia. }
  assert (He : e = (-52)%Z) by lia. subst e.
  assert (Hd : dig m = 53%Z) by lia.
  pose proof (dig_bounds m) as [Hmlo Hmhi]. rewrite Hd in Hmlo, Hmhi.
  assert (Hone : (inject_Z (2 ^ 52) * pow2 (-52) == 1)%Q).
  { rewrite <- (pow2_Z 52), <- pow2_add by lia. reflexivity. }
  destruct (BinInt.Z.eq_dec (Zpos m) (2 ^ 52)) as [Heq|Hne].
  - exists 0. split; [reflexivity|]. rewrite Hx, F2Q_zero, Heq, Hone. ring.
  - destruct (Zpos m - 2 ^ 52)%Z as [|p|p] eqn:Ep; try lia.
    assert (Hdp : (dig p <= 53)%Z).
    { pose proof (dig_bounds p) as [Hplo _]. pose proof (dig_pos p).
      destruct (Z_le_gt_dec (dig p) 53) as [Hle|Hgt]; [exact Hle|].
      assert (2 ^ 53 <= 2 ^ (dig p - 1))%Z by (apply Z.pow_le_mono_r; lia).
      lia. }
    destruct (representable p (-52) Hdp) as (c & Fc & Hc); [lia|lia|].
    exists c. split; [exact Fc|]. rewrite Hc, Hx, <- Ep.
    unfold Z.sub. rewrite inject_Z_plus, inject_Z_opp.
    setoid_replace ((inject_Z (Zpos m) + - inject_Z (2 ^ 52)) * pow2 (-52))%Q
      with (inject_Z (Zpos m) * pow2 (-52) - inject_Z (2 ^ 52) * pow2 (-52))%Q using relation Qeq by ring.
    rewrite Hone. reflexivity.
Qed.

End PrimFloatFacts.

(** ** RateLimiter over doubles *)

Section RateLimiter64.
Import IEEE Binary64 Binary64.RateLimiter.
Local Open Scope float_scope.


Lemma acquire_rate now self :
  max_requests_per_second (snd (acquire now self)) = max_requests_per_second self.
Proof. unfold acquire. destruct (1 <=? _); reflexivity. Qed.

Lemma acquire_last_update now self : last_update (snd (acquire now self)) = now.
Proof. unfold acquire. destruct (1 <=? _); reflexivity. Qed.

Lemma min_le a b : finite a = true -> (Py.min a b <=? a) = true.
Proof.
  intros Fa. unfold Py.min. destruct (b <? a) eqn:E.
  - apply ltb_leb. exact E.
  - apply leb_refl. exact Fa.
Qed.

(** Taking a token never raises the balance. *)
Lemma take_token m N :
  finite N = true -> (1 <=? m) = true -> (m <=? N) = true ->
  finite (m - 1) = true /\ (0 <= F2Q (m - 1))%Q /\ (F2Q (m - 1) <= F2Q m)%Q /\
  finite m = true /\ (F2Q m <= F2Q N)%Q.
Proof.
  intros FN H1 HN.
  assert (Fm : finite m = true) by (apply (between_finite 1 m N); auto using finite_one).
  pose proof (proj1 (leb_F2Q 1 m finite_one Fm) H1) as V1. rewrite F2Q_one in V1.
  pose proof (proj1 (leb_F2Q m N Fm FN) HN) as VN.
  destruct (rounds_between (F2Q m - F2Q 1) (m - 1) 0 m) as (F & L & U);
    auto using sub_rounds, finite_one, finite_zero.
  - rewrite F2Q_zero, F2Q_one. lra.
  - rewrite F2Q_one. lra.
Qed.

Lemma acquire_capped now self :
  finite (max_requests_per_second self) = true ->
  (tokens (snd (acquire now self)) <=? max_requests_per_second self) = true.
Proof.
  intros FN. unfold acquire.
  set (m := Py.min _ _).
  assert (Hm : (m <=? max_requests_per_second self) = true) by (apply min_le; exact FN).
  destruct (1 <=? m) eqn:E; cbn [snd tokens]; [|exact Hm].
  destruct (take_token m _ FN E Hm) as (F & _ & U & Fm & V).
  apply leb_F2Q; auto. lra.
Qed.

Lemma acquire_all_rate times : forall self,
  max_requests_per_second (snd (acquire_all times self)) = max_requests_per_second self.
Proof.
  induction times as [|now rest IH]; intros self; [reflexivity|].
  simpl. pose proof (acquire_rate now self) as H.
  destruct (acquire now self) as [ok self']. simpl in H.
  specialize (IH self'). destruct (acquire_all rest self') as [oks self''].
  simpl in *. congruence.
Qed.

Lemma acquire_all_capped times : forall self,
  times <> [] ->
  finite (max_requests_per_second self) = true ->
  (tokens (snd (acquire_all times self)) <=? max_requests_per_second self) = true.
Proof.
  induction times as [|now rest IH]; intros self Hne FN; [contradiction|].
  simpl. pose proof (acquire_rate now self) as Hr. pose proof (acquire_capped now self FN) as Hc.
  destruct (acquire now self) as [ok self']. simpl in Hr, Hc.
  destruct rest as [|now' rest'].
  - simpl. exact Hc.
  - specialize (IH self' ltac:(discriminate)). rewrite Hr in IH. specialize (IH FN).
    destruct (acquire_all (now' :: rest') self') as [oks self'']. exact IH.
Qed.



Lemma acquire_refilled now self :
  acquire now self
  = if 1 <=? refilled now self
    then (true, {| max_requests_per_second := max_requests_per_second self;
                   tokens := refilled now self - 1;
                   last_update := now |})
    else (false, {| max_requests_per_second := max_requests_per_second self;
                    tokens := refilled now self;
                    last_update := now |}).
Proof. reflexivity. Qed.

Lemma integral_le x (j : Z) y (k : Z) :
  integral x j -> integral y k -> ((x <=? y) = true <-> (j <= k)%Z).
Proof.
  intros [Fx Hx] [Fy Hy]. rewrite (leb_F2Q x y Fx Fy), Hx, Hy, <- Zle_Qle. reflexivity.
Qed.

Lemma integral_one : integral 1 1.
Proof. split; [reflexivity|apply F2Q_one]. Qed.

Lemma integral_zero : integral 0 0.
Proof. split; reflexivity. Qed.

(** A call of [acquire] on an integral balance. *)
Lemma acquire_integral now self (j : Z) :
  integral (refilled now self) j -> (0 <= j <= 2 ^ 53)%Z ->
  fst (acquire now self) = (1 <=? j)%Z /\
  integral (tokens (snd (acquire now self))) (if (1 <=? j)%Z then j - 1 else j).
Proof.
  intros Hm Hj. rewrite acquire_refilled.
  pose proof (integral_le 1 1 (refilled now self) j integral_one Hm) as Hle.
  destruct (1 <=? refilled now self) eqn:E; cbn [fst snd tokens].
  - assert (H1 : (1 <= j)%Z) by (apply Hle; reflexivity).
    apply Z.leb_le in H1. rewrite H1. split; [reflexivity|].
    apply Z.leb_le in H1.
    destruct Hm as [Fm Vm].
    destruct (integer_representable (j - 1) ltac:(lia)) as (c & Fc & Hc).
    destruct (rounds_exact _ _ c (sub_rounds _ _ Fm finite_one) Fc) as [F V].
    { rewrite Hc, Vm, F2Q_one. unfold Z.sub. rewrite inject_Z_plus. reflexivity. }
    split; [exact F|]. rewrite V. exact Hc.
  - assert (H1 : (1 <=? j)%Z = false).
    { apply Z.leb_gt. destruct (Z_lt_le_dec j 1) as [Hlt|Hge]; [exact Hlt|].
      apply Hle in Hge. congruence. }
    rewrite H1. split; [reflexivity|exact Hm].
Qed.

(** The refill at the instant of the last update changes nothing. *)
Lemma refilled_same_instant self (j n : Z) :
  integral (max_requests_per_second self) n -> finite (last_update self) = true ->
  integral (tokens self) j -> (j <= n)%Z ->
  integral (refilled (last_update self) self) j.
Proof.
  intros [FN VN] Ft [Fk Vk] Hjn. unfold refilled.
  set (N := max_requests_per_second self) in *. set (t := last_update self) in *.
  destruct (rounds_exact _ _ 0 (sub_rounds t t Ft Ft) finite_zero) as [Fe Ve].
  { rewrite F2Q_zero. ring. }
  destruct (rounds_exact _ _ 0 (mul_rounds _ N Fe FN) finite_zero) as [Fy Vy].
  { rewrite Ve, F2Q_zero. ring. }
  destruct (rounds_exact _ _ (tokens self) (add_rounds _ _ Fk Fy) Fk) as [Fx Vx].
  { rewrite Vy, F2Q_zero. ring. }
  unfold Py.min. destruct (_ <? N) eqn:E.
  - split; [exact Fx|]. rewrite Vx. exact Vk.
  - apply (ltb_false_F2Q _ _ Fx FN) in E. rewrite Vx, Vk, VN, <- Zle_Qle in E.
    assert (j = n) by lia. subst j. split; assumption.
Qed.

(** A full bucket stays full however long the limiter was idle. *)
Lemma refilled_full now self :
  finite (max_requests_per_second self) = true -> (0 < F2Q (max_requests_per_second self))%Q ->
  tokens self = max_requests_per_second self ->
  finite (last_update self) = true -> finite now = true ->
  (last_update self <=? now) = true ->
  refilled now self = max_requests_per_second self.
Proof.
  intros FN PN Hfull Ft Fnow Hle. unfold refilled. rewrite Hfull.
  set (N := max_requests_per_second self) in *. set (t := last_update self) in *.
  apply (leb_F2Q _ _ Ft Fnow) in Hle.
  pose proof (sub_rounds now t Fnow Ft) as Re.
  assert (He : (0 <=? now - t) = true).
  { apply (rounds_lower _ _ 0 Re finite_zero). rewrite F2Q_zero. lra. }
  assert (Hy : (0 <=? (now - t) * N) = true).
  { destruct (nonneg_cases _ He) as [[Fe Ve]|Ie].
    - apply (rounds_lower _ _ 0 (mul_rounds _ _ Fe FN) finite_zero).
      rewrite F2Q_zero. apply Qmult_le_0_compat; lra.
    - apply leb_infinity; [reflexivity|]. apply mul_infinity; assumption. }
  assert (Hx : (N <=? N + (now - t) * N) = true).
  { destruct (nonneg_cases _ Hy) as [[Fy Vy]|Iy].
    - apply (rounds_lower _ _ N (add_rounds _ _ FN Fy) FN). lra.
    - apply leb_infinity; [exact FN|]. apply add_infinity; assumption. }
  unfold Py.min. rewrite (leb_not_ltb _ _ Hx). reflexivity.
Qed.

(** Calls at the instant of the last update spend an integral balance
    one token at a time. *)
Lemma acquire_all_same_instant k : forall self (j n : Z),
  (1 <= n <= 2 ^ 53)%Z -> (0 <= j <= n)%Z ->
  integral (max_requests_per_second self) n -> finite (last_update self) = true ->
  integral (tokens self) j ->
  let r := acquire_all (repeat (last_update self) k) self in
  fst r = repeat true (Nat.min (Z.to_nat j) k) ++ repeat false (k - Z.to_nat j) /\
  max_requests_per_second (snd r) = max_requests_per_second self /\
  last_update (snd r) = last_update self /\
  integral (tokens (snd r)) (Z.max 0 (j - Z.of_nat k)).
Proof.
  induction k as [|k IH]; intros self j n Hn Hj HN Ft Hk.
  - simpl. rewrite Nat.min_0_r. simpl. repeat split; try apply Hk.
    replace (Z.max 0 (j - Z.of_nat 0))%Z with j by lia. apply Hk.
  - cbn [repeat acquire_all].
    pose proof (refilled_same_instant self j n HN Ft Hk ltac:(lia)) as Hm.
    destruct (acquire_integral _ self j Hm ltac:(lia)) as [Hok Htok].
    pose proof (acquire_rate (last_update self) self) as Hr.
    pose proof (acquire_last_update (last_update self) self) as Hl.
    destruct (acquire (last_update self) self) as [ok self'].
    cbn [fst snd] in *. subst ok.
    specialize (IH self' (if (1 <=? j)%Z then j - 1 else j)%Z n Hn).
    rewrite Hl, Hr in IH.
    assert (Hj' : (0 <= (if (1 <=? j)%Z then j - 1 else j) <= n)%Z).
    { destruct (1 <=? j)%Z eqn:E; [apply Z.leb_le in E|apply Z.leb_gt in E]; lia. }
    specialize (IH Hj' HN Ft Htok).
    destruct (acquire_all (repeat (last_update self) k) self') as [oks self''].
    cbn [fst snd] in *. destruct IH as (Hoks & Hr' & Hl' & Ht').
    split; [|split; [exact Hr'|split; [exact Hl'|]]].
    + rewrite Hoks. destruct (1 <=? j)%Z eqn:E; [apply Z.leb_le in E|apply Z.leb_gt in E].
      * replace (Nat.min (Z.to_nat j) (S k)) with (S (Nat.min (Z.to_nat (j - 1)) k)) by lia.
        replace (S k - Z.to_nat j)%nat with (k - Z.to_nat (j - 1))%nat by lia.
        reflexivity.
      * replace (Z.to_nat j) with 0%nat by lia. simpl. rewrite Nat.sub_0_r. reflexivity.
    + destruct (1 <=? j)%Z eqn:E; [apply Z.leb_le in E|apply Z.leb_gt in E].
      * replace (Z.max 0 (j - Z.of_nat (S k)))%Z with (Z.max 0 (j - 1 - Z.of_nat k))%Z by lia.
        exact Ht'.
      * replace (Z.max 0 (j - Z.of_nat (S k)))%Z with (Z.max 0 (j - Z.of_nat k))%Z by lia.
        exact Ht'.
Qed.


Lemma acquire_fst now self : fst (acquire now self) = (1 <=? refilled now self).
Proof. rewrite acquire_refilled. destruct (1 <=? refilled now self); reflexivity. Qed.

Lemma acquire_tokens now self :
  tokens (snd (acquire now self))
  = if 1 <=? refilled now self then refilled now self - 1 else refilled now self.
Proof. rewrite acquire_refilled. destruct (1 <=? refilled now self); reflexivity. Qed.

(** The refill at the instant of the last update leaves a balance that
    is not above the rate as it is. *)
Lemma refilled_idle self :
  finite (max_requests_per_second self) = true -> finite (last_update self) = true ->
  finite (tokens self) = true ->
  (F2Q (tokens self) <= F2Q (max_requests_per_second self))%Q ->
  finite (refilled (last_update self) self) = true /\
  (F2Q (refilled (last_update self) self) == F2Q (tokens self))%Q.
Proof.
  intros FN Ft Fk Hle. unfold refilled.
  set (N := max_requests_per_second self) in *. set (t := last_update self) in *.
  destruct (rounds_exact _ _ 0 (sub_rounds t t Ft Ft) finite_zero) as [Fe Ve].
  { rewrite F2Q_zero. ring. }
  destruct (rounds_exact _ _ 0 (mul_rounds _ N Fe FN) finite_zero) as [Fy Vy].
  { rewrite Ve, F2Q_zero. ring. }
  destruct (rounds_exact _ _ (tokens self) (add_rounds _ _ Fk Fy) Fk) as [Fx Vx].
  { rewrite Vy, F2Q_zero. ring. }
  unfold Py.min. destruct (_ <? N) eqn:E.
  - split; [exact Fx|exact Vx].
  - apply (ltb_false_F2Q _ _ Fx FN) in E. split; [exact FN|]. lra.
Qed.

(** The refill of an empty bucket after a wait. *)
Lemma refilled_empty now self (n : Z) :
  (1 <= n)%Z -> integral (max_requests_per_second self) n ->
  integral (tokens self) 0 ->
  finite (last_update self) = true -> finite now = true ->
  (last_update self <=? now) = true ->
  let y := (now - last_update self) * max_requests_per_second self in
  ((1 <=? refilled now self) = true <-> (1 <=? y) = true) /\
  ((y <? 2) = true ->
   finite (refilled now self) = true /\ (F2Q (refilled now self) < 2)%Q).
Proof.
  intros Hn [FN VN] [Fk Vk] Ft Fnow Hle y.
  set (N := max_requests_per_second self) in *. set (t := last_update self) in *.
  assert (Hn' : (1 <= F2Q N)%Q) by (rewrite VN, <- (Zle_Qle 1); exact Hn).
  assert (H1N : (1 <=? N) = true) by (apply leb_F2Q; auto using finite_one; rewrite F2Q_one; exact Hn').
  apply (leb_F2Q _ _ Ft Fnow) in Hle.
  pose proof (sub_rounds now t Fnow Ft) as Re.
  assert (He : (0 <=? now - t) = true).
  { apply (rounds_lower _ _ 0 Re finite_zero). rewrite F2Q_zero. lra. }
  assert (Hy : (0 <=? y) = true).
  { unfold y. destruct (nonneg_cases _ He) as [[Fe Ve]|Ie].
    - apply (rounds_lower _ _ 0 (mul_rounds _ _ Fe FN) finite_zero).
      rewrite F2Q_zero. apply Qmult_le_0_compat; lra.
    - apply leb_infinity; [reflexivity|]. apply mul_infinity; auto. lra. }
  unfold refilled. fold N t y.
  destruct (nonneg_cases _ Hy) as [[Fy Vy]|Iy].
  - destruct (rounds_exact _ _ y (add_rounds _ _ Fk Fy) Fy) as [Fx Vx].
    { rewrite Vk. change (inject_Z 0) with 0%Q. ring. }
    unfold Py.min. destruct (_ <? N) eqn:E.
    + split.
      * rewrite (leb_F2Q _ _ finite_one Fx), (leb_F2Q _ _ finite_one Fy), Vx. reflexivity.
      * intros H2. apply (ltb_F2Q _ _ Fy finite_two) in H2. rewrite F2Q_two in H2.
        split; [exact Fx|]. lra.
    + apply (ltb_false_F2Q _ _ Fx FN) in E. split.
      * rewrite (leb_F2Q _ _ finite_one Fy), F2Q_one. split; intros _; [lra|exact H1N].
      * intros H2. apply (ltb_F2Q _ _ Fy finite_two) in H2. rewrite F2Q_two in H2.
        split; [exact FN|]. lra.
  - assert (Ix : Prim2SF (tokens self + y) = S754_infinity false) by (apply add_infinity; assumption).
    assert (HNx : (N <=? tokens self + y) = true) by (apply leb_infinity; assumption).
    unfold Py.min. rewrite (leb_not_ltb _ _ HNx). split.
    + split; intros _; [apply leb_infinity; [reflexivity|exact Iy]|exact H1N].
    + intros H2. rewrite FloatAxioms.ltb_spec, Iy in H2. discriminate.
Qed.

(** C6.  A limiter made at the instant [t0] with a rate [N] that is a
    positive integer (up to 2^53, beyond which doubles no longer hold
    every integer), in the double arithmetic of the program.  [N] calls
    at one instant [t], not before [t0], are granted, and every further
    call at [t] is denied.  Whatever the clock readings, the balance
    after a call never exceeds [N].  After that saturation, a call at an
    instant [t'], not before [t], is granted exactly when the refill the
    program computes, [(t' - t) * N], is at least 1.0; this is the case
    whenever the elapsed time it computes, [t' - t], is at least [1 / N]
    as a real number; and when the computed refill is below 2.0, a second
    call at [t'] is denied. *)
Theorem rate_limiter_saturation (n : Z) (N t0 t : float) (extra : nat) :
  (1 <= n <= 2 ^ 53)%Z -> integral N n ->
  finite t0 = true -> finite t = true -> (t0 <=? t) = true ->
  let fresh := __init__ t0 N in
  let saturated := snd (acquire_all (repeat t (Z.to_nat n)) fresh) in
  fst (acquire_all (repeat t (Z.to_nat n + extra)) fresh)
  = repeat true (Z.to_nat n) ++ repeat false extra /\
  (forall times, times <> [] ->
     (tokens (snd (acquire_all times fresh)) <=? N) = true) /\
  (forall t', finite t' = true -> (t <=? t') = true ->
     (fst (acquire t' saturated) = true <-> (1 <=? (t' - t) * N) = true) /\
     ((1 <= F2Q (t' - t) * inject_Z n)%Q -> fst (acquire t' saturated) = true) /\
     (((t' - t) * N <? 2) = true ->
      fst (acquire t' (snd (acquire t' saturated))) = false)).
Proof.
  intros Hn HN Ft0 Ft Hle fresh saturated.
  destruct HN as [FN VN].
  assert (PN : (0 < F2Q N)%Q) by (rewrite VN, <- (Zlt_Qlt 0); lia).
  (* the first call finds the bucket full *)
  assert (Hfull : refilled t fresh = N).
  { apply (refilled_full t fresh); auto. }
  assert (Hfirst : integral (refilled t fresh) n) by (rewrite Hfull; split; assumption).
  destruct (acquire_integral t fresh n Hfirst ltac:(lia)) as [Hok Htok].
  assert (H1 : (1 <=? n)%Z = true) by (apply Z.leb_le; lia).
  rewrite H1 in Hok, Htok.
  pose proof (acquire_rate t fresh) as Hr. pose proof (acquire_last_update t fresh) as Hl.
  (* the calls that follow *)
  assert (Hrest : forall k,
    let r := acquire_all (repeat t (S k)) fresh in
    fst r = true :: repeat true (Nat.min (Z.to_nat (n - 1)) k)
                 ++ repeat false (k - Z.to_nat (n - 1)) /\
    max_requests_per_second (snd r) = N /\ last_update (snd r) = t /\
    integral (tokens (snd r)) (Z.max 0 (n - 1 - Z.of_nat k))).
  { intros k. cbn [repeat acquire_all].
    destruct (acquire t fresh) as [ok self']. cbn [fst snd] in *. subst ok.
    pose proof (acquire_all_same_instant k self' (n - 1) n Hn ltac:(lia)) as H.
    rewrite Hl, Hr in H. specialize (H (conj FN VN) Ft Htok).
    destruct (acquire_all (repeat t k) self') as [oks self'']. cbn [fst snd] in *.
    destruct H as (Ha & Hb & Hc & Hd). rewrite Ha. auto. }
  split; [|split].
  - replace (Z.to_nat n + extra)%nat with (S (Z.to_nat (n - 1) + extra)) by lia.
    destruct (Hrest (Z.to_nat (n - 1) + extra)%nat) as (Ha & _). rewrite Ha.
    replace (Nat.min (Z.to_nat (n - 1)) (Z.to_nat (n - 1) + extra)) with (Z.to_nat (n - 1)) by lia.
    replace (Z.to_nat (n - 1) + extra - Z.to_nat (n - 1))%nat with extra by lia.
    replace (Z.to_nat n) with (S (Z.to_nat (n - 1))) by lia. reflexivity.
  - intros times Hne. apply (acquire_all_capped times fresh Hne FN).
  - intros t' Ft' Hle'.
    assert (Hsat : max_requests_per_second saturated = N /\ last_update saturated = t /\
                   integral (tokens saturated) 0).
    { unfold saturated. replace (Z.to_nat n) with (S (Z.to_nat (n - 1))) by lia.
      destruct (Hrest (Z.to_nat (n - 1))) as (_ & Hb & Hc & Hd).
      replace (Z.max 0 (n - 1 - Z.of_nat (Z.to_nat (n - 1))))%Z with 0%Z in Hd by lia. auto. }
    destruct Hsat as (SN & St & Sk).
    pose proof (refilled_empty t' saturated n ltac:(lia)) as He.
    rewrite SN, St in He. specialize (He (conj FN VN) Sk Ft Ft' Hle').
    cbv zeta in He. destruct He as [Hiff Hlow].
    split; [|split].
    + rewrite acquire_fst. exact Hiff.
    + intros Hreal. rewrite acquire_fst. apply Hiff.
      assert (Fe : finite (t' - t) = true).
      { apply nonzero_finite. intros H0. rewrite H0 in Hreal.
        assert (0 * inject_Z n == 0)%Q by ring. lra. }
      apply (rounds_lower _ _ 1 (mul_rounds _ _ Fe FN) finite_one).
      rewrite F2Q_one, VN. exact Hreal.
    + intros H2. destruct (Hlow H2) as [Fm Vm].
      set (m := refilled t' saturated) in *.
      pose proof (acquire_rate t' saturated) as Hr2.
      pose proof (acquire_last_update t' saturated) as Hl2.
      pose proof (acquire_tokens t' saturated) as Ht2. fold m in Ht2.
      set (after := snd (acquire t' saturated)) in *.
      assert (Hk2 : finite (tokens after) = true /\ (F2Q (tokens after) < 1)%Q).
      { rewrite Ht2. destruct (1 <=? m) eqn:E.
        - apply (leb_F2Q _ _ finite_one Fm) in E. rewrite F2Q_one in E.
          destruct (below_two_representable m Fm E Vm) as (c & Fc & Hc).
          destruct (rounds_exact _ _ c (sub_rounds _ _ Fm finite_one) Fc) as [F V].
          { rewrite Hc, F2Q_one. reflexivity. }
          split; [exact F|]. rewrite V, Hc. lra.
        - apply (leb_false_F2Q _ _ finite_one Fm) in E. rewrite F2Q_one in E. auto. }
      destruct Hk2 as [Fk2 Vk2].
      assert (Hn' : (1 <= F2Q N)%Q) by (rewrite VN, <- (Zle_Qle 1); lia).
      pose proof (refilled_idle after) as Hi. rewrite Hr2, SN, Hl2 in Hi.
      destruct (Hi FN Ft' Fk2 ltac:(lra)) as [Fm2 Vm2].
      rewrite <- Hl2 at 1. rewrite acquire_fst, Hl2.
      apply (leb_false_F2Q _ _ finite_one Fm2). rewrite F2Q_one. lra.
Qed.

Lemma rate_limiter_saturation_witness :
  fst (acquire_all (repeat 100.5 (Z.to_nat 5 + 2)) (__init__ 100 5))
  = repeat true (Z.to_nat 5) ++ repeat false 2.
Proof.
  refine (proj1 (rate_limiter_saturation 5 5 100 100.5 2 _ _ _ _ _)).
  - lia.
  - split; [reflexivity|vm_compute; reflexivity].
  - reflexivity.
  - reflexivity.
  - reflexivity.
Defined.

(** The wait of 1/49 seconds after saturation at 49 requests per second:
    the double nearest to 1/49 times 49 is 0.9999999999999999, and the
    request is denied. *)
Example waiting_one_over_n_can_fail :
  let saturated := snd (acquire_all (repeat 0 49) (__init__ 0 49)) in
  fst (acquire_all (repeat 0 50) (__init__ 0 49)) = repeat true 49 ++ [false] /\
  tokens saturated = 0 /\
  (1 / 49) * 49 = 0.9999999999999999 /\
  fst (acquire (1 / 49) saturated) = false.
Proof. vm_compute. repeat split. Qed.


(** X3.  With a finite rate of at least one request per second and a
    finite balance that is not negative, a request is granted whenever
    the elapsed time the program computes, [now - last_update], is at
    least [1 / rate] as a real number; the balance it leaves lies between
    0 and the rate. *)
Theorem acquire_after_refill (rl : t) (now : float) :
  finite (max_requests_per_second rl) = true -> finite (tokens rl) = true ->
  (1 <= F2Q (max_requests_per_second rl))%Q -> (0 <= F2Q (tokens rl))%Q ->
  (1 <= F2Q (now - last_update rl) * F2Q (max_requests_per_second rl))%Q ->
  fst (acquire now rl) = true /\
  finite (tokens (snd (acquire now rl))) = true /\
  (0 <= F2Q (tokens (snd (acquire now rl))))%Q /\
  (F2Q (tokens (snd (acquire now rl))) <= F2Q (max_requests_per_second rl))%Q.
Proof.
  intros FN Fk HN Hk Hreal.
  set (N := max_requests_per_second rl) in *.
  assert (Fe : finite (now - last_update rl) = true).
  { apply nonzero_finite. intros H0. rewrite H0 in Hreal.
    assert (0 * F2Q N == 0)%Q by ring. lra. }
  pose proof (mul_rounds _ _ Fe FN) as Ry.
  assert (Hy1 : (1 <=? (now - last_update rl) * N) = true).
  { apply (rounds_lower _ _ 1 Ry finite_one). rewrite F2Q_one. exact Hreal. }
  assert (Hy0 : (0 <=? (now - last_update rl) * N) = true).
  { apply (rounds_lower _ _ 0 Ry finite_zero). rewrite F2Q_zero. lra. }
  assert (H1N : (1 <=? N) = true).
  { apply leb_F2Q; auto using finite_one. rewrite F2Q_one. exact HN. }
  assert (Hx : (1 <=? tokens rl + (now - last_update rl) * N) = true).
  { destruct (nonneg_cases _ Hy0) as [[Fy Vy]|Iy].
    - apply (leb_F2Q _ _ finite_one Fy) in Hy1. rewrite F2Q_one in Hy1.
      apply (rounds_lower _ _ 1 (add_rounds _ _ Fk Fy) finite_one). rewrite F2Q_one. lra.
    - apply leb_infinity; [reflexivity|]. apply add_infinity; assumption. }
  assert (Hm : (1 <=? refilled now rl) = true).
  { unfold refilled. fold N. unfold Py.min. destruct (_ <? N); assumption. }
  assert (HmN : (refilled now rl <=? N) = true) by (apply min_le; exact FN).
  rewrite acquire_fst, acquire_tokens, Hm. split; [reflexivity|].
  destruct (take_token _ _ FN Hm HmN) as (F & L & U & Fm & V).
  split; [exact F|]. split; [exact L|]. lra.
Qed.

Lemma acquire_after_refill_witness :
  fst (acquire 100.2 {| max_requests_per_second := 5; tokens := 0; last_update := 100 |})
  = true.
Proof.
  refine (proj1 (acquire_after_refill
                   {| max_requests_per_second := 5; tokens := 0; last_update := 100 |}
                   100.2 _ _ _ _ _)).
  - reflexivity.
  - reflexivity.
  - vm_compute. discriminate.
  - vm_compute. discriminate.
  - vm_compute. discriminate.
Defined.

End RateLimiter64.


(** ** TopOfBookStrategy over doubles *)

Section TopOfBookStrategy64.
Import IEEE Binary64 Binary64.TopOfBookStrategy.
Local Open Scope float_scope.







End TopOfBookStrategy64.


(** ** PositionTracker over doubles *)

Section PositionTracker64.
Import Binary64 Binary64.PositionTracker.
Local Open Scope float_scope.

(** X5.  The average fill price in double arithmetic.  A tracker without
    fills reports 0.0.  The figure reported after fills is
    [total_fill_value / filled_quantity] as the doubles give it, and it
    need not lie between the lowest and the highest price paid: after
    three fills of size 1 at the price 0.1 against a target of 10, it is
    0.10000000000000002, above every price paid. *)
Theorem average_fill_price_leaves_range :
  (forall token target, get_average_fill_price (__init__ token target) = 0) /\
  let pt := apply_fills [(0, 1, 0.1); (1, 1, 0.1); (2, 1, 0.1)] (__init__ "token" 10) in
  filled_quantity pt = 3 /\
  map fill_price (fill_history pt) = [0.1; 0.1; 0.1] /\
  total_fill_value pt = 0.30000000000000004 /\
  get_average_fill_price pt = 0.10000000000000002 /\
  (0.1 <? get_average_fill_price pt) = true.
Proof.
  split; [intros token target; reflexivity|].
  vm_compute. repeat split.
Qed.

End PositionTracker64.

(** * Further properties of the model *)

(** ** RateLimiter: what a token bucket guarantees *)

Section RateLimiterBounds.
Import RateLimiter.







(** X2.  A limiter configured below one request per second never grants
    anything: the balance is capped at the rate, and a grant needs a whole
    token. *)
Theorem rate_below_one_never_grants (rl : t) (times : list Q) :
  max_requests_per_second rl < 1 ->
  Forall (fun ok => ok = false) (fst (acquire_all times rl)).
Proof.
  revert rl. induction times as [|now rest IH]; intros rl Hr; [constructor|].
  cbn [acquire_all].
  destruct (acquire now rl) as [ok rl'] eqn:E.
  assert (Hrate : max_requests_per_second rl' = max_requests_per_second rl).
  { pose proof (acquire_tokens_le now rl) as [_ H]. rewrite E in H. exact H. }
  assert (Hok : ok = false).
  { unfold acquire in E.
    destruct (py_min_spec (max_requests_per_second rl)
                (tokens rl + (now - last_update rl) * max_requests_per_second rl))
      as [[Hlt Hm]|[Hle Hm]]; rewrite Hm in E;
      destruct (Qle_bool 1 _) eqn:E1; qcases; inversion E; subst; try reflexivity; lra. }
  specialize (IH rl'). rewrite Hrate in IH. specialize (IH Hr).
  destruct (acquire_all rest rl') as [oks rl'']. cbn [fst] in *.
  constructor; assumption.
Qed.

Lemma rate_below_one_never_grants_witness :
  Forall (fun ok => ok = false) (fst (acquire_all [0; 10; 1000] (__init__ 0 (1 # 2)))).
Proof.
  apply (rate_below_one_never_grants (__init__ 0 (1 # 2)) [0; 10; 1000]).
  simpl. lra.
Defined.

End RateLimiterBounds.

(** ** PositionTracker: the books behind the position *)

Section PositionTrackerBooks.
Import PositionTracker.

Lemma filled_by_app h f : filled_by (h ++ [f]) == filled_by h + fill_size f.
Proof.
  induction h as [|g h IH]; simpl.
  - ring.
  - rewrite IH. ring.
Qed.

Lemma paid_for_app h f : paid_for (h ++ [f]) == paid_for h + fill_size f * fill_price f.
Proof.
  induction h as [|g h IH]; simpl.
  - ring.
  - rewrite IH. ring.
Qed.

(** What one call adds to the record: nothing, or one fill that answers
    the call, of positive size. *)
Lemma update_filled_quantity_history now fs fp pt :
  let pt' := update_filled_quantity now fs fp pt in
  (pt' = pt) \/
  (exists f,
     fill_history pt' = fill_history pt ++ [f] /\
     answers_call (now, fs, fp) f /\ 0 < fill_size f /\
     filled_quantity pt' = filled_quantity pt + fill_size f /\
     total_fill_value pt' = total_fill_value pt + fill_size f * fill_price f).
Proof.
  unfold update_filled_quantity.
  destruct (Qle_bool (Py.min fs (get_remaining_quantity pt)) 0) eqn:E; simpl.
  - left. reflexivity.
  - right. eexists. split; [reflexivity|]. qcases. simpl.
    repeat split; try assumption.
    destruct (py_min_spec fs (get_remaining_quantity pt)) as [[H ->]|[H ->]]; lra.
Qed.

Lemma update_filled_quantity_balanced now fs fp pt :
  balanced pt -> balanced (update_filled_quantity now fs fp pt).
Proof.
  intros (Hf & Hv & Hpos).
  destruct (update_filled_quantity_history now fs fp pt) as [->|(f & Hh & _ & Hp & Hq & Ht)].
  - repeat split; assumption.
  - unfold balanced. rewrite Hh, Hq, Ht, filled_by_app, paid_for_app, Hf, Hv.
    repeat split; try reflexivity.
    apply List.Forall_app. split; [assumption|]. constructor; [assumption|constructor].
Qed.

Lemma apply_fills_balanced calls : forall pt,
  balanced pt -> balanced (apply_fills calls pt).
Proof.
  unfold apply_fills.
  induction calls as [|[[now fs] fp] rest IH]; intros pt H; simpl; [assumption|].
  apply IH, update_filled_quantity_balanced, H.
Qed.

Lemma apply_fills_history calls : forall pt,
  exists added,
    fill_history (apply_fills calls pt) = fill_history pt ++ added /\
    Forall (fun f => Exists (fun c => answers_call c f) calls) added /\
    (length added <= length calls)%nat.
Proof.
  unfold apply_fills.
  induction calls as [|[[now fs] fp] rest IH]; intros pt; simpl.
  - exists []. rewrite app_nil_r.
    split; [reflexivity|]. split; [apply List.Forall_nil|simpl; lia].
  - destruct (IH (update_filled_quantity now fs fp pt)) as (added & Hh & Hall & Hlen).
    destruct (update_filled_quantity_history now fs fp pt) as [E|(f & Hf & Hans & _)].
    + cbv zeta in E. rewrite E in Hh |- *. exists added.
      split; [assumption|]. split; [|simpl; lia].
      eapply List.Forall_impl; [|exact Hall]. intros g Hg. apply Exists_cons_tl, Hg.
    + cbv zeta in Hf. exists (f :: added). rewrite Hh, Hf, <- app_assoc.
      split; [reflexivity|]. split; [|simpl; lia].
      apply List.Forall_cons.
      * apply Exists_cons_hd, Hans.
      * eapply List.Forall_impl; [|exact Hall]. intros g Hg. apply Exists_cons_tl, Hg.
Qed.

Lemma init_balanced token target : balanced (__init__ token target).
Proof. repeat split; simpl; try reflexivity. constructor. Qed.

(** X4.  Fill accounting.  Whatever calls a new tracker receives, its
    filled quantity is the sum of the fills on record and its fill value
    the sum of their size-times-price; every fill on record has a positive
    size and answers one of the calls, at that call's price and for no more
    than its size; and no call leaves more than one fill. *)
Theorem fill_history_accounts (token : string) (target : Q) (calls : list (Q * Q * Q)) :
  let pt := apply_fills calls (__init__ token target) in
  filled_quantity pt == filled_by (fill_history pt) /\
  total_fill_value pt == paid_for (fill_history pt) /\
  Forall (fun f => 0 < fill_size f) (fill_history pt) /\
  Forall (fun f => Exists (fun c => answers_call c f) calls) (fill_history pt) /\
  (length (fill_history pt) <= length calls)%nat.
Proof.
  intros pt.
  destruct (apply_fills_balanced calls _ (init_balanced token target)) as (Hf & Hv & Hpos).
  destruct (apply_fills_history calls (__init__ token target)) as (added & Hh & Hall & Hlen).
  fold pt in Hf, Hv, Hpos, Hh. simpl in Hh.
  repeat split; try assumption; rewrite Hh; assumption.
Qed.

End PositionTrackerBooks.

(** ** PositionTracker: the orders it tracks *)

Section PositionTrackerOrders.
Import PositionTracker.

Lemma dict_get_mem {V} k (d : list (string * V)) :
  Dict.mem k d = true <-> exists v, Dict.get k d = Some v.
Proof.
  unfold Dict.mem. induction d as [|[k' v'] d IH]; simpl.
  - split; [discriminate|intros [v H]; discriminate].
  - destruct (String.eqb k' k); simpl.
    + split; [eauto|reflexivity].
    + exact IH.
Qed.

Lemma dict_get_none {V} k (d : list (string * V)) :
  Dict.mem k d = false <-> Dict.get k d = None.
Proof.
  pose proof (dict_get_mem k d) as H.
  destruct (Dict.mem k d), (Dict.get k d) as [v|]; split; intros E;
    try reflexivity; try discriminate.
  - destruct (proj1 H eq_refl); discriminate.
  - assert (false = true) by (apply H; eauto). discriminate.
Qed.

Lemma dict_get_set {V} k (v : V) d : Dict.get k (Dict.set k v d) = Some v.
Proof.
  induction d as [|[k' v'] d IH]; simpl.
  - rewrite String.eqb_refl. reflexivity.
  - destruct (String.eqb k' k) eqn:E; simpl.
    + rewrite String.eqb_refl. reflexivity.
    + rewrite E. exact IH.
Qed.

Lemma dict_keys_set {V} k (v : V) d :
  Dict.mem k d = true -> Dict.keys (Dict.set k v d) = Dict.keys d.
Proof.
  unfold Dict.mem, Dict.keys. induction d as [|[k' v'] d IH]; simpl; [discriminate|].
  destruct (String.eqb k' k) eqn:E; simpl.
  - intros _. apply String.eqb_eq in E. subst. reflexivity.
  - intros H. rewrite (IH H). reflexivity.
Qed.

Lemma dict_set_fresh {V} k (v : V) d :
  Dict.mem k d = false -> Dict.set k v d = d ++ [(k, v)].
Proof.
  unfold Dict.mem. induction d as [|[k' v'] d IH]; simpl; [reflexivity|].
  destruct (String.eqb k' k) eqn:E; simpl; [discriminate|].
  intros H. rewrite (IH H). reflexivity.
Qed.

Lemma dict_del_fresh {V} k (d : list (string * V)) :
  Dict.mem k d = false -> Dict.del k d = d.
Proof.
  unfold Dict.mem, Dict.del. induction d as [|[k' v'] d IH]; simpl; [reflexivity|].
  destruct (String.eqb k' k) eqn:E; simpl; [discriminate|].
  intros H. rewrite (IH H). reflexivity.
Qed.

Lemma dict_del_app {V} k (d d' : list (string * V)) :
  Dict.del k (d ++ d') = Dict.del k d ++ Dict.del k d'.
Proof. unfold Dict.del. apply List.filter_app. Qed.

Lemma in_dict_set_other {V} k (v : V) d kv :
  fst kv <> k -> In kv (Dict.set k v d) <-> In kv d.
Proof.
  intros Hk. induction d as [|[k' v'] d IH]; simpl.
  - split; [|tauto]. intros [<-|[]]. contradiction Hk. reflexivity.
  - destruct (String.eqb k' k) eqn:E; simpl.
    + apply String.eqb_eq in E. subst k'.
      split; intros [<-|H]; auto; contradiction Hk; reflexivity.
    + rewrite IH. reflexivity.
Qed.

(** X6.  [update_order_status] keeps the order book-keeping apart from
    the position.  It never changes the filled quantity or the fill
    record; an id that is not tracked changes nothing; a MATCHED or
    CANCELED status drops the order and no other; any other status rewrites
    the order in place with the new status, the time of the call and the
    reported fill added to its filled size. *)
Theorem update_order_status_spec (now : Q) (id st : string) (fs : Q) (pt : t) :
  let pt' := update_order_status now id st fs pt in
  (filled_quantity pt' = filled_quantity pt /\
   total_fill_value pt' = total_fill_value pt /\
   fill_history pt' = fill_history pt /\
   target_quantity pt' = target_quantity pt) /\
  (Dict.mem id (pending_orders pt) = false -> pt' = pt) /\
  (is_final_status st = true ->
     Dict.mem id (pending_orders pt') = false /\
     forall kv, fst kv <> id -> In kv (pending_orders pt') <-> In kv (pending_orders pt)) /\
  (is_final_status st = false ->
     forall o, Dict.get id (pending_orders pt) = Some o ->
       Dict.get id (pending_orders pt') = Some (restated now st fs o) /\
       Dict.keys (pending_orders pt') = Dict.keys (pending_orders pt) /\
       forall kv, fst kv <> id -> In kv (pending_orders pt') <-> In kv (pending_orders pt)).
Proof.
  unfold update_order_status.
  destruct (Dict.get id (pending_orders pt)) as [o|] eqn:Hget; cbv zeta.
  - assert (Hmem : Dict.mem id (pending_orders pt) = true) by (apply dict_get_mem; eauto).
    destruct (is_final_status st) eqn:Hfinal.
    + unfold remove_pending_order. cbn [pending_orders set_pending_orders].
      rewrite (dict_mem_set id _ _ id Hmem). cbn.
      split; [repeat split|]. split; [congruence|]. split; [|discriminate].
      intros _. split; [apply dict_mem_del|].
      intros kv Hkv. rewrite in_dict_del, in_dict_set_other by assumption. tauto.
    + cbn. split; [repeat split|]. split; [congruence|]. split; [discriminate|].
      intros _ o' Ho'. inversion Ho'; subst o'.
      split; [apply dict_get_set|]. split; [apply dict_keys_set, Hmem|].
      intros kv Hkv. apply in_dict_set_other, Hkv.
  - split; [repeat split|]. split; [reflexivity|].
    assert (Hmem : Dict.mem id (pending_orders pt) = false) by (apply dict_get_none, Hget).
    split; [|intros _ o Ho; discriminate].
    intros _. split; [assumption|]. tauto.
Qed.

(** X7.  Tracking an order and forgetting it again.  For an id that is
    not tracked, [add_pending_order] adds one order and its size to the
    pending quantity, and [remove_pending_order] then restores the tracker
    exactly; for an id that is tracked already the new order takes the
    place of the old one and the number of pending orders stays. *)
Theorem add_then_remove_pending (now : Q) (id : string) (p sz : Q) (pt : t) :
  let pt' := add_pending_order now id p sz pt in
  (Dict.mem id (pending_orders pt) = false ->
     remove_pending_order id pt' = pt /\
     get_pending_quantity pt' == get_pending_quantity pt + sz /\
     length (get_pending_orders pt') = S (length (get_pending_orders pt))) /\
  (Dict.mem id (pending_orders pt) = true ->
     Dict.keys (pending_orders pt') = Dict.keys (pending_orders pt)) /\
  exists o, Dict.get id (pending_orders pt') = Some o /\
            price o = p /\ size o = sz /\ status o = "LIVE"%string /\ filled_size o = 0.
Proof.
  unfold add_pending_order. cbv zeta.
  split; [|split].
  - intros Hfresh. unfold remove_pending_order, get_pending_quantity, get_pending_orders, Dict.values.
    cbn [pending_orders set_pending_orders].
    rewrite (dict_set_fresh _ _ _ Hfresh).
    split; [|split].
    + assert (Hmem : Dict.mem id (pending_orders pt ++ [(id, {| order_id := id; price := p; size := sz;
                status := "LIVE"; created_at := now; updated_at := now; filled_size := 0 |})]) = true).
      { unfold Dict.mem. rewrite existsb_app. simpl. rewrite String.eqb_refl.
        apply orb_true_r. }
      rewrite Hmem. rewrite dict_del_app, (dict_del_fresh _ _ Hfresh).
      unfold Dict.del. simpl. rewrite String.eqb_refl. simpl. rewrite app_nil_r.
      destruct pt; reflexivity.
    + rewrite fold_left_app. simpl. reflexivity.
    + rewrite map_app, length_app. simpl. lia.
  - intros Hmem. cbn [pending_orders set_pending_orders]. apply dict_keys_set, Hmem.
  - eexists. cbn [pending_orders set_pending_orders]. split; [apply dict_get_set|].
    repeat split.
Qed.

Lemma add_then_remove_pending_witness :
  remove_pending_order "order-9"
    (add_pending_order 3 "order-9" (1 # 2) 10
       (TopOfBookStrategy.position_tracker Sample.quoting))
  = TopOfBookStrategy.position_tracker Sample.quoting.
Proof.
  apply (add_then_remove_pending 3 "order-9" (1 # 2) 10
           (TopOfBookStrategy.position_tracker Sample.quoting)).
  reflexivity.
Defined.

End PositionTrackerOrders.

(** ** StopConditionManager: the time that remains *)

Section StopConditionManagerClock.
Import StopConditionManager.

Lemma py_int_nonneg x : 0 <= x -> (0 <= Py.int x)%Z /\ inject_Z (Py.int x) <= x /\ x < inject_Z (Py.int x) + 1.
Proof.
  intros H. unfold Py.int.
  destruct (Qle_bool 0 x) eqn:E; qcases; [|lra].
  split; [|split].
  - change 0%Z with (Qfloor 0). apply Qfloor_resp_le, H.
  - apply Qfloor_le.
  - pose proof (Qlt_floor x) as Hlt. rewrite inject_Z_plus in Hlt. exact Hlt.
Qed.

Lemma py_int_neg x : x < 0 -> (Py.int x <= 0)%Z.
Proof.
  intros H. unfold Py.int.
  destruct (Qle_bool 0 x) eqn:E; qcases; [lra|].
  change 0%Z with (Qceiling 0). apply Qceiling_resp_le. lra.
Qed.

(** X8.  The remaining time is a whole number of seconds that is never
    negative and never overstates the budget left; it is 0 once the timeout
    has struck, and a positive value means that neither [check_timeout] nor
    an unrequested [should_stop] fires at that instant. *)
Theorem remaining_time_spec (now : Q) (self : t) :
  let remaining := inject_Z (timeout_seconds self) - (now - start_time self) in
  (0 <= get_remaining_time now self)%Z /\
  (0 <= remaining ->
     inject_Z (get_remaining_time now self) <= remaining
     /\ remaining < inject_Z (get_remaining_time now self) + 1) /\
  (fst (check_timeout now self) = true -> get_remaining_time now self = 0%Z) /\
  ((0 < get_remaining_time now self)%Z ->
     check_timeout now self = (false, []) /\
     (stop_requested self = false -> should_stop now self = (false, []))).
Proof.
  intros remaining. unfold get_remaining_time. fold remaining.
  assert (Hlate : fst (check_timeout now self) = true -> remaining < 0).
  { unfold check_timeout.
    destruct (Py.Qltb (inject_Z (timeout_seconds self)) (now - start_time self)) eqn:E;
      [|discriminate].
    intros _. qcases. unfold remaining. lra. }
  split; [apply Z.le_max_l|]. split; [|split].
  - intros H. destruct (py_int_nonneg remaining H) as (H0 & Hle & Hlt).
    rewrite Z.max_r by assumption. split; assumption.
  - intros H. apply Hlate in H. apply py_int_neg in H. apply Z.max_l. assumption.
  - intros Hpos.
    assert (Hcheck : check_timeout now self = (false, [])).
    { destruct (check_timeout now self) as [b tasks] eqn:E.
      destruct b.
      - exfalso. assert (H : remaining < 0) by (apply Hlate; reflexivity).
        apply py_int_neg in H. lia.
      - unfold check_timeout in E.
        destruct (Py.Qltb _ _); inversion E; reflexivity. }
    split; [assumption|].
    intros Hreq. unfold should_stop. rewrite Hreq, Hcheck. reflexivity.
Qed.

End StopConditionManagerClock.

(** ** OrderExecutor: what [place_order] sends and reports *)

Section OrderExecutorPlacing.
Import OrderExecutor.

Lemma validate_order_params_valid p sz :
  _validate_order_params p sz = true <-> 0 < p /\ p <= 1 /\ MIN_ORDER_SIZE <= sz.
Proof.
  unfold _validate_order_params, MIN_ORDER_SIZE.
  destruct (Qle_bool p 0) eqn:E1; destruct (Qle_bool sz 0) eqn:E2; simpl;
    try (destruct (Py.Qltb 1 p) eqn:E3); try (destruct (Py.Qltb sz 5) eqn:E4);
    qcases; split; try discriminate; try reflexivity; try lra;
    repeat split; lra.
Qed.

(** X9.  [place_order] sends at most one order, only right after the
    rate limiter granted a request, and only for a price in (0, 1] and a
    size of at least the minimum order size; parameters outside that range
    end the call before anything happens: no token is taken, nothing is
    sent, the executor is unchanged and the answer is [None]. *)
Theorem place_order_sends_valid_orders (token : string) (p sz : Q) (sd : string) (self : t) :
  post (place_order token p sz sd) self (fun r self' evs =>
    (evs = [] \/ evs = [EvAcquire false] \/
     exists reply,
       evs = [EvAcquire true;
              EvPostOrder {| OrderArgs.price := p; OrderArgs.size := sz;
                             OrderArgs.side := sd; OrderArgs.token_id := token |} reply]) /\
    Forall (fun ev => match ev with
                      | EvPostOrder args _ => valid_order args
                      | _ => True
                      end) evs /\
    (_validate_order_params p sz = false -> evs = [] /\ self' = self /\ r = Ok None)).
Proof.
  unfold place_order.
  destruct (_validate_order_params p sz) eqn:Hvalid; cbn [negb].
  2: { apply post_ret. repeat split; auto. }
  apply validate_order_params_valid in Hvalid.
  unfold post, bind, try_except, acquire, client_post_order, ret, raise.
  destruct (RateLimiter.acquire _ _) as [granted rl]. destruct granted; cbn [negb].
  - destruct (post_order_reply _ _ _) as [elapsed [resp|e]]; cbn.
    + destruct resp as [|[|] o|str|]; cbn; try (destruct (truthy o));
        try (destruct (String.eqb str "")); cbn;
        (split; [right; right; eexists; reflexivity|]);
        (split; [|discriminate]);
        (apply List.Forall_cons; [exact I|]);
        (apply List.Forall_cons; [exact Hvalid|apply List.Forall_nil]).
    + destruct (is_balance_error e); cbn;
        (split; [right; right; eexists; reflexivity|]);
        (split; [|discriminate]);
        (apply List.Forall_cons; [exact I|]);
        (apply List.Forall_cons; [exact Hvalid|apply List.Forall_nil]).
  - cbn. split; [right; left; reflexivity|]. split; [|discriminate].
    apply List.Forall_cons; [exact I|apply List.Forall_nil].
Qed.

(** The three ways [place_order] can go. *)
Lemma place_order_cases token p sz sd self :
  post (place_order token p sz sd) self (fun r _ evs =>
    (r = Ok None /\ (evs = [] \/ evs = [EvAcquire false])) \/
    exists reply,
      evs = [EvAcquire true;
             EvPostOrder {| OrderArgs.price := p; OrderArgs.size := sz;
                            OrderArgs.side := sd; OrderArgs.token_id := token |} reply] /\
      r = verdict reply).
Proof.
  unfold place_order.
  destruct (negb _); [apply post_ret; auto|].
  unfold post, bind, try_except, acquire, client_post_order, ret, raise.
  destruct (RateLimiter.acquire _ _) as [granted rl]. destruct granted; cbn [negb].
  2: { cbn. auto. }
  destruct (post_order_reply _ _ _) as [elapsed [resp|e]]; cbn.
  - destruct resp as [|[|] [id|]|str|]; cbn; try (right; eexists; split; reflexivity).
    + destruct (String.eqb id "") eqn:Es; cbn; right; eexists; (split; [reflexivity|]);
        cbn; rewrite Es; reflexivity.
    + destruct (String.eqb str "") eqn:Es; cbn; right; eexists; (split; [reflexivity|]);
        cbn; rewrite Es; reflexivity.
  - destruct (is_balance_error e) eqn:Eb; cbn; right; eexists; (split; [reflexivity|]);
      cbn; rewrite Eb; reflexivity.
Qed.

Lemma truthy_some s : truthy (Some s) = true <-> s <> ""%string.
Proof.
  unfold truthy. rewrite negb_true_iff. split.
  - intros H ->. discriminate.
  - intros H. apply String.eqb_neq, H.
Qed.

Lemma place_order_outcome (token : string) (p sz : Q) (sd : string) (self : t) :
  post (place_order token p sz sd) self (fun r _ evs =>
    match r with
    | Ok (Some id) => Exists (accepted_as id) evs
    | Ok None =>
        (forall id, ~ Exists (accepted_as id) evs) /\
        (forall m, ~ Exists (refused_for_funds m) evs)
    | Err e =>
        exists m, Exists (refused_for_funds m) evs /\
                  e = String.append "Fatal error - insufficient balance/allowance: " m
    end).
Proof.
  assert (Hno : forall evs : list event,
             Forall (fun ev => match ev with EvPostOrder _ _ => False | _ => True end) evs ->
             (forall id, ~ Exists (accepted_as id) evs) /\
             (forall m, ~ Exists (refused_for_funds m) evs)).
  { intros evs Hall. rewrite List.Forall_forall in Hall.
    split; intros x Hex; apply List.Exists_exists in Hex; destruct Hex as (ev & Hin & Hev);
      specialize (Hall ev Hin); destruct ev; try contradiction;
      unfold accepted_as, refused_for_funds in Hev; tauto. }
  unfold place_order.
  destruct (negb _); [apply post_ret, Hno; constructor|].
  unfold post, bind, try_except, acquire, client_post_order, ret, raise.
  destruct (RateLimiter.acquire _ _) as [granted rl]. destruct granted; cbn [negb].
  2: { cbn. apply Hno. repeat constructor. }
  assert (Hone : forall args reply,
             (forall id, ~ accepted_as id (EvPostOrder args reply)) ->
             (forall m, ~ refused_for_funds m (EvPostOrder args reply)) ->
             (forall id, ~ Exists (accepted_as id) [EvAcquire true; EvPostOrder args reply]) /\
             (forall m, ~ Exists (refused_for_funds m) [EvAcquire true; EvPostOrder args reply])).
  { intros args reply Ha Hr.
    split; intros x Hex; inversion Hex as [? ? H|? ? H]; subst.
    - destruct H as [_ []].
    - inversion H as [? ? H'|? ? H']; subst; [exact (Ha _ H')|inversion H'].
    - destruct H.
    - inversion H as [? ? H'|? ? H']; subst; [exact (Hr _ H')|inversion H']. }
  destruct (post_order_reply _ _ _) as [elapsed [resp|e]]; cbn.
  - destruct resp as [|[|] [id|]|str|]; cbn.
    + apply Hone; intros x H; [destruct H as [_ []]|destruct H].
    + destruct (String.eqb id "") eqn:Es; cbn.
      * apply Hone; intros x H; [|destruct H].
        destruct H as [Hx <-]. apply String.eqb_eq in Es. contradiction.
      * apply Exists_cons_tl, Exists_cons_hd. split; [apply String.eqb_neq, Es|reflexivity].
    + apply Hone; intros x H; [destruct H as [_ []]|destruct H].
    + apply Hone; intros x H; [destruct H as [_ []]|destruct H].
    + apply Hone; intros x H; [destruct H as [_ []]|destruct H].
    + destruct (String.eqb str "") eqn:Es; cbn.
      * apply Hone; intros x H; [|destruct H].
        destruct H as [Hx <-]. apply String.eqb_eq in Es. contradiction.
      * apply Exists_cons_tl, Exists_cons_hd. split; [apply String.eqb_neq, Es|reflexivity].
    + apply Hone; intros x H; [destruct H as [_ []]|destruct H].
  - destruct (is_balance_error e) eqn:Eb; cbn.
    + exists e. split; [|reflexivity].
      apply Exists_cons_tl, Exists_cons_hd. split; [reflexivity|exact Eb].
    + apply Hone; intros x H; [destruct H as [_ []]|].
      destruct H as [<- H]. congruence.
Qed.


(** X10.  What the answer of [place_order] says about the venue.  An id
    is returned only if the venue's response carried that id, and it is
    never the empty string; the call raises only if the venue's error
    spoke of balance or allowance, and the exception quotes that error;
    and [None] is returned only if the venue did neither. *)
Theorem place_order_reports (token : string) (p sz : Q) (sd : string) (self : t) :
  post (place_order token p sz sd) self (fun r _ evs =>
    match r with
    | Ok (Some id) => Exists (accepted_as id) evs
    | Ok None =>
        (forall id, ~ Exists (accepted_as id) evs) /\
        (forall m, ~ Exists (refused_for_funds m) evs)
    | Err e =>
        exists m, Exists (refused_for_funds m) evs /\
                  e = String.append "Fatal error - insufficient balance/allowance: " m
    end).
Proof. exact (place_order_outcome token p sz sd self). Qed.

End OrderExecutorPlacing.

(** ** OrderExecutor: cancelling every order of a token *)

Section OrderExecutorCancelAll.
Import OrderExecutor.

Variable get_orders_reply : nat -> Q * reply (option (list open_order)).

(** With its default of five retries [cancel_order] confirms or raises. *)
Lemma cancel_order_five id ex :
  post (cancel_order id 5) ex (fun r _ evs =>
    ((r = Ok true /\ Exists (confirms id) evs) \/ exists e, r = Err e) /\
    Forall (cancel_event id) evs).
Proof.
  eapply post_mono; [apply (cancel_loop_spec id 5 5 0%Z); reflexivity|].
  intros r s' evs (_ & _ & Hiff & Hfalse & Hall). split; [|assumption].
  destruct r as [[|]|e].
  - left. split; [reflexivity|]. apply Hiff. reflexivity.
  - destruct (Hfalse eq_refl) as [H _]. discriminate.
  - right. eauto.
Qed.

Lemma cancels_among_weaken ids ids' ev :
  (forall id, In id ids -> In id ids') -> cancels_among ids ev -> cancels_among ids' ev.
Proof.
  intros Hsub. destruct ev; simpl; auto.
  intros (id & -> & Hin). eauto.
Qed.

Lemma cancel_event_among id ids ev :
  In id ids -> cancel_event id ev -> cancels_among ids ev.
Proof.
  intros Hin. destruct ev; simpl; auto.
  intros ->. eauto.
Qed.

Lemma cancel_listed_spec token orders : forall s,
  post (cancel_listed token orders) s (fun r s' evs =>
    exists done,
      snd s' = snd s ++ done /\
      done `prefix_of` token_orders token orders /\
      Forall (fun id => Exists (confirms id) evs) done /\
      Forall (cancels_among (take (S (length done)) (token_orders token orders))) evs).
Proof.
  induction orders as [|order rest IH]; intros s.
  - apply post_ret. exists []. rewrite app_nil_r.
    split; [reflexivity|]. split; [reflexivity|]. split; apply List.Forall_nil.
  - cbn [cancel_listed token_orders].
    assert (Hskip :
      forall Q' : result unit -> t * list string -> list event -> Prop,
        (forall r s' evs,
           (exists done,
              snd s' = snd s ++ done /\
              done `prefix_of` token_orders token rest /\
              Forall (fun id => Exists (confirms id) evs) done /\
              Forall (cancels_among (take (S (length done)) (token_orders token rest))) evs) ->
           Q' r s' evs) ->
        post (bind (ret tt) (fun _ => cancel_listed token rest)) s Q').
    { intros Q' HQ. apply post_bind, post_ret. cbn [app].
      eapply post_mono; [apply IH|]. exact HQ. }
    destruct (oo_asset_id order) as [asset_id|]; [|apply Hskip; auto].
    destruct (oo_id order) as [order_id|]; [|apply Hskip; auto].
    destruct (String.eqb asset_id token && truthy (Some order_id)); [|apply Hskip; auto].
    clear Hskip.
    apply post_bind, post_bind. unfold on_self. apply post_zoom.
    eapply post_mono; [apply cancel_order_five|].
    intros r ex' evs1 [[[-> Hconf]|[e ->]] Hevs].
    + apply post_modify. cbn [app fst snd]. rewrite app_nil_r.
      eapply post_mono; [apply IH|].
      intros r s' evs2 (done & Hs' & Hpre & Hdone & Hall).
      cbn [snd] in Hs'.
      exists (order_id :: done). split; [|split; [|split]].
      * rewrite Hs', <- app_assoc. reflexivity.
      * apply prefix_cons, Hpre.
      * apply List.Forall_cons.
        -- apply Exists_app. left. exact Hconf.
        -- eapply List.Forall_impl; [|exact Hdone].
           intros id Hid. apply Exists_app. right. exact Hid.
      * apply List.Forall_app. split.
        -- eapply List.Forall_impl; [|exact Hevs].
           intros ev. apply cancel_event_among. left. reflexivity.
        -- eapply List.Forall_impl; [|exact Hall].
           intros ev. apply cancels_among_weaken.
           intros id Hin. cbn [length take]. right. exact Hin.
    + exists []. rewrite app_nil_r. split; [reflexivity|]. split; [apply prefix_nil|].
      split; [apply List.Forall_nil|].
      eapply List.Forall_impl; [|exact Hevs].
      intros ev. apply cancel_event_among. left. reflexivity.
Qed.

Lemma cancel_all_orders_outcome (token_id : string) (self : t) :
  let ids := token_orders token_id (listed (get_orders_reply (served (client self)))) in
  post (cancel_all_orders get_orders_reply token_id) self (fun r _ evs =>
    exists cancelled,
      r = Ok cancelled /\
      cancelled `prefix_of` ids /\
      Forall (fun id => Exists (confirms id) evs) cancelled /\
      Forall (cancels_among (take (S (length cancelled)) ids)) evs).
Proof.
  intros ids.
  assert (H : post
    (try_except
       (bind (on_self (client_get_orders get_orders_reply))
          (fun resp => match resp with
                       | Some orders => cancel_listed token_id orders
                       | None => ret tt
                       end))
       (fun _ => ret tt))
    (self, [])
    (fun _ s' evs =>
       snd s' `prefix_of` ids /\
       Forall (fun id => Exists (confirms id) evs) (snd s') /\
       Forall (cancels_among (take (S (length (snd s'))) ids)) evs)).
  { assert (Hnone : [] `prefix_of` ids /\
                    Forall (fun id => Exists (confirms id) []) ([] : list string) /\
                    Forall (cancels_among (take 1 ids)) []).
    { split; [apply prefix_nil|]. split; apply List.Forall_nil. }
    apply post_try, post_bind. unfold on_self. apply post_zoom.
    unfold post, client_get_orders. cbn [fst snd]. subst ids. unfold listed.
    destruct (get_orders_reply (served (client self))) as [elapsed [[orders|]|e]];
      cbn [fst snd app].
    - change (post (cancel_listed token_id orders) (served_one elapsed self, [])
                (fun r s2 ev2 =>
                   match r with
                   | Ok _ =>
                       snd s2 `prefix_of` token_orders token_id orders /\
                       Forall (fun id => Exists (confirms id) ev2) (snd s2) /\
                       Forall (cancels_among
                                 (take (S (length (snd s2))) (token_orders token_id orders)))
                              ev2
                   | Err e =>
                       post (ret tt) s2
                         (fun _ s3 ev3 =>
                            snd s3 `prefix_of` token_orders token_id orders /\
                            Forall (fun id => Exists (confirms id) (ev2 ++ ev3)) (snd s3) /\
                            Forall (cancels_among
                                      (take (S (length (snd s3)))
                                            (token_orders token_id orders)))
                                   (ev2 ++ ev3))
                   end)).
      eapply post_mono; [apply cancel_listed_spec|].
      intros r s' evs (done & Hs' & Hpre & Hdone & Hall). cbn [snd app] in Hs'. subst done.
      destruct r; [auto|]. apply post_ret. rewrite app_nil_r. auto.
    - apply post_ret. exact Hnone.
    - apply post_ret. exact Hnone. }
  unfold post in *. unfold cancel_all_orders.
  destruct (try_except _ _ (self, [])) as [[r [self' cancelled]] evs].
  exists cancelled. cbn [snd] in H. tauto.
Qed.


(** X11.  [cancel_all_orders] never raises.  It returns ids of the listed
    orders of the token, in list order and without a gap from the first
    one on; the venue confirmed the cancellation of each id returned; and
    it asks the venue to cancel nothing but the orders returned and, when
    the cancellation of an order fails, that one order: the orders listed
    after it are left alone.  If the venue lists no order of the token, or
    its answer cannot be read, nothing is returned and no cancellation is
    asked for. *)
Theorem cancel_all_orders_spec (token_id : string) (self : t) :
  let ids := token_orders token_id (listed (get_orders_reply (served (client self)))) in
  post (cancel_all_orders get_orders_reply token_id) self (fun r _ evs =>
    exists cancelled,
      r = Ok cancelled /\
      cancelled `prefix_of` ids /\
      Forall (fun id => Exists (confirms id) evs) cancelled /\
      Forall (cancels_among (take (S (length cancelled)) ids)) evs /\
      (ids = [] ->
       cancelled = [] /\
       Forall (fun ev => match ev with EvCancelOrders _ _ => False | _ => True end) evs)).
Proof.
  intros ids.
  eapply post_mono; [apply cancel_all_orders_outcome|].
  intros r s' evs (cancelled & Hr & Hpre & Hconf & Hall). fold ids in Hpre, Hall.
  exists cancelled. repeat split; try assumption.
  - rewrite H in Hpre. apply prefix_nil_inv in Hpre. exact Hpre.
  - rewrite H in Hall. eapply List.Forall_impl; [|exact Hall].
    intros ev Hev. destruct ev; auto.
    destruct Hev as (id & _ & Hin). destruct (length cancelled); inversion Hin.
Qed.

End OrderExecutorCancelAll.

(** ** TopOfBookStrategy: what its handlers keep *)

Section StrategyFrame.
Import TopOfBookStrategy.

(** A relation between the strategy before and after that every write of
    the order-adjusting code respects is kept by that code as a whole. *)
Variable R : t -> t -> Prop.
Hypothesis R_refl : forall s, R s s.
Hypothesis R_trans : forall a b c, R a b -> R b c -> R a c.
Hypothesis R_executor : forall s ex, R s (set_order_executor ex s).
Hypothesis R_pending : forall s d,
  R s (set_position_tracker (PositionTracker.set_pending_orders d (position_tracker s)) s).
Hypothesis R_failures : forall s n, R s (set_consecutive_order_failures n s).
Hypothesis R_alarm : forall s m, R s (set_critical_error_occurred m s).

Lemma frame_remove s id :
  R s (set_position_tracker (PositionTracker.remove_pending_order id (position_tracker s)) s).
Proof using R_refl R_pending.
  unfold PositionTracker.remove_pending_order.
  destruct (Dict.mem _ _); [apply R_pending|].
  destruct s; apply R_refl.
Qed.

Lemma place_new_order_frame p sz self :
  post (_place_new_order p sz) self (fun _ self' _ => R self self').
Proof using R_refl R_trans R_executor R_pending R_failures R_alarm.
  unfold _place_new_order. apply post_try. apply post_bind, post_get.
  destruct (_should_place_order p self); cbn [negb]; [|apply post_ret, R_refl].
  apply post_bind. unfold on_executor. apply post_zoom.
  unfold post. destruct (OrderExecutor.place_order _ _ _ _ _) as [[[oid|e] ex'] evs1].
  - pose proof (R_executor self ex') as H1.
    destruct (if truthy oid then oid else None) as [id|].
    + unfold bind, get, on_tracker, modify. cbn.
      eapply R_trans; [exact H1|]. eapply R_trans; [apply R_pending|]. apply R_failures.
    + unfold bind, get, modify, bump_failures, ret. cbn.
      destruct (_ <=? _)%Z; cbn.
      * eapply R_trans; [exact H1|]. eapply R_trans; [apply R_failures|]. apply R_alarm.
      * eapply R_trans; [exact H1|]. apply R_failures.
  - pose proof (R_executor self ex') as H1.
    unfold bind, get, modify, bump_failures, ret, raise. cbn.
    destruct (is_funding_error e); cbn.
    + eapply R_trans; [exact H1|]. eapply R_trans; [apply R_failures|]. apply R_alarm.
    + destruct (_ <=? _)%Z; cbn.
      * eapply R_trans; [exact H1|]. eapply R_trans; [apply R_failures|]. apply R_alarm.
      * eapply R_trans; [exact H1|]. apply R_failures.
Qed.

Lemma cancel_off_target_frame target orders : forall s,
  post (cancel_off_target target orders) s (fun _ s' _ => R s s').
Proof using R_refl R_trans R_executor R_pending.
  induction orders as [|order rest IH]; intros s.
  - apply post_ret, R_refl.
  - cbn [cancel_off_target]. apply post_bind, post_get. apply post_bind.
    destruct (off_target target s order).
    + apply post_bind. unfold on_executor. apply post_zoom.
      unfold post. destruct (OrderExecutor.cancel_order _ _ _) as [[[b|e] ex'] evs1].
      * unfold on_tracker. apply post_modify.
        fold (post (cancel_off_target target rest)
                (set_position_tracker
                   (PositionTracker.remove_pending_order (order_id order)
                      (position_tracker (set_order_executor ex' s)))
                   (set_order_executor ex' s))
                (fun _ s' _ => R s s')).
        eapply post_mono; [apply IH|].
        intros r s' evs H. eapply R_trans; [apply R_executor|].
        eapply R_trans; [apply frame_remove|]. exact H.
      * apply R_executor.
    + apply post_ret. eapply post_mono; [apply IH|]. auto.
Qed.

Lemma adjust_orders_frame market_data self :
  post (_adjust_orders market_data) self (fun _ self' _ => R self self').
Proof using R_refl R_trans R_executor R_pending R_failures R_alarm.
  unfold _adjust_orders. apply post_bind, post_get. cbv zeta.
  apply post_bind.
  eapply post_mono; [apply cancel_off_target_frame|].
  intros r s1 evs1 H1. destruct r as [[]|e]; [|exact H1].
  apply post_bind, post_get.
  destruct (_ && _); [|apply post_ret; exact H1].
  destruct (Py.Qltb 0 _); [|apply post_ret; exact H1].
  eapply post_mono; [apply place_new_order_frame|].
  intros r2 s2 evs2 H. eapply R_trans; eassumption.
Qed.

Hypothesis R_market : forall s md, R s (set_current_market_data md s).

Lemma process_market_update_frame market_data self :
  post (process_market_update market_data) self (fun _ self' _ => R self self').
Proof using R_refl R_trans R_executor R_pending R_failures R_alarm R_market.
  unfold process_market_update.
  apply post_bind, post_modify, post_bind, post_get.
  destruct (_should_adjust_orders _ _); [|apply post_ret, R_market].
  eapply post_mono; [apply adjust_orders_frame|].
  intros r s' evs H. eapply R_trans; [apply R_market|exact H].
Qed.

Hypothesis R_fill : forall s now fs fp,
  R s (set_position_tracker
         (PositionTracker.update_filled_quantity now fs fp (position_tracker s)) s).

Lemma process_order_update_frame update_type data self :
  post (process_order_update update_type data) self (fun r self' _ => r = Ok tt /\ R self self').
Proof using R_refl R_trans R_executor R_pending R_failures R_alarm R_fill.
  unfold process_order_update.
  destruct (String.eqb update_type "placement"); [apply post_ret; auto|].
  destruct (String.eqb update_type "cancellation").
  { unfold _handle_order_cancellation.
    destruct (od_id data) as [id|]; [|apply post_ret; auto].
    destruct (truthy _); [|apply post_ret; auto].
    unfold on_tracker. apply post_modify. split; [reflexivity|apply frame_remove]. }
  destruct (String.eqb update_type "trade"); [|apply post_ret; auto].
  unfold _handle_trade_execution. apply post_try. apply post_bind, post_get.
  destruct (our_order_id self data) as [our|]; [|apply post_ret; auto].
  destruct (od_size data) as [reported|]; [|apply post_raise, post_ret; auto].
  destruct (od_price data) as [fill_price|]; [|apply post_raise, post_ret; auto].
  destruct (Py.Qltb 0 reported); [|apply post_ret; auto].
  unfold on_tracker.
  apply post_bind, post_modify, post_bind, post_modify, post_bind, post_get.
  match goal with |- post _ ?s _ => set (s2 := s) end.
  assert (H2 : R self s2).
  { eapply R_trans; [apply R_fill|]. apply frame_remove. }
  destruct (current_market_data s2) as [market_data|]; [|apply post_ret; auto].
  destruct (negb _); [|apply post_ret; auto].
  eapply post_mono; [apply adjust_orders_frame|].
  intros r s' evs H.
  assert (R self s') by (eapply R_trans; eassumption).
  destruct r as [[]|e]; [auto|]. apply post_ret. auto.
Qed.

End StrategyFrame.

Section TopOfBookStrategyHandlers.
Import TopOfBookStrategy.

(** X12.  The critical-error flag is never lowered.  Once
    [has_critical_error] answers true, it answers true after every market
    update and every order update, whatever they do and whether they
    return or raise; and no order update ever raises. *)
Theorem critical_error_is_sticky :
  (forall market_data self,
     has_critical_error self = true ->
     post (process_market_update market_data) self
       (fun _ self' _ => has_critical_error self' = true)) /\
  (forall update_type data self,
     post (process_order_update update_type data) self
       (fun r self' _ =>
          r = Ok tt /\ (has_critical_error self = true -> has_critical_error self' = true))).
Proof.
  set (R := fun s s' : t => has_critical_error s = true -> has_critical_error s' = true).
  assert (Hrefl : forall s, R s s) by (intros s H; exact H).
  assert (Htrans : forall a b c, R a b -> R b c -> R a c) by (unfold R; auto).
  split.
  - intros market_data self Hself.
    eapply post_mono; [apply (process_market_update_frame R)|]; auto.
    all: intros; intro; auto.
  - intros update_type data self.
    eapply post_mono; [apply (process_order_update_frame R)|]; auto.
    all: intros; intro; auto.
Qed.

Lemma dict_mem_set_same {V} k (v : V) d : Dict.mem k (Dict.set k v d) = true.
Proof. apply dict_get_mem. exists v. apply dict_get_set. Qed.

(** The exception [place_order] raises always reads as a funding error
    to [_place_new_order]. *)
Lemma fatal_error_is_funding m :
  is_funding_error
    (String.append "Fatal error - insufficient balance/allowance: " m) = true.
Proof.
  unfold is_funding_error. apply orb_true_iff. left. apply orb_true_iff. right.
  reflexivity.
Qed.

(** No event of a short, explicit list answers to the given description. *)
Ltac no_such_event :=
  let Hex := fresh "Hex" in
  let ev := fresh "ev" in
  let Hin := fresh "Hin" in
  let Hev := fresh "Hev" in
  intros ? Hex; apply List.Exists_exists in Hex; destruct Hex as (ev & Hin & Hev);
  cbn in Hin; repeat (destruct Hin as [Hin|Hin]; [subst ev|]); try contradiction;
  cbv [accepted_as refused_for_funds] in Hev;
  first [ tauto | destruct Hev; congruence ].

(** X13.  How [_place_new_order] counts failures.  If the guard
    [_should_place_order] refuses the price, nothing happens.  Otherwise
    either the venue accepts the order, which is then tracked under the id
    the venue gave and resets the failure counter to 0; or no order is
    tracked and the counter goes up by one.  In the second case the call
    raises exactly when the venue refused for lack of funds, with the flag
    set and the message of [place_order]; and when it returns, the flag is
    set exactly if it was set already or the counter has reached
    [max_consecutive_failures]. *)
Theorem place_new_order_escalates (p sz : Q) (self : t) :
  post (_place_new_order p sz) self (fun r self' evs =>
    (_should_place_order p self = false -> r = Ok tt /\ self' = self /\ evs = []) /\
    (_should_place_order p self = true ->
       (exists id,
          Exists (accepted_as id) evs /\ r = Ok tt /\
          Dict.mem id (pending self') = true /\
          consecutive_order_failures self' = 0%Z /\
          critical_error_occurred self' = critical_error_occurred self) \/
       ((forall id, ~ Exists (accepted_as id) evs) /\
        pending self' = pending self /\
        consecutive_order_failures self' = (consecutive_order_failures self + 1)%Z /\
        (r = Ok tt ->
           (forall m, ~ Exists (refused_for_funds m) evs) /\
           (critical_error_occurred self' = true <->
            critical_error_occurred self = true \/
            (max_consecutive_failures self <= consecutive_order_failures self + 1)%Z)) /\
        (forall e, r = Err e ->
           critical_error_occurred self' = true /\
           exists m, Exists (refused_for_funds m) evs /\
                     e = String.append "Fatal error - insufficient balance/allowance: " m)))).
Proof.
  pose proof (place_order_cases (PositionTracker.token_id (position_tracker self))
                p sz (side self) (order_executor self)) as Hcases.
  unfold post in Hcases |- *.
  cbv [_place_new_order try_except bind get on_executor zoom].
  destruct (_should_place_order p self) eqn:Hplace; cbn [negb].
  2: { cbv [ret]. split; [auto|discriminate]. }
  destruct (OrderExecutor.place_order _ _ _ _ _) as [[r ex'] evs1].
  destruct Hcases as [[-> [->| ->]]|(reply & -> & ->)].
  1, 2: cbv [bump_failures bind get modify ret truthy]; cbn;
    destruct (max_consecutive_failures self <=? consecutive_order_failures self + 1)%Z eqn:E;
    cbn; (split; [discriminate|]); intros _; right;
    (split; [no_such_event|]); (split; [reflexivity|]); (split; [reflexivity|]);
    (split; [|discriminate]); intros _; (split; [no_such_event|]);
    [ apply Z.leb_le in E; tauto
    | apply Z.leb_gt in E; split; [tauto|]; intros [H|H]; [exact H|lia] ].
  destruct reply as [[|[|] [id|]|str|]|m]; cbn [verdict];
    try (destruct (String.eqb id "") eqn:Es; [apply String.eqb_eq in Es; subst id|]);
    try (destruct (String.eqb str "") eqn:Es; [apply String.eqb_eq in Es; subst str|]);
    try (destruct (OrderExecutor.is_balance_error m) eqn:Eb);
    try (rewrite (proj2 (truthy_some _) (proj1 (String.eqb_neq _ _) Es))).
  all: try (cbv [bump_failures bind get modify ret truthy]; cbn;
    destruct (max_consecutive_failures self <=? consecutive_order_failures self + 1)%Z eqn:E;
    cbn; (split; [discriminate|]); intros _; right;
    (split; [no_such_event|]); (split; [reflexivity|]); (split; [reflexivity|]);
    (split; [|discriminate]); intros _; (split; [no_such_event|]);
    [ apply Z.leb_le in E; tauto
    | apply Z.leb_gt in E; split; [tauto|]; intros [H|H]; [exact H|lia] ]).
  - (* the venue answered with an id in a dictionary *)
    apply String.eqb_neq in Es.
    cbv [bind get on_tracker modify]. cbn.
    split; [discriminate|]. intros _. left. exists id.
    split; [apply Exists_cons_tl, Exists_cons_hd; split; [exact Es|reflexivity]|].
    split; [reflexivity|]. split; [apply dict_mem_set_same|]. split; reflexivity.
  - (* the venue answered with a bare id *)
    apply String.eqb_neq in Es.
    cbv [bind get on_tracker modify]. cbn.
    split; [discriminate|]. intros _. left. exists str.
    split; [apply Exists_cons_tl, Exists_cons_hd; split; [exact Es|reflexivity]|].
    split; [reflexivity|]. split; [apply dict_mem_set_same|]. split; reflexivity.
  - (* the venue refused for lack of funds *)
    pose proof (fatal_error_is_funding m) as Hfunds.
    remember (String.append "Fatal error - insufficient balance/allowance: " m) as fatal.
    cbv [bind get modify bump_failures ret raise].
    rewrite Hfunds. cbn.
    split; [discriminate|]. intros _. right.
    split; [no_such_event|].
    split; [reflexivity|]. split; [reflexivity|]. split; [discriminate|].
    intros e He. inversion He; subst e. split; [reflexivity|].
    exists m. split; [|assumption].
    apply Exists_cons_tl, Exists_cons_hd. split; [reflexivity|exact Eb].
Qed.

Lemma update_filled_quantity_credit now fs fp pt :
  PositionTracker.filled_quantity (PositionTracker.update_filled_quantity now fs fp pt)
  == PositionTracker.filled_quantity pt
     + Py.max 0 (Py.min fs (PositionTracker.get_remaining_quantity pt)).
Proof.
  unfold PositionTracker.update_filled_quantity.
  set (actual := Py.min fs (PositionTracker.get_remaining_quantity pt)).
  destruct (py_max_spec 0 actual) as [[H ->]|[H ->]];
    destruct (Qle_bool actual 0) eqn:E; qcases; simpl; lra.
Qed.

(** A trade whose size and price are both read. *)
Lemma priced_trade_credit (data : order_data) (self : t)
    (our : string) (o : OrderState) (reported fill_price : Q) :
  our_order_id self data = Some our ->
  Dict.get our (pending self) = Some o ->
  od_size data = Some reported ->
  od_price data = Some fill_price ->
  0 < reported ->
  post (process_order_update "trade" data) self (fun r self' _ =>
    r = Ok tt /\
    PositionTracker.filled_quantity (position_tracker self')
    == PositionTracker.filled_quantity (position_tracker self)
       + Py.max 0 (Py.min (Py.min reported (size o))
                          (PositionTracker.get_remaining_quantity (position_tracker self)))).
Proof.
  intros Hour Ho Hsize Hprice Hpos.
  set (R := fun s s' : t =>
              PositionTracker.filled_quantity (position_tracker s')
              = PositionTracker.filled_quantity (position_tracker s)).
  assert (Hrefl : forall s, R s s) by reflexivity.
  assert (Htrans : forall a b c, R a b -> R b c -> R a c).
  { unfold R. intros a b c H1 H2. congruence. }
  change (process_order_update "trade" data) with (_handle_trade_execution data).
  unfold _handle_trade_execution. apply post_try. apply post_bind, post_get.
  rewrite Hour, Hsize, Hprice.
  unfold pending in Ho. rewrite Ho.
  apply Qltb_true in Hpos. rewrite Hpos.
  unfold on_tracker.
  apply post_bind, post_modify, post_bind, post_modify, post_bind, post_get.
  match goal with |- post _ ?s _ => set (s2 := s) end.
  assert (H2 : PositionTracker.filled_quantity (position_tracker s2)
               == PositionTracker.filled_quantity (position_tracker self)
                  + Py.max 0 (Py.min (Py.min reported (size o))
                                (PositionTracker.get_remaining_quantity
                                   (position_tracker self)))).
  { unfold s2. cbn [position_tracker set_position_tracker].
    unfold PositionTracker.remove_pending_order.
    destruct (Dict.mem _ _); cbn [PositionTracker.filled_quantity
                                    PositionTracker.set_pending_orders];
      apply update_filled_quantity_credit. }
  destruct (current_market_data s2) as [market_data|]; [|apply post_ret; auto].
  destruct (negb _); [|apply post_ret; auto].
  eapply post_mono; [apply (adjust_orders_frame R); auto; intros; reflexivity|].
  intros r s' evs H. unfold R in H.
  destruct r as [[]|e]; [|apply post_ret]; rewrite H; auto.
Qed.

(** X14.  A trade is credited once and within bounds.  A trade that
    names a tracked order of the strategy and reports a positive size never
    makes the handler raise.  When [float] converts its price (an absent
    price reads as 0), it raises the filled quantity by the size reported,
    cut down to the size of the order it names and to the quantity that
    remained, and by nothing if that is not positive; whatever the handler
    then cancels or places does not touch the filled quantity.  When
    [float] rejects its price, nothing is credited: the strategy is left
    exactly as it was and nothing is sent to the venue. *)
Theorem trade_is_credited_within_bounds (data : order_data) (self : t)
    (our : string) (o : OrderState) (reported : Q) :
  our_order_id self data = Some our ->
  Dict.get our (pending self) = Some o ->
  od_size data = Some reported ->
  0 < reported ->
  post (process_order_update "trade" data) self (fun r self' evs =>
    r = Ok tt /\
    match od_price data with
    | Some _ =>
        PositionTracker.filled_quantity (position_tracker self')
        == PositionTracker.filled_quantity (position_tracker self)
           + Py.max 0 (Py.min (Py.min reported (size o))
                              (PositionTracker.get_remaining_quantity
                                 (position_tracker self)))
    | None => self' = self /\ evs = []
    end).
Proof.
  intros Hour Ho Hsize Hpos.
  destruct (od_price data) as [fill_price|] eqn:Hprice.
  - eapply post_mono;
      [exact (priced_trade_credit data self our o reported fill_price
                Hour Ho Hsize Hprice Hpos)|].
    intros r self' evs H. exact H.
  - unfold post.
    change (process_order_update "trade" data) with (_handle_trade_execution data).
    unfold _handle_trade_execution, try_except, bind, get.
    rewrite Hour, Hsize, Hprice. cbn. auto.
Qed.

Lemma trade_is_credited_within_bounds_witness :
  exists o,
    Dict.get "order-0" (pending Sample.quoting) = Some o /\
    post (process_order_update "trade"
            {| od_id := None; od_taker_order_id := None;
               od_maker_orders := [Some "order-0"%string];
               od_size := Some 25; od_price := Some (51 # 100) |})
         Sample.quoting
         (fun r self' _ =>
            r = Ok tt /\
            PositionTracker.filled_quantity (position_tracker self')
            == PositionTracker.filled_quantity (position_tracker Sample.quoting)
               + Py.max 0 (Py.min (Py.min 25 (size o))
                             (PositionTracker.get_remaining_quantity
                                (position_tracker Sample.quoting)))).
Proof.
  eexists. split; [reflexivity|].
  apply (trade_is_credited_within_bounds
           {| od_id := None; od_taker_order_id := None;
              od_maker_orders := [Some "order-0"%string];
              od_size := Some 25; od_price := Some (51 # 100) |}
           Sample.quoting "order-0" _ 25); try reflexivity.
Defined.

(** The same trade with a price that is not a number: nothing is
    credited. *)
Example unreadable_price_is_dropped :
  process_order_update "trade"
    {| od_id := None; od_taker_order_id := None;
       od_maker_orders := [Some "order-0"%string];
       od_size := Some 25; od_price := None |}
    Sample.quoting
  = (Ok tt, Sample.quoting, []).
Proof. reflexivity. Qed.

Lemma quiet_update market_data self :
  PositionTracker.is_target_reached (position_tracker self) = true ->
  process_market_update market_data self
  = (Ok tt, set_current_market_data (Some market_data) self, []).
Proof.
  intros H. unfold process_market_update, bind, modify, get, _should_adjust_orders.
  cbn [position_tracker set_current_market_data]. rewrite H. reflexivity.
Qed.

(** X15.  Once the target is reached the strategy goes quiet.  Market
    updates, however many and whatever they show, then send nothing to the
    venue and leave the tracker and the executor as they are: in
    particular the orders still resting are neither cancelled nor
    forgotten. *)
Theorem target_reached_is_quiet (updates : list MarketData) (self : t) :
  PositionTracker.is_target_reached (position_tracker self) = true ->
  snd (market_feed updates self) = [] /\
  position_tracker (fst (market_feed updates self)) = position_tracker self /\
  order_executor (fst (market_feed updates self)) = order_executor self /\
  has_critical_error (fst (market_feed updates self)) = has_critical_error self.
Proof.
  revert self. induction updates as [|market_data rest IH]; intros self H.
  - repeat split.
  - cbn [market_feed]. rewrite (quiet_update market_data self H).
    specialize (IH (set_current_market_data (Some market_data) self) H).
    destruct (market_feed rest _) as [self'' evs']. cbn [fst snd] in *.
    destruct IH as (-> & -> & -> & ->). repeat split.
Qed.

Lemma target_reached_is_quiet_witness :
  let done :=
    set_position_tracker
      (PositionTracker.update_filled_quantity 5 20 (51 # 100)
         (position_tracker Sample.quoting)) Sample.quoting in
  snd (market_feed [Sample.tick (40 # 100) (45 # 100); Sample.tick (30 # 100) (60 # 100)] done)
  = [] /\
  length (pending (fst (market_feed [Sample.tick (40 # 100) (45 # 100);
                                     Sample.tick (30 # 100) (60 # 100)] done))) = 1%nat.
Proof.
  intros done.
  destruct (target_reached_is_quiet
              [Sample.tick (40 # 100) (45 # 100); Sample.tick (30 # 100) (60 # 100)] done)
    as (H1 & H2 & _); [reflexivity|].
  split; [exact H1|]. unfold pending. rewrite H2. reflexivity.
Defined.

(** X16.  Order updates that are not about the strategy's orders change
    nothing.  No order update raises, whatever its type and content; only a
    trade can cause traffic with the venue; and a placement notice, an
    update of an unknown type, a trade that names none of the tracked
    orders, a trade whose size or price is a value [float] rejects and a
    trade whose size reads as zero or less (as an absent size does) each
    leave the strategy exactly as it was. *)
Theorem foreign_updates_are_ignored (update_type : string) (data : order_data) (self : t) :
  post (process_order_update update_type data) self (fun r self' evs =>
    r = Ok tt /\
    (update_type <> "trade"%string -> evs = []) /\
    (update_type <> "cancellation"%string ->
     (update_type = "trade"%string ->
        our_order_id self data = None \/ od_size data = None \/ od_price data = None \/
        exists reported, od_size data = Some reported /\ reported <= 0) ->
     self' = self /\ evs = [])).
Proof.
  assert (Hnever : post (process_order_update update_type data) self
                     (fun r _ _ => r = Ok tt)).
  { eapply post_mono;
      [apply (process_order_update_frame (fun _ _ => True)); auto|].
    intros r s' evs [H _]. exact H. }
  unfold post in *.
  unfold process_order_update in *.
  destruct (String.eqb update_type "placement") eqn:E1.
  { cbn. split; [reflexivity|]. split; auto. }
  destruct (String.eqb update_type "cancellation") eqn:E2.
  { apply String.eqb_eq in E2. subst update_type.
    unfold _handle_order_cancellation.
    destruct (od_id data) as [id|]; [|cbn; split; [reflexivity|]; split; [auto|congruence]].
    destruct (truthy _); cbn; (split; [reflexivity|]); (split; [auto|congruence]). }
  destruct (String.eqb update_type "trade") eqn:E3.
  2: { cbn. split; [reflexivity|]. split; auto. }
  apply String.eqb_eq in E3. subst update_type.
  destruct (_handle_trade_execution data self) as [[r s'] evs] eqn:E.
  split; [exact Hnever|]. split; [congruence|].
  intros _ H. specialize (H eq_refl).
  unfold _handle_trade_execution, try_except, bind, get in E.
  destruct (our_order_id self data) as [our|].
  2: { cbn in E. inversion E. auto. }
  destruct (od_size data) as [reported|].
  2: { cbn in E. inversion E. auto. }
  destruct (od_price data) as [fill_price|].
  2: { cbn in E. inversion E. auto. }
  destruct H as [H|[H|[H|(sz & Hsz & Hle)]]]; try discriminate.
  injection Hsz as ->.
  apply Qltb_false in Hle. rewrite Hle in E. cbn in E. inversion E. auto.
Qed.

(** A trade for a tracked order that carries no price is booked at price
    0: an absent key is read as 0, not rejected. *)
Example trade_without_price_is_booked :
  let '(r, self', _) :=
    process_order_update "trade"
      {| od_id := None; od_taker_order_id := None;
         od_maker_orders := [Some "order-0"%string];
         od_size := Some 4; od_price := Some 0 |}
      Sample.quoting in
  r = Ok tt /\
  PositionTracker.filled_quantity (position_tracker self') = 4 /\
  PositionTracker.total_fill_value (position_tracker self') = 4 * 0.
Proof. vm_compute. repeat split. Qed.

End TopOfBookStrategyHandlers.

(** ** MarketOrderExecutor: orders priced off the book *)

Section MarketOrderExecutorFacts.
Import MarketOrderExecutor.

Variable fetch_book : Q -> string -> Q * reply book_data.

Lemma dict_get_set_other {V} k k' (v : V) d :
  k' <> k -> Dict.get k' (Dict.set k v d) = Dict.get k' d.
Proof.
  intros Hk. induction d as [|[k0 v0] d IH]; simpl.
  - destruct (String.eqb k k') eqn:E; [|reflexivity].
    apply String.eqb_eq in E. congruence.
  - destruct (String.eqb k0 k) eqn:E; simpl.
    + apply String.eqb_eq in E. subst k0.
      destruct (String.eqb k k') eqn:E'; [|reflexivity].
      apply String.eqb_eq in E'. congruence.
    + destruct (String.eqb k0 k'); [reflexivity|exact IH].
Qed.

(** What [_get_market_data] does, by its answer. *)
Lemma get_market_data_cases token self :
  post (_get_market_data fetch_book token) self (fun r self' evs =>
    evs = [] /\
    OrderExecutor.client (executor self') = OrderExecutor.client (executor self) /\
    OrderExecutor.rate_limiter (executor self') = OrderExecutor.rate_limiter (executor self) /\
    ((r = Ok None /\ market_data_cache self' = market_data_cache self) \/
     exists market_data,
       r = Ok (Some market_data) /\ asset_id market_data = token /\
       market_data_cache self' = Dict.set token market_data (market_data_cache self))).
Proof.
  unfold post, _get_market_data.
  destruct (fetch_book _ _) as [elapsed [book|e]]; cbn.
  2: { repeat split. left. auto. }
  destruct (bd_bids book) as [|bid bids]; [cbn; repeat split; left; auto|].
  destruct (bd_asks book) as [|ask asks]; [cbn; repeat split; left; auto|].
  destruct (bl_price bid), (bl_price ask), (bl_size bid), (bl_size ask);
    cbn; repeat split; try (left; split; reflexivity).
  right. eexists. repeat split.
Qed.

(** X17.  The cache remembers the last book fetched.  When
    [_get_market_data] returns a snapshot for a token, [get_cached_market_data]
    returns that snapshot and [get_spread] its ask minus its bid, and the
    entries of other tokens are as before; when it returns [None] the cache
    is unchanged.  It never raises and sends nothing to the venue. *)
Theorem market_data_cache_round_trip (token : string) (self : t) :
  post (_get_market_data fetch_book token) self (fun r self' evs =>
    evs = [] /\
    match r with
    | Ok (Some market_data) =>
        get_cached_market_data token self' = Some market_data /\
        get_spread token self' = Some (top_ask market_data - top_bid market_data) /\
        forall other, other <> token ->
          get_cached_market_data other self' = get_cached_market_data other self /\
          get_spread other self' = get_spread other self
    | Ok None => market_data_cache self' = market_data_cache self
    | Err _ => False
    end).
Proof.
  eapply post_mono; [apply get_market_data_cases|].
  intros r self' evs (Hevs & _ & _ & [[-> Hcache]|(md & -> & _ & Hcache)]).
  - auto.
  - split; [exact Hevs|].
    unfold get_cached_market_data, get_spread. rewrite Hcache, dict_get_set.
    split; [reflexivity|]. split; [reflexivity|].
    intros other Hother. rewrite (dict_get_set_other _ _ _ _ Hother). auto.
Qed.

Lemma calculate_market_price_bounds market_data side slip p :
  _calculate_market_price market_data side slip = Some p ->
  (side = BUY /\ p <= 1 /\ p <= top_ask market_data * (1 + slip) /\
   (top_ask market_data * (1 + slip) <= 1 -> p == top_ask market_data * (1 + slip))) \/
  (side = SELL /\ (1 # 1000) <= p /\ top_bid market_data * (1 - slip) <= p /\
   ((1 # 1000) <= top_bid market_data * (1 - slip) ->
    p == top_bid market_data * (1 - slip))).
Proof.
  unfold _calculate_market_price.
  destruct (String.eqb side BUY) eqn:Eb.
  - apply String.eqb_eq in Eb. intros H. inversion H; subst p. left.
    split; [assumption|].
    destruct (py_min_spec (top_ask market_data * (1 + slip)) 1) as [[H1 ->]|[H1 ->]];
      repeat split; try lra.
  - destruct (String.eqb side SELL) eqn:Es; [|discriminate].
    apply String.eqb_eq in Es. intros H. inversion H; subst p. right.
    split; [assumption|].
    destruct (py_max_spec (top_bid market_data * (1 - slip)) (1 # 1000)) as [[H1 ->]|[H1 ->]];
      repeat split; try lra.
Qed.

(** The ways [place_market_order] can go. *)
Lemma place_market_order_cases token sz sd slip self :
  post (place_market_order fetch_book token sz sd slip) self (fun r _ evs =>
    (exists answer, r = Ok answer) /\
    (evs = [] \/ evs = [EvAcquire false] \/
     exists market_data p reply,
       fst (fst (_get_market_data fetch_book token self)) = Ok (Some market_data) /\
       _calculate_market_price market_data sd slip = Some p /\
       evs = [EvAcquire true;
              EvPostOrder {| OrderArgs.price := p; OrderArgs.size := sz;
                             OrderArgs.side := sd; OrderArgs.token_id := token |} reply]) /\
    (fst (fst (_get_market_data fetch_book token self)) = Ok None -> evs = []) /\
    (_calculate_market_price
       {| asset_id := token; top_bid := 0; top_ask := 0; bid_size := 0; ask_size := 0;
          timestamp := 0 |} sd slip = None -> evs = [])).
Proof.
  pose proof (get_market_data_cases token self) as Hget.
  unfold post in Hget |- *.
  cbv [place_market_order try_except bind on_base zoom].
  destruct (_get_market_data fetch_book token self) as [[r self1] evs1].
  destruct Hget as (-> & _ & _ & [[-> _]|(md & -> & _ & _)]); cbn [fst snd app].
  { cbv [ret]. split; [eauto|]. repeat split; auto. }
  destruct (_calculate_market_price md sd slip) as [p|] eqn:Hp.
  2: { cbv [ret]. split; [eauto|]. repeat split; auto. }
  assert (Hside : _calculate_market_price
                    {| asset_id := token; top_bid := 0; top_ask := 0; bid_size := 0;
                       ask_size := 0; timestamp := 0 |} sd slip <> None).
  { unfold _calculate_market_price in Hp |- *.
    destruct (String.eqb sd BUY); [discriminate|].
    destruct (String.eqb sd SELL); [discriminate|]. discriminate. }
  destruct (Qeq_bool p 0).
  { cbv [ret]. split; [eauto|]. repeat split; auto. }
  pose proof (place_order_cases token p sz sd (executor self1)) as Hcases.
  unfold post in Hcases.
  destruct (OrderExecutor.place_order token p sz sd (executor self1)) as [[r ex'] evs].
  assert (Hshape :
    evs = [] \/ evs = [EvAcquire false] \/
    exists market_data p0 reply,
      Ok (Some md) = Ok (Some market_data) /\
      _calculate_market_price market_data sd slip = Some p0 /\
      evs = [EvAcquire true;
             EvPostOrder {| OrderArgs.price := p0; OrderArgs.size := sz;
                            OrderArgs.side := sd; OrderArgs.token_id := token |} reply]).
  { destruct Hcases as [[_ [->| ->]]|(reply & -> & _)]; auto.
    right. right. exists md, p, reply. auto. }
  destruct r as [answer|e]; cbv [ret]; rewrite ?app_nil_r;
    (split; [eauto|]); (split; [exact Hshape|]);
    (split; [discriminate|]); intros H; contradiction.
Qed.

(** The snapshot [_get_market_data] returns is read off the first level
    listed on each side of the fetched book, wherever the best level is. *)
Lemma get_market_data_first_levels token self market_data :
  fst (fst (_get_market_data fetch_book token self)) = Ok (Some market_data) ->
  exists book bid ask,
    snd (fetch_book (OrderExecutor.clock (executor self)) token) = Responds book /\
    List.hd_error (bd_bids book) = Some bid /\
    List.hd_error (bd_asks book) = Some ask /\
    bl_price bid = Some (top_bid market_data) /\
    bl_price ask = Some (top_ask market_data).
Proof.
  unfold _get_market_data.
  destruct (fetch_book _ _) as [elapsed [book|e]]; cbn; [|discriminate].
  destruct (bd_bids book) as [|bid bids] eqn:Eb; [cbn; discriminate|].
  destruct (bd_asks book) as [|ask asks] eqn:Ea; [cbn; discriminate|].
  destruct (bl_price bid) as [b|] eqn:E1, (bl_price ask) as [a|] eqn:E2,
           (bl_size bid), (bl_size ask); cbn; try discriminate.
  intros H. inversion H; subst market_data. cbn.
  exists book, bid, ask. rewrite Eb, Ea. cbn. auto.
Qed.

(** X18.  A market order is a limit order priced off the first levels of
    the fetched book.  [place_market_order] never raises, not even when
    the venue refuses the order for lack of funds.  It sends at most one
    order, for the token, side and size asked for.  The price comes from
    the first level listed on the opposite side of the fetched book
    ([asks[0]] for a buy, [bids[0]] for a sell), whether or not that level
    is the best one: a buy is priced at that ask times one plus the
    slippage, or at 1 if that is more; a sell at that bid times one minus
    the slippage, or at 0.001 if that is less.  Nothing is sent when the
    book cannot be fetched or read, has an empty side, or when the side is
    neither BUY nor SELL. *)
Theorem place_market_order_spec (token : string) (sz : Q) (sd : string) (slip : Q) (self : t) :
  post (place_market_order fetch_book token sz sd slip) self (fun r _ evs =>
    (exists answer, r = Ok answer) /\
    ((fst (fst (_get_market_data fetch_book token self)) = Ok None \/
      (sd <> BUY /\ sd <> SELL)) -> evs = []) /\
    (evs = [] \/ evs = [EvAcquire false] \/
     exists book bid ask first_bid first_ask p reply,
       snd (fetch_book (OrderExecutor.clock (executor self)) token) = Responds book /\
       List.hd_error (bd_bids book) = Some bid /\ bl_price bid = Some first_bid /\
       List.hd_error (bd_asks book) = Some ask /\ bl_price ask = Some first_ask /\
       ((sd = BUY /\ p <= 1 /\ p <= first_ask * (1 + slip) /\
         (first_ask * (1 + slip) <= 1 -> p == first_ask * (1 + slip))) \/
        (sd = SELL /\ (1 # 1000) <= p /\ first_bid * (1 - slip) <= p /\
         ((1 # 1000) <= first_bid * (1 - slip) -> p == first_bid * (1 - slip)))) /\
       evs = [EvAcquire true;
              EvPostOrder {| OrderArgs.price := p; OrderArgs.size := sz;
                             OrderArgs.side := sd; OrderArgs.token_id := token |} reply])).
Proof.
  eapply post_mono; [apply place_market_order_cases|].
  intros r self' evs (Hok & Hshape & Hnone & Hside).
  split; [exact Hok|]. split.
  - intros [H|[H1 H2]]; [exact (Hnone H)|].
    apply Hside. unfold _calculate_market_price.
    apply String.eqb_neq in H1, H2. rewrite H1, H2. reflexivity.
  - destruct Hshape as [H|[H|(md & p & reply & Hmd & Hp & Hevs)]]; auto.
    right. right.
    destruct (get_market_data_first_levels token self md Hmd)
      as (book & bid & ask & Hbook & Hbid & Hask & Hb & Ha).
    exists book, bid, ask, (top_bid md), (top_ask md), p, reply.
    repeat (split; [assumption|]). split; [|exact Hevs].
    destruct (calculate_market_price_bounds _ _ _ _ Hp)
      as [(H1 & H2 & H3 & H4)|(H1 & H2 & H3 & H4)]; [left|right]; auto.
Qed.

End MarketOrderExecutorFacts.

(** On a book listed from the worst level to the best, a buy without
    slippage is priced at the first ask listed, 0.60, not at the best ask,
    0.52. *)
Example market_order_off_first_level :
  snd (MarketOrderExecutor.place_market_order Sample.worst_first_endpoint
         "token" 10 "BUY" 0 Sample.market_executor)
  = [EvAcquire true;
     EvPostOrder {| OrderArgs.price := 60 # 100; OrderArgs.size := 10;
                    OrderArgs.side := "BUY"; OrderArgs.token_id := "token" |}
       (Responds (PostDict true (Some "order-0"%string)))].
Proof. vm_compute. reflexivity. Qed.

(** ** InsideLiquidityStrategy: taking what the book offers *)

Section InsideLiquidityStrategyFacts.
Import InsideLiquidityStrategy.

Variable fetch_book : Q -> string -> Q * reply MarketOrderExecutor.book_data.

Lemma same_position_refl s : same_position s s.
Proof. repeat split. Qed.

Lemma should_take_liquidity_cases market_data s :
  post (_should_take_liquidity market_data) s (fun r s' evs =>
    s' = s /\ evs = [] /\
    match r with
    | Ok true => on_offer market_data s
    | Ok false => True
    | Err _ => side s <> BUY /\ side s <> SELL /\ child_order_size s <= 0
    end).
Proof.
  unfold post, _should_take_liquidity, enough_size, bind, get, ret, raise, on_offer.
  destruct (PositionTracker.is_target_reached (position_tracker s)); [cbn; auto|].
  destruct (String.eqb (side s) BUY) eqn:Eb.
  { apply String.eqb_eq in Eb.
    destruct (Py.Qltb (limit_price s) (top_ask market_data)) eqn:E1; [cbn; auto|].
    destruct (Py.Qltb (ask_size market_data) (child_order_size s)) eqn:E2; cbn; [auto|].
    qcases. repeat split. left. auto. }
  destruct (String.eqb (side s) SELL) eqn:Es.
  { apply String.eqb_eq in Es.
    destruct (Py.Qltb (top_bid market_data) (limit_price s)) eqn:E1; [cbn; auto|].
    destruct (Py.Qltb (bid_size market_data) (child_order_size s)) eqn:E2; cbn; [auto|].
    qcases. repeat split. right. auto. }
  apply String.eqb_neq in Eb, Es.
  destruct (Py.Qltb 0 (child_order_size s)) eqn:E2; cbn; [auto|].
  qcases. auto.
Qed.

Lemma take_liquidity_cases market_data s :
  post (_take_liquidity fetch_book market_data) s (fun r s' evs =>
    r = Ok tt /\ same_position s s' /\
    (evs = [] \/ evs = [EvAcquire false] \/
     exists ev, evs = [EvAcquire true; ev] /\ takes s ev)).
Proof.
  unfold post.
  cbv [_take_liquidity try_except bind get on_market_executor zoom].
  destruct (Py.Qltb (Py.min (child_order_size s)
                       (PositionTracker.get_remaining_quantity (position_tracker s))) 5)
    eqn:Esize.
  { cbv [ret]. split; [reflexivity|]. split; [apply same_position_refl|auto]. }
  pose proof (place_market_order_cases fetch_book
                (PositionTracker.token_id (position_tracker s))
                (Py.min (child_order_size s)
                   (PositionTracker.get_remaining_quantity (position_tracker s)))
                (side s) (max_slippage s) (market_executor s)) as Hcases.
  unfold post in Hcases.
  destruct (MarketOrderExecutor.place_market_order _ _ _ _ _ _) as [[r mx] evs].
  destruct Hcases as ([answer ->] & Hshape & _).
  cbv [ret]. rewrite !app_nil_r.
  split; [reflexivity|]. split; [repeat split|].
  destruct Hshape as [H|[H|(md & p & reply & _ & _ & H)]]; auto.
  right. right. eexists. split; [exact H|].
  qcases. cbn.
  destruct (py_min_spec (child_order_size s)
              (PositionTracker.get_remaining_quantity (position_tracker s)))
    as [[H1 H2]|[H1 H2]]; rewrite H2 in Esize |- *; repeat split; lra.
Qed.

Lemma process_market_update_cases market_data s :
  post (process_market_update fetch_book market_data) s (fun r s' evs =>
    r = Ok tt /\
    position_tracker s' = position_tracker s /\
    (evs = [] \/ evs = [EvAcquire false] \/
     exists ev, evs = [EvAcquire true; ev] /\ takes s ev) /\
    (evs <> [] -> on_offer market_data s) /\
    ((side s = BUY \/ side s = SELL \/ 0 < child_order_size s) ->
     critical_error s' = critical_error s /\
     critical_error_message s' = critical_error_message s) /\
    (critical_error s' = true -> critical_error s = false -> evs = [])).
Proof.
  pose proof (should_take_liquidity_cases market_data (set_last_market_data (Some market_data) s))
    as Hshould.
  unfold post in Hshould |- *.
  cbv [process_market_update try_except bind modify].
  destruct (_should_take_liquidity market_data _) as [[r s1] evs1].
  destruct Hshould as (-> & -> & Hr).
  destruct r as [[|]|e]; cbn [app].
  - pose proof (take_liquidity_cases market_data (set_last_market_data (Some market_data) s))
      as Htake.
    unfold post in Htake.
    destruct (_take_liquidity fetch_book market_data _) as [[r2 s2] evs2].
    destruct Htake as (-> & (Hpos & Hce & Hcm & _) & Hshape).
    cbn in Hpos, Hce, Hcm.
    split; [reflexivity|]. split; [exact Hpos|]. split; [exact Hshape|].
    split; [intros _; exact Hr|]. split; [auto|].
    intros H1 H2. rewrite Hce in H1. congruence.
  - cbv [ret]. split; [reflexivity|]. split; [reflexivity|]. split; [auto|].
    split; [congruence|]. split; [auto|]. cbn. congruence.
  - cbn. split; [reflexivity|]. split; [reflexivity|]. split; [auto|].
    split; [congruence|]. split; [|auto].
    destruct Hr as (Hb & Hs & Hc). cbn in Hb, Hs, Hc.
    intros [H|[H|H]]; [contradiction|contradiction|lra].
Qed.

(** X19.  What inside-liquidity mode sends on a market update.  The
    update never raises and never changes the position.  It sends at most
    one order, right after the rate limiter granted a request, on the
    strategy's side and token, for the child size cut down to the
    remaining quantity and never below the minimum order size of 5; and it
    sends something only while the target is not reached and the book
    shows, on the opposite side, a best price within the limit with at
    least the child size on offer. *)
Theorem inside_liquidity_takes_what_is_offered (market_data : MarketData) (self : t) :
  post (process_market_update fetch_book market_data) self (fun r self' evs =>
    r = Ok tt /\
    position_tracker self' = position_tracker self /\
    (evs = [] \/ evs = [EvAcquire false] \/
     exists ev, evs = [EvAcquire true; ev] /\ takes self ev) /\
    (evs <> [] -> on_offer market_data self)).
Proof.
  eapply post_mono; [apply process_market_update_cases|].
  intros r s' evs (H1 & H2 & H3 & H4 & _). auto.
Qed.

(** X20.  Inside-liquidity mode does not report a refusal.  For a
    strategy on the BUY or the SELL side, no answer of the venue or of the
    order-book endpoint to a market update changes the critical-error flag
    or its message: an order refused for lack of funds, which
    [place_order] turns into a fatal exception, ends up as an order that
    was not placed. *)
Theorem inside_liquidity_hides_refusals (market_data : MarketData) (self : t) :
  side self = BUY \/ side self = SELL ->
  post (process_market_update fetch_book market_data) self (fun r self' evs =>
    r = Ok tt /\
    has_critical_error self' = has_critical_error self /\
    get_critical_error_message self' = get_critical_error_message self).
Proof.
  intros Hside.
  eapply post_mono; [apply process_market_update_cases|].
  intros r s' evs (H1 & _ & _ & _ & H5 & _).
  split; [exact H1|]. apply H5. tauto.
Qed.

(** X21.  Inside-liquidity mode credits every trade that names a taker.
    An order update never raises, sends nothing and leaves the pending
    orders alone.  A trade with a non-empty taker order id, a positive
    size and a price that [float] converts (an absent price reads as 0)
    raises the filled quantity by that size, cut down to the quantity that
    remained, whether or not the strategy placed the order: it keeps no
    record to check the id against.  Any other update leaves the strategy
    as it was: one that is not a trade, a trade without a taker order id,
    a trade whose size or price [float] rejects, and a trade whose size
    reads as zero or less. *)
Theorem inside_liquidity_credits_any_taker (update_type : string) (data : order_data)
    (self : t) :
  post (process_order_update update_type data) self (fun r self' evs =>
    r = Ok tt /\ evs = [] /\
    PositionTracker.pending_orders (position_tracker self')
    = PositionTracker.pending_orders (position_tracker self) /\
    (forall sz,
       update_type = "trade"%string -> truthy (od_taker_order_id data) = true ->
       od_size data = Some sz -> 0 < sz -> od_price data <> None ->
       PositionTracker.filled_quantity (position_tracker self')
       == PositionTracker.filled_quantity (position_tracker self)
          + Py.max 0 (Py.min sz (PositionTracker.get_remaining_quantity
                                   (position_tracker self)))) /\
    (update_type <> "trade"%string \/ truthy (od_taker_order_id data) = false \/
     od_size data = None \/ od_price data = None \/
     (exists sz, od_size data = Some sz /\ sz <= 0) ->
     self' = self)).
Proof.
  unfold post, process_order_update.
  destruct (String.eqb update_type "trade") eqn:Et.
  2: { cbn. apply String.eqb_neq in Et.
       split; [reflexivity|]. split; [reflexivity|]. split; [reflexivity|].
       split; [intros; contradiction|auto]. }
  apply String.eqb_eq in Et. subst update_type.
  cbv [_handle_trade_execution try_except bind get on_tracker modify].
  assert (Hsame :
    forall P Q : Prop, P ->
    (Ok tt = Ok tt :> result unit) /\ ([] : list event) = [] /\
    PositionTracker.pending_orders (position_tracker self)
    = PositionTracker.pending_orders (position_tracker self) /\ P /\
    (Q -> self = self)) by (intros; repeat split; auto).
  destruct (truthy (od_taker_order_id data)) eqn:Etaker.
  2: { cbn. apply Hsame. intros; discriminate. }
  destruct (od_size data) as [sz|].
  2: { cbn. apply Hsame. intros; discriminate. }
  destruct (od_price data) as [px|].
  2: { cbn. apply Hsame. intros; congruence. }
  destruct (Py.Qltb 0 sz) eqn:Epos; cbn.
  - split; [reflexivity|]. split; [reflexivity|].
    split; [apply pending_update_filled|]. split.
    + intros sz' _ _ Hsz _ _. inversion Hsz; subst.
      apply update_filled_quantity_credit.
    + qcases.
      intros [H|[H|[H|[H|(sz' & Hsz & Hle)]]]]; try contradiction; try discriminate.
      inversion Hsz; subst. lra.
  - apply Hsame.
    intros sz' _ _ Hsz Hpos. inversion Hsz; subst. qcases. lra.
Qed.

End InsideLiquidityStrategyFacts.

Section InsideLiquidityStrategyExamples.
Import InsideLiquidityStrategy.

(** The venue has no funds for the strategy: the order is sent and
    refused, and the flag stays down. *)
Lemma inside_liquidity_hides_refusals_witness :
  post (process_market_update Sample.book_endpoint (Sample.tick (50 # 100) (52 # 100)))
       Sample.taker
       (fun r self' evs =>
          r = Ok tt /\
          has_critical_error self' = has_critical_error Sample.taker /\
          get_critical_error_message self' = get_critical_error_message Sample.taker).
Proof.
  apply (inside_liquidity_hides_refusals Sample.book_endpoint
           (Sample.tick (50 # 100) (52 # 100)) Sample.taker).
  left. reflexivity.
Defined.

Example refused_order_goes_unreported :
  snd (process_market_update Sample.book_endpoint (Sample.tick (50 # 100) (52 # 100))
         Sample.taker)
  = [ EvAcquire true;
      EvPostOrder {| OrderArgs.price := (52 # 100) * (1 + (1 # 100)); OrderArgs.size := 10;
                     OrderArgs.side := "BUY"; OrderArgs.token_id := "token" |}
                  (Throws "not enough balance / allowance") ] /\
  has_critical_error
    (snd (fst (process_market_update Sample.book_endpoint (Sample.tick (50 # 100) (52 # 100))
                 Sample.taker))) = false.
Proof. split; reflexivity. Qed.

End InsideLiquidityStrategyExamples.

(** ** OrderManager: when to exit, what to report, how to stop *)

Section OrderManagerFacts.
Import OrderManager.

Variable fetch_book : Q -> string -> Q * reply MarketOrderExecutor.book_data.
Variable get_orders_reply : nat -> Q * reply (option (list OrderExecutor.open_order)).

Lemma remaining_positive pt :
  PositionTracker.is_target_reached pt = false ->
  0 < PositionTracker.get_remaining_quantity pt.
Proof.
  unfold PositionTracker.is_target_reached, PositionTracker.get_remaining_quantity.
  intros H. qcases.
  destruct (py_max_spec 0 (PositionTracker.target_quantity pt
                           - PositionTracker.filled_quantity pt)) as [[H1 ->]|[H1 ->]]; lra.
Qed.

(** X22.  The three reasons to exit.  [should_exit_strategy] answers
    true exactly when the strategy reports a critical error, the target is
    reached, or the stop manager says stop; its fourth test, for nothing
    remaining and nothing pending, never decides, because something always
    remains while the target is not reached.  The stop manager is
    consulted, and may schedule its callback, only if the first two reasons
    fail. *)
Theorem should_exit_for_three_reasons (self : t) :
  let stops := StopConditionManager.should_stop (now self) (stop_manager self) in
  fst (should_exit_strategy self)
  = has_critical_error (strategy self)
    || PositionTracker.is_target_reached (position_tracker self)
    || fst stops /\
  snd (should_exit_strategy self)
  = (if has_critical_error (strategy self)
        || PositionTracker.is_target_reached (position_tracker self)
     then [] else snd stops) /\
  (PositionTracker.is_target_reached (position_tracker self) = false ->
   0 < PositionTracker.get_remaining_quantity (position_tracker self)).
Proof.
  intros stops. unfold should_exit_strategy. fold stops.
  destruct (has_critical_error (strategy self)); [cbn; auto using remaining_positive|].
  destruct (PositionTracker.is_target_reached (position_tracker self)) eqn:Hreached;
    [cbn; split; [reflexivity|]; split; [reflexivity|discriminate]|].
  pose proof (remaining_positive _ Hreached) as Hpos.
  destruct stops as [[|] tasks]; cbn; [auto|].
  destruct (Qle_bool (PositionTracker.get_remaining_quantity (position_tracker self)) 0)
    eqn:E; [qcases; lra|]. cbn. auto.
Qed.



Lemma in_take {A} (x : A) n l : In x (take n l) -> In x l.
Proof.
  revert n. induction l as [|y l IH]; intros [|n]; simpl; try tauto.
  intros [H|H]; [auto|right; eauto].
Qed.

Lemma stopped_is_inert self :
  running self = false ->
  (forall market_data,
     _handle_market_update fetch_book market_data self = (Ok tt, self, [])) /\
  (forall update_type data,
     _handle_order_update update_type data self = (Ok tt, self, [])) /\
  stop_strategy get_orders_reply self = (Ok tt, self, []) /\
  (forall seconds, extend_timeout seconds self = self).
Proof.
  intros H.
  unfold _handle_market_update, _handle_order_update, stop_strategy, extend_timeout, bind, get.
  rewrite H. cbn. auto.
Qed.

(** X24.  Stopping.  [stop_strategy] never raises and leaves the manager
    not running.  It asks the venue to cancel nothing but orders that the
    venue lists for the configured token, whoever placed them, and it
    leaves the position tracker as it is, pending orders included.  On a
    manager that is not running it does nothing; and once it has run,
    market updates, order updates, timeout extensions and further calls of
    [stop_strategy] all leave the manager as it is and send nothing. *)
Theorem stop_strategy_spec (self : t) :
  let ids :=
    token_orders (StrategyConfig.token_id (config self))
      (listed (get_orders_reply (served (OrderExecutor.client (order_executor self))))) in
  post (stop_strategy get_orders_reply) self (fun r self' evs =>
    r = Ok tt /\ running self' = false /\
    position_tracker self' = position_tracker self /\
    Forall (cancels_among ids) evs /\
    (running self = false -> self' = self /\ evs = []) /\
    (forall market_data,
       _handle_market_update fetch_book market_data self' = (Ok tt, self', [])) /\
    (forall update_type data,
       _handle_order_update update_type data self' = (Ok tt, self', [])) /\
    stop_strategy get_orders_reply self' = (Ok tt, self', []) /\
    (forall seconds, extend_timeout seconds self' = self')).
Proof.
  intros ids.
  destruct (running self) eqn:Hrun.
  2: { destruct (stopped_is_inert self Hrun) as (H1 & H2 & H3 & H4).
       unfold post. rewrite H3.
       repeat split; auto. }
  unfold post.
  assert (Hstep :
    stop_strategy get_orders_reply self
    = let '(r, self', evs) :=
        on_executor
          (OrderExecutor.cancel_all_orders get_orders_reply
             (StrategyConfig.token_id (config self)))
          (set_running false self) in
      (match r with Ok _ => Ok tt | Err e => Err e end, self', evs)).
  { unfold stop_strategy, bind, get, modify, ret. rewrite Hrun. cbn [negb app].
    cbn [config set_running].
    destruct (on_executor _ _) as [[[cancelled|e] s'] evs]; rewrite ?app_nil_r; reflexivity. }
  rewrite Hstep. clear Hstep.
  pose proof (cancel_all_orders_outcome get_orders_reply
                (StrategyConfig.token_id (config self)) (order_executor self)) as Hout.
  cbv zeta in Hout. fold ids in Hout. unfold post in Hout.
  unfold on_executor, on_strategy, TopOfBookStrategy.on_executor, zoom, order_executor in *.
  cbn [strategy set_running].
  destruct (strategy self) as [s|s] eqn:Es.
  - destruct (OrderExecutor.cancel_all_orders _ _ _) as [[r ex'] evs].
    destruct Hout as (cancelled & -> & _ & _ & Hall).
    set (self' := set_strategy (TopOfBook (TopOfBookStrategy.set_order_executor ex' s))
                    (set_running false self)).
    assert (Hrun' : running self' = false) by reflexivity.
    destruct (stopped_is_inert self' Hrun') as (H1 & H2 & H3 & H4).
    split; [reflexivity|]. split; [reflexivity|].
    split; [unfold position_tracker; cbn; rewrite Es; reflexivity|].
    split.
    { eapply List.Forall_impl; [|exact Hall]. intros ev.
      apply cancels_among_weaken. intros id. apply in_take. }
    split; [discriminate|]. auto.
  - destruct (OrderExecutor.cancel_all_orders _ _ _) as [[r ex'] evs].
    destruct Hout as (cancelled & -> & _ & _ & Hall).
    set (self' := set_strategy
                    (InsideLiquidity (InsideLiquidityStrategy.set_order_executor ex' s))
                    (set_running false self)).
    assert (Hrun' : running self' = false) by reflexivity.
    destruct (stopped_is_inert self' Hrun') as (H1 & H2 & H3 & H4).
    split; [reflexivity|]. split; [reflexivity|].
    split; [unfold position_tracker; cbn; rewrite Es; reflexivity|].
    split.
    { eapply List.Forall_impl; [|exact Hall]. intros ev.
      apply cancels_among_weaken. intros id. apply in_take. }
    split; [discriminate|]. auto.
Qed.

End OrderManagerFacts.

(** ** OrderHandlerCLI: the no-orders timer *)

Section NoOrdersTimer.
Import OrderHandlerCLI.

Lemma polled_app history p cli :
  polled (history ++ [p]) cli = snd (poll p (polled history cli)).
Proof. unfold polled. rewrite fold_left_app. reflexivity. Qed.

Lemma poll_timeout p cli : no_orders_timeout (snd (poll p cli)) = no_orders_timeout cli.
Proof.
  unfold poll, _should_exit_no_orders. cbn.
  destruct (PositionTracker.get_pending_orders _); [|reflexivity].
  destruct (no_orders_start_time cli); [|reflexivity].
  destruct (Qle_bool _ _); reflexivity.
Qed.

Lemma polled_timeout history : forall cli,
  no_orders_timeout (polled history cli) = no_orders_timeout cli.
Proof.
  unfold polled. induction history as [|p rest IH]; intros cli; [reflexivity|].
  cbn [fold_left]. rewrite IH. apply poll_timeout.
Qed.

(** What one poll does to the timer. *)
Lemma poll_cases p cli :
  (idle_manager (snd p) /\
   match no_orders_start_time cli with
   | None =>
       fst (poll p cli) = false /\
       no_orders_start_time (snd (poll p cli)) = Some (fst p)
   | Some start =>
       no_orders_start_time (snd (poll p cli)) = Some start /\
       (fst (poll p cli) = true <-> no_orders_timeout cli <= fst p - start)
   end) \/
  (~ idle_manager (snd p) /\
   fst (poll p cli) = false /\ no_orders_start_time (snd (poll p cli)) = None).
Proof.
  unfold idle_manager, poll, _should_exit_no_orders. cbn.
  destruct (PositionTracker.get_pending_orders _) as [|o os].
  - left. split; [reflexivity|].
    destruct (no_orders_start_time cli) as [start|] eqn:Es; [|auto].
    destruct (Qle_bool (no_orders_timeout cli) (fst p - start)) eqn:E; cbn; rewrite ?Es.
    + split; [reflexivity|]. apply Qle_bool_iff in E. tauto.
    + split; [reflexivity|]. split; [discriminate|].
      intros H. apply Qle_bool_iff in H. congruence.
  - right. split; [discriminate|]. auto.
Qed.

(** While the timer runs, it was started by a poll of the run, and every
    poll since then found the manager idle. *)
Lemma polled_streak history : forall cli start,
  no_orders_start_time cli = None ->
  no_orders_start_time (polled history cli) = Some start ->
  exists before first quiet,
    history = before ++ first :: quiet /\ fst first = start /\
    Forall (fun q => idle_manager (snd q)) (first :: quiet).
Proof.
  induction history as [|p rest IH] using rev_ind; intros cli start Hnone Hstart.
  - cbn in Hstart. congruence.
  - rewrite polled_app in Hstart.
    destruct (poll_cases p (polled rest cli)) as [[Hidle Hcase]|(_ & _ & Hbusy)];
      [|congruence].
    destruct (no_orders_start_time (polled rest cli)) as [start0|] eqn:E.
    + destruct Hcase as [Hkeep _]. rewrite Hkeep in Hstart. inversion Hstart; subst start0.
      destruct (IH cli start Hnone E) as (before & first & quiet & -> & Hfirst & Hall).
      exists before, first, (quiet ++ [p]).
      rewrite <- app_assoc. split; [reflexivity|]. split; [exact Hfirst|].
      rewrite app_comm_cons. apply List.Forall_app. split; [exact Hall|].
      constructor; [exact Hidle|constructor].
    + destruct Hcase as [_ Hset]. rewrite Hset in Hstart. inversion Hstart; subst start.
      exists rest, p, []. split; [reflexivity|]. split; [reflexivity|].
      constructor; [exact Hidle|constructor].
Qed.

Lemma polled_idle quiet : forall cli start,
  no_orders_start_time cli = Some start ->
  Forall (fun q => idle_manager (snd q)) quiet ->
  no_orders_start_time (polled quiet cli) = Some start.
Proof.
  unfold polled.
  induction quiet as [|p rest IH]; intros cli start Hstart Hall; [exact Hstart|].
  inversion Hall as [|? ? Hp Hrest]; subst. cbn [fold_left]. apply IH; [|exact Hrest].
  destruct (poll_cases p cli) as [[_ Hcase]|[Hbusy _]]; [|contradiction].
  rewrite Hstart in Hcase. tauto.
Qed.

(** X25.  The no-orders exit is earned.  Starting with the timer off,
    the CLI's test answers true at a poll only if that poll and an unbroken
    run of polls before it all found the manager without pending orders,
    the first of them at least [no_orders_timeout] seconds earlier; and
    when every poll so far has found the manager without pending orders,
    the test answers true exactly when the first poll is that long ago. *)
Theorem no_orders_exit_is_earned (cli : t) :
  no_orders_start_time cli = None ->
  (forall history p,
     fst (poll p (polled history cli)) = true ->
     exists before first quiet,
       history = before ++ first :: quiet /\
       Forall (fun q => idle_manager (snd q)) (first :: quiet ++ [p]) /\
       no_orders_timeout cli <= fst p - fst first) /\
  (forall first quiet p,
     Forall (fun q => idle_manager (snd q)) (first :: quiet ++ [p]) ->
     fst (poll p (polled (first :: quiet) cli)) = true <->
     no_orders_timeout cli <= fst p - fst first).
Proof.
  intros Hnone. split.
  - intros history p Htrue.
    destruct (poll_cases p (polled history cli)) as [[Hidle Hcase]|(_ & Hfalse & _)];
      [|congruence].
    destruct (no_orders_start_time (polled history cli)) as [start|] eqn:E;
      [|destruct Hcase; congruence].
    destruct Hcase as [_ Hiff]. rewrite polled_timeout in Hiff.
    destruct (polled_streak history cli start Hnone E)
      as (before & first & quiet & -> & Hfirst & Hall).
    exists before, first, quiet. split; [reflexivity|]. split.
    + rewrite app_comm_cons. apply List.Forall_app. split; [exact Hall|].
      constructor; [exact Hidle|constructor].
    + rewrite Hfirst. apply Hiff, Htrue.
  - intros first quiet p Hall.
    rewrite app_comm_cons in Hall. apply List.Forall_app in Hall. destruct Hall as [Hall Hp].
    inversion Hall as [|? ? Hfirst Hquiet]; subst.
    inversion Hp as [|? ? Hidle _]; subst.
    assert (Hstart : no_orders_start_time (polled (first :: quiet) cli) = Some (fst first)).
    { change (polled (first :: quiet) cli) with (polled quiet (snd (poll first cli))).
      apply polled_idle; [|exact Hquiet].
      destruct (poll_cases first cli) as [[_ Hcase]|[Hbusy _]]; [|contradiction].
      rewrite Hnone in Hcase. tauto. }
    destruct (poll_cases p (polled (first :: quiet) cli)) as [[_ Hcase]|[Hbusy _]];
      [|contradiction].
    rewrite Hstart in Hcase. destruct Hcase as [_ Hiff].
    rewrite polled_timeout in Hiff. exact Hiff.
Qed.

(** Three polls of a manager that never has a pending order, at 0, 3 and
    6 seconds: the third one ends the run. *)
Lemma no_orders_exit_is_earned_witness :
  let m := OrderManager.__init__ 0 Sample.obliging Sample.config in
  fst (poll (6, m) (polled [(0, m); (3, m)] __init__)) = true.
Proof.
  intros m.
  apply (proj2 (no_orders_exit_is_earned __init__ eq_refl) (0, m) [(3, m)] (6, m)).
  - repeat apply List.Forall_cons; try reflexivity. apply List.Forall_nil.
  - vm_compute. discriminate.
Defined.

End NoOrdersTimer.

(** ** MarketDataStream: reading the stored books *)

Section MarketDataStreamReads.
Import MarketDataStream.

Variable float_of_str : string -> option Q.

(** A handler that emits a snapshot has stored the book it took it
    from. *)
Lemma handle_stores now msg self md :
  snd (handle float_of_str now msg self) = Emitted md ->
  exists b,
    order_books (fst (handle float_of_str now msg self)) !! asset_id md = Some b /\
    publish float_of_str now (asset_id md) b = Emitted md.
Proof.
  unfold handle.
  destruct (String.eqb (event_type msg) "book").
  - unfold _handle_book_update.
    destruct (msg_asset_id msg) as [asset|]; [|discriminate].
    destruct (truthy (Some asset)); [|discriminate]. cbn [fst snd order_books].
    intros H. pose proof (publish_emitted _ _ _ _ _ H) as [<- _].
    eexists. split; [apply lookup_insert_eq|exact H].
  - destruct (String.eqb (event_type msg) "price_change"); [|discriminate].
    unfold _handle_price_change.
    destruct (msg_asset_id msg) as [asset|]; [|discriminate].
    destruct (truthy (Some asset)); [|discriminate].
    destruct (order_books self !! asset) as [b|]; [|discriminate].
    destruct (apply_changes _ _ b) as [b'|b']; [|discriminate]. cbn [fst snd order_books].
    intros H. pose proof (publish_emitted _ _ _ _ _ H) as [<- _].
    eexists. split; [apply lookup_insert_eq|exact H].
Qed.

Lemma last_level_rev levels l :
  last_level levels = Some l -> exists rest, rev levels = l :: rest.
Proof.
  unfold last_level. destruct (rev levels) as [|x rest]; [discriminate|].
  intros H. inversion H; subst. eauto.
Qed.

(** What a snapshot says is what the accessors read. *)
Lemma publish_reads now asset b md :
  publish float_of_str now asset b = Emitted md ->
  best_price float_of_str (side_or_empty (bids b)) = Some (Some (top_bid md)) /\
  best_price float_of_str (side_or_empty (asks b)) = Some (Some (top_ask md)) /\
  price_size_pairs float_of_str (slice_to 1 (rev (side_or_empty (bids b))))
  = Some [(top_bid md, bid_size md)] /\
  price_size_pairs float_of_str (slice_to 1 (rev (side_or_empty (asks b))))
  = Some [(top_ask md, ask_size md)].
Proof.
  unfold publish.
  destruct (side_or_empty (bids b)) as [|bl bs] eqn:Eb; [discriminate|].
  destruct (side_or_empty (asks b)) as [|al als] eqn:Ea; [discriminate|].
  unfold snapshot, best_price.
  destruct (last_level (bl :: bs)) as [lb|] eqn:Elb; [|discriminate].
  destruct (last_level (al :: als)) as [la|] eqn:Ela; [|discriminate].
  destruct (last_level_rev _ _ Elb) as [rb Hrb].
  destruct (last_level_rev _ _ Ela) as [ra Hra].
  rewrite Hrb, Hra.
  destruct (float float_of_str (lv_price lb)) as [pb|] eqn:E1; [|discriminate].
  destruct (float float_of_str (lv_price la)) as [pa|] eqn:E2; [|discriminate].
  destruct (float float_of_str (lv_size lb)) as [sb|] eqn:E3; [|discriminate].
  destruct (float float_of_str (lv_size la)) as [sa|] eqn:E4; [|discriminate].
  intros H. inversion H; subst md. cbn.
  change (Z.to_nat 1) with 1%nat. cbn.
  rewrite ?E1, ?E2, ?E3, ?E4. auto.
Qed.

(** X26.  The accessors agree with the feed.  Right after a handler has
    emitted a snapshot, [get_top_of_book] for that instrument returns the
    bid and the ask of the snapshot, and [get_order_book_depth] with one
    level returns its bid and its ask with their sizes; for an instrument
    without a stored book the first returns [(None, None)] and the second
    two empty lists, whatever the number of levels asked for. *)
Theorem accessors_agree_with_feed :
  (forall now msg self md,
     snd (handle float_of_str now msg self) = Emitted md ->
     let self' := fst (handle float_of_str now msg self) in
     get_top_of_book float_of_str (asset_id md) self'
     = Some (Some (top_bid md), Some (top_ask md)) /\
     get_order_book_depth float_of_str (asset_id md) 1 self'
     = Some ([(top_bid md, bid_size md)], [(top_ask md, ask_size md)])) /\
  (forall asset levels self,
     order_books self !! asset = None ->
     get_top_of_book float_of_str asset self = Some (None, None) /\
     get_order_book_depth float_of_str asset levels self = Some ([], [])).
Proof.
  split.
  - intros now msg self md Hout self'.
    destruct (handle_stores now msg self md Hout) as (b & Hb & Hpub).
    fold self' in Hb.
    destruct (publish_reads _ _ _ _ Hpub) as (H1 & H2 & H3 & H4).
    unfold get_top_of_book, get_order_book_depth.
    rewrite Hb, H1, H2, H3, H4. auto.
  - intros asset levels self H.
    unfold get_top_of_book, get_order_book_depth. rewrite H. auto.
Qed.

Lemma price_size_pairs_length levels pairs :
  price_size_pairs float_of_str levels = Some pairs -> length pairs = length levels.
Proof.
  revert pairs. induction levels as [|l rest IH]; intros pairs; cbn.
  - intros H. inversion H. reflexivity.
  - destruct (float float_of_str (lv_price l)); [|discriminate].
    destruct (float float_of_str (lv_size l)); [|discriminate].
    destruct (price_size_pairs float_of_str rest) as [ps|]; [|discriminate].
    intros H. inversion H. cbn. rewrite (IH ps eq_refl). reflexivity.
Qed.

Lemma slice_to_length {A} (n : Z) (xs : list A) :
  length (slice_to n xs)
  = if (0 <=? n)%Z then Nat.min (Z.to_nat n) (length xs)
    else (length xs - Z.to_nat (- n))%nat.
Proof.
  unfold slice_to. destruct (0 <=? n)%Z; rewrite length_firstn; lia.
Qed.

Lemma price_size_pairs_head levels pairs l rest :
  price_size_pairs float_of_str levels = Some pairs ->
  levels = l :: rest ->
  exists p sz more, pairs = (p, sz) :: more /\ float float_of_str (lv_price l) = Some p.
Proof.
  intros H ->. cbn in H.
  destruct (float float_of_str (lv_price l)) as [p|]; [|discriminate].
  destruct (float float_of_str (lv_size l)) as [sz|]; [|discriminate].
  destruct (price_size_pairs float_of_str rest) as [ps|]; [|discriminate].
  inversion H. eauto.
Qed.

Lemma slice_to_head {A} (n : Z) (x : A) xs :
  (0 < n)%Z -> exists rest, slice_to n (x :: xs) = x :: rest.
Proof.
  intros Hn. unfold slice_to.
  destruct (0 <=? n)%Z eqn:E; [|apply Z.leb_gt in E; lia].
  destruct (Z.to_nat n) as [|k] eqn:Ek; [lia|]. cbn. eauto.
Qed.

(** The best price of a side, read off the head of its depth list. *)
Lemma depth_head levels (n : Z) pairs :
  (0 < n)%Z ->
  price_size_pairs float_of_str (slice_to n (rev levels)) = Some pairs ->
  best_price float_of_str levels = Some (option_map fst (head pairs)).
Proof.
  intros Hn Hpairs. unfold best_price, last_level.
  destruct (rev levels) as [|l rest] eqn:Erev.
  - unfold slice_to in Hpairs. rewrite !firstn_nil in Hpairs.
    destruct (0 <=? n)%Z; cbn in Hpairs; inversion Hpairs; reflexivity.
  - destruct (slice_to_head n l rest Hn) as [more Hslice].
    destruct (price_size_pairs_head _ _ _ _ Hpairs Hslice) as (p & sz & ps & -> & Hp).
    rewrite Hp. reflexivity.
Qed.

(** X27.  The depth of the book, best levels first.  Whenever
    [get_order_book_depth] returns, each of its two lists holds as many
    levels as were asked for, or the whole side if that is shorter; a
    negative number of levels does not raise, it drops that many levels
    from the far end of each side; and for a positive number of levels the
    first entry of each list carries the price [get_top_of_book] reports
    for that side, which then returns too. *)
Theorem order_book_depth_spec (asset : string) (levels : Z) (self : t)
    (b : book) (bid_pairs ask_pairs : list (Q * Q)) :
  order_books self !! asset = Some b ->
  get_order_book_depth float_of_str asset levels self = Some (bid_pairs, ask_pairs) ->
  ((0 <= levels)%Z ->
   length bid_pairs = Nat.min (Z.to_nat levels) (length (side_or_empty (bids b))) /\
   length ask_pairs = Nat.min (Z.to_nat levels) (length (side_or_empty (asks b)))) /\
  ((levels < 0)%Z ->
   length bid_pairs = (length (side_or_empty (bids b)) - Z.to_nat (- levels))%nat /\
   length ask_pairs = (length (side_or_empty (asks b)) - Z.to_nat (- levels))%nat) /\
  ((0 < levels)%Z ->
   get_top_of_book float_of_str asset self
   = Some (option_map fst (head bid_pairs), option_map fst (head ask_pairs))).
Proof.
  intros Hb. unfold get_order_book_depth, get_top_of_book. rewrite Hb. cbv zeta.
  destruct (price_size_pairs float_of_str (slice_to levels (rev (side_or_empty (bids b)))))
    as [bp|] eqn:Ebp; [|discriminate].
  destruct (price_size_pairs float_of_str (slice_to levels (rev (side_or_empty (asks b)))))
    as [ap|] eqn:Eap; [|discriminate].
  intros H. inversion H; subst bp ap.
  pose proof (price_size_pairs_length _ _ Ebp) as Lb.
  pose proof (price_size_pairs_length _ _ Eap) as La.
  rewrite slice_to_length, length_rev in Lb, La.
  split; [|split].
  - intros Hn. apply Z.leb_le in Hn. rewrite Hn in Lb, La. auto.
  - intros Hn. apply Z.leb_gt in Hn. rewrite Hn in Lb, La. auto.
  - intros Hn.
    rewrite (depth_head _ _ _ Hn Ebp), (depth_head _ _ _ Hn Eap). reflexivity.
Qed.

End MarketDataStreamReads.

Section MarketDataStreamReadsExamples.
Import MarketDataStream.

(** A book of two bids and one ask, asked for five levels and for one
    level fewer than it has. *)
Lemma order_book_depth_spec_witness :
  let self := fst (handle Sample.decimal 0 Sample.deep_book Sample.empty_stream) in
  get_top_of_book Sample.decimal "token" self = Some (Some (50 # 100), Some (52 # 100)) /\
  get_order_book_depth Sample.decimal "token" (-1) self = Some ([(50 # 100, 100)], []).
Proof.
  intros self. split; [|reflexivity].
  refine (proj2 (proj2 (order_book_depth_spec Sample.decimal "token" 5 self _
                          [(50 # 100, 100); (49 # 100, 70)] [(52 # 100, 80)] _ _)) _);
    [reflexivity|reflexivity|reflexivity].
Defined.

End MarketDataStreamReadsExamples.

(** ** MarketDataStream: price changes keep the best level last *)

Section MarketDataStreamOrder.
Import MarketDataStream.

Variable float_of_str : string -> option Q.

Lemma before_true is_bids p q :
  before is_bids p q = true -> at_least_as_good is_bids p q.
Proof. destruct is_bids; cbn; intros H; apply Qle_bool_iff, H. Qed.

Lemma before_false is_bids p q :
  before is_bids p q = false -> at_least_as_good is_bids q p.
Proof.
  destruct is_bids; cbn; intros H; apply Qle_bool_false in H; apply Qlt_le_weak, H.
Qed.

Lemma at_least_as_good_trans is_bids p q r :
  at_least_as_good is_bids p q -> at_least_as_good is_bids q r ->
  at_least_as_good is_bids p r.
Proof. destruct is_bids; cbn; intros; eapply Qle_trans; eassumption. Qed.

Lemma keyed_keys_read levels : forall ks,
  keyed float_of_str levels = Some ks -> keys_read float_of_str ks /\ map snd ks = levels.
Proof.
  induction levels as [|l rest IH]; intros ks; cbn.
  - intros H. inversion H. split; [constructor|reflexivity].
  - destruct (float float_of_str (lv_price l)) as [k|] eqn:E; [|discriminate].
    destruct (keyed float_of_str rest) as [ks'|]; [|discriminate].
    intros H. inversion H; subst ks. destruct (IH ks' eq_refl) as [H1 H2].
    split; [constructor; [exact E|exact H1]|]. cbn. rewrite H2. reflexivity.
Qed.

Lemma keys_read_keyed ks : keys_read float_of_str ks -> keyed float_of_str (map snd ks) = Some ks.
Proof.
  induction ks as [|[k l] ks IH]; intros H; [reflexivity|].
  inversion H as [|? ? Hk Hks]; subst. cbn in *. rewrite Hk, (IH Hks). reflexivity.
Qed.

Lemma insert_by_in is_bids x ks y :
  In y (insert_by (before is_bids) x ks) <-> y = x \/ In y ks.
Proof.
  induction ks as [|z ks IH]; cbn.
  - intuition.
  - destruct ((before is_bids) (fst x) (fst z)); cbn; [intuition|].
    rewrite IH. intuition.
Qed.

Lemma insert_by_keys_read is_bids x ks :
  float float_of_str (lv_price (snd x)) = Some (fst x) -> keys_read float_of_str ks ->
  keys_read float_of_str (insert_by (before is_bids) x ks).
Proof.
  intros Hx Hks. unfold keys_read in *. rewrite List.Forall_forall in *.
  intros y Hy. apply insert_by_in in Hy. destruct Hy as [->|Hy]; auto.
Qed.

Lemma insert_by_sorted is_bids x ks :
  StronglySorted (at_least_as_good is_bids) (map fst ks) ->
  StronglySorted (at_least_as_good is_bids) (map fst (insert_by (before is_bids) x ks)).
Proof.
  induction ks as [|z ks IH]; intros Hs; cbn.
  - constructor; constructor.
  - apply StronglySorted_inv in Hs. destruct Hs as [Hs Hz].
    destruct ((before is_bids) (fst x) (fst z)) eqn:E; cbn.
    + constructor; [constructor; assumption|].
      apply before_true in E.
      constructor; [exact E|].
      eapply List.Forall_impl; [|exact Hz].
      intros q Hq. eapply at_least_as_good_trans; eassumption.
    + constructor; [apply IH, Hs|].
      apply before_false in E.
      rewrite List.Forall_forall in *. intros q Hq.
      apply in_map_iff in Hq. destruct Hq as (y & <- & Hy).
      apply insert_by_in in Hy. destruct Hy as [->|Hy]; [exact E|].
      apply Hz, in_map, Hy.
Qed.

Lemma sort_by_sorted is_bids ks :
  keys_read float_of_str ks ->
  keys_read float_of_str (sort_by (before is_bids) ks) /\
  StronglySorted (at_least_as_good is_bids) (map fst (sort_by (before is_bids) ks)).
Proof.
  unfold sort_by. induction ks as [|x ks IH]; intros H; cbn.
  - split; constructor.
  - inversion H as [|? ? Hx Hks]; subst. destruct (IH Hks) as [IH1 IH2].
    split; [apply insert_by_keys_read|apply insert_by_sorted]; assumption.
Qed.

Lemma sort_side_best_last is_bids levels sorted :
  sort_side float_of_str is_bids levels = Some sorted ->
  best_last float_of_str is_bids sorted.
Proof.
  unfold sort_side.
  change (if is_bids then Qle_bool else fun a b : Q => Qle_bool b a) with (before is_bids).
  destruct (keyed float_of_str levels) as [ks|] eqn:E; [|discriminate].
  intros H. inversion H; subst sorted.
  destruct (keyed_keys_read _ _ E) as [Hread _].
  destruct (sort_by_sorted is_bids ks Hread) as [H1 H2].
  eexists. split; [apply keys_read_keyed, H1|exact H2].
Qed.

(** A level found by its price is dropped or resized where it stands. *)
Lemma update_found_best_last is_bids price size levels : forall levels',
  update_found float_of_str price size levels = Some (Some levels') ->
  best_last float_of_str is_bids levels -> best_last float_of_str is_bids levels'.
Proof.
  induction levels as [|l rest IH]; intros levels'; cbn; [discriminate|].
  intros H (ks & Hks & Hs).
  cbn in Hks.
  destruct (float float_of_str (lv_price l)) as [k|] eqn:Ek; [|discriminate].
  destruct (keyed float_of_str rest) as [ks'|] eqn:Eks; [|discriminate].
  inversion Hks; subst ks. cbn in Hs. apply StronglySorted_inv in Hs. destruct Hs as [Hs Hk].
  destruct (json_eqb (lv_price l) price).
  - destruct (float float_of_str size) as [q|]; [|discriminate].
    destruct (Qeq_bool q 0); inversion H; subst levels'.
    + exists ks'. auto.
    + exists ((k, {| lv_price := lv_price l; lv_size := size |}) :: ks').
      cbn. rewrite Ek, Eks. split; [reflexivity|]. constructor; assumption.
  - destruct (update_found float_of_str price size rest) as [[rest'|]|] eqn:Eu;
      try discriminate.
    inversion H; subst levels'.
    destruct (IH rest' eq_refl) as (ks1 & Hks1 & Hs1); [exists ks'; auto|].
    exists ((k, l) :: ks1). cbn. rewrite Ek, Hks1. split; [reflexivity|].
    constructor; [exact Hs1|].
    (* the keys of the rest after the change are among those before *)
    assert (Hsub : forall levels0 levels1 ks0 ks2,
               update_found float_of_str price size levels0 = Some (Some levels1) ->
               keyed float_of_str levels0 = Some ks0 ->
               keyed float_of_str levels1 = Some ks2 ->
               forall q, In q (map fst ks2) -> In q (map fst ks0)).
    { clear. induction levels0 as [|l0 rest0 IH0]; intros levels1 ks0 ks2; cbn;
        [discriminate|].
      destruct (float float_of_str (lv_price l0)) as [k0|] eqn:Ek0; [|discriminate].
      destruct (keyed float_of_str rest0) as [kr|] eqn:Ekr; [|discriminate].
      intros Hu H0 H2. inversion H0; subst ks0.
      destruct (json_eqb (lv_price l0) price).
      - destruct (float float_of_str size) as [q0|]; [|discriminate].
        destruct (Qeq_bool q0 0); inversion Hu; subst levels1.
        + rewrite Ekr in H2. inversion H2; subst. intros q Hq. right. exact Hq.
        + cbn in H2. rewrite Ek0, Ekr in H2. inversion H2; subst. auto.
      - destruct (update_found float_of_str price size rest0) as [[r1|]|] eqn:Eu0;
          try discriminate.
        inversion Hu; subst levels1. cbn in H2. rewrite Ek0 in H2.
        destruct (keyed float_of_str r1) as [k1|] eqn:Ek1; [|discriminate].
        inversion H2; subst ks2. cbn. intros q [Hq|Hq]; [auto|].
        right. eapply IH0; eauto. }
    rewrite List.Forall_forall in *. intros q Hq.
    apply Hk. eapply Hsub; eauto.
Qed.

Lemma apply_to_side_best_last is_bids price size levels levels' :
  apply_to_side float_of_str is_bids price size levels = inl levels' ->
  best_last float_of_str is_bids levels -> best_last float_of_str is_bids levels'.
Proof.
  unfold apply_to_side.
  destruct (update_found float_of_str price size levels) as [[found|]|] eqn:Eu.
  - intros H. inversion H; subst. eapply update_found_best_last; eassumption.
  - discriminate.
  - destruct (float float_of_str size) as [q|]; [|discriminate].
    destruct (Py.Qltb 0 q).
    + destruct (sort_side float_of_str is_bids _) as [sorted|] eqn:Es; [|discriminate].
      intros H _. inversion H; subst. eapply sort_side_best_last; eassumption.
    + intros H. inversion H; subst. auto.
Qed.

Lemma apply_change_best_last c b b' :
  apply_change float_of_str c b = inl b' ->
  book_best_last float_of_str b -> book_best_last float_of_str b'.
Proof.
  unfold apply_change, book_best_last.
  destruct (negb _); [intros H; inversion H; subst; auto|].
  destruct (json_eqb (ch_side c) (JStr "BUY")).
  - destruct (bids b) as [levels|] eqn:Eb; [|intros H; inversion H; subst; rewrite Eb; auto].
    destruct (apply_to_side float_of_str true _ _ levels) as [levels'|levels'] eqn:Ea;
      [|discriminate].
    intros H [Hb Ha]. inversion H; subst b'. cbn.
    split; [|exact Ha]. eapply apply_to_side_best_last; eassumption.
  - destruct (asks b) as [levels|] eqn:Eb; [|intros H; inversion H; subst; rewrite Eb; auto].
    destruct (apply_to_side float_of_str false _ _ levels) as [levels'|levels'] eqn:Ea;
      [|discriminate].
    intros H [Hb Ha]. inversion H; subst b'. cbn.
    split; [exact Hb|]. eapply apply_to_side_best_last; eassumption.
Qed.

Lemma apply_changes_best_last changes : forall b b',
  apply_changes float_of_str changes b = inl b' ->
  book_best_last float_of_str b -> book_best_last float_of_str b'.
Proof.
  induction changes as [|c rest IH]; intros b b'; cbn.
  - intros H. inversion H; subst. auto.
  - destruct (apply_change float_of_str c b) as [b1|b1] eqn:E; [|discriminate].
    intros H Hb. eapply IH; [exact H|]. eapply apply_change_best_last; eassumption.
Qed.

Lemma sorted_last_tops is_bids l q front : forall ks,
  keyed float_of_str (front ++ [l]) = Some ks ->
  StronglySorted (at_least_as_good is_bids) (map fst ks) ->
  float float_of_str (lv_price l) = Some q ->
  tops float_of_str is_bids q (front ++ [l]).
Proof.
  unfold tops.
  induction front as [|x front IH]; intros ks Hks Hs Hq.
  - cbn. constructor; [|constructor]. intros q' Hq'. rewrite Hq in Hq'. inversion Hq'; subst.
    destruct is_bids; cbn; apply Qle_refl.
  - cbn in Hks.
    destruct (float float_of_str (lv_price x)) as [k|] eqn:Ek; [|discriminate].
    destruct (keyed float_of_str (front ++ [l])) as [ks'|] eqn:Eks; [|discriminate].
    inversion Hks; subst ks. cbn in Hs. apply StronglySorted_inv in Hs.
    destruct Hs as [Hs Hk].
    destruct (keyed_keys_read _ _ Eks) as [Hread' Hmap'].
    cbn. constructor.
    + intros q' Hq'. rewrite Ek in Hq'. inversion Hq'; subst q'.
      rewrite List.Forall_forall in Hk. apply Hk.
      assert (Hin : In l (map snd ks')).
      { rewrite Hmap'. apply in_or_app. right. left. reflexivity. }
      apply in_map_iff in Hin. destruct Hin as ([k' l'] & Hl' & Hin). cbn in Hl'. subst l'.
      unfold keys_read in Hread'. rewrite List.Forall_forall in Hread'.
      pose proof (Hread' _ Hin) as Hk'. cbn in Hk'. rewrite Hq in Hk'. inversion Hk'; subst k'.
      apply in_map_iff. exists (q, l). auto.
    + eapply IH; eauto.
Qed.

(** On a side kept best level last, the last level tops the side. *)
Lemma best_last_tops is_bids levels l q :
  best_last float_of_str is_bids levels ->
  last_level levels = Some l -> float float_of_str (lv_price l) = Some q ->
  tops float_of_str is_bids q levels.
Proof.
  intros (ks & Hks & Hs) Hlast Hq.
  destruct (last_level_rev _ _ Hlast) as [r Hr].
  assert (Hlv : levels = rev r ++ [l]).
  { rewrite <- (rev_involutive levels), Hr. reflexivity. }
  rewrite Hlv in Hks |- *. eapply sorted_last_tops; eassumption.
Qed.

(** X28.  A book that arrives best level last stays so.  If both sides
    of the stored book of an instrument go from the worst price to the
    best, then after a price-change message that is handled to its end they
    still do; and the snapshot such a message emits shows the highest bid
    and the lowest ask of the stored book. *)
Theorem price_changes_keep_best_last (now : Q) (msg : message) (self : t)
    (asset : string) (b : book) :
  event_type msg = "price_change"%string ->
  msg_asset_id msg = Some asset ->
  order_books self !! asset = Some b ->
  book_best_last float_of_str b ->
  snd (handle float_of_str now msg self) <> Raised ->
  exists b',
    order_books (fst (handle float_of_str now msg self)) !! asset = Some b' /\
    book_best_last float_of_str b' /\
    forall md,
      snd (handle float_of_str now msg self) = Emitted md ->
      tops float_of_str true (top_bid md) (side_or_empty (bids b')) /\
      tops float_of_str false (top_ask md) (side_or_empty (asks b')).
Proof.
  intros Htype Hasset Hb Hsorted.
  unfold handle. rewrite Htype. cbn [String.eqb Ascii.eqb Bool.eqb].
  unfold _handle_price_change. rewrite Hasset.
  destruct (truthy (Some asset)).
  2: { cbn. intros _. exists b. split; [exact Hb|]. split; [exact Hsorted|]. discriminate. }
  rewrite Hb.
  destruct (apply_changes float_of_str (msg_changes msg) b) as [b'|b'] eqn:Ec;
    cbn [fst snd order_books]; [|congruence].
  intros _. exists b'. split; [apply lookup_insert_eq|].
  pose proof (apply_changes_best_last _ _ _ Ec Hsorted) as [Hbids Hasks].
  split; [split; assumption|].
  intros md Hmd. unfold publish in Hmd.
  destruct (side_or_empty (bids b')) as [|bl bs] eqn:Eb; [discriminate|].
  destruct (side_or_empty (asks b')) as [|al als] eqn:Ea; [discriminate|].
  unfold snapshot in Hmd.
  destruct (last_level (bl :: bs)) as [lb|] eqn:Elb; [|discriminate].
  destruct (last_level (al :: als)) as [la|] eqn:Ela; [|discriminate].
  destruct (float float_of_str (lv_price lb)) as [pb|] eqn:E1; [|discriminate].
  destruct (float float_of_str (lv_price la)) as [pa|] eqn:E2; [|discriminate].
  destruct (float float_of_str (lv_size lb)); [|discriminate].
  destruct (float float_of_str (lv_size la)); [|discriminate].
  inversion Hmd; subst md. cbn.
  split; eapply best_last_tops; eassumption.
Qed.

Lemma before_of_good is_bids p q :
  at_least_as_good is_bids p q -> before is_bids p q = true.
Proof. destruct is_bids; cbn; intros H; apply Qle_bool_iff, H. Qed.

Lemma json_eqb_refl v : json_eqb v v = true.
Proof.
  destruct v; cbn; [reflexivity|apply String.eqb_refl|].
  apply Qeq_bool_iff. reflexivity.
Qed.

Lemma update_found_unlisted price size levels :
  unlisted price levels -> update_found float_of_str price size levels = None.
Proof.
  induction levels as [|l rest IH]; intros H; [reflexivity|].
  inversion H as [|? ? Hl Hrest]; subst. cbn. rewrite Hl, (IH Hrest). reflexivity.
Qed.

Lemma keyed_app levels l ks k :
  keyed float_of_str levels = Some ks -> float float_of_str (lv_price l) = Some k ->
  keyed float_of_str (levels ++ [l]) = Some (ks ++ [(k, l)]).
Proof.
  revert ks. induction levels as [|x rest IH]; intros ks; cbn.
  - intros H Hk. inversion H. rewrite Hk. reflexivity.
  - destruct (float float_of_str (lv_price x)) as [kx|]; [|discriminate].
    destruct (keyed float_of_str rest) as [ks'|]; [|discriminate].
    intros H Hk. inversion H; subst ks. rewrite (IH ks' eq_refl Hk). reflexivity.
Qed.

Lemma insert_by_front is_bids y ks :
  Forall (at_least_as_good is_bids (fst y)) (map fst ks) ->
  insert_by (before is_bids) y ks = y :: ks.
Proof.
  destruct ks as [|z ks]; [reflexivity|]. cbn. intros H.
  inversion H as [|? ? Hz _]; subst. rewrite (before_of_good _ _ _ Hz). reflexivity.
Qed.

(** Sorting a side that is in order with one level appended puts the new
    level in, and leaves the others as they stand. *)
Lemma sort_appended is_bids x ks :
  StronglySorted (at_least_as_good is_bids) (map fst ks) ->
  exists front back,
    sort_by (before is_bids) (ks ++ [x]) = front ++ x :: back /\ front ++ back = ks.
Proof.
  unfold sort_by. rewrite fold_right_app. cbn [fold_right insert_by].
  induction ks as [|y ks IH]; intros Hs.
  - exists [], []. auto.
  - cbn in Hs. apply StronglySorted_inv in Hs. destruct Hs as [Hs Hy].
    destruct (IH Hs) as (front & back & HL & Hks).
    cbn [fold_right]. rewrite HL.
    destruct front as [|a front].
    + cbn in Hks. subst back. cbn [app insert_by].
      destruct (before is_bids (fst y) (fst x)).
      * exists [y], ks. auto.
      * exists [], (y :: ks). rewrite (insert_by_front is_bids y ks Hy). auto.
    + exists (y :: a :: front), back. subst ks. cbn [app insert_by].
      cbn in Hy. inversion Hy as [|? ? Ha _]; subst.
      rewrite (before_of_good _ _ _ Ha). auto.
Qed.

Lemma update_found_removes price zero z front l back :
  unlisted price front -> json_eqb (lv_price l) price = true ->
  float float_of_str zero = Some z -> z == 0 ->
  update_found float_of_str price zero (front ++ l :: back) = Some (Some (front ++ back)).
Proof.
  intros Hfront Hl Hz Hz0.
  induction front as [|x front IH]; cbn.
  - rewrite Hl, Hz. apply Qeq_bool_iff in Hz0. rewrite Hz0. reflexivity.
  - inversion Hfront as [|? ? Hx Hrest]; subst. rewrite Hx, (IH Hrest). reflexivity.
Qed.

(** X29.  A level that comes and goes leaves the side as it was.  On a
    side that goes from the worst price to the best, a price change at a
    price not yet listed, with a positive size, adds one level; and a
    price change at the same price with size zero then restores the side
    exactly, level for level. *)
Theorem new_level_round_trip (is_bids : bool) (price size zero : json) (levels : list level)
    (k q z : Q) :
  best_last float_of_str is_bids levels ->
  unlisted price levels ->
  float float_of_str price = Some k ->
  float float_of_str size = Some q -> 0 < q ->
  float float_of_str zero = Some z -> z == 0 ->
  exists added,
    apply_to_side float_of_str is_bids price size levels = inl added /\
    length added = S (length levels) /\
    best_last float_of_str is_bids added /\
    apply_to_side float_of_str is_bids price zero added = inl levels.
Proof.
  intros (ks & Hks & Hs) Hun Hk Hq Hpos Hz Hz0.
  destruct (keyed_keys_read _ _ Hks) as [Hread Hmap].
  set (new := {| lv_price := price; lv_size := size |}).
  pose proof (keyed_app levels new ks k Hks Hk) as Happ.
  destruct (sort_appended is_bids (k, new) ks Hs) as (front & back & Hsort & Hsplit).
  assert (Hside : sort_side float_of_str is_bids (levels ++ [new])
                  = Some (map snd front ++ new :: map snd back)).
  { unfold sort_side. rewrite Happ.
    change (if is_bids then Qle_bool else fun a b : Q => Qle_bool b a) with (before is_bids).
    rewrite Hsort, map_app. reflexivity. }
  assert (Hadd : apply_to_side float_of_str is_bids price size levels
                 = inl (map snd front ++ new :: map snd back)).
  { unfold apply_to_side. rewrite (update_found_unlisted _ _ _ Hun), Hq.
    apply Qltb_true in Hpos. rewrite Hpos. fold new. rewrite Hside. reflexivity. }
  assert (Hlevels : map snd front ++ map snd back = levels).
  { rewrite <- map_app, Hsplit. exact Hmap. }
  exists (map snd front ++ new :: map snd back).
  split; [exact Hadd|]. split; [|split].
  - rewrite <- Hlevels, !length_app. cbn. lia.
  - eapply sort_side_best_last. exact Hside.
  - unfold apply_to_side.
    rewrite (update_found_removes price zero z (map snd front) new (map snd back)).
    + rewrite Hlevels. reflexivity.
    + rewrite <- Hlevels in Hun. unfold unlisted in *.
      apply List.Forall_app in Hun. tauto.
    + apply json_eqb_refl.
    + exact Hz.
    + exact Hz0.
Qed.

End MarketDataStreamOrder.

Section MarketDataStreamOrderExamples.
Import MarketDataStream.

(** A bid at 0.51 joins bids at 0.49 and 0.50: it goes last, and the
    snapshot shows it. *)
Lemma price_changes_keep_best_last_witness :
  let self := fst (handle Sample.decimal 0 Sample.deep_book Sample.empty_stream) in
  let msg := Sample.price_change "BUY" "0.51" "40" in
  exists b',
    order_books (fst (handle Sample.decimal 1 msg self)) !! "token"%string = Some b' /\
    book_best_last Sample.decimal b' /\
    forall md,
      snd (handle Sample.decimal 1 msg self) = Emitted md ->
      tops Sample.decimal true (top_bid md) (side_or_empty (bids b')) /\
      tops Sample.decimal false (top_ask md) (side_or_empty (asks b')).
Proof.
  intros self msg.
  apply (price_changes_keep_best_last Sample.decimal 1 msg self "token"
           {| bids := Some [Sample.lv "0.49" "70"; Sample.lv "0.50" "100"];
              asks := Some [Sample.lv "0.52" "80"] |}).
  - reflexivity.
  - reflexivity.
  - reflexivity.
  - split; (eexists; split; [reflexivity|]);
      repeat (apply SSorted_cons || apply SSorted_nil || apply List.Forall_cons
              || apply List.Forall_nil);
      vm_compute; discriminate.
  - vm_compute. discriminate.
Defined.

Example new_best_bid_goes_last :
  Sample.outcomes [Sample.deep_book; Sample.price_change "BUY" "0.51" "40"]
  = [ Emitted {| asset_id := "token"; top_bid := 50 # 100; top_ask := 52 # 100;
                 bid_size := 100; ask_size := 80; timestamp := 0 |};
      Emitted {| asset_id := "token"; top_bid := 51 # 100; top_ask := 52 # 100;
                 bid_size := 40; ask_size := 80; timestamp := 0 |} ].
Proof. reflexivity. Qed.

(** A bid at 0.495 comes between bids at 0.49 and 0.50, and goes again. *)
Lemma new_level_round_trip_witness :
  let levels := [Sample.lv "0.49" "70"; Sample.lv "0.50" "100"] in
  exists added,
    apply_to_side Sample.decimal true (JStr "0.495") (JStr "40") levels = inl added /\
    length added = S (length levels) /\
    best_last Sample.decimal true added /\
    apply_to_side Sample.decimal true (JStr "0.495") (JStr "0") added = inl levels.
Proof.
  intros levels.
  apply (new_level_round_trip Sample.decimal true (JStr "0.495") (JStr "40") (JStr "0")
           levels (495 # 1000) 40 0).
  - eexists; split; [reflexivity|].
    repeat (apply SSorted_cons || apply SSorted_nil || apply List.Forall_cons
            || apply List.Forall_nil);
      vm_compute; discriminate.
  - apply List.Forall_cons; [reflexivity|].
    apply List.Forall_cons; [reflexivity|]. apply List.Forall_nil.
  - reflexivity.
  - reflexivity.
  - reflexivity.
  - reflexivity.
  - reflexivity.
Defined.

End MarketDataStreamOrderExamples.
